(* ===== verification/_CoqProject ===== *)
-Q . S2P
Prelude.v
GoStrings.v
GoNumbers.v
GoFloat.v
Utf8.v
LogData.v
Host.v
Storage.v
Logger.v
CloudData.v
FlatIndex.v
Sha256.v
Files.v
FilesSpec.v
Mstore.v
Index.v
MstoreSpec.v
Reference.v
FilesRef.v
LogFile.v
MstoreThms.v
Telemetry.v
Cloud.v
CloudSpec.v
KeyManager.v
Commands.v
CommandsThms.v
Tree.v
Content.v
Expiry.v
TreeSpec.v
TreeUpdate.v
TreeDelete.v
TreeThms.v
ContentThms.v
Routes.v
Leaves.v
Wire.v
RoutesThms.v
Database.v
DatabaseThms.v
CloudBatch.v
CloudRetry.v
CloudDrain.v
CloudThms.v
HubMain.v
HubSpec.v
HubThms.v
