(* ===== verification/Prelude.v ===== *)
(** * The BINE hub: a verification library

    The hub of [src/] is a Go program on a device that receives video content from a
    satellite and serves it to phones over HTTP.  This library models its own logic as
    executable Rocq definitions and proves what they promise.

    ** The program

    - The satellite receiver (MStore) stores contents on the disk of the device and
      lists them on a local HTTP service.  [satdata_mstore.go] polls it and keeps a
      flat index of the contents in a bolt database ([filesys/filesys.go], first
      part); for every content that appears or disappears it queues a request in a
      third bucket of that database.
    - [cloudapihandler/api_handler.go] reads that queue in a loop and sends it, in
      batches, to the cloud through the logger ([logger/logger.go]), whose messages
      go to an upstream proxy; a request leaves the queue when its messages were
      acknowledged.  A second loop sends the map of all contents once in a while.
    - [handle_commands.go] receives commands from the proxy; the one that does
      something sets the filters of the receiver, stores them in the configuration and
      queues a report.  [hub.go] restores the filters and loads the public keys at
      the start, and queues a provisioning request.
    - [route_handler.go] and [repository.go] answer HTTP requests: the folder of a
      content from the flat index, and the children of a folder of the hierarchy of
      folders ([filesys/filesys.go], second part) in a binary format.
      [middlewares.go] lets requests pass whose token was signed for a key of the cache
      of [keymanager/keymanager.go].
    - The hierarchy of folders is filled by code that the hub no longer starts; the
      routes still read it.

    ** The files

    - [Prelude]: outcomes of Go calls, the state monad, loops, generic lemmas, tactics.
      [GoStrings], [GoFloat]: the functions of Go's standard library on strings, paths,
      numbers and [float64] that the code uses.
    - [Host]: interfaces of everything that is not under [src/]: bolt, files,
      the network, the clock, the orders of map iteration, [encoding/json] and ini files,
      as type classes with their laws; the state [world] of the process (database, disk,
      trace of past events).  [Reference]: an implementation of each, on which
      the closed examples run.  [Storage]: transactions and [db.Update].
    - [LogData], [Logger]: messages and [Logger.Log].
    - [FlatIndex]: [filesys.go] 1-452, one definition per function.  [Mstore]:
      [satdata_mstore.go] 1-362 with [getDirSizeinMB] and [totalAssetsCount].  [Index]: the
      abstract index, a state machine on two maps.  [MstoreSpec], [MstoreThms]:
      the refinement and the properties of polling.
    - [CloudData], [Cloud]: [api_handler.go].  [CloudSpec]: what a round promises
      about the queue.  [CloudBatch]: a reference definition of batching.
      [CloudDrain]: a round over a working network, and that what it says does not
      depend on the database.  [CloudRetry]: what a failed batch leaves in the queue.  [CloudThms]: the properties.
    - [Commands], [CommandsThms]: [handle_commands.go] and the start of the hub.
      [KeyManager]: the key cache, its loading and the middleware, with their properties.
    - [Tree]: [filesys.go] 454-1144, the hierarchy.  [TreeSpec]: trees of named folders
      and how a database represents one.  [TreeUpdate], [TreeDelete]: updates of
      trees and of databases.  [TreeThms]: the refinements and the other properties.
    - [Routes]: the handlers.  [Wire]: the binary format, with a decoder and
      its round trip.  [RoutesThms]: what a client receives.
    - [Leaves]: [/list/leaves/] and [/download/files], with the rest of [repository.go].
    - [Sha256]: SHA-256, executable, with the test vectors of its standard.  [Files]: the
      checksum and deadline files of [utils.go] and [telemetry_events.go], over an
      interface for writing files.  [FilesSpec]: what they hold; [FilesRef]: the
      in-memory disk with writing.  [Content]: the code that fills the hierarchy
      ([satdata_mstore.go] 364-605, [satdata_noovo.go], [handle_method_calls.go]).
      [Expiry]: the walks of [delete_content.go] and [telemetry_events.go].
      [ContentThms]: their properties.
    - [HubMain]: [main] of [hub.go] from the opened database on, and the hub as a state
      machine: the steps are the start, a round of each goroutine, the arrival and the
      running of a command, and crashes; [HandleApiRequests] takes two steps, reading
      and sending.  [HubSpec]: what a well-typed database is, and that every
      transaction keeps it.  [HubThms]: the properties of the whole.
      [Utf8]: [utf8.ValidString] and the operations on texts that keep it.
    - [LogFile]: the local log file, a component with its own state: [MakeLogger],
      [Log_old] and [Close] over a [bufio.Writer].
    - [Database]: [database.go], the database of an earlier version, over bolt's buckets
      inside buckets.  [DatabaseThms]: their laws with an implementation, and the
      tree of folders that it keeps.
    - [Telemetry]: the periodic messages of [telemetry_events.go] and the mock ones.  [GoNumbers]:
      [FormatInt] and [ParseInt] undo each other.

    ** How Go is modelled

    A call returns, returns an error, panics, or runs out of fuel ([Prelude.outcome]);
    the state survives all four.  Errors are their texts.  A dropped error is
    [ignore!], [if err := f(); ...] is [try!].  A [db.Update] runs its body on
    the transaction and commits, or rolls back.  What the environment answers depends
    on the trace of everything the process did, so that no theorem assumes that two
    calls agree.  Maps are [gmap]s and their iteration order is a parameter.  Integers
    wrap at 64 bits where the code can reach the bound ([wrap64]); times are
    nanoseconds.  A slice index or a type assertion that Go checks is a panic.
    The endless loops are a number of rounds, for every number.

    ** What the theorems show

    - Polling: whatever the environment does, a poll is a sequence of steps of the
      abstract index and keeps its invariant; additions and deletions are complete and
      reported; the failures of single transactions and their lasting effects.
    - The cloud: a request leaves the queue only when all its messages were
      acknowledged; batching equals its reference definition; every round returns, and
      one round over a working network empties the queue, when its numbers and times are
      ones JSON can hold; a failed content message makes the hub repeat the other message.
    - The hierarchy: creating, downloading and deleting folders refine operations on
      trees; lookups are lookups in the tree; what a failing commit can do.
    - The routes: the response decodes to the children of the folder, every request
      is answered, sizes are 64-bit sums, the stored path of a content is served.
    - Commands and keys: a command is reported, with the cases where it is not; the key
      cache is a bounded queue, which holds exactly the newest of the keys on the disk
      after the start; only requests signed for one of its keys pass.
    - The hub as a whole: in every state that is reachable from a fresh database, whatever
      order the goroutines run in, whatever fails and however often the process restarts,
      what is stored is well typed, no loop ends, and the queue can be delivered; and the
      request that is lost when it is queued again while the older one is sent.
    - Contents and files: a satellite folder passes its own check, a folder is deleted
      after its deadline and not before, expiry only removes folders, and why the NOOVO
      download serves a media house once.
    - The log file holds every line in order, until a write fails.  The earlier database:
      adding a folder keeps a tree, erasing one removes its subtree, and what it leaves
      behind makes a later erasing panic.

    ** Fuel

    [GetLeavesList], [DeleteFolder], [RecursiveDeleteFolder] and [doErase] recurse over
    a database that nothing forces to be a tree; their fuel counts levels, and the
    theorems show that the height of the represented tree, plus the root, is enough (for
    [doErase], any ranking of the folders).  [RandStringBytes] draws names
    until one differs from the home node: one is enough when the first differs.  The
    loops that write a response carry fuel of their own, and the theorems show that it is
    never used up; nor is that of the loop that fills the buffer of the log file.

    ** Not modelled

    Console output, and the calls of [Log_old], which no other part reads back, outside
    [LogFile]; the lock of the log file; sleeping; opening the database;
    the mutexes, since the goroutines that run share state only through transactions of
    the database and the key cache, whose calls are steps; gRPC, gin and the JWT library, which are parameters; the
    generated protocol code; the C# proxy and the Python authentication service, which are
    other programs.  The location of a redirect is the argument of gin's [Redirect]: what
    [net/http] makes of it (cleaning, escaping) is not modelled.  [strconv.ParseFloat]
    reads plain decimals only.
    The printing of buckets and folders by code that the hub does not start, which
    panics when the buckets are missing.  Of [hub.go], opening the log and the
    database, the intervals and the web server.  The rounds of the
    goroutines are taken to be atomic, but for [HandleApiRequests]: polling and commands
    only add to the queue, and only polling changes the index.  A file that opens is
    taken to be readable to its end, and a slice of the database that is kept after its
    transaction to keep its bytes. *)

From stdpp Require Export base gmap strings list fin_maps.
From Stdlib Require Export Lia ZArith.


(** ** Outcomes and the state monad of Go code

    A call of a Go function either returns ([Ret]), returns a non-nil [error]
    ([Fail]), panics ([Panic], which unwinds every caller of the program: the
    modelled code never recovers), or, for the recursive procedures over
    unvalidated data, is still running when the fuel of the model is used up
    ([OutOfFuel]).  Errors are the strings their [Error()] method returns. *)

Definition error : Type := string.

Inductive outcome (A : Type) : Type :=
  | Ret (a : A)
  | Fail (e : error)
  | Panic (why : string)
  | OutOfFuel.
Arguments Ret {A} a.
Arguments Fail {A} e.
Arguments Panic {A} why.
Arguments OutOfFuel {A}.

#[export] Instance outcome_eq_dec `{EqDecision A} : EqDecision (outcome A).
Proof. solve_decision. Defined.

(** A computation over the state [W].  The state survives errors and panics:
    what was written to the database before a failure stays written. *)
Definition M (W A : Type) : Type := W -> outcome A * W.

#[export] Instance M_ret {W} : MRet (M W) := fun A a w => (Ret a, w).
#[export] Instance M_bind {W} : MBind (M W) := fun A B f m w =>
  match m w with
  | (Ret a, w') => f a w'
  | (Fail e, w') => (Fail e, w')
  | (Panic s, w') => (Panic s, w')
  | (OutOfFuel, w') => (OutOfFuel, w')
  end.

Section Monad.
Context {W : Type}.

(** [return ..., err] *)
Definition fail {A} (e : error) : M W A := fun w => (Fail e, w).
(** a Go run-time panic *)
Definition panic {A} (why : string) : M W A := fun w => (Panic why, w).
Definition out_of_fuel {A} : M W A := fun w => (OutOfFuel, w).
Definition get : M W W := fun w => (Ret w, w).
Definition put (w' : W) : M W unit := fun _ => (Ret tt, w').
Definition gets {A} (f : W -> A) : M W A := fun w => (Ret (f w), w).
Definition modify (f : W -> W) : M W unit := fun w => (Ret tt, f w).

(** [x, err := m]: the error becomes a value that the caller inspects *)
Definition attempt {A} (m : M W A) : M W (error + A) := fun w =>
  match m w with
  | (Ret a, w') => (Ret (inr a), w')
  | (Fail e, w') => (Ret (inl e), w')
  | (Panic s, w') => (Panic s, w')
  | (OutOfFuel, w') => (OutOfFuel, w')
  end.

(** [x, _ := m]: the error is dropped and [x] is Go's zero value *)
Definition ignoring {A} (zero : A) (m : M W A) : M W A :=
  r ← attempt m; mret (match r with inr a => a | inl _ => zero end).

(** [for _, x := range xs { body }] where the body may leave with an error *)
Fixpoint for_each {A} (xs : list A) (body : A -> M W unit) : M W unit :=
  match xs with
  | [] => mret tt
  | x :: xs' => body x;; for_each xs' body
  end.

(** the same loop carrying the locals [s] the body assigns *)
Fixpoint for_fold {A S} (xs : list A) (s : S) (body : S -> A -> M W S) : M W S :=
  match xs with
  | [] => mret s
  | x :: xs' => s' ← body s x; for_fold xs' s' body
  end.

Definition when (b : bool) (m : M W unit) : M W unit := if b then m else mret tt.

End Monad.

Declare Scope go_scope.
Delimit Scope go_scope with go.
Notation "'try!' m" := (attempt m) (at level 20, m at level 19) : go_scope.
Notation "'ignore!' zero 'of' m" := (ignoring zero m)
  (at level 20, zero at level 9, m at level 19) : go_scope.
#[export] Set Warnings "-notation-overridden".
Open Scope go_scope.

(** ** A unary program logic

    [wp m w Q]: running [m] in [w] ends in an outcome and a state that satisfy
    [Q].  It is the tool for invariants, where the exact outcome is irrelevant. *)

Definition wp {W A} (m : M W A) (w : W) (Q : outcome A -> W -> Prop) : Prop :=
  Q (m w).1 (m w).2.

(** Whatever the outcome, [m] preserves [I]. *)
Definition preserves {W A} (I : W -> Prop) (m : M W A) : Prop :=
  forall w, I w -> I (m w).2.

(** [m] preserves [I] and, started in [I], neither panics nor runs out of fuel. *)
Definition is_result {A} (o : outcome A) : Prop :=
  match o with Ret _ | Fail _ => True | Panic _ | OutOfFuel => False end.
Definition safe {W A} (I : W -> Prop) (m : M W A) : Prop :=
  forall w, I w -> I (m w).2 /\ is_result (m w).1.

(** [m], started in [I], returns without an error and preserves [I]. *)
Definition returns {W A} (I : W -> Prop) (m : M W A) : Prop :=
  forall w, I w -> exists a w', m w = (Ret a, w') /\ I w'.

Section Logic.
Context {W : Type}.
Implicit Types I : W -> Prop.

Lemma wp_mono {A} (m : M W A) w (P Q : outcome A -> W -> Prop) :
  wp m w P -> (forall o w', P o w' -> Q o w') -> wp m w Q.
Proof. unfold wp. auto. Qed.

Lemma wp_bind {A B} (m : M W A) (f : A -> M W B) w Q :
  wp m w (fun o w' => match o with
    | Ret a => wp (f a) w' Q
    | Fail e => Q (Fail e) w' | Panic s => Q (Panic s) w' | OutOfFuel => Q OutOfFuel w'
    end) ->
  wp (m ≫= f) w Q.
Proof.
  unfold wp, mbind, M_bind. destruct (m w) as [[] ?]; simpl; auto.
Qed.

Lemma wp_attempt {A} (m : M W A) w Q :
  wp m w (fun o w' => match o with
    | Ret a => Q (Ret (inr a)) w' | Fail e => Q (Ret (inl e)) w'
    | Panic s => Q (Panic s) w' | OutOfFuel => Q OutOfFuel w' end) ->
  wp (attempt m) w Q.
Proof. unfold wp, attempt. by destruct (m w) as [[] ?]. Qed.

Lemma wp_ignoring {A} (z : A) (m : M W A) w Q :
  wp m w (fun o w' => match o with
    | Ret a => Q (Ret a) w' | Fail e => Q (Ret z) w'
    | Panic s => Q (Panic s) w' | OutOfFuel => Q OutOfFuel w' end) ->
  wp (ignoring z m) w Q.
Proof. unfold wp, ignoring, attempt, mbind, M_bind. by destruct (m w) as [[] ?]. Qed.

(** A loop under an invariant [J] of its locals and the state. *)
Lemma wp_for_fold {A S} (J : S -> W -> Prop) (xs : list A) (body : S -> A -> M W S) s w Q :
  J s w ->
  (forall s x w, x ∈ xs -> J s w -> wp (body s x) w (fun o w' => match o with
    | Ret s' => J s' w'
    | Fail e => Q (Fail e) w' | Panic s => Q (Panic s) w' | OutOfFuel => Q OutOfFuel w' end)) ->
  (forall s w, J s w -> Q (Ret s) w) ->
  wp (for_fold xs s body) w Q.
Proof.
  revert s w. induction xs as [|x xs IH]; intros s w Hs Hb HQ; simpl; [by apply HQ|].
  apply wp_bind. eapply wp_mono; [apply Hb; [by left|done]|].
  intros [] w'; try done. intros Hw'. apply IH; [done| |done].
  intros. apply Hb; [by right|done].
Qed.

Lemma preserves_ret I {A} (a : A) : preserves I (mret a : M W A).
Proof. intros w ?; done. Qed.
Lemma preserves_fail I {A} e : preserves I (fail e : M W A).
Proof. intros w ?; done. Qed.
Lemma preserves_panic I {A} s : preserves I (panic s : M W A).
Proof. intros w ?; done. Qed.
Lemma preserves_out_of_fuel I {A} : preserves I (out_of_fuel : M W A).
Proof. intros w ?; done. Qed.
Lemma preserves_gets I {A} (f : W -> A) : preserves I (gets f).
Proof. intros w ?; done. Qed.

Lemma preserves_bind I {A B} (m : M W A) (f : A -> M W B) :
  preserves I m -> (forall a, preserves I (f a)) -> preserves I (m ≫= f).
Proof.
  intros Hm Hf w Hw. specialize (Hm w Hw).
  unfold mbind, M_bind. destruct (m w) as [[] ?]; simpl in *; auto. by apply Hf.
Qed.

Lemma preserves_attempt I {A} (m : M W A) : preserves I m -> preserves I (attempt m).
Proof.
  intros Hm w Hw. specialize (Hm w Hw). unfold attempt.
  destruct (m w) as [[] ?]; done.
Qed.

Lemma preserves_ignoring I {A} (z : A) (m : M W A) :
  preserves I m -> preserves I (ignoring z m).
Proof.
  intros Hm. apply preserves_bind; [by apply preserves_attempt|].
  intros. apply preserves_ret.
Qed.

Lemma preserves_for_each I {A} (xs : list A) (body : A -> M W unit) :
  (forall x, x ∈ xs -> preserves I (body x)) -> preserves I (for_each xs body).
Proof.
  induction xs as [|x xs IH]; intros H; simpl; [apply preserves_ret|].
  apply preserves_bind; [apply H; set_solver|intros _; apply IH; set_solver].
Qed.

Lemma preserves_for_fold I {A S} (xs : list A) (body : S -> A -> M W S) s :
  (forall s x, x ∈ xs -> preserves I (body s x)) -> preserves I (for_fold xs s body).
Proof.
  revert s. induction xs as [|x xs IH]; intros s H; simpl; [apply preserves_ret|].
  apply preserves_bind; [apply H; set_solver|intros ?; apply IH; set_solver].
Qed.

Lemma preserves_when I b (m : M W unit) : preserves I m -> preserves I (when b m).
Proof. destruct b; [done|intros; apply preserves_ret]. Qed.

Lemma safe_preserves I {A} (m : M W A) : safe I m -> preserves I m.
Proof. intros Hm w Hw. by apply Hm. Qed.

Lemma safe_ret I {A} (a : A) : safe I (mret a : M W A).
Proof. by intros w ?. Qed.
Lemma safe_fail I {A} e : safe I (fail e : M W A).
Proof. by intros w ?. Qed.
Lemma safe_gets I {A} (f : W -> A) : safe I (gets f).
Proof. by intros w ?. Qed.

Lemma safe_bind I {A B} (m : M W A) (f : A -> M W B) :
  safe I m -> (forall a, safe I (f a)) -> safe I (m ≫= f).
Proof.
  intros Hm Hf w Hw. specialize (Hm w Hw).
  unfold mbind, M_bind. destruct (m w) as [[] ?]; simpl in *; [apply Hf; tauto|tauto..].
Qed.

Lemma safe_attempt I {A} (m : M W A) : safe I m -> safe I (attempt m).
Proof.
  intros Hm w Hw. specialize (Hm w Hw). unfold attempt.
  destruct (m w) as [[] ?]; simpl in *; tauto.
Qed.

Lemma safe_ignoring I {A} (z : A) (m : M W A) : safe I m -> safe I (ignoring z m).
Proof. intros Hm. apply safe_bind; [by apply safe_attempt|]. intros. apply safe_ret. Qed.

Lemma safe_for_each I {A} (xs : list A) (body : A -> M W unit) :
  (forall x, x ∈ xs -> safe I (body x)) -> safe I (for_each xs body).
Proof.
  induction xs as [|x xs IH]; intros Hx; simpl; [apply safe_ret|].
  apply safe_bind; [apply Hx; set_solver|intros _; apply IH; set_solver].
Qed.

Lemma safe_for_fold I {A S} (xs : list A) (body : S -> A -> M W S) s :
  (forall s x, x ∈ xs -> safe I (body s x)) -> safe I (for_fold xs s body).
Proof.
  revert s. induction xs as [|x xs IH]; intros s Hx; simpl; [apply safe_ret|].
  apply safe_bind; [apply Hx; set_solver|intros ?; apply IH; set_solver].
Qed.

(** What cannot fail returns. *)
Lemma returns_ret I {A} (a : A) : returns I (mret a : M W A).
Proof. intros w Hw. by exists a, w. Qed.
Lemma returns_gets I {A} (f : W -> A) : returns I (gets f).
Proof. intros w Hw. by exists (f w), w. Qed.
Lemma returns_bind I {A B} (m : M W A) (f : A -> M W B) :
  returns I m -> (forall a, returns I (f a)) -> returns I (m ≫= f).
Proof.
  intros Hm Hf w Hw. destruct (Hm w Hw) as (a & w1 & E & Hw1).
  unfold mbind, M_bind. rewrite E. by apply Hf.
Qed.
Lemma returns_attempt I {A} (m : M W A) : safe I m -> returns I (attempt m).
Proof.
  intros Hm w Hw. specialize (Hm w Hw). unfold attempt.
  destruct (m w) as [[] ?]; simpl in *; naive_solver.
Qed.
Lemma returns_ignoring I {A} (z : A) (m : M W A) : safe I m -> returns I (ignoring z m).
Proof. intros Hm. apply returns_bind; [by apply returns_attempt|]. intros. apply returns_ret. Qed.
Lemma returns_for_each I {A} (xs : list A) (body : A -> M W unit) :
  (forall x, x ∈ xs -> returns I (body x)) -> returns I (for_each xs body).
Proof.
  induction xs as [|x xs IH]; intros Hx; simpl; [apply returns_ret|].
  apply returns_bind; [apply Hx; set_solver|intros _; apply IH; set_solver].
Qed.
Lemma returns_for_fold I {A S} (xs : list A) (body : S -> A -> M W S) s :
  (forall s x, x ∈ xs -> returns I (body s x)) -> returns I (for_fold xs s body).
Proof.
  revert s. induction xs as [|x xs IH]; intros s Hx; simpl; [apply returns_ret|].
  apply returns_bind; [apply Hx; set_solver|intros ?; apply IH; set_solver].
Qed.
Lemma returns_safe I {A} (m : M W A) : returns I m -> safe I m.
Proof. intros Hm w Hw. destruct (Hm w Hw) as (a & w' & -> & ?). done. Qed.

(** Equations of the monad, for symbolic evaluation of handlers. *)
Lemma bind_Ret {A B} (m : M W A) (f : A -> M W B) w a w' :
  m w = (Ret a, w') -> (m ≫= f) w = f a w'.
Proof. unfold mbind, M_bind. by intros ->. Qed.
Lemma bind_Fail {A B} (m : M W A) (f : A -> M W B) w e w' :
  m w = (Fail e, w') -> (m ≫= f) w = (Fail e, w').
Proof. unfold mbind, M_bind. by intros ->. Qed.
Lemma bind_Panic {A B} (m : M W A) (f : A -> M W B) w s w' :
  m w = (Panic s, w') -> (m ≫= f) w = (Panic s, w').
Proof. unfold mbind, M_bind. by intros ->. Qed.
Lemma attempt_Ret {A} (m : M W A) w a w' :
  m w = (Ret a, w') -> attempt m w = (Ret (inr a), w').
Proof. unfold attempt. by intros ->. Qed.
Lemma attempt_Fail {A} (m : M W A) w e w' :
  m w = (Fail e, w') -> attempt m w = (Ret (inl e), w').
Proof. unfold attempt. by intros ->. Qed.
Lemma ignoring_Ret {A} (z : A) (m : M W A) w a w' :
  m w = (Ret a, w') -> ignoring z m w = (Ret a, w').
Proof. unfold ignoring. intros. by erewrite bind_Ret by (by apply attempt_Ret). Qed.
Lemma ignoring_Fail {A} (z : A) (m : M W A) w e w' :
  m w = (Fail e, w') -> ignoring z m w = (Ret z, w').
Proof. unfold ignoring. intros. by erewrite bind_Ret by (by eapply attempt_Fail). Qed.


(** A loop whose body only reads. *)
Lemma for_fold_run {A S} (xs : list A) (body : S -> A -> M W S) (g : S -> A -> S) s w :
  (forall s x, x ∈ xs -> body s x w = (Ret (g s x), w)) ->
  for_fold xs s body w = (Ret (foldl g s xs), w).
Proof.
  revert s. induction xs as [|x xs IH]; intros s Hb; [done|].
  simpl. erewrite bind_Ret by (apply Hb; set_solver). apply IH. set_solver.
Qed.

Lemma bind_assoc {A B C} (m : M W A) (f : A -> M W B) (g : B -> M W C) w :
  ((m ≫= f) ≫= g) w = (m ≫= (fun a => f a ≫= g)) w.
Proof. unfold mbind, M_bind. by destruct (m w) as [[] ?]. Qed.
Lemma bind_mret {A} (m : M W A) w : (m ≫= mret) w = m w.
Proof. unfold mbind, M_bind. by destruct (m w) as [[] ?]. Qed.
Lemma for_fold_app {A S} (l1 l2 : list A) (s : S) (body : S -> A -> M W S) w :
  for_fold (l1 ++ l2) s body w = (for_fold l1 s body ≫= (fun s' => for_fold l2 s' body)) w.
Proof.
  revert s w. induction l1 as [|x l1 IH]; intros s w; simpl; [done|].
  rewrite bind_assoc. unfold mbind, M_bind. destruct (body s x w) as [[] ?]; auto.
Qed.
Lemma bind_cong {A B} (m m' : M W A) (f g : A -> M W B) w :
  m w = m' w -> (forall a w', m' w = (Ret a, w') -> f a w' = g a w') -> (m ≫= f) w = (m' ≫= g) w.
Proof. intros E Hfg. unfold mbind, M_bind. rewrite E. destruct (m' w) as [[] ?]; auto. Qed.

Lemma bind_ext {A B} (m : M W A) (f g : A -> M W B) w :
  (forall a w', f a w' = g a w') -> (m ≫= f) w = (m ≫= g) w.
Proof. intros Hfg. unfold mbind, M_bind. by destruct (m w) as [[] ?]. Qed.

End Logic.

(** A run by the outcome it has. *)
Lemma run_pair {W A} (m : M W A) w o : (m w).1 = o -> m w = (o, (m w).2).
Proof. destruct (m w). by intros <-. Qed.

(** The components of the pairs of a list. *)
Lemma elem_of_firsts {A B} (l : list (A * B)) a b : (a, b) ∈ l -> a ∈ l.*1.
Proof. intros Hin. exact (list_elem_of_fmap_2 fst l _ Hin). Qed.
Lemma elem_of_seconds {A B} (l : list (A * B)) a b : (a, b) ∈ l -> b ∈ l.*2.
Proof. intros Hin. exact (list_elem_of_fmap_2 snd l _ Hin). Qed.

Create HintDb hub.
#[export] Hint Resolve preserves_ret preserves_fail preserves_panic
  preserves_out_of_fuel preserves_gets preserves_attempt preserves_ignoring
  preserves_when safe_ret safe_fail safe_gets returns_ret returns_gets : hub.

(** Decompose a computation down to its primitive effects. *)
Ltac preserve_step :=
  match goal with
  | |- preserves _ (mbind _ _) => apply preserves_bind; [|intros ?]
  | |- preserves _ (for_each _ _) => apply preserves_for_each; intros ? ?
  | |- preserves _ (for_fold _ _ _) => apply preserves_for_fold; intros ? ? ?
  | |- preserves _ (attempt _) => apply preserves_attempt
  | |- preserves _ (ignoring _ _) => apply preserves_ignoring
  | |- preserves _ (when _ _) => apply preserves_when
  | |- preserves _ (match ?x with _ => _ end) => destruct x eqn:?
  | |- preserves _ (let _ := _ in _) => cbv zeta
  | |- preserves _ _ => solve [eauto with hub]
  end.
Ltac preserve := repeat preserve_step.

(** The same for [safe]. *)
Ltac safe_step :=
  match goal with
  | |- safe _ (mbind _ _) => apply safe_bind; [|intros ?]
  | |- safe _ (for_each _ _) => apply safe_for_each; intros ? ?
  | |- safe _ (for_fold _ _ _) => apply safe_for_fold; intros ? ? ?
  | |- safe _ (attempt _) => apply safe_attempt
  | |- safe _ (ignoring _ _) => apply safe_ignoring
  | |- safe _ (match ?x with _ => _ end) => destruct x eqn:?
  | |- safe _ (let _ := _ in _) => cbv zeta
  | |- safe _ _ => solve [eauto with hub]
  end.
Ltac step_safely := repeat safe_step.

(** And for [returns], down to [safe] under [attempt] and [ignoring]. *)
Ltac returns_step :=
  match goal with
  | |- returns _ (mbind _ _) => apply returns_bind; [|intros ?]
  | |- returns _ (for_each _ _) => apply returns_for_each; intros ? ?
  | |- returns _ (for_fold _ _ _) => apply returns_for_fold; intros ? ? ?
  | |- returns _ (attempt _) => apply returns_attempt
  | |- returns _ (ignoring _ _) => apply returns_ignoring
  | |- returns _ (match ?x with _ => _ end) => destruct x eqn:?
  | |- returns _ (let _ := _ in _) => cbv zeta
  | |- returns _ _ => solve [eauto with hub]
  end.
Ltac surely_returns := repeat returns_step; step_safely.

(** Equations between closed terms. *)
Ltac evaluate := vm_compute; reflexivity.
