(* ===== verification/GoStrings.v ===== *)
(** Functions of Go's standard library that the hub calls on byte strings:
    [strings], [path], [path/filepath] and [strconv].  Go strings and [[]byte]
    are both lists of bytes, here [string].  The paths are Unix paths, so
    [path] and [path/filepath] coincide. *)
From S2P Require Import Prelude.
From Stdlib Require Import Ascii DecimalString.

(** ** Byte slices *)

(** [s[:n]] *)
Fixpoint s_take (n : nat) (s : string) : string :=
  match n, s with
  | S n', String a s' => String a (s_take n' s')
  | _, _ => EmptyString
  end.

(** [s[n:]] *)
Fixpoint s_drop (n : nat) (s : string) : string :=
  match n, s with
  | 0, _ => s
  | S n', String _ s' => s_drop n' s'
  | S _, EmptyString => EmptyString
  end.

(** The successive slices [s[i:i+n]] of a loop [for i := 0; i < len(s); i += n].
    The last one is shorter when [n] does not divide [len(s)]. *)
Fixpoint chunks_fuel (fuel n : nat) (s : string) : list string :=
  match fuel with
  | 0 => []
  | S fuel' =>
      match s with
      | EmptyString => []
      | _ => s_take n s :: chunks_fuel fuel' n (s_drop n s)
      end
  end.
Definition chunks (n : nat) (s : string) : list string :=
  chunks_fuel (String.length s) n s.

Definition s_concat (l : list string) : string := foldr String.append EmptyString l.

(** ** [strings] *)

(** [strings.Split(s, "c")] for a one-byte separator: never empty. *)
Fixpoint split_on (c : ascii) (s : string) : list string :=
  match s with
  | EmptyString => [EmptyString]
  | String a s' =>
      if decide (a = c) then EmptyString :: split_on c s'
      else match split_on c s' with
           | [] => [String a EmptyString]
           | h :: t => String a h :: t
           end
  end.

(** [strings.Join(l, sep)] *)
Fixpoint join_with (sep : string) (l : list string) : string :=
  match l with
  | [] => EmptyString
  | [x] => x
  | x :: l' => x +:+ sep +:+ join_with sep l'
  end.

Fixpoint trim_left (c : ascii) (s : string) : string :=
  match s with
  | String a s' => if decide (a = c) then trim_left c s' else s
  | EmptyString => EmptyString
  end.

Fixpoint trim_right (c : ascii) (s : string) : string :=
  match s with
  | EmptyString => EmptyString
  | String a s' =>
      match trim_right c s' with
      | EmptyString => if decide (a = c) then EmptyString else String a EmptyString
      | t => String a t
      end
  end.

(** [strings.Trim(s, "c")] *)
Definition trim_char (c : ascii) (s : string) : string := trim_right c (trim_left c s).

(** [strings.HasPrefix(s, p)] *)
Definition has_prefix (p s : string) : bool := String.prefix p s.

(** [strings.TrimPrefix(s, p)] *)
Definition trim_prefix (p s : string) : string :=
  if has_prefix p s then s_drop (String.length p) s else s.

(** [strings.Replace(s, old, new, 1)]: an empty [old] matches at the start. *)
Fixpoint replace_first (old new s : string) : string :=
  if has_prefix old s then new +:+ s_drop (String.length old) s
  else match s with
       | EmptyString => EmptyString
       | String a s' => String a (replace_first old new s')
       end.

Fixpoint replace_all_fuel (fuel : nat) (old new s : string) : string :=
  match fuel with
  | 0 => s
  | S fuel' =>
      match s with
      | EmptyString => EmptyString
      | String a s' =>
          if has_prefix old s
          then new +:+ replace_all_fuel fuel' old new (s_drop (String.length old) s)
          else String a (replace_all_fuel fuel' old new s')
      end
  end.
(** [strings.ReplaceAll(s, old, new)] for a non-empty [old] *)
Definition replace_all (old new s : string) : string :=
  replace_all_fuel (String.length s) old new s.

(** ** [path] and [path/filepath] *)

Definition slash : ascii := "/"%char.

Fixpoint clean_comps (rooted : bool) (comps acc : list string) : list string :=
  match comps with
  | [] => acc
  | x :: rest =>
      if decide (x = EmptyString) then clean_comps rooted rest acc
      else if decide (x = ".") then clean_comps rooted rest acc
      else if decide (x = "..") then
        match acc with
        | [] => clean_comps rooted rest (if rooted then [] else [".."])
        | y :: acc' =>
            clean_comps rooted rest (if decide (y = "..") then ".." :: acc else acc')
        end
      else clean_comps rooted rest (x :: acc)
  end.

(** [path.Clean] *)
Definition path_clean (p : string) : string :=
  let rooted := has_prefix "/" p in
  let body := join_with "/" (rev (clean_comps rooted (split_on slash p) [])) in
  if rooted then "/" +:+ body
  else if decide (body = EmptyString) then "." else body.

(** [filepath.Join] *)
Fixpoint path_join (l : list string) : string :=
  match l with
  | [] => EmptyString
  | x :: l' => if decide (x = EmptyString) then path_join l'
               else path_clean (join_with "/" l)
  end.

(** the part of a path after its last slash *)
Definition after_last_slash (p : string) : string :=
  List.last (split_on slash p) EmptyString.

(** [filepath.Base] *)
Definition path_base (p : string) : string :=
  if decide (p = EmptyString) then "."
  else let b := after_last_slash (trim_right slash p) in
       if decide (b = EmptyString) then "/" else b.

(** [path.Dir] *)
Definition path_dir (p : string) : string :=
  path_clean (s_take (String.length p - String.length (after_last_slash p)) p).

(** ** Further functions of [strings] and [filepath] *)

(** The length of the white space character ([unicode.IsSpace], in UTF-8) at the
    start of a string, 0 if there is none. *)
Definition space_length (s : string) : nat :=
  match nat_of_ascii <$> String.list_ascii_of_string (s_take 3 s) with
  | a :: l =>
      if decide (a ∈ [9; 10; 11; 12; 13; 32]) then 1
      else
        match a, l with
        | 194, b :: _ => if decide (b = 133 \/ b = 160) then 2 else 0
        | 225, [154; 128] => 3
        | 226, [128; b] => if decide (b <= 138 \/ b = 168 \/ b = 169 \/ b = 175) then
                             if decide (128 <= b) then 3 else 0
                           else 0
        | 226, [129; 159] => 3
        | 227, [128; 128] => 3
        | _, _ => 0
        end
  | [] => 0
  end.

(** [strings.Fields]: the maximal parts without white space *)
Fixpoint fields_from (skip : nat) (field s : string) : list string :=
  let flush := if decide (field = EmptyString) then [] else [field] in
  match s with
  | EmptyString => flush
  | String a s' =>
      match skip with
      | S skip' => fields_from skip' field s'
      | 0 =>
          match space_length s with
          | 0 => fields_from 0 (field +:+ String a EmptyString) s'
          | S n => flush ++ fields_from n EmptyString s'
          end
      end
  end.
Definition fields (s : string) : list string := fields_from 0 EmptyString s.

(** [s] from the first occurrence of [p] on, and [s] up to the end of the last. *)
Fixpoint from_first (p s : string) : option string :=
  if has_prefix p s then Some s
  else match s with EmptyString => None | String _ s' => from_first p s' end.
Fixpoint upto_last (p s : string) : option string :=
  match s with
  | EmptyString => if has_prefix p s then Some EmptyString else None
  | String a s' =>
      match upto_last p s' with
      | Some r => Some (String a r)
      | None => if has_prefix p s then Some p else None
      end
  end.

(** [filepath.Ext]: from the last dot of the last element of the path on *)
Definition path_ext (p : string) : string :=
  match rev (split_on "."%char (default EmptyString (last (split_on slash p)))) with
  | ext :: _ :: _ => "." +:+ ext
  | _ => EmptyString
  end.

(** ** [strconv] *)

(** [strconv.FormatInt(z, 10)], [strconv.Itoa] *)
Definition format_int (z : Z) : string := NilZero.string_of_int (Z.to_int z).

(** The two reasons for which [strconv.ParseInt] refuses its argument. *)
Inductive num_error := ErrSyntax | ErrRange.

Definition digit_of (a : ascii) : option Z :=
  let n := Z.of_N (N_of_ascii a) in
  if decide (48 <= n <= 57)%Z then Some (n - 48)%Z else None.

Fixpoint parse_digits (s : string) (acc : Z) : option Z :=
  match s with
  | EmptyString => Some acc
  | String a s' => d ← digit_of a; parse_digits s' (10 * acc + d)%Z
  end.

(** [strconv.ParseInt(s, 10, bits)]: the value and the error.  A syntax error
    comes with 0 and a range error with the nearest value of the type. *)
Definition parse_int (bits : Z) (s : string) : Z * option num_error :=
  let '(neg, digits) :=
    match s with
    | String "-" s' => (true, s')
    | String "+" s' => (false, s')
    | _ => (false, s)
    end in
  match digits with
  | EmptyString => (0%Z, Some ErrSyntax)
  | _ =>
      match parse_digits digits 0 with
      | None => (0%Z, Some ErrSyntax)
      | Some n =>
          let v := if neg : bool then (- n)%Z else n in
          let lim := (2 ^ (bits - 1))%Z in
          if decide (v < - lim)%Z then ((- lim)%Z, Some ErrRange)
          else if decide (lim - 1 < v)%Z then ((lim - 1)%Z, Some ErrRange)
          else (v, None)
      end
  end.

(** [strconv.ParseBool]: the value and whether the syntax was wrong *)
Definition parse_bool (s : string) : bool * bool :=
  if decide (s ∈ ["1"; "t"; "T"; "true"; "TRUE"; "True"]) then (true, false)
  else if decide (s ∈ ["0"; "f"; "F"; "false"; "FALSE"; "False"]) then (false, false)
  else (false, true).

(** ** Lemmas *)

Lemma s_app_cons a (s t : string) : String a s +:+ t = String a (s +:+ t).
Proof. done. Qed.
Lemma s_app_nil_l (t : string) : EmptyString +:+ t = t.
Proof. done. Qed.

Ltac s_induction s :=
  induction s as [|? s ?]; rewrite ?s_app_cons, ?s_app_nil_l; simpl;
  rewrite ?s_app_cons, ?s_app_nil_l; try done; try congruence.

Lemma s_length_app (s t : string) : String.length (s +:+ t) = String.length s + String.length t.
Proof. s_induction s. Qed.

Lemma s_app_nil_r (s : string) : s +:+ EmptyString = s.
Proof. s_induction s. Qed.

Lemma s_app_assoc (s t u : string) : (s +:+ t) +:+ u = s +:+ t +:+ u.
Proof. s_induction s. Qed.

Lemma s_take_app (s t : string) : s_take (String.length s) (s +:+ t) = s.
Proof. s_induction s. Qed.

Lemma s_drop_app (s t : string) : s_drop (String.length s) (s +:+ t) = t.
Proof. s_induction s. Qed.

Lemma s_take_all (s : string) : s_take (String.length s) s = s.
Proof. rewrite <-(s_app_nil_r s) at 2. apply s_take_app. Qed.

Lemma s_length_concat (l : list string) n :
  Forall (fun s => String.length s = n) l -> String.length (s_concat l) = n * length l.
Proof. induction 1; simpl; [lia|]. rewrite s_length_app. lia. Qed.

Lemma s_concat_app (l k : list string) : s_concat (l ++ k) = s_concat l +:+ s_concat k.
Proof. induction l; simpl; [done|]. by rewrite s_app_assoc, IHl. Qed.

(** A value made of blocks of [n] bytes is cut back into its blocks. *)
Lemma chunks_concat n (l : list string) :
  0 < n -> Forall (fun s => String.length s = n) l -> chunks n (s_concat l) = l.
Proof.
  intros Hn Hl. unfold chunks. rewrite (s_length_concat l n Hl).
  assert (forall fuel, length l <= fuel -> chunks_fuel fuel n (s_concat l) = l) as H.
  { induction Hl as [|s l Hs Hl IH]; intros fuel Hf; [by destruct fuel|].
    destruct fuel as [|fuel]; simpl in *; [lia|].
    destruct (s +:+ s_concat l) as [|a t] eqn:E.
    - apply (f_equal String.length) in E. rewrite s_length_app in E. simpl in E. lia.
    - rewrite <-E, <-Hs, s_take_app, s_drop_app, Hs, IH by lia. done. }
  apply H. nia.
Qed.

Lemma split_on_nonempty c s : split_on c s <> [].
Proof. destruct s; simpl; [done|]. case_decide; [done|]. by destruct (split_on c s). Qed.

Lemma join_with_cons sep x (l : list string) :
  l <> [] -> join_with sep (x :: l) = x +:+ sep +:+ join_with sep l.
Proof. by destruct l. Qed.

(** [strings.Join] undoes [strings.Split]. *)
Lemma join_split c s : join_with (String c EmptyString) (split_on c s) = s.
Proof.
  induction s as [|a s IH]; simpl; [done|].
  pose proof (split_on_nonempty c s) as Hne. case_decide as Ha.
  - subst a. rewrite join_with_cons by done. simpl. by rewrite IH.
  - destruct (split_on c s) as [|h t]; [done|].
    destruct t as [|h' t]; simpl in *; [congruence|].
    rewrite s_app_cons. congruence.
Qed.

Fixpoint no_char (c : ascii) (s : string) : bool :=
  match s with
  | EmptyString => true
  | String a s' => bool_decide (a <> c) && no_char c s'
  end.

Lemma split_on_no_char c s : no_char c s = true -> split_on c s = [s].
Proof.
  induction s as [|a s IH]; simpl; [done|]. intros [Ha Hs]%andb_true_iff.
  apply bool_decide_eq_true in Ha. rewrite decide_False by done. by rewrite IH.
Qed.

Lemma split_on_app c s t :
  no_char c s = true -> split_on c (s +:+ String c t) = s :: split_on c t.
Proof.
  induction s as [|a s IH]; rewrite ?s_app_cons, ?s_app_nil_l; simpl.
  - intros _. by rewrite decide_True.
  - intros [Ha Hs]%andb_true_iff. apply bool_decide_eq_true in Ha.
    rewrite decide_False by done. by rewrite IH.
Qed.

(** [strings.Split] undoes [strings.Join] when no part holds the separator. *)
Lemma split_join c (l : list string) :
  l <> [] -> Forall (fun s => no_char c s = true) l ->
  split_on c (join_with (String c EmptyString) l) = l.
Proof.
  intros Hne Hl. induction Hl as [|x l Hx Hl IH]; [done|].
  destruct l as [|y l]; [by apply split_on_no_char|].
  rewrite join_with_cons by done. change (String c EmptyString +:+ ?x) with (String c x).
  rewrite split_on_app by done. by rewrite IH.
Qed.

(** ** The last component of a path *)

(** A name that [path.Clean] keeps. *)
Definition plain (x : string) : Prop :=
  no_char slash x = true /\ x <> EmptyString /\ x <> "." /\ x <> "..".
(** [x] is the last component of [s]. *)
Definition ends_in (x s : string) : Prop := s = x \/ exists r, s = r +:+ String slash x.

Lemma ends_in_cons a x s : ends_in x s -> ends_in x (String a s) \/ s = x.
Proof. intros [->|[r ->]]; [by right|left]. right. exists (String a r). by rewrite s_app_cons. Qed.
Lemma ends_in_slash x s : ends_in x s -> ends_in x ("/" +:+ s).
Proof.
  intros [->|[r ->]]; right; [by exists EmptyString|exists (String slash r)].
  by rewrite s_app_cons.
Qed.

Lemma split_on_last c s x : no_char c x = true ->
  split_on c (s +:+ String c x) = split_on c s ++ [x].
Proof.
  intros Hx. induction s as [|a s IH]; rewrite ?s_app_cons, ?s_app_nil_l; simpl.
  - rewrite decide_True by done. by rewrite split_on_no_char.
  - rewrite IH. pose proof (split_on_nonempty c s) as Hne. case_decide; [done|].
    by destruct (split_on c s).
Qed.

Lemma ends_in_last x s : no_char slash x = true -> ends_in x s -> last (split_on slash s) = Some x.
Proof.
  intros Hx [->|[r ->]]; [by rewrite split_on_no_char|]. by rewrite split_on_last, last_snoc.
Qed.

Lemma trim_right_id c x : no_char c x = true -> trim_right c x = x.
Proof.
  induction x as [|a x IH]; simpl; [done|]. intros [Ha Hx]%andb_true_iff. apply bool_decide_eq_true in Ha.
  rewrite IH by done. destruct x; [|done]. by rewrite decide_False.
Qed.
Lemma trim_right_app c r x : x <> EmptyString -> no_char c x = true -> trim_right c (r +:+ x) = r +:+ x.
Proof.
  intros Hne Hx. induction r as [|a r IH]; rewrite ?s_app_cons, ?s_app_nil_l; [by apply trim_right_id|].
  simpl. rewrite IH. destruct (r +:+ x) eqn:E; [|done].
  apply (f_equal String.length) in E. rewrite s_length_app in E. destruct x; simpl in E; [done|lia].
Qed.

Lemma trim_left_ends x s : no_char slash x = true -> x <> EmptyString -> ends_in x s -> ends_in x (trim_left slash s).
Proof.
  intros Hx Hne. induction s as [|a s IH]; intros Hs; [done|]. simpl. case_decide as Ha; [|done]. subst a. apply IH.
  destruct Hs as [<-|[r Hr]]; [by apply andb_true_iff in Hx as [Hx%bool_decide_eq_true _]|].
  destruct r as [|b r]; rewrite ?s_app_cons, ?s_app_nil_l in Hr.
  - injection Hr as ->. by left.
  - injection Hr as <- ->. right. by exists r.
Qed.

Lemma trim_ends x s : no_char slash x = true -> x <> EmptyString -> ends_in x s -> ends_in x (trim_char slash s).
Proof.
  intros Hx Hne Hs. apply (trim_left_ends x s Hx Hne) in Hs. unfold trim_char.
  destruct Hs as [->|[r ->]]; [left; by apply trim_right_id|right; exists r].
  change (String slash x) with ("/" +:+ x). rewrite <-s_app_assoc. by apply trim_right_app.
Qed.

Lemma clean_comps_last rooted l acc x : plain x -> clean_comps rooted (l ++ [x]) acc = x :: clean_comps rooted l acc.
Proof.
  intros (Hx & H0 & H1 & H2). revert acc. induction l as [|y l IH]; intros acc; simpl.
  - by rewrite !decide_False.
  - repeat case_decide; try done. destruct acc; [apply IH|]. apply IH.
Qed.

Lemma join_with_last sep l x : l <> [] -> join_with sep (l ++ [x]) = join_with sep l +:+ sep +:+ x.
Proof.
  intros Hne. induction l as [|y l IH]; [done|]. destruct l as [|z l]; [done|].
  change ((y :: z :: l) ++ [x]) with (y :: (z :: l) ++ [x]). rewrite !join_with_cons by done.
  rewrite IH by done. by rewrite !s_app_assoc.
Qed.
Lemma join_ends l x : ends_in x (join_with "/" (l ++ [x])).
Proof.
  destruct l as [|y l]; [by left|]. right. exists (join_with "/" (y :: l)). by rewrite join_with_last.
Qed.

Lemma path_clean_ends x p : plain x -> ends_in x p -> ends_in x (path_clean p).
Proof.
  intros Hx Hp. unfold path_clean.
  assert (exists l, split_on slash p = l ++ [x]) as [l ->].
  { destruct Hp as [->|[r ->]]; [exists []; by apply split_on_no_char, Hx|exists (split_on slash r); by apply split_on_last, Hx]. }
  rewrite clean_comps_last by done. cbn [rev]. set (k := rev _).
  pose proof (join_ends k x) as Hj. destruct (has_prefix "/" p); [by apply ends_in_slash|].
  case_decide as He; [|done]. rewrite He in Hj. destruct Hj as [<-|[r Hr]]; [by destruct Hx as (_ & ? & _)|].
  apply (f_equal String.length) in Hr. rewrite s_length_app in Hr. simpl in Hr. lia.
Qed.

Lemma path_join_ends l x : plain x -> ends_in x (path_join (l ++ [x])).
Proof.
  intros Hx. induction l as [|y l IH]; simpl.
  - rewrite decide_False by apply Hx. apply path_clean_ends; [done|by left].
  - case_decide; [done|]. apply path_clean_ends; [done|]. apply (join_ends (y :: l)).
Qed.

Lemma s_length_drop n s : String.length (s_drop n s) = String.length s - n.
Proof. revert n. induction s as [|a s IH]; intros [|n]; simpl; auto. Qed.
Lemma s_drop_ge n s : String.length s <= n -> s_drop n s = EmptyString.
Proof. revert n. induction s as [|a s IH]; intros [|n]; simpl; intros; [done..|lia|apply IH; lia]. Qed.
Lemma s_take_drop n s : s_take n s +:+ s_drop n s = s.
Proof. revert n. induction s as [|a s IH]; intros [|n]; simpl; [done..|]. rewrite s_app_cons. by rewrite IH. Qed.
Lemma s_length_take n s : String.length (s_take n s) = Nat.min n (String.length s).
Proof. revert n. induction s as [|a s IH]; intros [|n]; simpl; auto. Qed.
