(* ===== verification/GoNumbers.v ===== *)
(** [strconv.FormatInt] and [strconv.ParseInt] undo each other. *)
From S2P Require Import Prelude GoStrings.
From Stdlib Require Import Ascii DecimalFacts DecimalPos DecimalString DecimalZ.

Lemma parse_digits_acc d acc :
  parse_digits (NilEmpty.string_of_uint d) (Zpos acc) = Some (Zpos (Pos.of_uint_acc d acc)).
Proof.
  revert acc. induction d; intros acc; [done|..]; cbn [NilEmpty.string_of_uint parse_digits];
    (etransitivity; [|apply IHd]); unfold mbind, option_bind; simpl; do 2 f_equal; lia.
Qed.
Lemma parse_digits_uint d :
  parse_digits (NilEmpty.string_of_uint d) 0 = Some (Z.of_N (Pos.of_uint d)).
Proof.
  induction d; [done|exact IHd|..]; cbn [NilEmpty.string_of_uint parse_digits Pos.of_uint];
    (etransitivity; [|apply parse_digits_acc]); reflexivity.
Qed.

Lemma to_uint_cons p : exists a s, NilZero.string_of_uint (Pos.to_uint p) = String a s /\ digit_of a <> None /\
  String a s = NilEmpty.string_of_uint (Pos.to_uint p).
Proof.
  pose proof (Unsigned.to_uint_nonnil p) as Hn. destruct (Pos.to_uint p); [done|..];
    (eexists _, _; split; [reflexivity|]; split; [by vm_compute|reflexivity]).
Qed.

Lemma parse_format z : (- 2 ^ 63 <= z < 2 ^ 63)%Z -> parse_int 64 (format_int z) = (z, None).
Proof.
  intros Hz. unfold format_int. destruct z as [|p|p]; [by vm_compute|..]; simpl;
    destruct (to_uint_cons p) as (a & s & Es & Ha & Ee); rewrite Es;
    pose proof (parse_digits_uint (Pos.to_uint p)) as Hp; rewrite <-Ee, Unsigned.of_to in Hp.
  - unfold parse_int. assert (a <> "-"%char /\ a <> "+"%char) as [H1 H2] by (split; intros ->; by apply Ha).
    destruct a as [[] [] [] [] [] [] [] []]; try done; rewrite Hp; cbn [Z.of_N];
      rewrite decide_False by lia; by rewrite decide_False by lia.
  - unfold parse_int. rewrite Hp. cbn [Z.of_N]. rewrite decide_False by lia. by rewrite decide_False by lia.
Qed.

(** *** The text of a number *)

Lemma format_int_inj z z' : format_int z = format_int z' -> z = z'.
Proof.
  assert (forall z, Z.to_int z <> Decimal.Pos Decimal.Nil /\ Z.to_int z <> Decimal.Neg Decimal.Nil) as Hn.
  { intros [|p|p]; simpl; [by split|..]; pose proof (Unsigned.to_uint_nonnil p); by split; [intros [=]|intros [=]]. }
  unfold format_int. intros E%(f_equal NilZero.int_of_string). destruct (Hn z), (Hn z').
  rewrite !NilZero.isi in E by done. injection E as E. by apply to_int_inj.
Qed.
Lemma no_slash_uint d : no_char slash (NilEmpty.string_of_uint d) = true.
Proof. by induction d. Qed.
Lemma format_int_no_slash z : no_char slash (format_int z) = true.
Proof.
  unfold format_int, NilZero.string_of_int, NilZero.string_of_uint.
  destruct (Z.to_int z) as [d|d]; destruct d; simpl; by rewrite ?no_slash_uint.
Qed.

(** *** The length of a number *)

Lemma length_uint d : String.length (NilEmpty.string_of_uint d) = Decimal.nb_digits d.
Proof. induction d; [done|..]; simpl; by rewrite IHd. Qed.
Lemma of_uint_acc_bound d acc :
  (Zpos acc * 10 ^ Z.of_nat (Decimal.nb_digits d) <= Zpos (Pos.of_uint_acc d acc))%Z.
Proof.
  revert acc. induction d; intros acc; [simpl; lia|..];
    cbn [Decimal.nb_digits Pos.of_uint_acc]; rewrite Nat2Z.inj_succ, Z.pow_succ_r by lia;
    (etransitivity; [|apply IHd]); nia.
Qed.
Lemma to_uint_bound p : (10 ^ (Z.of_nat (Decimal.nb_digits (Pos.to_uint p)) - 1) <= Zpos p)%Z.
Proof.
  pose proof (Unsigned.of_to p) as Hp. pose proof (Unsigned.to_of (Pos.to_uint p)) as Hn.
  rewrite Hp in Hn. change (N.to_uint (Npos p)) with (Pos.to_uint p) in Hn.
  pose proof (Unsigned.to_uint_nonzero p) as Hz. pose proof (Unsigned.to_uint_nonnil p) as Hnil.
  destruct (Pos.to_uint p) as [|l|l|l|l|l|l|l|l|l|l]; try done; cbn [Decimal.nb_digits];
    rewrite Nat2Z.inj_succ; replace (Z.succ _ - 1)%Z with (Z.of_nat (Decimal.nb_digits l)) by lia.
  1: { exfalso. assert (l <> Decimal.Nil) as Hl by (by intros ->).
    rewrite unorm_D0 in Hn. pose proof (nb_digits_unorm l Hl) as H. rewrite <-Hn in H. simpl in H. lia. }
  all: cbn [Pos.of_uint] in Hp; injection Hp as <-; (etransitivity; [|apply of_uint_acc_bound]); lia.
Qed.

(** A 64-bit number takes at most 20 bytes. *)
Lemma length_format z : (- 2 ^ 63 <= z < 2 ^ 63)%Z -> String.length (format_int z) <= 20.
Proof.
  intros Hz. assert (forall p, (Zpos p <= 2 ^ 63)%Z -> String.length (NilZero.string_of_uint (Pos.to_uint p)) <= 19) as Hu.
  { intros p Hp. destruct (to_uint_cons p) as (a & s & Es & _ & Ee). rewrite Es, Ee, length_uint.
    pose proof (to_uint_bound p) as Hb. destruct (le_lt_dec (Decimal.nb_digits (Pos.to_uint p)) 19) as [|Hl]; [done|].
    assert (10 ^ 19 <= 10 ^ (Z.of_nat (Decimal.nb_digits (Pos.to_uint p)) - 1))%Z by (apply Z.pow_le_mono_r; lia). lia. }
  unfold format_int. destruct z as [|p|p]; simpl; [lia|..].
  - specialize (Hu p ltac:(lia)). lia.
  - specialize (Hu p ltac:(lia)). lia.
Qed.
