(* ===== verification/GoFloat.v ===== *)
(** [float64]: the operations the hub performs, on Rocq's model of IEEE 754
    binary64 numbers, with [fmt]'s [%f] and [strconv.ParseFloat]. *)
From S2P Require Import Prelude GoStrings.
From Stdlib Require Import Ascii.
From Stdlib Require Export SpecFloat.

Definition float64 : Type := spec_float.
Definition f64_zero : float64 := S754_zero false.
(** [float64(z)] *)
Definition f64_of_Z (z : Z) : float64 := binary_normalize 53 1024 z 0 false.
Definition f64_add : float64 -> float64 -> float64 := SFadd 53 1024.
Definition f64_mul : float64 -> float64 -> float64 := SFmul 53 1024.
Definition f64_div : float64 -> float64 -> float64 := SFdiv 53 1024.

(** [n / d] rounded to the nearest integer, ties to even, for [0 <= n], [0 < d] *)
Definition div_round_even (n d : Z) : Z :=
  let q := (n / d)%Z in
  let r := (n mod d)%Z in
  match (2 * r ?= d)%Z with
  | Lt => q
  | Gt => (q + 1)%Z
  | Eq => if Z.even q then q else (q + 1)%Z
  end.

Fixpoint zeros (n : nat) : string :=
  match n with 0 => EmptyString | S n' => String "0" (zeros n') end.

(** the decimal digits of [z] on at least six places *)
Definition six_digits (z : Z) : string :=
  let s := format_int z in zeros (6 - String.length s) +:+ s.

(** [fmt.Sprintf("%f", x)]: six decimals, correctly rounded. *)
Definition format_f (x : float64) : string :=
  let put (s : bool) (micro : Z) :=
    (if s then "-" else EmptyString) +:+ format_int (micro / 1000000) +:+ "." +:+
    six_digits (micro mod 1000000) in
  match x with
  | S754_zero s => put s 0%Z
  | S754_infinity s => if s then "-Inf" else "+Inf"
  | S754_nan => "NaN"
  | S754_finite s m e =>
      put s (if decide (0 <= e)%Z then (Zpos m * 2 ^ e * 1000000)%Z
             else div_round_even (Zpos m * 1000000) (2 ^ (- e)))
  end.

(** [strconv.ParseFloat(s, 64)] of a plain decimal [digits[.digits]]; the error is
    dropped and other syntaxes read as 0.  Exact up to one rounding when the
    digits form a number below [2^53] with at most 22 decimals. *)
Definition parse_float (s : string) : float64 :=
  let '(neg, body) := match s with
    | String "-" s' => (true, s') | String "+" s' => (false, s') | _ => (false, s) end in
  let signed (f : float64) := if neg : bool then SFopp f else f in
  match split_on "." body with
  | [int] =>
      match parse_digits int 0 with
      | Some n => if decide (int = EmptyString) then f64_zero else signed (f64_of_Z n)
      | None => f64_zero
      end
  | [int; frac] =>
      match parse_digits (int +:+ frac) 0 with
      | Some n =>
          if decide (int +:+ frac = EmptyString) then f64_zero
          else signed (f64_div (f64_of_Z n) (f64_of_Z (10 ^ Z.of_nat (String.length frac))))
      | None => f64_zero
      end
  | _ => f64_zero
  end.
