(* ===== verification/Utf8.v ===== *)
(** Valid UTF-8, as [unicode/utf8] defines it: the strings [encoding/json] holds
    without loss.  The operations of [GoStrings] that build the hub's strings keep
    them valid. *)
From S2P Require Import Prelude GoStrings GoFloat.
From Stdlib Require Import Ascii DecimalString Lia ZifyN ZifyBool.

(** The ranges of the bytes that follow a first byte; none for a byte that cannot
    be first. *)
Definition following (c : N) : option (list (N * N)) :=
  let cont := (128, 191)%N in
  if (c <=? 127)%N then Some []
  else if (c <=? 193)%N then None
  else if (c <=? 223)%N then Some [cont]
  else if (c =? 224)%N then Some [(160, 191)%N; cont]
  else if (c =? 237)%N then Some [(128, 159)%N; cont]
  else if (c <=? 239)%N then Some [cont; cont]
  else if (c =? 240)%N then Some [(144, 191)%N; cont; cont]
  else if (c <=? 243)%N then Some [cont; cont; cont]
  else if (c =? 244)%N then Some [(128, 143)%N; cont; cont]
  else None.

(** [s] continues a character of which bytes in the ranges [l] are missing. *)
Fixpoint utf8_from (l : list (N * N)) (s : string) : bool :=
  match s, l with
  | EmptyString, [] => true
  | EmptyString, _ => false
  | String a s', [] =>
      match following (N_of_ascii a) with Some l' => utf8_from l' s' | None => false end
  | String a s', (lo, hi) :: l' =>
      (lo <=? N_of_ascii a)%N && (N_of_ascii a <=? hi)%N && utf8_from l' s'
  end.
(** [utf8.ValidString] *)
Definition utf8 (s : string) : Prop := utf8_from [] s = true.

#[export] Instance utf8_dec s : Decision (utf8 s).
Proof. unfold utf8. apply _. Defined.

Example utf8_euro : utf8 (String "226" (String "130" (String "172" EmptyString))).
Proof. reflexivity. Qed.
Example utf8_surrogate : ~ utf8 (String "237" (String "160" (String "128" EmptyString))).
Proof. done. Qed.

(** A byte that continues a character. *)
Definition continues (a : ascii) : Prop := (128 <= N_of_ascii a <= 191)%N.
Definition continuing (l : list (N * N)) : Prop := Forall (fun r => (128 <= r.1)%N /\ (r.2 <= 191)%N) l.

Lemma following_spec c l : following c = Some l -> continuing l /\ ~ (128 <= c <= 191)%N.
Proof.
  unfold following, continuing. cbv zeta. intros E.
  repeat match type of E with (if ?b then _ else _) = _ => destruct b eqn:? end;
    try done; injection E as <-; (split; [repeat constructor; simpl; done|]).
  all: lia.
Qed.

Lemma utf8_from_app l s t : utf8_from l s = true -> utf8 t -> utf8_from l (s +:+ t) = true.
Proof.
  intros Hs Ht. revert l Hs. induction s as [|a s IH]; intros l Hs; [by destruct l|].
  rewrite s_app_cons. simpl in *. destruct l as [|[lo hi] l].
  - destruct (following _); [by apply IH|done].
  - apply andb_true_iff in Hs as [Hb Hs]. rewrite Hb. by apply IH.
Qed.
Lemma utf8_app s t : utf8 s -> utf8 t -> utf8 (s +:+ t).
Proof. apply utf8_from_app. Qed.

(** The start of a character, or the end. *)
Definition boundary (s : string) : Prop := match s with EmptyString => True | String a _ => ~ continues a end.

Lemma utf8_boundary s : utf8 s -> boundary s.
Proof.
  destruct s as [|a s]; [done|]. unfold utf8. simpl.
  destruct (following _) eqn:E; [|done]. intros _. by apply following_spec in E as [_ ?].
Qed.

Lemma utf8_from_split l s t : continuing l -> boundary t -> utf8_from l (s +:+ t) = true ->
  utf8_from l s = true /\ utf8 t.
Proof.
  intros Hl Ht. revert l Hl. induction s as [|a s IH]; intros l Hl.
  - rewrite s_app_nil_l. destruct l as [|[lo hi] l]; [by split|]. destruct t as [|a t]; [done|].
    simpl. intros Hb. exfalso. apply Ht. apply Forall_cons in Hl as [[? ?] _]. simpl in *.
    unfold continues. apply andb_true_iff in Hb as [Hb _]. lia.
  - rewrite s_app_cons. simpl. destruct l as [|[lo hi] l].
    + destruct (following _) as [l'|] eqn:E; [|done]. apply following_spec in E as [Hl' _]. by apply IH.
    + intros [Hb Hs]%andb_true_iff. apply Forall_cons in Hl as [_ Hl].
      destruct (IH l Hl Hs) as [-> ?]. by rewrite Hb.
Qed.
Lemma utf8_split s t : boundary t -> utf8 (s +:+ t) -> utf8 s /\ utf8 t.
Proof. intros Ht. apply utf8_from_split; [constructor|done]. Qed.

Lemma utf8_from_cancel l s t : utf8_from l s = true -> utf8_from l (s +:+ t) = true -> utf8 t.
Proof.
  revert l. induction s as [|a s IH]; intros l.
  - rewrite s_app_nil_l. by destruct l.
  - rewrite s_app_cons. simpl. destruct l as [|[lo hi] l].
    + destruct (following _); [apply IH|done].
    + intros [_ Hs]%andb_true_iff [_ Ht]%andb_true_iff. by eapply IH.
Qed.
Lemma utf8_cancel s t : utf8 s -> utf8 (s +:+ t) -> utf8 t.
Proof. apply utf8_from_cancel. Qed.
Lemma has_prefix_app p s : has_prefix p s = true -> exists r, s = p +:+ r.
Proof.
  unfold has_prefix. revert s. induction p as [|a p IH]; intros s; [by exists s|].
  destruct s as [|b s]; [done|]. simpl. case_match; [subst|done].
  intros [r ->]%IH. by exists r.
Qed.
Lemma utf8_drop s t : utf8 s -> utf8 t -> has_prefix s t = true -> utf8 (s_drop (String.length s) t).
Proof.
  intros Hs Ht Hp. apply has_prefix_app in Hp as [r ->]. rewrite s_drop_app. exact (utf8_cancel s r Hs Ht).
Qed.

(** *** ASCII strings *)

Fixpoint ascii7 (s : string) : bool :=
  match s with EmptyString => true | String a s' => (N_of_ascii a <=? 127)%N && ascii7 s' end.
Lemma ascii7_utf8 s : ascii7 s = true -> utf8 s.
Proof.
  induction s as [|a s IH]; [done|]. simpl. intros [Ha Hs]%andb_true_iff. unfold utf8. simpl.
  unfold following. rewrite Ha. by apply IH.
Qed.
Lemma ascii7_app s t : ascii7 (s +:+ t) = ascii7 s && ascii7 t.
Proof. induction s as [|a s IH]; [done|]. rewrite s_app_cons. simpl. by rewrite IH, andb_assoc. Qed.

Lemma ascii7_uint d : ascii7 (NilEmpty.string_of_uint d) = true.
Proof. by induction d. Qed.
Lemma ascii7_format_int z : ascii7 (format_int z) = true.
Proof.
  unfold format_int, NilZero.string_of_int, NilZero.string_of_uint.
  destruct (Z.to_int z) as [d|d]; destruct d; simpl; by rewrite ?ascii7_uint.
Qed.
Lemma ascii7_zeros n : ascii7 (zeros n) = true.
Proof. by induction n. Qed.
Lemma ascii7_format_f x : ascii7 (format_f x) = true.
Proof.
  unfold format_f, six_digits. destruct x as [s|s| |s m e]; [|by destruct s|done|];
    rewrite !ascii7_app, ?ascii7_zeros, ?ascii7_format_int; by destruct s.
Qed.

(** *** Operations *)

Lemma utf8_replace_first old new s : utf8 old -> utf8 new -> utf8 s -> utf8 (replace_first old new s).
Proof.
  intros Ho Hn Hs. destruct old as [|o old].
  { destruct s; simpl; apply utf8_app; done. }
  assert (exists a b, s = a +:+ b /\ boundary b /\
    (replace_first (String o old) new s = s \/
     has_prefix (String o old) b = true /\
     replace_first (String o old) new s = a +:+ new +:+ s_drop (String.length (String o old)) b)) as Hr.
  { clear Hs. induction s as [|c s IH]; [exists EmptyString, EmptyString; split_and!; [done..|by left]|].
    cbn [replace_first]. destruct (has_prefix (String o old) (String c s)) eqn:E.
    - exists EmptyString, (String c s). split_and!; [done| |by right].
      apply utf8_boundary in Ho. unfold has_prefix in E. simpl in *.
      by destruct (Ascii.ascii_dec o c) as [->|].
    - destruct IH as (a & b & -> & Hb & [Hr|[Hp Hr]]); exists (String c a), b; rewrite Hr; auto. }
  destruct Hr as (a & b & -> & Hb & [->|[Hp ->]]); [done|].
  destruct (utf8_split _ _ Hb Hs). apply utf8_app; [done|]. apply utf8_app; [done|]. by apply utf8_drop.
Qed.

Lemma utf8_split_on c s : (N_of_ascii c <= 127)%N -> utf8 s -> Forall utf8 (split_on c s).
Proof.
  intros Hc Hs. rewrite <-(join_split c s) in Hs. revert Hs. generalize (split_on c s). intros l.
  assert (boundary (String c EmptyString)) as Hb by (simpl; unfold continues; lia).
  induction l as [|x l IH]; [by constructor|]. destruct l as [|y l].
  { simpl. by repeat constructor. }
  rewrite join_with_cons by done. intros Hs.
  apply utf8_split in Hs as [Hx Hs]; [|simpl; unfold continues; lia].
  constructor; [done|]. apply IH. rewrite <-(s_app_nil_r (String c EmptyString)) in Hs.
  eapply (utf8_cancel (String c EmptyString)); [|exact Hs].
  apply ascii7_utf8. simpl. lia.
Qed.
Lemma utf8_join_with sep l : utf8 sep -> Forall utf8 l -> utf8 (join_with sep l).
Proof.
  intros Hs. induction 1 as [|x l Hx Hl IH]; [done|]. destruct l as [|y l]; [done|].
  rewrite join_with_cons by done. apply utf8_app; [done|]. by apply utf8_app.
Qed.
Lemma utf8_clean_comps rooted l acc : Forall utf8 l -> Forall utf8 acc -> Forall utf8 (clean_comps rooted l acc).
Proof.
  intros Hl. revert acc. induction Hl as [|x l Hx Hl IH]; intros acc Ha; simpl; [done|].
  repeat case_decide; [by apply IH..| |by apply IH; constructor].
  destruct Ha as [|y acc Hy Ha]; [destruct rooted; apply IH; by repeat constructor|].
  case_decide; apply IH; [by repeat constructor|done].
Qed.
Lemma utf8_path_clean p : utf8 p -> utf8 (path_clean p).
Proof.
  intros Hp. unfold path_clean. cbv zeta.
  assert (utf8 (join_with "/" (rev (clean_comps (has_prefix "/" p) (split_on slash p) [])))) as Hb.
  { apply utf8_join_with; [done|]. apply Forall_rev, utf8_clean_comps; [|constructor].
    apply utf8_split_on; [by vm_compute|done]. }
  destruct (has_prefix "/" p); [by apply utf8_app|]. by case_decide.
Qed.
Lemma after_last_slash_suffix p : exists r, p = r +:+ after_last_slash p.
Proof.
  unfold after_last_slash. pose proof (join_split slash p) as Hj.
  destruct (exists_last (split_on_nonempty slash p)) as (l & x & E).
  rewrite E in Hj |- *. rewrite List.last_last, <-Hj.
  destruct l as [|y l]; [by exists EmptyString|]. rewrite join_with_last by done.
  exists (join_with (String slash EmptyString) (y :: l) +:+ String slash EmptyString). by rewrite s_app_assoc.
Qed.
Lemma utf8_path_dir p : utf8 p -> utf8 (path_dir p).
Proof.
  intros Hp. unfold path_dir. apply utf8_path_clean.
  assert (utf8 (after_last_slash p)) as Hl.
  { unfold after_last_slash. assert (Forall utf8 (split_on slash p)) as Hs by (by apply utf8_split_on; [by vm_compute|]).
    destruct (exists_last (split_on_nonempty slash p)) as (l & x & E). rewrite E, List.last_last.
    rewrite E in Hs. apply Forall_app in Hs as [_ Hx]. exact (Forall_inv Hx). }
  destruct (after_last_slash_suffix p) as [r E]. revert Hl E. generalize (after_last_slash p). intros x Hx ->.
  rewrite s_length_app. replace (String.length r + String.length x - String.length x) with (String.length r) by lia.
  rewrite s_take_app. exact (proj1 (utf8_split r x (utf8_boundary x Hx) Hp)).
Qed.
#[export] Hint Resolve utf8_app utf8_replace_first utf8_path_dir : utf8.
#[export] Hint Extern 1 (utf8 (format_f _)) => apply ascii7_utf8, ascii7_format_f : utf8.
#[export] Hint Extern 1 (utf8 (format_int _)) => apply ascii7_utf8, ascii7_format_int : utf8.
