(* ===== verification/LogData.v ===== *)
(** [logger/logger.go]: the data of telemetry messages.  Floating-point fields
    use Rocq's executable model of IEEE 754 numbers. *)
From S2P Require Import Prelude.
From Stdlib Require Export SpecFloat.

Definition EventType : Type := string.

Record ContentsInfo := {
  NumberOfContents : Z;
  ContentProperties : string;
}.

Inductive TelemetryCommandName :=
  ContentDownloaded | ContentDeleted | CompleteCommand | ProvisionDevice.

Record TelemetryCommandData := {
  CommandName : TelemetryCommandName;
  CommandData : string;
  IsAssetMap : bool;
}.

Record MessageSubType := {
  StringMessage : string;
  FloatValue : spec_float;
  Integer : Z;
  sm_ContentsInfo : ContentsInfo;
  sm_TelemetryCommandData : TelemetryCommandData;
}.

(** The zero values of Go. *)
Definition no_contents : ContentsInfo :=
  {| NumberOfContents := 0; ContentProperties := EmptyString |}.
Definition no_command : TelemetryCommandData :=
  {| CommandName := ContentDownloaded; CommandData := EmptyString; IsAssetMap := false |}.
(** [new(MessageSubType)] *)
Definition new_MessageSubType : MessageSubType :=
  {| StringMessage := EmptyString; FloatValue := S754_zero false; Integer := 0;
     sm_ContentsInfo := no_contents; sm_TelemetryCommandData := no_command |}.
(** [MessageSubType{StringMessage: s}], [{Integer: n}], ... *)
Definition sm_string (s : string) : MessageSubType :=
  {| StringMessage := s; FloatValue := S754_zero false; Integer := 0;
     sm_ContentsInfo := no_contents; sm_TelemetryCommandData := no_command |}.
Definition sm_integer (n : Z) : MessageSubType :=
  {| StringMessage := EmptyString; FloatValue := S754_zero false; Integer := n;
     sm_ContentsInfo := no_contents; sm_TelemetryCommandData := no_command |}.
Definition sm_float (f : spec_float) : MessageSubType :=
  {| StringMessage := EmptyString; FloatValue := f; Integer := 0;
     sm_ContentsInfo := no_contents; sm_TelemetryCommandData := no_command |}.
Definition sm_contents (c : ContentsInfo) : MessageSubType :=
  {| StringMessage := EmptyString; FloatValue := S754_zero false; Integer := 0;
     sm_ContentsInfo := c; sm_TelemetryCommandData := no_command |}.
Definition sm_command (c : TelemetryCommandData) : MessageSubType :=
  {| StringMessage := EmptyString; FloatValue := S754_zero false; Integer := 0;
     sm_ContentsInfo := no_contents; sm_TelemetryCommandData := c |}.

(** The pointer fields with [omitempty] are options. *)
Record TelemetryMessage := {
  DeviceIdInData : string;
  ApplicationName : string;
  ApplicationVersion : string;
  Timestamp : Z;
  tm_AssetDeleteOnDeviceByScheduler : option ContentsInfo;
  tm_AssetDeleteOnDeviceByCommand : option ContentsInfo;
  tm_AssetDownloadOnDeviceFromSES : option ContentsInfo;
  tm_AssetDownloadOnDeviceByCommand : option ContentsInfo;
  tm_TelemetryCommandMessage : option TelemetryCommandData;
  tm_TotalNumberOfAssetsOnTheDevice : Z;
  tm_HubStorageAvailable : spec_float;
  tm_TotalStorage : spec_float;
  tm_Memory : spec_float;
  tm_Liveness : string;
  tm_LivenessNumeric : Z;
  tm_InvalidCommandOnDevice : string;
  tm_Error : string;
  tm_Critical : string;
  tm_Warning : string;
  tm_Info : string;
  tm_Debug : string;
  tm_EventType : string;
  tm_EventId : string;
}.

(** The event types. *)
Definition Liveness : EventType := "Liveness".
Definition LivenessNumeric : EventType := "LivenessNumeric".
Definition Debug_ : EventType := "Debug".
Definition Info_ : EventType := "Info".
Definition Warning : EventType := "Warning".
Definition Error : EventType := "Error".
Definition Critical : EventType := "Critical".
Definition AssetDeleteOnDeviceByScheduler : EventType := "AssetDeleteOnDeviceByScheduler".
Definition AssetDeleteOnDeviceByCommand : EventType := "AssetDeleteOnDeviceByCommand".
Definition AssetDownloadOnDeviceFromSES : EventType := "AssetDownloadOnDeviceFromSES".
Definition AssetDownloadOnDeviceByCommand : EventType := "AssetDownloadOnDeviceByCommand".
Definition TotalNumberOfAssetsOnTheDevice : EventType := "TotalNumberOfAssetsOnTheDevice".
Definition InvalidCommandOnDevice : EventType := "InvalidCommandOnDevice".
Definition HubStorageAvailable : EventType := "HubStorageAvailable".
Definition TotalStorage : EventType := "TotalStorage".
Definition Memory : EventType := "Memory".
Definition TelemetryCommandMessage : EventType := "TelemetryCommand".
