(* ===== verification/Host.v ===== *)
(** The interfaces of the code that is not under [src/]: the bolt database, the
    operating system's files, the network, the clock, and [encoding/json]; the
    state of the process over them; and a reference implementation of each,
    on which closed examples evaluate. *)
From S2P Require Import Prelude GoStrings LogData.
From stdpp Require Import sorting.

(** ** bolt

    [DB] is an open database and [Tx] a transaction.  A bucket is named by a
    string; [tx_bucket tx b] says whether [tx.Bucket(b)] is non-nil. *)
Class Bolt := {
  DB : Type;
  Tx : Type;
  tx_begin : DB -> Tx;
  tx_commit : DB -> Tx -> option error * DB;
  tx_bucket : Tx -> string -> bool;
  tx_create_bucket : Tx -> string -> error + Tx;
  bkt_get : Tx -> string -> string -> option string;
  bkt_put : Tx -> string -> string -> string -> error + Tx;
  bkt_delete : Tx -> string -> string -> error + Tx;
  bkt_list : Tx -> string -> list (string * string);  (* a cursor's First, Next, ... *)
}.

Definition key_le (a b : string * string) : Prop := String.le a.1 b.1.
#[export] Instance key_le_dec : RelDecision key_le.
Proof. unfold key_le. intros a b. apply _. Defined.
#[export] Instance key_le_total : Total key_le.
Proof. intros a b. apply String.le_total. Qed.
#[export] Instance key_le_trans : Transitive key_le.
Proof. intros a b c. unfold key_le. apply String.le_po. Qed.

(** The items of a map in the byte order of the keys. *)
Definition sorted_items (m : gmap string string) : list (string * string) :=
  merge_sort key_le (map_to_list m).

Lemma sorted_items_perm (m : gmap string string) : sorted_items m ≡ₚ map_to_list m.
Proof. apply merge_sort_Permutation. Qed.

Lemma elem_of_sorted_items (m : gmap string string) k v :
  (k, v) ∈ sorted_items m <-> m !! k = Some v.
Proof. by rewrite sorted_items_perm, elem_of_map_to_list. Qed.

Lemma list_to_map_sorted_items (m : gmap string string) :
  list_to_map (sorted_items m) = m.
Proof.
  rewrite (list_to_map_proper _ (map_to_list m)).
  - apply list_to_map_to_list.
  - rewrite sorted_items_perm. apply NoDup_fst_map_to_list.
  - apply sorted_items_perm.
Qed.

(** bolt's limits on keys and values ([MaxKeySize], [MaxValueSize]) *)
Definition key_ok (k : string) : Prop := 0 < String.length k /\ (Z.of_nat (String.length k) <= 32768)%Z.
Definition value_ok (v : string) : Prop := (Z.of_nat (String.length v) <= 2147483646)%Z.

Section Bucket.
Context `{Bolt}.

(** The contents of a bucket as a map. *)
Definition bkt_map (tx : Tx) (b : string) : gmap string string :=
  list_to_map (bkt_list tx b).

(** Transactions with the same buckets and contents. *)
#[export] Instance tx_equiv : Equiv Tx := fun t t' =>
  forall b, tx_bucket t b = tx_bucket t' b /\ bkt_map t b = bkt_map t' b.
#[export] Instance tx_equiv_equivalence : Equivalence (≡@{Tx}).
Proof.
  split.
  - by intros t b.
  - intros t t' E b. destruct (E b). done.
  - intros t t' t'' E E' b. destruct (E b), (E' b). split; congruence.
Qed.

#[export] Instance db_equiv : Equiv DB := fun d d' => tx_begin d ≡ tx_begin d'.
#[export] Instance db_equiv_equivalence : Equivalence (≡@{DB}).
Proof.
  split.
  - by intros d b.
  - intros d d' E. unfold equiv, db_equiv in *. by symmetry.
  - intros d d' d'' E E'. unfold equiv, db_equiv in *. by etrans.
Qed.
#[export] Instance tx_bucket_proper : Proper ((≡) ==> (=) ==> (=)) tx_bucket.
Proof. intros t t' E b ? <-. apply E. Qed.
#[export] Instance bkt_map_proper : Proper ((≡) ==> (=) ==> (=)) bkt_map.
Proof. intros t t' E b ? <-. apply E. Qed.
#[export] Instance tx_begin_proper : Proper ((≡) ==> (≡)) tx_begin.
Proof. by intros d d' E. Qed.
End Bucket.

(** What bolt's documentation promises.  A cursor visits the keys in byte order;
    [Put] stores one pair and fails only on a blank or too large key or a too
    large value; [Delete] of a missing key does nothing; a commit either
    publishes the transaction or changes nothing and returns the error. *)
Class BoltLaws `{Bolt} : Prop := {
  bkt_list_sorted tx b : bkt_list tx b = sorted_items (bkt_map tx b);
  bkt_get_spec tx b k : tx_bucket tx b = true -> bkt_get tx b k = bkt_map tx b !! k;
  bkt_put_spec tx b k v tx' : tx_bucket tx b = true -> bkt_put tx b k v = inr tx' ->
    (forall b', tx_bucket tx' b' = tx_bucket tx b') /\
    bkt_map tx' b = <[k := v]> (bkt_map tx b) /\
    (forall b', b' <> b -> bkt_map tx' b' = bkt_map tx b');
  bkt_put_total tx b k v : tx_bucket tx b = true -> key_ok k -> value_ok v ->
    exists tx', bkt_put tx b k v = inr tx';
  bkt_delete_spec tx b k tx' : tx_bucket tx b = true -> bkt_delete tx b k = inr tx' ->
    (forall b', tx_bucket tx' b' = tx_bucket tx b') /\
    bkt_map tx' b = delete k (bkt_map tx b) /\
    (forall b', b' <> b -> bkt_map tx' b' = bkt_map tx b');
  bkt_delete_total tx b k : tx_bucket tx b = true ->
    exists tx', bkt_delete tx b k = inr tx';
  tx_create_bucket_spec tx b tx' : tx_create_bucket tx b = inr tx' ->
    (forall b', tx_bucket tx' b' = tx_bucket tx b' || bool_decide (b' = b)) /\
    (forall b', tx_bucket tx b' = true -> bkt_map tx' b' = bkt_map tx b') /\
    (tx_bucket tx b = false -> bkt_map tx' b = ∅);
  tx_commit_ok db tx db' : tx_commit db tx = (None, db') -> tx_begin db' ≡ tx;
  tx_commit_err db tx e db' : tx_commit db tx = (Some e, db') -> db' ≡ db;
}.

(** ** The operating system's files

    [os] and [io/ioutil] over an abstract disk. *)
Record file_info := { fi_name : string; fi_is_dir : bool; fi_size : Z }.

Class Disk := {
  disk : Type;
  os_mkdir_all : string -> disk -> option error * disk;
  os_remove_all : string -> disk -> option error * disk;
  os_remove : string -> disk -> option error * disk;
  os_rename : string -> string -> disk -> option error * disk;
  os_exists : string -> disk -> bool;
  (** [os.Stat]: the size of a file *)
  os_stat_size : string -> disk -> error + Z;
  os_read_file : string -> disk -> error + string;
  os_read_dir : string -> disk -> error + list file_info;
  os_walk_sizes : string -> disk -> list Z * option error;
  (** the paths [filepath.Walk] visits when its callback never returns an error *)
  os_walk : string -> disk -> list string;
}.

(** ** The rest of the environment

    Answers may depend on everything the process did before: the trace.  A
    telemetry event holds the message whose JSON text was sent, and whether the
    proxy acknowledged it. *)
Inductive event : Type :=
  | EvHttpGet (url : string)
  | EvTelemetry (message : TelemetryMessage) (acknowledged : bool)
  | EvClock
  | EvUuid.

Class Env := {
  (** [time.Now()], in nanoseconds since the Unix epoch *)
  env_now : list event -> Z;
  (** [uuid.New().String()] *)
  env_uuid : list event -> string;
  (** [http.Get(url)], then reading the body *)
  env_http : list event -> string -> error + (error + string);
  (** dialling the upstream proxy, then the [SendTelemetry] call *)
  env_dial : list event -> string -> option error;
  env_send : list event -> string -> string -> option error;
  (** the order in which [range] visits a map, which Go leaves open *)
  env_range : forall V, list event -> gmap string V -> list (string * V);
  env_range_int : forall V, list event -> gmap Z V -> list (Z * V);
}.
Arguments env_range {_ V}.
Arguments env_range_int {_ V}.
Class EnvLaws `{Env} : Prop := {
  env_range_perm V tr (m : gmap string V) : env_range tr m ≡ₚ map_to_list m;
  env_range_int_perm V tr (m : gmap Z V) : env_range_int tr m ≡ₚ map_to_list m;
}.

(** ** [encoding/json] at a type *)
Class Json (A : Type) := {
  json_marshal : A -> error + string;
  (** the decoded value and the error; missing parts are zero values *)
  json_unmarshal : string -> A * option error;
  (** values whose strings are valid UTF-8 and whose times JSON can hold *)
  json_wf : A -> Prop;
}.
Class JsonLaws (A : Type) `{Json A} : Prop := {
  json_total (a : A) : json_wf a -> exists s, json_marshal a = inr s;
  json_roundtrip (a : A) s : json_wf a -> json_marshal a = inr s -> json_unmarshal s = (a, None);
}.

(** ** Configuration files

    [gopkg.in/ini.v1]: the value at a section and a key as a string or as an
    integer, changing it in memory, and [SaveTo]. *)
Class Ini `{Disk} := {
  ini : Type;
  ini_string : string -> string -> ini -> string;
  ini_int64 : string -> string -> ini -> error + Z;
  ini_set : string -> string -> string -> ini -> ini;
  ini_save : string -> ini -> disk -> option error * disk;
}.

(** ** The process *)
Section World.
Context `{Bolt, Disk}.
Record world := World { w_db : DB; w_disk : disk; w_trace : list event }.
End World.
Arguments world {_ _}.
Arguments World {_ _}.

(** The computations of the hub. *)
Notation Hub := (M world).

(** ** Effects *)
Section Effects.
Context `{Bolt, Disk, Env}.

Definition set_db (d : DB) (w : world) : world := World d (w_disk w) (w_trace w).
Definition set_disk (d : disk) (w : world) : world := World (w_db w) d (w_trace w).
Definition log_event (e : event) (w : world) : world :=
  World (w_db w) (w_disk w) (w_trace w ++ [e]).

(** Operations inside a transaction; a method call on a nil bucket panics. *)
Definition tx_get (b k : string) : M Tx (option string) := fun tx =>
  if tx_bucket tx b then (Ret (bkt_get tx b k), tx) else (Panic "nil bucket", tx).
Definition tx_put (b k v : string) : M Tx unit := fun tx =>
  if tx_bucket tx b then
    match bkt_put tx b k v with
    | inr tx' => (Ret tt, tx')
    | inl e => (Fail e, tx)
    end
  else (Panic "nil bucket", tx).
Definition tx_delete (b k : string) : M Tx unit := fun tx =>
  if tx_bucket tx b then
    match bkt_delete tx b k with
    | inr tx' => (Ret tt, tx')
    | inl e => (Fail e, tx)
    end
  else (Panic "nil bucket", tx).
Definition tx_list (b : string) : M Tx (list (string * string)) := fun tx =>
  if tx_bucket tx b then (Ret (bkt_list tx b), tx) else (Panic "nil bucket", tx).
Definition tx_new_bucket (b : string) : M Tx unit := fun tx =>
  match tx_create_bucket tx b with
  | inr tx' => (Ret tt, tx')
  | inl e => (Fail e, tx)
  end.

(** [if err := m; err != nil { return fmt.Errorf("...%s", err) }] *)
Definition wrap_error {S A} (f : error -> error) (m : M S A) : M S A := fun s =>
  match m s with
  | (Fail e, s') => (Fail (f e), s')
  | r => r
  end.

(** [db.Update(body)]: commit when the body returns nil, otherwise roll back. *)
Definition db_update {A} (body : M Tx A) : Hub A := fun w =>
  match body (tx_begin (w_db w)) with
  | (Ret a, tx) =>
      match tx_commit (w_db w) tx with
      | (None, d) => (Ret a, set_db d w)
      | (Some e, d) => (Fail e, set_db d w)
      end
  | (Fail e, _) => (Fail e, w)
  | (Panic s, _) => (Panic s, w)
  | (OutOfFuel, _) => (OutOfFuel, w)
  end.

(** [db.View(body)] *)
Definition db_view {A} (body : M Tx A) : Hub A := fun w =>
  ((body (tx_begin (w_db w))).1, w).

Definition disk_op (f : disk -> option error * disk) : Hub unit := fun w =>
  match f (w_disk w) with
  | (None, d) => (Ret tt, set_disk d w)
  | (Some e, d) => (Fail e, set_disk d w)
  end.
(** [ioutil.ReadFile], [ioutil.ReadDir] *)
Definition read_file (p : string) : Hub string := fun w =>
  (match os_read_file p (w_disk w) with inr s => Ret s | inl e => Fail e end, w).
Definition read_dir (p : string) : Hub (list file_info) := fun w =>
  (match os_read_dir p (w_disk w) with inr l => Ret l | inl e => Fail e end, w).
Definition path_exists (p : string) : Hub bool := gets (fun w => os_exists p (w_disk w)).

Definition time_now : Hub Z := fun w =>
  (Ret (env_now (w_trace w)), log_event EvClock w).
Definition new_uuid : Hub string := fun w =>
  (Ret (env_uuid (w_trace w)), log_event EvUuid w).
(** [for k, v := range m]: the pairs in the order of this execution *)
Definition range_map {V} (m : gmap string V) : Hub (list (string * V)) :=
  gets (fun w => env_range (w_trace w) m).
Definition range_int_map {V} (m : gmap Z V) : Hub (list (Z * V)) :=
  gets (fun w => env_range_int (w_trace w) m).
(** [http.Get] with its deferred [Close], then [ioutil.ReadAll] *)
Definition http_get (url : string) : Hub string := fun w =>
  let w' := log_event (EvHttpGet url) w in
  match env_http (w_trace w) url with
  | inl e => (Fail e, w')
  | inr (inl e) => (Fail e, w')
  | inr (inr body) => (Ret body, w')
  end.

(** The committed contents of a bucket. *)
Definition bucket_of (w : world) (b : string) : gmap string string :=
  bkt_map (tx_begin (w_db w)) b.
Definition has_bucket (w : world) (b : string) : bool :=
  tx_bucket (tx_begin (w_db w)) b.
End Effects.
