(* ===== verification/Storage.v ===== *)
(** Consequences of the bolt laws for transactions: how each operation changes
    the contents of the buckets, and the atomicity of [db.Update]. *)
From S2P Require Import Prelude GoStrings Host.

(** The map without the given keys. *)
Definition remove_keys (ks : list string) (m : gmap string string) : gmap string string :=
  foldl (fun m k => delete k m) m ks.

Lemma lookup_remove_keys ks (m : gmap string string) k :
  remove_keys ks m !! k = if decide (k ∈ ks) then None else m !! k.
Proof.
  revert m. induction ks as [|k' ks IH]; intros m.
  { by rewrite decide_False by apply not_elem_of_nil. }
  change (remove_keys (k' :: ks) m) with (remove_keys ks (delete k' m)).
  rewrite IH. destruct (decide (k = k')) as [->|].
  - rewrite lookup_delete_eq. repeat case_decide; set_solver.
  - rewrite lookup_delete_ne by done. repeat case_decide; set_solver.
Qed.

Lemma remove_keys_Some ks (m : gmap string string) k v :
  remove_keys ks m !! k = Some v <-> (k ∉ ks) /\ m !! k = Some v.
Proof. rewrite lookup_remove_keys. case_decide; naive_solver. Qed.

Section Storage.
Context `{Bolt, Disk, Env} `{!BoltLaws}.
Implicit Types (w : world) (tx : Tx) (b k v : string).

(** [tx'] is [tx] with bucket [b] changed by [f]. *)
Definition bkt_updated (b : string) (f : gmap string string -> gmap string string)
    (tx tx' : Tx) : Prop :=
  (forall b', tx_bucket tx' b' = tx_bucket tx b') /\
  bkt_map tx' b = f (bkt_map tx b) /\
  (forall b', b' <> b -> bkt_map tx' b' = bkt_map tx b').

Lemma bkt_updated_refl b tx : bkt_updated b id tx tx.
Proof. by split_and!. Qed.

Lemma bkt_updated_trans b f g tx1 tx2 tx3 :
  bkt_updated b f tx1 tx2 -> bkt_updated b g tx2 tx3 -> bkt_updated b (g ∘ f) tx1 tx3.
Proof.
  intros (? & E1 & O1) (? & E2 & O2). split_and!.
  - intros b'. congruence.
  - simpl. by rewrite E2, E1.
  - intros b' ?. by rewrite O2, O1.
Qed.

Lemma bkt_updated_equiv b f tx tx1 tx2 :
  bkt_updated b f tx tx1 -> tx1 ≡ tx2 -> bkt_updated b f tx tx2.
Proof.
  intros (B & E & O) Heq. split_and!.
  - intros b'. rewrite <-B. symmetry. apply (Heq b').
  - rewrite <-E. symmetry. apply (Heq b).
  - intros b' ?. rewrite <-O by done. symmetry. apply (Heq b').
Qed.

(** *** Single operations *)

Lemma tx_get_run b k tx :
  tx_bucket tx b = true -> tx_get b k tx = (Ret (bkt_map tx b !! k), tx).
Proof. intros Hb. unfold tx_get. by rewrite Hb, bkt_get_spec. Qed.

Lemma tx_list_run b tx :
  tx_bucket tx b = true -> tx_list b tx = (Ret (sorted_items (bkt_map tx b)), tx).
Proof. intros Hb. unfold tx_list. by rewrite Hb, bkt_list_sorted. Qed.

Lemma tx_put_run b k v tx o tx' :
  tx_bucket tx b = true -> tx_put b k v tx = (o, tx') ->
  (o = Ret tt /\ bkt_updated b <[k := v]> tx tx') \/
  (exists e, o = Fail e /\ tx' = tx).
Proof.
  intros Hb. unfold tx_put. rewrite Hb.
  destruct (bkt_put tx b k v) eqn:E; intros [= <- <-]; [by eauto|].
  left. split; [done|]. by eapply bkt_put_spec in E.
Qed.

Lemma tx_put_ok b k v tx :
  tx_bucket tx b = true -> key_ok k -> value_ok v ->
  exists tx', tx_put b k v tx = (Ret tt, tx') /\ bkt_updated b <[k := v]> tx tx'.
Proof.
  intros Hb Hk Hv. destruct (bkt_put_total tx b k v Hb Hk Hv) as [tx' E].
  exists tx'. unfold tx_put. rewrite Hb, E. split; [done|]. by eapply bkt_put_spec in E.
Qed.

Lemma tx_delete_ok b k tx :
  tx_bucket tx b = true ->
  exists tx', tx_delete b k tx = (Ret tt, tx') /\ bkt_updated b (delete k) tx tx'.
Proof.
  intros Hb. destruct (bkt_delete_total tx b k Hb) as [tx' E].
  exists tx'. unfold tx_delete. rewrite Hb, E. split; [done|]. by eapply bkt_delete_spec in E.
Qed.

Lemma wrap_error_Ret {S A} f (m : M S A) s a s' :
  m s = (Ret a, s') -> wrap_error f m s = (Ret a, s').
Proof. unfold wrap_error. by intros ->. Qed.

Lemma wrap_error_inv {S A} f (m : M S A) s o s' :
  wrap_error f m s = (o, s') ->
  m s = (o, s') \/ exists e, m s = (Fail e, s') /\ o = Fail (f e).
Proof. unfold wrap_error. destruct (m s) as [[] ?]; intros [= <- <-]; eauto. Qed.

(** *** Transactions *)

(** [db.Update] either publishes what its body did or leaves the database as it
    was; in both cases nothing else of the process changes. *)
Lemma db_update_atomic {A} (f : M Tx A) w o w' :
  db_update f w = (o, w') ->
  w_disk w' = w_disk w /\ w_trace w' = w_trace w /\
  ((exists a tx, f (tx_begin (w_db w)) = (Ret a, tx) /\ o = Ret a /\ tx_begin (w_db w') ≡ tx)
   \/ ((forall a, o <> Ret a) /\ w_db w' ≡ w_db w)).
Proof.
  unfold db_update. destruct (f (tx_begin (w_db w))) as [[] tx] eqn:E.
  - destruct (tx_commit (w_db w) tx) as [[e|] d] eqn:C; intros [= <- <-]; simpl;
      split_and!; try done.
    + right. split; [done|]. by apply tx_commit_err in C.
    + left. exists a, tx. split_and!; try done. by apply tx_commit_ok in C.
  - intros [= <- <-]; split_and!; try done; right; by split.
  - intros [= <- <-]; split_and!; try done; right; by split.
  - intros [= <- <-]; split_and!; try done; right; by split.
Qed.

(** Contents of the database before and after. *)
Definition db_updated (b : string) (f : gmap string string -> gmap string string)
    (w w' : world) : Prop := bkt_updated b f (tx_begin (w_db w)) (tx_begin (w_db w')).

Definition same_db (w w' : world) : Prop := w_db w ≡ w_db w'.
#[export] Instance same_db_equivalence : Equivalence same_db.
Proof.
  unfold same_db. split; [by intros ?| by intros ???; symmetry| by intros ?????; etrans].
Qed.
#[export] Instance bucket_of_proper : Proper (same_db ==> (=) ==> (=)) bucket_of.
Proof. intros w w' E b ? <-. apply (E b). Qed.
#[export] Instance has_bucket_proper : Proper (same_db ==> (=) ==> (=)) has_bucket.
Proof. intros w w' E b ? <-. apply (E b). Qed.

Lemma db_updated_bucket b f w w' :
  db_updated b f w w' -> bucket_of w' b = f (bucket_of w b).
Proof. by intros (_ & E & _). Qed.
Lemma db_updated_other b f w w' b' :
  db_updated b f w w' -> b' <> b -> bucket_of w' b' = bucket_of w b'.
Proof. intros (_ & _ & E) ?. by apply E. Qed.
Lemma db_updated_has b f w w' b' :
  db_updated b f w w' -> has_bucket w' b' = has_bucket w b'.
Proof. intros (E & _). apply E. Qed.

Lemma db_view_run {A} (f : M Tx A) w o tx :
  f (tx_begin (w_db w)) = (o, tx) -> db_view f w = (o, w).
Proof. unfold db_view. by intros ->. Qed.

(** A view never changes anything. *)
Lemma db_view_state {A} (f : M Tx A) w : (db_view f w).2 = w.
Proof. done. Qed.
Lemma preserves_db_view I {A} (f : M Tx A) : preserves I (db_view f).
Proof. by intros w Hw. Qed.

(** A view that reads one key and fails without it. *)
Lemma view_lookup b k e w : has_bucket w b = true ->
  db_view (x ← tx_get b k;
           match x with None => fail e | Some v => mret v end) w =
  (match bucket_of w b !! k with Some v => Ret v | None => Fail e end, w).
Proof.
  intros Hb. unfold db_view. erewrite bind_Ret by (by apply tx_get_run).
  unfold bucket_of. by destruct (_ !! k).
Qed.
Lemma ignoring_view_lookup b k e w : has_bucket w b = true ->
  ignoring EmptyString (db_view (x ← tx_get b k;
           match x with None => fail e | Some v => mret v end)) w =
  (Ret (default EmptyString (bucket_of w b !! k)), w).
Proof.
  intros Hb. pose proof (view_lookup b k e w Hb) as Hv.
  destruct (bucket_of w b !! k); [by apply ignoring_Ret|by eapply ignoring_Fail].
Qed.

(** [m] either changes bucket [b] by [f] in one commit and returns nil, or returns
    an error and leaves the database as it was.  It does nothing else. *)
Definition touches (b : string) (f : gmap string string -> gmap string string)
    (m : Hub unit) : Prop :=
  forall w o w', has_bucket w b = true -> m w = (o, w') ->
    w_disk w' = w_disk w /\ w_trace w' = w_trace w /\
    ((o = Ret tt /\ db_updated b f w w') \/ (exists e, o = Fail e /\ same_db w' w)).

(** The same for the body of a transaction. *)
Definition tx_touches (b : string) (f : gmap string string -> gmap string string)
    (m : M Tx unit) : Prop :=
  forall tx o tx', tx_bucket tx b = true -> m tx = (o, tx') ->
    (o = Ret tt /\ bkt_updated b f tx tx') \/ (exists e, o = Fail e).

Lemma tx_touches_put b k v g : tx_touches b <[k := v]> (wrap_error g (tx_put b k v)).
Proof.
  intros tx o tx' Hb [Hr|(e & Hr & ->)]%wrap_error_inv;
    (destruct (tx_put_run _ _ _ _ _ _ Hb Hr) as [[? ?]|(? & ? & ?)]; simplify_eq; eauto).
Qed.

Lemma tx_touches_delete b k g : tx_touches b (delete k) (wrap_error g (tx_delete b k)).
Proof.
  intros tx o tx' Hb Hr. left.
  destruct (tx_delete_ok b k tx Hb) as (tx1 & Hd & Hu).
  rewrite (wrap_error_Ret _ _ _ _ _ Hd) in Hr. by simplify_eq.
Qed.

Lemma tx_touches_ret b : tx_touches b id (mret tt).
Proof. intros tx o tx' _ [= <- <-]. left. split; [done|apply bkt_updated_refl]. Qed.

Lemma tx_touches_seq b f g (m1 m2 : M Tx unit) :
  tx_touches b f m1 -> tx_touches b g m2 -> tx_touches b (g ∘ f) (m1;; m2).
Proof.
  intros Hm1 Hm2 tx o tx' Hb. unfold mbind, M_bind.
  destruct (m1 tx) as [o1 tx1] eqn:E1.
  destruct (Hm1 _ _ _ Hb E1) as [[-> U1]|[e ->]]; [|intros [= <- <-]; eauto].
  intros E2. destruct (Hm2 tx1 o tx') as [[-> U2]|?]; [by rewrite (proj1 U1)|done| |by right].
  left. split; [done|]. by eapply bkt_updated_trans.
Qed.

Lemma tx_touches_deletes b ks g :
  tx_touches b (remove_keys ks) (for_each ks (fun k => wrap_error g (tx_delete b k))).
Proof.
  induction ks as [|k ks IH]; simpl; [apply tx_touches_ret|].
  exact (tx_touches_seq b (delete k) (remove_keys ks) _ _ (tx_touches_delete b k g) IH).
Qed.

(** One transaction, by what its body does from the current contents. *)
Lemma db_update_body b f (body : M Tx unit) w o w' :
  (forall o1 tx, body (tx_begin (w_db w)) = (o1, tx) ->
     (o1 = Ret tt /\ bkt_updated b f (tx_begin (w_db w)) tx) \/ (exists e, o1 = Fail e)) ->
  db_update body w = (o, w') ->
  w_disk w' = w_disk w /\ w_trace w' = w_trace w /\
  ((o = Ret tt /\ db_updated b f w w') \/ (exists e, o = Fail e /\ same_db w' w)).
Proof.
  intros Hf Hr. unfold db_update in Hr.
  destruct (body (tx_begin (w_db w))) as [o1 tx] eqn:E.
  destruct (Hf _ _ eq_refl) as [[-> U]|[e ->]].
  - destruct (tx_commit (w_db w) tx) as [[e|] d] eqn:C; simplify_eq; split_and!; try done.
    + right. eexists. split; [done|]. by apply tx_commit_err in C.
    + left. split; [done|]. eapply bkt_updated_equiv; [done|]. simpl.
      apply tx_commit_ok in C. by symmetry.
  - simplify_eq. split_and!; try done. right. by eexists.
Qed.

Lemma touches_update b f body : tx_touches b f body -> touches b f (db_update body).
Proof.
  intros Hf w o w' Hb. apply db_update_body. intros o1 tx E. by eapply Hf.
Qed.

(** The disk is not the database. *)
Lemma quiet_disk f w : same_db (disk_op f w).2 w /\ is_result (disk_op f w).1.
Proof. unfold disk_op, same_db. by destruct (f (w_disk w)) as [[] ?]. Qed.

(** A database whose commits succeed. *)
Definition reliable : Prop := forall (d : DB) (tx : Tx), (tx_commit d tx).1 = None.

(** A body that succeeds is published by a reliable database. *)
Lemma db_update_reliable b f (body : M Tx unit) w tx :
  reliable -> body (tx_begin (w_db w)) = (Ret tt, tx) ->
  bkt_updated b f (tx_begin (w_db w)) tx ->
  exists w', db_update body w = (Ret tt, w') /\ db_updated b f w w' /\
    w_disk w' = w_disk w /\ w_trace w' = w_trace w.
Proof.
  intros Hrel Hf U. unfold db_update. rewrite Hf.
  specialize (Hrel (w_db w) tx). destruct (tx_commit (w_db w) tx) as [[e|] d] eqn:C; [done|].
  eexists. split_and!; [done| |done|done].
  eapply bkt_updated_equiv; [exact U|]. apply tx_commit_ok in C. by symmetry.
Qed.

Lemma put_reliable b k v g w :
  reliable -> has_bucket w b = true -> key_ok k -> value_ok v ->
  exists w', db_update (wrap_error g (tx_put b k v)) w = (Ret tt, w') /\
    db_updated b <[k := v]> w w' /\ w_disk w' = w_disk w /\ w_trace w' = w_trace w.
Proof.
  intros Hrel Hb Hk Hv. destruct (tx_put_ok b k v _ Hb Hk Hv) as (tx & E & U).
  eapply db_update_reliable; [done| |exact U]. by apply wrap_error_Ret.
Qed.

Lemma deletes_reliable b ks g w :
  reliable -> has_bucket w b = true ->
  exists w', db_update (for_each ks (fun k => wrap_error g (tx_delete b k))) w = (Ret tt, w') /\
    db_updated b (remove_keys ks) w w' /\ w_disk w' = w_disk w /\ w_trace w' = w_trace w.
Proof.
  intros Hrel Hb.
  assert (forall tx, tx_bucket tx b = true -> exists tx',
    for_each ks (fun k => wrap_error g (tx_delete b k)) tx = (Ret tt, tx')) as Hok.
  { induction ks as [|k ks IH]; intros tx Htx; simpl; [by eauto|].
    destruct (tx_delete_ok b k tx Htx) as (tx1 & E & U).
    erewrite bind_Ret by (by apply wrap_error_Ret). apply IH. by rewrite (proj1 U). }
  destruct (Hok _ Hb) as [tx E]. eapply db_update_reliable; [done|exact E|].
  by destruct (tx_touches_deletes b ks g _ _ _ Hb E) as [[_ ?]|[? ?]].
Qed.

(** One transaction over two buckets: both change or none does. *)
Lemma db_update_two b1 b2 f g (m1 m2 : M Tx unit) w o w' :
  b1 <> b2 -> has_bucket w b1 = true -> has_bucket w b2 = true ->
  tx_touches b1 f m1 -> tx_touches b2 g m2 ->
  db_update (m1;; m2) w = (o, w') ->
  (o = Ret tt /\ (forall b, has_bucket w' b = has_bucket w b) /\
   bucket_of w' b1 = f (bucket_of w b1) /\ bucket_of w' b2 = g (bucket_of w b2) /\
   (forall b, b <> b1 -> b <> b2 -> bucket_of w' b = bucket_of w b)) \/
  (exists e, o = Fail e /\ same_db w' w).
Proof.
  intros Hne Hb1 Hb2 Ht1 Ht2. unfold db_update, mbind, M_bind.
  destruct (m1 (tx_begin (w_db w))) as [o1 tx1] eqn:E1.
  destruct (Ht1 _ _ _ Hb1 E1) as [[-> (B1 & M1 & O1)]|[e ->]]; last first.
  { intros [= <- <-]. right. by eexists. }
  destruct (m2 tx1) as [o2 tx2] eqn:E2.
  destruct (Ht2 tx1 _ _ (eq_trans (B1 b2) Hb2) E2) as [[-> (B2 & M2 & O2)]|[e ->]]; last first.
  { intros [= <- <-]. right. by eexists. }
  destruct (tx_commit (w_db w) tx2) as [[e|] d] eqn:C; intros [= <- <-].
  { right. eexists. split; [done|]. by apply tx_commit_err in C. }
  apply tx_commit_ok in C. left. unfold has_bucket, bucket_of. simpl.
  split_and!; [done|intros b; rewrite (proj1 (C b)); congruence|..].
  - by rewrite (proj2 (C b1)), O2, M1.
  - by rewrite (proj2 (C b2)), M2, O1.
  - intros b ? ?. by rewrite (proj2 (C b)), O2, O1.
Qed.

(** A property of the contents of the database, invariant under [≡]. *)
Class DbInv (P : world -> Prop) : Prop :=
  db_inv_proper :: Proper (same_db ==> iff) P.

Lemma preserves_touches (P : world -> Prop) `{!DbInv P} b f m :
  touches b f m -> (forall w, P w -> has_bucket w b = true) ->
  (forall w w', P w -> db_updated b f w w' -> P w') -> preserves P m.
Proof.
  intros Ht Hb Hf w Hw. destruct (m w) as [o w'] eqn:E.
  destruct (Ht w o w' (Hb w Hw) E) as (_ & _ & [[_ ?]|(? & _ & Hs)]); simpl.
  - by eapply Hf.
  - by rewrite Hs.
Qed.

(** Effects on the disk, the network and the clock leave the database alone. *)
Lemma preserves_db_state (P : world -> Prop) `{!DbInv P} {A} (m : Hub A) :
  (forall w, w_db (m w).2 = w_db w) -> preserves P m.
Proof.
  intros Hm w Hw. assert (same_db w (m w).2) as E.
  { unfold same_db. by rewrite Hm. }
  by rewrite <-E.
Qed.
Lemma preserves_time_now P `{!DbInv P} : preserves P time_now.
Proof. by apply preserves_db_state. Qed.
Lemma preserves_new_uuid P `{!DbInv P} : preserves P new_uuid.
Proof. by apply preserves_db_state. Qed.
Lemma preserves_disk_op P `{!DbInv P} f : preserves P (disk_op f).
Proof.
  apply preserves_db_state; [done|]. intros w. unfold disk_op. by destruct (f _) as [[] ?].
Qed.
Lemma preserves_http_get P `{!DbInv P} url : preserves P (http_get url).
Proof.
  apply preserves_db_state; [done|]. intros w. unfold http_get.
  by destruct (env_http _ _) as [|[]].
Qed.
Lemma preserves_wrap_error (P : world -> Prop) {A} g (m : Hub A) :
  preserves P m -> preserves P (wrap_error g m).
Proof.
  intros Hm w Hw. specialize (Hm w Hw). unfold wrap_error.
  by destruct (m w) as [[] ?].
Qed.

Lemma safe_db_state (P : world -> Prop) `{!DbInv P} {A} (m : Hub A) :
  (forall w, w_db (m w).2 = w_db w) -> (forall w, is_result (m w).1) -> safe P m.
Proof. intros Hd Hr w Hw. split; [by apply (preserves_db_state P)|done]. Qed.
Lemma safe_time_now P `{!DbInv P} : safe P time_now.
Proof. by apply safe_db_state. Qed.
Lemma safe_new_uuid P `{!DbInv P} : safe P new_uuid.
Proof. by apply safe_db_state. Qed.
Lemma safe_range_map P {V} (m : gmap string V) : safe P (range_map m).
Proof. by intros w ?. Qed.
Lemma safe_range_int_map P {V} (m : gmap Z V) : safe P (range_int_map m).
Proof. by intros w ?. Qed.
Lemma safe_http_get P `{!DbInv P} url : safe P (http_get url).
Proof.
  apply safe_db_state; [done|..]; intros w; unfold http_get;
    by destruct (env_http _ _) as [|[]].
Qed.
Lemma safe_disk_op P `{!DbInv P} f : safe P (disk_op f).
Proof.
  apply safe_db_state; [done|..]; intros w; unfold disk_op; by destruct (f _) as [[] ?].
Qed.
Lemma safe_touches (P : world -> Prop) `{!DbInv P} b f m :
  touches b f m -> (forall w, P w -> has_bucket w b = true) ->
  (forall w w', P w -> db_updated b f w w' -> P w') -> safe P m.
Proof.
  intros Ht Hb Hf w Hw. split; [by eapply preserves_touches|].
  destruct (m w) as [o w'] eqn:E.
  by destruct (Ht w o w' (Hb w Hw) E) as (_ & _ & [[-> _]|(? & -> & _)]).
Qed.
End Storage.

#[export] Hint Extern 0 (DbInv _) => typeclasses eauto : hub.
#[export] Hint Resolve safe_time_now safe_new_uuid safe_range_map safe_range_int_map safe_http_get safe_disk_op : hub.
#[export] Hint Resolve preserves_db_view preserves_time_now preserves_new_uuid
  preserves_disk_op preserves_http_get preserves_wrap_error : hub.
