(* ===== verification/Logger.v ===== *)
(** [logger/logger.go]: [Logger.Log], which builds a telemetry message of an event
    type and sends its JSON text to the upstream proxy.  The local log file of
    [Log_old] is in [LogFile]. *)
From S2P Require Import Prelude GoStrings LogData Host Storage.

Record Logger := {
  deviceId : string;
  applicationName : string;
  applicationVersion : string;
  upstreamAddress : string;
}.

Definition valid_types : list EventType :=
  [Liveness; LivenessNumeric; Debug_; Info_; Warning; Error; Critical;
   AssetDeleteOnDeviceByScheduler; AssetDownloadOnDeviceFromSES;
   TotalNumberOfAssetsOnTheDevice; Memory; HubStorageAvailable; TotalStorage;
   TelemetryCommandMessage].

(** [EventType.isValid]: the error, if any *)
Definition isValid (lt : EventType) : option error :=
  if decide (lt ∈ valid_types) then None else Some ("Invalid log type " +:+ lt).

Definition if_type {A} (a b : EventType) (v zero : A) : A := if decide (a = b) then v else zero.

(** The message [Log] builds, the [switch] included. *)
Definition make_message (l : Logger) (eventType : string) (subType : MessageSubType)
    (now : Z) (eventId : string) : TelemetryMessage :=
  {| DeviceIdInData := deviceId l;
     ApplicationName := applicationName l;
     ApplicationVersion := applicationVersion l;
     Timestamp := now / 1000000000;
     tm_AssetDeleteOnDeviceByScheduler :=
       if_type eventType AssetDeleteOnDeviceByScheduler (Some (sm_ContentsInfo subType)) None;
     tm_AssetDeleteOnDeviceByCommand :=
       if_type eventType AssetDeleteOnDeviceByCommand (Some (sm_ContentsInfo subType)) None;
     tm_AssetDownloadOnDeviceFromSES :=
       if_type eventType AssetDownloadOnDeviceFromSES (Some (sm_ContentsInfo subType)) None;
     tm_AssetDownloadOnDeviceByCommand :=
       if_type eventType AssetDownloadOnDeviceByCommand (Some (sm_ContentsInfo subType)) None;
     tm_TelemetryCommandMessage :=
       if_type eventType TelemetryCommandMessage (Some (sm_TelemetryCommandData subType)) None;
     tm_TotalNumberOfAssetsOnTheDevice :=
       if_type eventType TotalNumberOfAssetsOnTheDevice (Integer subType) 0%Z;
     tm_HubStorageAvailable :=
       if_type eventType HubStorageAvailable (FloatValue subType) (S754_zero false);
     tm_TotalStorage := if_type eventType TotalStorage (FloatValue subType) (S754_zero false);
     tm_Memory := if_type eventType Memory (FloatValue subType) (S754_zero false);
     tm_Liveness := if_type eventType Liveness (StringMessage subType) EmptyString;
     tm_LivenessNumeric := if_type eventType LivenessNumeric (Integer subType) 0%Z;
     tm_InvalidCommandOnDevice :=
       if_type eventType InvalidCommandOnDevice (StringMessage subType) EmptyString;
     tm_Error := if_type eventType Error (StringMessage subType) EmptyString;
     tm_Critical := if_type eventType Critical (StringMessage subType) EmptyString;
     tm_Warning := if_type eventType Warning (StringMessage subType) EmptyString;
     tm_Info := if_type eventType Info_ (StringMessage subType) EmptyString;
     tm_Debug := if_type eventType Debug_ (StringMessage subType) EmptyString;
     tm_EventType := eventType;
     tm_EventId := eventId |}.

Section Logger.
Context `{Bolt, Disk, Env, Json TelemetryMessage}.

(** Dial, then call [SendTelemetry] with the text of [tm]. *)
Definition sendGrpcUpstream (l : Logger) (tm : TelemetryMessage) (message : string) : Hub unit :=
  fun w =>
    match env_dial (w_trace w) (upstreamAddress l) with
    | Some e => (Fail e, w)
    | None =>
        match env_send (w_trace w) (applicationName l) message with
        | Some e => (Fail e, log_event (EvTelemetry tm false) w)
        | None => (Ret tt, log_event (EvTelemetry tm true) w)
        end
    end.

Definition Log (l : Logger) (eventType : string) (subType : MessageSubType) : Hub unit :=
  match isValid eventType with
  | Some _ => fail ("[Logger]invalid message type " +:+ eventType)
  | None =>
      now ← time_now;
      eventId ← new_uuid;
      let tm := make_message l eventType subType now eventId in
      match json_marshal tm with
      | inl err => fail ("[LoggerGRPC] error in creating grpc message: " +:+ err)
      | inr msgString =>
          wrap_error (fun e => "[LoggerGRPC] error in sending upstream: " +:+ e)
            (sendGrpcUpstream l tm msgString)
      end
  end.

(** Telemetry leaves the database alone. *)
Lemma Log_db l eventType subType w : w_db (Log l eventType subType w).2 = w_db w.
Proof.
  unfold Log. destruct (isValid eventType); [done|].
  unfold mbind, M_bind, time_now, new_uuid. simpl.
  destruct (json_marshal _); [done|]. unfold wrap_error, sendGrpcUpstream. simpl.
  destruct (env_dial _ _); [done|]. by destruct (env_send _ _ _).
Qed.

Lemma Log_disk l eventType subType w : w_disk (Log l eventType subType w).2 = w_disk w.
Proof.
  unfold Log. destruct (isValid eventType); [done|].
  unfold mbind, M_bind, time_now, new_uuid. simpl.
  destruct (json_marshal _); [done|]. unfold wrap_error, sendGrpcUpstream. simpl.
  destruct (env_dial _ _); [done|]. by destruct (env_send _ _ _).
Qed.

(** It never panics either. *)
Lemma Log_outcome l eventType subType w :
  (exists w', Log l eventType subType w = (Ret tt, w')) \/
  (exists e w', Log l eventType subType w = (Fail e, w')).
Proof.
  unfold Log. destruct (isValid eventType); [by eauto|].
  unfold mbind, M_bind, time_now, new_uuid. simpl.
  destruct (json_marshal _); [by eauto|]. unfold wrap_error, sendGrpcUpstream. simpl.
  destruct (env_dial _ _); [by eauto|]. destruct (env_send _ _ _); by eauto.
Qed.

(** What a call of [Log] adds to the trace. *)
Lemma Log_trace l eventType subType w o w' : Log l eventType subType w = (o, w') ->
  w_trace w `prefix_of` w_trace w' /\
  (o = Ret tt -> exists now id,
    EvTelemetry (make_message l eventType subType now id) true ∈ w_trace w').
Proof.
  unfold Log. destruct (isValid eventType); [by intros [= <- <-]|].
  unfold mbind, M_bind, time_now, new_uuid, log_event. simpl.
  destruct (json_marshal _).
  { intros [= <- <-]. simpl. split; [|done]. rewrite <-app_assoc. by apply prefix_app_r. }
  unfold wrap_error, sendGrpcUpstream. simpl.
  destruct (env_dial _ _); [|destruct (env_send _ _ _)]; intros [= <- <-]; simpl;
    rewrite <-!app_assoc; (split; [by apply prefix_app_r|]); try done.
  intros _. eexists _, _. apply elem_of_app. right. simpl. do 2 right. by left.
Qed.
End Logger.

Lemma preserves_Log `{Bolt, Disk, Env, Json TelemetryMessage} (P : world -> Prop) `{!DbInv P}
    l eventType subType : preserves P (Log l eventType subType).
Proof. apply preserves_db_state; [done|]. intros w. apply Log_db. Qed.
Lemma safe_Log `{Bolt, Disk, Env, Json TelemetryMessage} (P : world -> Prop) `{!DbInv P}
    l eventType subType : safe P (Log l eventType subType).
Proof.
  apply safe_db_state; [done|intros w; apply Log_db|]. intros w.
  by destruct (Log_outcome l eventType subType w) as [[? ->]|(? & ? & ->)].
Qed.
#[export] Hint Resolve preserves_Log safe_Log : hub.
