(* ===== verification/CloudData.v ===== *)
(** [cloudapihandler/api_handler.go], lines 20-92: the requests that wait in the
    pending bucket and the bodies sent to the cloud. *)
From S2P Require Import Prelude GoStrings GoFloat LogData Host.

(** The integer type [Type]; JSON can hold any integer, the program uses four. *)
Definition Type_ : Type := Z.
Definition Downloaded : Type_ := 0%Z.
Definition Deleted : Type_ := 1%Z.
Definition Provisioned : Type_ := 2%Z.
Definition FilterUpdated : Type_ := 3%Z.

Record Property := { Key : string; Value : string }.

Record ApiData := {
  Id : string;
  ApiType : Type_;
  RetryCount : Z;
  OperationTime : Z;
  SendCloudTelemetry : bool;
  SendIOTCentralTelemetry : bool;
  Properties : list Property;
}.

(** Field assignments. *)
Definition set_cloud_flag (v : bool) (d : ApiData) : ApiData :=
  {| Id := Id d; ApiType := ApiType d; RetryCount := RetryCount d;
     OperationTime := OperationTime d; SendCloudTelemetry := v;
     SendIOTCentralTelemetry := SendIOTCentralTelemetry d; Properties := Properties d |}.
Definition set_iot_flag (v : bool) (d : ApiData) : ApiData :=
  {| Id := Id d; ApiType := ApiType d; RetryCount := RetryCount d;
     OperationTime := OperationTime d; SendCloudTelemetry := SendCloudTelemetry d;
     SendIOTCentralTelemetry := v; Properties := Properties d |}.
(** [int] is 64 bits wide: [RetryCount++] wraps. *)
Definition wrap64 (z : Z) : Z := ((z + 2 ^ 63) mod 2 ^ 64 - 2 ^ 63)%Z.
Definition incr_retry (d : ApiData) : ApiData :=
  {| Id := Id d; ApiType := ApiType d; RetryCount := wrap64 (RetryCount d + 1);
     OperationTime := OperationTime d; SendCloudTelemetry := SendCloudTelemetry d;
     SendIOTCentralTelemetry := SendIOTCentralTelemetry d; Properties := Properties d |}.

Record ContentData := {
  cd_ContentId : string;
  cd_OperationTime : Z;
}.
Record ContentProperties_ := {
  cp_Size : float64;
  cp_ContentId : string;
  cp_ContainerLocation : string;
  cp_OperationTime : Z;
  cp_SesCID : string;
  cp_BroadcastCommandId : string;
}.
Record UpdateRequest := {
  ur_DeviceId : string;
  ur_Contents : list ContentData;
}.
Record ProvisionDeviceRequest := { pr_DeviceId : string }.
Record CommandStatusRequest := {
  cs_DeviceId : string;
  cs_CommandId : string;
  cs_IsFailed : bool;
  cs_FailureReason : string;
}.

(** The times [time.Time] marshals: the years 0 to 9999 in the time's own zone,
    which the model leaves out, so a day is kept clear at both ends. *)
Definition json_time (t : Z) : Prop := (-62167132800000000000 <= t < 253402214400000000000)%Z.
#[export] Instance json_time_dec t : Decision (json_time t).
Proof. unfold json_time. apply _. Defined.

(** [responseMap[property.Key] = property.Value] in a loop: the last value of a
    key wins; a missing key reads as the empty string. *)
Definition response_map (ps : list Property) : gmap string string :=
  foldl (fun m p => <[Key p := Value p]> m) ∅ ps.
Definition response_get (m : gmap string string) (k : string) : string :=
  default EmptyString (m !! k).

#[export] Instance Property_eq_dec : EqDecision Property.
Proof. solve_decision. Defined.
#[export] Instance ApiData_eq_dec : EqDecision ApiData.
Proof. unfold Type_. solve_decision. Defined.
#[export] Instance ContentData_eq_dec : EqDecision ContentData.
Proof. solve_decision. Defined.

(** Whether JSON can hold a request depends on its strings and its time only. *)
Class ApiJson `{Json ApiData} : Prop := {
  api_json_laws :: JsonLaws ApiData;
  wf_retry d : json_wf d -> json_wf (incr_retry d);
  wf_cloud v d : json_wf d -> json_wf (set_cloud_flag v d);
  wf_iot v d : json_wf d -> json_wf (set_iot_flag v d);
}.

(** ** Machine integers *)

Lemma wrap64_bounds z : (- 2 ^ 63 <= wrap64 z < 2 ^ 63)%Z.
Proof. unfold wrap64. pose proof (Z.mod_pos_bound (z + 2 ^ 63) (2 ^ 64) ltac:(lia)). lia. Qed.
Lemma wrap64_id z : (- 2 ^ 63 <= z < 2 ^ 63)%Z -> wrap64 z = z.
Proof. intros Hz. unfold wrap64. rewrite Z.mod_small; lia. Qed.
Lemma wrap64_add_l a b : wrap64 (wrap64 a + b) = wrap64 (a + b).
Proof.
  unfold wrap64. f_equal.
  replace ((a + 2 ^ 63) mod 2 ^ 64 - 2 ^ 63 + b + 2 ^ 63)%Z with ((a + 2 ^ 63) mod 2 ^ 64 + b)%Z by lia.
  rewrite Z.add_mod_idemp_l by lia. f_equal. lia.
Qed.
