(* ===== verification/FlatIndex.v ===== *)
(** [filesys/filesys.go], lines 1-452: the flat index of the contents on the
    device.  Three buckets: [AssetPathMapping] (content id to the JSON of a
    [ContentInfoOnDevice]), [SatelliteIdtoAssetIdMapping] (satellite id to
    content id) and [PendingAPIRequestMapping] (key to the JSON of a request
    that the cloud has not acknowledged yet). *)
From S2P Require Import Prelude GoStrings Host Storage.

(** ** Data *)

Record FileSystem := {
  nodeLength : nat;
  homeNode : string;
  homeDirLocation : string;
}.

(** [ContentInfoOnDevice] of [filesys] and [cloudapihandler], and [ContentInfo] of
    the main package: the same fields, so the same JSON.  Times are in
    nanoseconds since the Unix epoch, in UTC. *)
Record ContentInfoOnDevice := {
  DownloadTime : Z;
  FolderPath : string;
  CommandId : string;
}.

Definition AssetPathMapping : string := "AssetPathMapping".
Definition SatelliteIdtoAssetIdMapping : string := "SatelliteIdtoAssetIdMapping".
Definition PendingAPIRequestMapping : string := "PendingAPIRequestMapping".

(** [strings.Repeat] *)
Fixpoint repeat_string (s : string) (n : nat) : string :=
  match n with 0 => EmptyString | S n' => s +:+ repeat_string s n' end.

(** [fmt.Errorf] with an operand no verb consumes *)
Definition extra (fmt arg : string) : string := fmt +:+ "%!(EXTRA string=" +:+ arg +:+ ")".

Definition stringInSlice (list : list string) (a : string) : bool :=
  existsb (fun b => bool_decide (b = a)) list.

Section FlatIndex.
Context `{Bolt, Disk, Env, Json ContentInfoOnDevice}.

(** ** Operations *)

(** The struct [MakeFileSystem] returns; opening the database file is left out:
    a database is part of the state. *)
Definition MakeFileSystem (homeDir : string) : FileSystem :=
  {| nodeLength := 36; homeNode := repeat_string "z" 36; homeDirLocation := homeDir |}.

Definition CreateBucket (bucket_name : string) : Hub unit :=
  db_update (wrap_error (fun e => "[Filesystem][CreateBucket] " +:+ e)
    (tx_new_bucket bucket_name)).

Definition InitFileSystem : Hub unit :=
  CreateBucket AssetPathMapping;;
  CreateBucket SatelliteIdtoAssetIdMapping;;
  CreateBucket PendingAPIRequestMapping.

Definition DoesContentIdExist (id : string) : Hub bool :=
  db_view (
    value ← tx_get AssetPathMapping id;
    mret (match value with Some _ => true | None => false end)).

Definition GetAssetFolderPathFromDB (id : string) : Hub string :=
  db_view (
    info ← tx_get AssetPathMapping id;
    match info with
    | None => fail ("folder info for " +:+ id +:+ " does not exist")
    | Some info => mret info
    end).

(** The value comes with the error of [json.Unmarshal], which replaces the one of
    the transaction. *)
Definition GetBroadcastCommandId (contentId : string) : Hub (string * option error) :=
  infoByte ← ignore! EmptyString of (db_view (
    infoByte ← tx_get AssetPathMapping contentId;
    match infoByte with
    | None => fail (extra "Error in getting commandId for contentID: " contentId)
    | Some b => mret b
    end));
  let '(info, err) := json_unmarshal infoByte in
  mret (CommandId info, err).

Definition GetContentIdFromSatelliteId (satelliteId : string) : Hub string :=
  db_view (
    infoByte ← tx_get SatelliteIdtoAssetIdMapping satelliteId;
    match infoByte with
    | None => fail (extra "Error in getting contentID for sateliteid: " satelliteId)
    | Some b => mret b
    end).

Definition CreateSatelliteIndexing (cid assetId contentInfo : string) : Hub unit :=
  db_update (
    wrap_error (fun e => "[Filesystem][CreateSatelliteIndexing] " +:+ e)
      (tx_put SatelliteIdtoAssetIdMapping cid assetId);;
    wrap_error (fun e => "[Filesystem][CreateSatelliteIndexing] " +:+ e)
      (tx_put AssetPathMapping assetId contentInfo)).

Definition GetSatelliteMappedItems : Hub (gmap string string) :=
  ignore! ∅ of (db_view (
    kvs ← tx_list SatelliteIdtoAssetIdMapping;
    mret (list_to_map kvs : gmap string string))).

Definition DeleteSatelliteIds (deleteIds : list string) : Hub unit :=
  db_update (for_each deleteIds (fun item =>
    wrap_error (fun e => "[Filesystem][DeleteSatelliteIds] " +:+ e)
      (tx_delete SatelliteIdtoAssetIdMapping item))).

Definition DeleteAssetMapping (deleteIds : list string) : Hub unit :=
  db_update (for_each deleteIds (fun item =>
    wrap_error (fun e => "[Filesystem][DeleteAssetMapping] " +:+ e)
      (tx_delete AssetPathMapping item))).

(** The values of the pending bucket, in key order; none without the bucket. *)
Definition GetPendingApiRequests : Hub (list string) :=
  ignore! [] of (db_view (fun tx =>
    if tx_bucket tx PendingAPIRequestMapping
    then (Ret (bkt_list tx PendingAPIRequestMapping).*2, tx)
    else (Ret [], tx))).

Definition AddProvisionedStatus (deviceId data : string) : Hub unit :=
  db_update (wrap_error (fun e => "[AddProvisionedStatus] " +:+ e)
    (tx_put PendingAPIRequestMapping deviceId data)).

Definition AddCommandStatus (commandId data : string) : Hub unit :=
  db_update (wrap_error (fun e => "[AddCommandStatus] " +:+ e)
    (tx_put PendingAPIRequestMapping commandId data)).

(** [for i := 0; i < len(contentIds); i++ { b.Put(contentIds[i], data[i]) }]: a
    failing [Put] is only logged, an index beyond [data] panics. *)
Fixpoint put_contents (contentIds data : list string) : M Tx unit :=
  match contentIds, data with
  | [], _ => mret tt
  | id :: contentIds', d :: data' =>
      ignore! tt of (tx_put PendingAPIRequestMapping id d);;
      put_contents contentIds' data'
  | _ :: _, [] => panic "index out of range"
  end.
Definition AddContents (contentIds data : list string) : Hub unit :=
  db_update (put_contents contentIds data).

Definition AddContent (contentId data : string) : Hub unit :=
  db_update (ignore! tt of (tx_put PendingAPIRequestMapping contentId data)).

Definition DeletePendingAPIRequestEntries (data : list string) : Hub unit :=
  db_update (for_each data (fun value =>
    wrap_error (fun e => "[PendingAPIRequestMapping][DeleteRequest] " +:+ e)
      (tx_delete PendingAPIRequestMapping value))).

Definition GetAssetInfoMapItems : Hub (gmap string string) :=
  ignore! ∅ of (db_view (
    kvs ← tx_list AssetPathMapping;
    mret (list_to_map kvs : gmap string string))).

(** What is printed does not matter; a missing bucket does. *)
Definition PrintBuckets : Hub unit :=
  db_view (tx_list AssetPathMapping;; tx_list SatelliteIdtoAssetIdMapping;; tx_list PendingAPIRequestMapping;; mret tt).

(** A fresh node name: [uuid.New()] until it differs from the home node. *)
Fixpoint RandStringBytes (fuel : nat) (homeNode : string) : Hub string :=
  match fuel with
  | 0 => out_of_fuel
  | S fuel' =>
      b ← new_uuid;
      if decide (b = homeNode) then RandStringBytes fuel' homeNode else mret b
  end.

(** [dfunc] is the caller's download function. *)
Definition DownloadAndCreateIndexing (fuel : nat) (fs : FileSystem) (assetId : string)
    (dfunc : string -> list (list string) -> Hub unit)
    (downloadParams : list (list string)) : Hub unit :=
  node ← RandStringBytes fuel (homeNode fs);
  let path := path_join [homeDirLocation fs; homeNode fs; node] in
  disk_op (os_mkdir_all path);;
  r ← try! (dfunc path downloadParams);
  match r with
  | inl err => disk_op (os_remove_all path);; fail err
  | inr _ =>
      (* the error of the transaction is dropped: the function returns nil *)
      ignore! tt of (db_update (
        wrap_error (fun e => "[Filesystem][DownloadAndCreateIndexing] " +:+ e)
          (tx_put AssetPathMapping assetId path)))
  end.

Definition GetHomeFolder (fs : FileSystem) : string :=
  path_join [homeDirLocation fs; homeNode fs].
End FlatIndex.

(** ** The flat index as three maps *)
Section Facts.
Context `{Bolt, Disk, Env, Json ContentInfoOnDevice} `{!BoltLaws}.
Implicit Types (w : world).

(** The abstract state: satellite id to content id, content id to information, and
    the queue of pending requests. *)
Definition sat w : gmap string string := bucket_of w SatelliteIdtoAssetIdMapping.
Definition assets w : gmap string string := bucket_of w AssetPathMapping.
Definition pending w : gmap string string := bucket_of w PendingAPIRequestMapping.

(** [InitFileSystem] has run. *)
Definition ready w : Prop :=
  has_bucket w SatelliteIdtoAssetIdMapping = true /\
  has_bucket w AssetPathMapping = true /\
  has_bucket w PendingAPIRequestMapping = true.

#[export] Instance sat_proper : Proper (same_db ==> (=)) sat.
Proof. intros w w' E. unfold sat. by rewrite E. Qed.
#[export] Instance assets_proper : Proper (same_db ==> (=)) assets.
Proof. intros w w' E. unfold assets. by rewrite E. Qed.
#[export] Instance pending_proper : Proper (same_db ==> (=)) pending.
Proof. intros w w' E. unfold pending. by rewrite E. Qed.
#[export] Instance ready_proper : Proper (same_db ==> iff) ready.
Proof. intros w w' E. unfold ready. by rewrite E. Qed.

Lemma ready_updated b f w w' : db_updated b f w w' -> ready w -> ready w'.
Proof. intros U. unfold ready. by rewrite !(db_updated_has _ _ _ _ _ U). Qed.

(** One bucket changes, the others do not. *)
Lemma sat_updated f w w' : db_updated SatelliteIdtoAssetIdMapping f w w' ->
  sat w' = f (sat w) /\ assets w' = assets w /\ pending w' = pending w.
Proof.
  intros U. split_and!; [by eapply db_updated_bucket| |];
    by (eapply db_updated_other; [exact U|done]).
Qed.
Lemma assets_updated f w w' : db_updated AssetPathMapping f w w' ->
  sat w' = sat w /\ assets w' = f (assets w) /\ pending w' = pending w.
Proof.
  intros U. split_and!; [|by eapply db_updated_bucket|];
    by (eapply db_updated_other; [exact U|done]).
Qed.
Lemma pending_updated f w w' : db_updated PendingAPIRequestMapping f w w' ->
  sat w' = sat w /\ assets w' = assets w /\ pending w' = f (pending w).
Proof.
  intros U. split_and!; [| |by eapply db_updated_bucket];
    by (eapply db_updated_other; [exact U|done]).
Qed.

(** *** Queries *)

Lemma DoesContentIdExist_run id w : ready w ->
  DoesContentIdExist id w = (Ret (bool_decide (is_Some (assets w !! id))), w).
Proof.
  intros (_ & Hb & _). unfold DoesContentIdExist, db_view.
  erewrite bind_Ret by (by apply tx_get_run). simpl.
  unfold assets, bucket_of. by destruct (bkt_map _ _ !! id).
Qed.

Lemma GetSatelliteMappedItems_run w : ready w ->
  GetSatelliteMappedItems w = (Ret (sat w), w).
Proof.
  intros (Hb & _ & _). apply ignoring_Ret. unfold db_view.
  erewrite bind_Ret by (by apply tx_list_run). simpl.
  by rewrite list_to_map_sorted_items.
Qed.

Lemma GetAssetInfoMapItems_run w : ready w ->
  GetAssetInfoMapItems w = (Ret (assets w), w).
Proof.
  intros (_ & Hb & _). apply ignoring_Ret. unfold db_view.
  erewrite bind_Ret by (by apply tx_list_run). simpl.
  by rewrite list_to_map_sorted_items.
Qed.

Lemma GetPendingApiRequests_run w : ready w ->
  GetPendingApiRequests w = (Ret (sorted_items (pending w)).*2, w).
Proof.
  intros (_ & _ & Hb). apply ignoring_Ret. unfold db_view.
  unfold has_bucket in Hb. rewrite Hb. simpl. by rewrite bkt_list_sorted.
Qed.

Lemma GetContentIdFromSatelliteId_run id w : ready w ->
  ignoring EmptyString (GetContentIdFromSatelliteId id) w =
    (Ret (default EmptyString (sat w !! id)), w).
Proof.
  intros (Hb & _ & _). by apply ignoring_view_lookup.
Qed.

(** The command id of a content: that of its record, empty without one. *)
Definition command_of (m : gmap string string) (id : string) : string :=
  CommandId (json_unmarshal (default EmptyString (m !! id))).1.

Lemma GetBroadcastCommandId_run id w : ready w ->
  exists err, GetBroadcastCommandId id w = (Ret (command_of (assets w) id, err), w).
Proof.
  intros (_ & Hb & _). unfold GetBroadcastCommandId, command_of.
  erewrite bind_Ret by (by apply ignoring_view_lookup).
  unfold assets. destruct (json_unmarshal _) as [info err]. by eexists.
Qed.

(** *** Buckets *)

Lemma CreateBucket_cases b w o w' : CreateBucket b w = (o, w') ->
  is_result o /\
  (forall b', has_bucket w b' = true -> has_bucket w' b' = true /\ bucket_of w' b' = bucket_of w b') /\
  (o = Ret tt -> has_bucket w' b = true /\ (has_bucket w b = false -> bucket_of w' b = ∅)) /\
  (forall b', b' <> b -> has_bucket w' b' = has_bucket w b').
Proof.
  intros Hr. destruct (db_update_atomic _ _ _ _ Hr) as (_ & _ & Hc). split.
  { revert Hr. unfold CreateBucket, db_update, wrap_error, tx_new_bucket.
    destruct (tx_create_bucket _ _); [by intros [= <- <-]|].
    destruct (tx_commit _ _) as [[] ?]; by intros [= <- <-]. }
  destruct Hc as [(a & tx & Hf & -> & Heq)|[Hne Hs]]; last first.
  { assert (same_db w' w) as Hs' by done.
    split_and!; [|intros ->; by destruct (Hne tt)|]; intros b' Hb; by rewrite Hs'. }
  unfold wrap_error, tx_new_bucket in Hf.
  destruct (tx_create_bucket _ b) as [e|tx1] eqn:E; simplify_eq.
  destruct (tx_create_bucket_spec _ _ _ E) as (Hh & Hold & Hnew).
  unfold has_bucket, bucket_of. setoid_rewrite Heq. split_and!.
  - intros b' Hb. rewrite Hh, Hb. split; [done|]. by apply Hold.
  - intros _. rewrite Hh, bool_decide_eq_true_2, orb_true_r by done. by split.
  - intros b' Hne. by rewrite Hh, bool_decide_eq_false_2, orb_false_r.
Qed.

(** *** Updates *)

Lemma DeleteSatelliteIds_touches ids :
  touches SatelliteIdtoAssetIdMapping (remove_keys ids) (DeleteSatelliteIds ids).
Proof. apply touches_update, tx_touches_deletes. Qed.
Lemma DeleteAssetMapping_touches ids :
  touches AssetPathMapping (remove_keys ids) (DeleteAssetMapping ids).
Proof. apply touches_update, tx_touches_deletes. Qed.
Lemma DeletePending_touches ids :
  touches PendingAPIRequestMapping (remove_keys ids) (DeletePendingAPIRequestEntries ids).
Proof. apply touches_update, tx_touches_deletes. Qed.
Lemma AddProvisionedStatus_touches id data :
  touches PendingAPIRequestMapping <[id := data]> (AddProvisionedStatus id data).
Proof. apply touches_update, tx_touches_put. Qed.
Lemma AddCommandStatus_touches id data :
  touches PendingAPIRequestMapping <[id := data]> (AddCommandStatus id data).
Proof. apply touches_update, tx_touches_put. Qed.

(** [AddContents] writes the pairs whose keys and values bolt accepts. *)
Inductive puts_some : list (string * string) -> gmap string string -> gmap string string -> Prop :=
  | puts_nil m : puts_some [] m m
  | puts_skip k v l m m' : ~ (key_ok k /\ value_ok v) -> puts_some l m m' ->
      puts_some ((k, v) :: l) m m'
  | puts_put k v l m m' : puts_some l (<[k := v]> m) m' -> puts_some ((k, v) :: l) m m'.

Lemma put_contents_run ids data tx o tx' :
  tx_bucket tx PendingAPIRequestMapping = true -> put_contents ids data tx = (o, tx') ->
  (o = Ret tt /\ exists f, bkt_updated PendingAPIRequestMapping f tx tx' /\
     puts_some (zip ids data) (bkt_map tx PendingAPIRequestMapping)
       (bkt_map tx' PendingAPIRequestMapping)) \/
  (length data < length ids /\ exists s, o = Panic s).
Proof.
  revert data tx. induction ids as [|id ids IH]; intros data tx Hb.
  { intros [= <- <-]. left. split; [done|]. exists Datatypes.id.
    split; [apply bkt_updated_refl|constructor]. }
  destruct data as [|d data]; simpl; [intros [= <- <-]; right; split; [lia|by eexists]|].
  destruct (tx_put PendingAPIRequestMapping id d tx) as [o1 tx1] eqn:E.
  destruct (tx_put_run _ _ _ _ _ _ Hb E) as [[-> U]|(e & -> & ->)].
  - erewrite bind_Ret by (by apply ignoring_Ret). intros Hr.
    destruct (IH data tx1) as [(-> & f & Uf & Hp)|[? ?]]; [by rewrite (proj1 U)|done| |right; split; [lia|done]].
    left. split; [done|]. exists (f ∘ <[id := d]>). split; [by eapply bkt_updated_trans|].
    apply puts_put. by rewrite <-(proj1 (proj2 U)).
  - erewrite bind_Ret by (by eapply ignoring_Fail). intros Hr.
    destruct (IH data tx) as [(-> & f & Uf & Hp)|[? ?]]; [done|done| |right; split; [lia|done]].
    left. split; [done|]. exists f. split; [done|]. apply puts_skip; [|done].
    intros [Hk Hv]. destruct (tx_put_ok _ _ _ _ Hb Hk Hv) as (? & E' & _). congruence.
Qed.

(** [AddContents] stores every pair bolt accepts in one transaction, or nothing; it
    panics when there are fewer values than keys. *)
Lemma AddContents_cases ids data w o w' :
  has_bucket w PendingAPIRequestMapping = true -> AddContents ids data w = (o, w') ->
  w_trace w' = w_trace w /\ w_disk w' = w_disk w /\
  ((o = Ret tt /\ (exists f, db_updated PendingAPIRequestMapping f w w') /\
      puts_some (zip ids data) (pending w) (pending w')) \/
   ((exists e, o = Fail e) /\ same_db w' w) \/
   (length data < length ids /\ (exists s, o = Panic s) /\ same_db w' w)).
Proof.
  intros Hb Hr. destruct (db_update_atomic _ _ _ _ Hr) as (Hd & Ht & Hc).
  split_and!; [done|done|]. revert Hr. unfold AddContents, db_update.
  destruct (put_contents ids data (tx_begin (w_db w))) as [o1 tx1] eqn:E.
  destruct (put_contents_run _ _ _ _ _ Hb E) as [(-> & f & U & Hp)|(Hlen & s & ->)].
  - destruct (tx_commit (w_db w) tx1) as [[e|] d] eqn:C; intros [= <- <-].
    + right; left. split; [by eexists|]. by apply tx_commit_err in C.
    + left. apply tx_commit_ok in C. split_and!; [done|..].
      * exists f. eapply bkt_updated_equiv; [exact U|]. by symmetry.
      * unfold pending, bucket_of. simpl. by rewrite (proj2 (C _)).
  - intros [= <- <-]. right; right. split_and!; [done|by eexists|done].
Qed.

Lemma puts_some_nil (m m' : gmap string string) : puts_some [] m m' -> m' = m.
Proof. by inversion 1. Qed.
Lemma puts_some_one k v (m m' : gmap string string) :
  puts_some [(k, v)] m m' -> m' = m \/ m' = <[k := v]> m.
Proof.
  inversion 1 as [|? ? ? ? ? ? Hp|? ? ? ? ? Hp]; subst;
    [left|right]; by apply puts_some_nil in Hp.
Qed.

Lemma puts_some_keeps l (m m' : gmap string string) k :
  puts_some l m m' -> m' !! k = None -> m !! k = None.
Proof.
  induction 1 as [|? ? ? ? ? ? _ IH|k' v l m m' _ IH]; [done|done|].
  intros Hn%IH. apply lookup_insert_None in Hn. tauto.
Qed.

Lemma puts_some_all l (m m' : gmap string string) :
  Forall (fun kv => key_ok kv.1 /\ value_ok kv.2) l -> puts_some l m m' ->
  m' = foldl (fun m kv => <[kv.1 := kv.2]> m) m l.
Proof. intros Hl. induction 1; decompose_Forall_hyps; tauto. Qed.

(** Opening the index creates the buckets that are missing and keeps what the
    others hold. *)
Lemma InitFileSystem_cases w o w' : InitFileSystem w = (o, w') ->
  is_result o /\
  (forall b, has_bucket w b = true -> has_bucket w' b = true /\ bucket_of w' b = bucket_of w b) /\
  (o = Ret tt -> ready w').
Proof.
  unfold InitFileSystem. destruct (CreateBucket AssetPathMapping w) as [o1 w1] eqn:E1.
  destruct (CreateBucket_cases _ _ _ _ E1) as (Ho1 & Hk1 & Hn1 & _).
  destruct o1 as [[]|e| |]; try done; last first.
  { erewrite bind_Fail by exact E1. by intros [= <- <-]. }
  erewrite bind_Ret by exact E1.
  destruct (CreateBucket SatelliteIdtoAssetIdMapping w1) as [o2 w2] eqn:E2.
  destruct (CreateBucket_cases _ _ _ _ E2) as (Ho2 & Hk2 & Hn2 & _).
  assert (forall b, has_bucket w b = true -> has_bucket w2 b = true /\ bucket_of w2 b = bucket_of w b)
    as Hk12.
  { intros b [Hb1 Eb1]%Hk1. destruct (Hk2 b Hb1). split; congruence. }
  destruct o2 as [[]|e| |]; try done; last first.
  { erewrite bind_Fail by exact E2. by intros [= <- <-]. }
  erewrite bind_Ret by exact E2. intros E3.
  destruct (CreateBucket_cases _ _ _ _ E3) as (Ho3 & Hk3 & Hn3 & _). split_and!; [done|..].
  - intros b [Hb1 Eb1]%Hk12. destruct (Hk3 b Hb1). split; congruence.
  - intros ->. destruct (Hn1 eq_refl) as [Ha _]. destruct (Hn2 eq_refl) as [Hs _].
    split_and!; [by apply Hk3|by apply Hk3, Hk2|by apply Hn3].
Qed.

Lemma PrintBuckets_run w : ready w -> PrintBuckets w = (Ret tt, w).
Proof.
  intros (Hs & Ha & Hp). unfold PrintBuckets, db_view. by do 3 (erewrite bind_Ret by (by apply tx_list_run)).
Qed.
Class ReadyInv (P : world -> Prop) : Prop := inv_ready w : P w -> ready w.
Lemma safe_PrintBuckets P `{!ReadyInv P} : safe P PrintBuckets.
Proof. intros w Hw. by rewrite PrintBuckets_run by by apply inv_ready. Qed.
Lemma returns_PrintBuckets P `{!ReadyInv P} : returns P PrintBuckets.
Proof. intros w Hw. exists tt, w. by rewrite PrintBuckets_run by by apply inv_ready. Qed.

(** *** Invariants that the queue does not matter to *)

Class QueueInv (P : world -> Prop) : Prop := {
  qi_db :: DbInv P;
  qi_bucket w : P w -> has_bucket w PendingAPIRequestMapping = true;
  qi_step f w w' : P w -> db_updated PendingAPIRequestMapping f w w' -> P w';
}.

Lemma safe_queue P `{!QueueInv P} f m : touches PendingAPIRequestMapping f m -> safe P m.
Proof.
  intros Ht. apply (safe_touches P _ _ _ Ht); [apply qi_bucket|]. intros. by eapply qi_step.
Qed.

(** [AddContent] stores the pair, or nothing when bolt refuses the pair or the
    commit fails. *)
Lemma AddContent_cases id data w o w' :
  has_bucket w PendingAPIRequestMapping = true -> AddContent id data w = (o, w') ->
  is_result o /\ w_disk w' = w_disk w /\ w_trace w' = w_trace w /\
  (db_updated PendingAPIRequestMapping <[id := data]> w w' \/ same_db w' w).
Proof.
  intros Hb Hr. destruct (db_update_atomic _ _ _ _ Hr) as (Hd & Ht & Hc).
  unfold AddContent, db_update in Hr.
  destruct (tx_put PendingAPIRequestMapping id data (tx_begin (w_db w))) as [o1 tx] eqn:E.
  destruct (tx_put_run _ _ _ _ _ _ Hb E) as [[-> U]|(e & -> & ->)].
  - rewrite (ignoring_Ret _ _ _ _ _ E) in Hr.
    split_and!; [by destruct (tx_commit _ _) as [[] ?]; simplify_eq|done|done|].
    destruct Hc as [(a & tx' & Hf & _ & Heq)|[_ ?]]; [|by right].
    rewrite (ignoring_Ret _ _ _ _ _ E) in Hf. simplify_eq. left.
    by eapply bkt_updated_equiv.
  - rewrite (ignoring_Fail _ _ _ _ _ E) in Hr.
    split_and!; [by destruct (tx_commit _ _) as [[] ?]; simplify_eq|done|done|].
    right. destruct Hc as [(a & tx' & Hf & _ & Heq)|[_ ?]]; [|done].
    rewrite (ignoring_Fail _ _ _ _ _ E) in Hf. by simplify_eq.
Qed.

Lemma safe_AddContent P `{!QueueInv P} id data : safe P (AddContent id data).
Proof.
  intros w Hw. destruct (AddContent id data w) as [o w'] eqn:E.
  destruct (AddContent_cases _ _ _ _ _ (qi_bucket w Hw) E) as (Ho & _ & _ & [U|Hs]);
    (split; [|done]); [by eapply qi_step|simpl; by rewrite Hs].
Qed.

Lemma AddContent_reliable id data w :
  reliable -> ready w -> key_ok id -> value_ok data ->
  exists w', AddContent id data w = (Ret tt, w') /\
    db_updated PendingAPIRequestMapping <[id := data]> w w' /\
    w_disk w' = w_disk w /\ w_trace w' = w_trace w.
Proof.
  intros Hrel (_ & _ & Hb) Hk Hv. destruct (tx_put_ok _ id data _ Hb Hk Hv) as (tx & E & U).
  eapply db_update_reliable; [done| |exact U]. by apply ignoring_Ret.
Qed.
(** A pair bolt accepts is stored by a commit that succeeds. *)
Lemma AddContents_one id data w :
  reliable -> ready w -> key_ok id -> value_ok data ->
  exists w', AddContents [id] [data] w = (Ret tt, w') /\
    db_updated PendingAPIRequestMapping <[id := data]> w w' /\
    w_disk w' = w_disk w /\ w_trace w' = w_trace w.
Proof.
  intros Hrel (_ & _ & Hb) Hk Hv. destruct (tx_put_ok _ id data _ Hb Hk Hv) as (tx & E & U).
  eapply db_update_reliable; [done| |exact U]. simpl.
  by erewrite bind_Ret by (by apply ignoring_Ret).
Qed.

(** *** Storing a request *)

(** The database can hold [d] under [k], and holds it. *)
Definition storable {A} `{Json A} (k : string) (d : A) : Prop :=
  key_ok k /\ exists s, json_marshal d = inr s /\ value_ok s.
Definition queued {A} `{Json A} (k : string) (d : A) w : Prop :=
  exists s, json_marshal d = inr s /\ pending w !! k = Some s.

Lemma storable_marshal {A} `{Json A} k (d : A) s :
  storable k d -> json_marshal d = inr s -> key_ok k /\ value_ok s.
Proof. intros (Hk & s' & E & Hv) Hm. split; [done|]. congruence. Qed.
End Facts.
#[export] Hint Resolve safe_AddContent safe_PrintBuckets returns_PrintBuckets : hub.
#[export] Hint Extern 0 (ReadyInv _) => typeclasses eauto : hub.
#[export] Hint Extern 0 (QueueInv _) => typeclasses eauto : hub.
