(* ===== verification/Sha256.v ===== *)
(** [crypto/sha256] and [encoding/hex], as the hub uses them to compare a file with
    the checksum it was announced with: FIPS 180-4 on 32-bit words, executable. *)
From S2P Require Import Prelude GoStrings.
From Stdlib Require Import Ascii.
#[local] Open Scope Z_scope.

(** ** Words of 32 bits *)

Definition w32 (z : Z) : Z := Z.land z 0xffffffff.
Definition add32 (a b : Z) : Z := w32 (a + b).
Definition rotr (n x : Z) : Z := w32 (Z.lor (Z.shiftr x n) (Z.shiftl x (32 - n))).
Definition not32 (x : Z) : Z := Z.lxor x 0xffffffff.

Definition Ch (x y z : Z) : Z := Z.lxor (Z.land x y) (Z.land (not32 x) z).
Definition Maj (x y z : Z) : Z := Z.lxor (Z.lxor (Z.land x y) (Z.land x z)) (Z.land y z).
Definition Sigma0 (x : Z) : Z := Z.lxor (Z.lxor (rotr 2 x) (rotr 13 x)) (rotr 22 x).
Definition Sigma1 (x : Z) : Z := Z.lxor (Z.lxor (rotr 6 x) (rotr 11 x)) (rotr 25 x).
Definition sigma0 (x : Z) : Z := Z.lxor (Z.lxor (rotr 7 x) (rotr 18 x)) (Z.shiftr x 3).
Definition sigma1 (x : Z) : Z := Z.lxor (Z.lxor (rotr 17 x) (rotr 19 x)) (Z.shiftr x 10).

(** ** Constants

    The first 32 bits of the fractional parts of the cube roots of the first 64 primes,
    and of the square roots of the first 8. *)

(** The largest number below [2 ^ bits] whose [k]-th power is at most [x], on top of
    [acc]. *)
Fixpoint root_from (k : Z) (bits : nat) (x acc : Z) : Z :=
  match bits with
  | O => acc
  | S b =>
      let next := acc + 2 ^ Z.of_nat b in
      root_from k b x (if decide (next ^ k <= x) then next else acc)
  end.
Definition root_fraction (k p : Z) : Z := w32 (root_from k 40 (p * 2 ^ (32 * k)) 0).
Definition is_prime (n : nat) : bool :=
  forallb (fun d => negb (Nat.eqb (Nat.modulo n d) 0)) (seq 2 (n - 2)).
Definition primes : list Z := Z.of_nat <$> List.filter is_prime (seq 2 310).

Definition round_constants : list Z := Eval vm_compute in root_fraction 3 <$> take 64 primes.
Definition initial_hash : list Z := Eval vm_compute in root_fraction 2 <$> take 8 primes.

(** ** Padding *)

Definition bytes_of (s : string) : list Z := (fun a => Z.of_N (N_of_ascii a)) <$> String.list_ascii_of_string s.
Definition be_bytes (n : nat) (z : Z) : list Z :=
  (fun i => Z.land (Z.shiftr z (8 * Z.of_nat i)) 255) <$> rev (seq 0 n).
(** One bit, zeros up to 56 bytes modulo 64, and the length in bits. *)
Definition pad (m : list Z) : list Z :=
  let l := Z.of_nat (length m) in
  m ++ [128] ++ replicate (Z.to_nat ((55 - l) mod 64)) 0 ++ be_bytes 8 (8 * l).

Fixpoint words_of (m : list Z) : list Z :=
  match m with
  | a :: b :: c :: d :: m' => (((a * 256 + b) * 256 + c) * 256 + d) :: words_of m'
  | _ => []
  end.
Fixpoint blocks_of (fuel : nat) (m : list Z) : list (list Z) :=
  match fuel, m with
  | S fuel', _ :: _ => take 16 m :: blocks_of fuel' (drop 16 m)
  | _, _ => []
  end.

(** ** Compression *)

(** The schedule, the newest word first. *)
Definition next_word (w : list Z) : Z :=
  add32 (add32 (sigma1 (nth 1 w 0)) (nth 6 w 0)) (add32 (sigma0 (nth 14 w 0)) (nth 15 w 0)).
Definition schedule (block : list Z) : list Z :=
  rev (Nat.iter 48 (fun w => next_word w :: w) (rev block)).

Definition round (s : list Z) (kw : Z * Z) : list Z :=
  match s with
  | [a; b; c; d; e; f; g; h] =>
      let t1 := add32 (add32 (add32 h (Sigma1 e)) (add32 (Ch e f g) kw.1)) kw.2 in
      let t2 := add32 (Sigma0 a) (Maj a b c) in
      [add32 t1 t2; a; b; c; add32 d t1; e; f; g]
  | _ => s
  end.
Definition compress (h block : list Z) : list Z :=
  zip_with add32 h (foldl round h (zip round_constants (schedule block))).

Definition sha256 (m : list Z) : list Z :=
  let words := words_of (pad m) in
  foldl compress initial_hash (blocks_of (length words) words).

(** [hex.EncodeToString(h.Sum(nil))] *)
Definition hex_digit (z : Z) : ascii :=
  default "0"%char (String.list_ascii_of_string "0123456789abcdef" !! Z.to_nat z).
Definition hex_word (w : Z) : list ascii :=
  (fun i => hex_digit (Z.land (Z.shiftr w (4 * Z.of_nat i)) 15)) <$> rev (seq 0 8).
Definition sha256_hex (contents : string) : string :=
  String.string_of_list_ascii (sha256 (bytes_of contents) ≫= hex_word).

(** ** Test vectors of FIPS 180-4 *)

Example sha256_empty :
  sha256_hex EmptyString = "e3b0c44298fc1c149afbf4c8996fb92427ae41e4649b934ca495991b7852b855".
Proof. evaluate. Qed.
Example sha256_abc :
  sha256_hex "abc" = "ba7816bf8f01cfea414140de5dae2223b00361a396177a9cb410ff61f20015ad".
Proof. evaluate. Qed.
Example sha256_two_blocks :
  sha256_hex "abcdbcdecdefdefgefghfghighijhijkijkljklmklmnlmnomnopnopq" =
  "248d6a61d20638b8e5c026930c3e6039a33ce45964ff2167f6ecedd419db06c1".
Proof. evaluate. Qed.

(** ** The text of a checksum *)

(** Hexadecimal digits only. *)
Definition hex_text (s : string) : Prop :=
  Forall (fun a => a ∈ String.list_ascii_of_string "0123456789abcdef") (String.list_ascii_of_string s).

Lemma hex_digit_in z : hex_digit z ∈ String.list_ascii_of_string "0123456789abcdef".
Proof.
  unfold hex_digit. destruct (_ !! Z.to_nat z) as [a|] eqn:E; [by eapply list_elem_of_lookup_2|by left].
Qed.

Lemma length_round s kw : length (round s kw) = length s.
Proof. by do 9 (destruct s as [|? s]; [done|]). Qed.
Lemma length_rounds l s : length (foldl round s l) = length s.
Proof. revert s. induction l as [|kw l IH]; intros s; [done|]. simpl. by rewrite IH, length_round. Qed.
Lemma length_compress h block : length (compress h block) = length h.
Proof. unfold compress. rewrite length_zip_with, length_rounds. lia. Qed.
Lemma length_sha256 m : length (sha256 m) = 8%nat.
Proof.
  unfold sha256. generalize (blocks_of (length (words_of (pad m))) (words_of (pad m))).
  assert (length initial_hash = 8%nat) as H by done. revert H. generalize initial_hash. intros h Hh l.
  revert h Hh. induction l as [|b l IH]; intros h Hh; [done|]. apply IH. by rewrite length_compress.
Qed.

Lemma hex_text_sha256 s : hex_text (sha256_hex s).
Proof.
  unfold hex_text, sha256_hex. rewrite String.list_ascii_of_string_of_list_ascii.
  apply Forall_bind, Forall_forall. intros w _. apply Forall_fmap, Forall_forall. intros i _. apply hex_digit_in.
Qed.

Lemma list_ascii_length s : length (String.list_ascii_of_string s) = String.length s.
Proof. induction s as [|a s IH]; [done|]. simpl. by rewrite IH. Qed.
Lemma length_sha256_hex s : String.length (sha256_hex s) = 64%nat.
Proof.
  rewrite <-list_ascii_length. unfold sha256_hex. rewrite String.list_ascii_of_string_of_list_ascii.
  assert (length (sha256 (bytes_of s)) = 8%nat) as H by apply length_sha256. revert H.
  generalize (sha256 (bytes_of s)). intros l Hl. do 9 (destruct l as [|? l]; [done|]); done.
Qed.

(** A character that is not a digit does not occur. *)
Lemma hex_text_no_char c s :
  c ∉ String.list_ascii_of_string "0123456789abcdef" -> hex_text s -> no_char c s = true.
Proof.
  intros Hc. unfold hex_text. induction s as [|a s IH]; [done|]. intros [Ha Hs]%Forall_cons. simpl.
  rewrite IH, bool_decide_eq_true_2 by (done || by intros ->). done.
Qed.
