(* ===== verification/Files.v ===== *)
(** The files next to a folder's content: [utils.go] and the part of
    [telemetry_events.go] that reads them back.  [hashsum.txt] has a line per file
    with its checksum, [deadline.txt] the time after which the folder is deleted. *)
From S2P Require Import Prelude GoStrings Host Storage FlatIndex Sha256.
From Stdlib Require Import Ascii.

(** ** Writing files

    [os.OpenFile] with [O_CREATE], with or without [O_TRUNC] ([os.Create]);
    [WriteString] at the end of a file opened with [O_APPEND], and at the start of
    one that was just opened without it. *)
Class Files `{Disk} := {
  os_open_file : bool -> string -> disk -> option error * disk;
  os_append : string -> string -> disk -> option error * disk;
  os_write : string -> string -> disk -> option error * disk;
  (** the bytes an append that fails has written all the same *)
  os_append_count : string -> string -> disk -> nat;
  (** what was received of a body whose reading failed *)
  http_partial : list event -> string -> string;
}.

Definition rooted (p : string) : Prop := has_prefix "/" p = true.
(** Two absolute paths that lead to different files when there are no links. *)
Definition apart (p q : string) : Prop := rooted p /\ rooted q /\ path_clean q <> path_clean p.

(** The file [q] can be read on both disks, with the same contents, or on neither. *)
Definition same_text `{Disk} (q : string) (d d' : disk) : Prop :=
  forall c, os_read_file q d' = inr c <-> os_read_file q d = inr c.
#[export] Instance same_text_equivalence `{Disk} q : Equivalence (same_text q).
Proof.
  split.
  - by intros d c.
  - intros d d' E c. by rewrite (E c).
  - intros d d' d'' E E' c. by rewrite (E' c).
Qed.

(** What the documentation promises of files without links: an operation on a path
    changes the contents of no file at another one, whether it succeeds or not; a
    file that could be read holds afterwards what was written. *)
Class FilesLaws `{Files} : Prop := {
  open_others b p d q : apart p q -> same_text q d (os_open_file b p d).2;
  append_others p s d q : apart p q -> same_text q d (os_append p s d).2;
  write_others p s d q : apart p q -> same_text q d (os_write p s d).2;
  open_existing (b : bool) p d d' c : os_open_file b p d = (None, d') -> os_read_file p d = inr c ->
    os_read_file p d' = inr (if b then EmptyString else c);
  open_missing b p d d' : os_open_file b p d = (None, d') -> os_exists p d = false ->
    os_read_file p d' = inr EmptyString;
  append_ok p s d d' c : os_append p s d = (None, d') -> os_read_file p d = inr c ->
    os_read_file p d' = inr (c +:+ s);
  write_ok p s d d' c : os_write p s d = (None, d') -> os_read_file p d = inr c ->
    os_read_file p d' = inr (s +:+ s_drop (String.length s) c);
}.

(** [os.Remove] of a file or of an empty directory. *)
Class RemoveLaws `{Disk} : Prop := remove_others p d q : apart p q -> same_text q d (os_remove p d).2.

(** ** The lines of a file *)

Definition newline : ascii := "010"%char.
Definition drop_cr (line : string) : string :=
  match String.length line with
  | 0 => line
  | S n => if decide (s_drop n line = String "013"%char EmptyString) then s_take n line else line
  end.
(** [bufio.Scanner] stops for good at a line that does not fit in its buffer. *)
Definition max_token : Z := 65536.
Fixpoint short_lines (l : list string) : list string :=
  match l with
  | [] => []
  | line :: l' => if decide (Z.of_nat (String.length line) < max_token)%Z then line :: short_lines l' else []
  end.
Definition text_lines (text : string) : list string :=
  let parts := split_on newline text in
  match last parts with
  | Some EmptyString => take (length parts - 1) parts
  | _ => parts
  end.
Definition scan_lines (text : string) : list string := drop_cr <$> short_lines (text_lines text).

(** The regular expression [[=>]] matches either character. *)
Definition is_separator (a : ascii) : bool := bool_decide (a = "="%char) || bool_decide (a = ">"%char).
Fixpoint split_separators (s : string) : list string :=
  match s with
  | EmptyString => [EmptyString]
  | String a s' =>
      if is_separator a then EmptyString :: split_separators s'
      else match split_separators s' with
           | h :: t => String a h :: t
           | [] => [String a EmptyString]
           end
  end.

Section Files.
Context `{Bolt, Disk, Env} `{!Files}.

(** ** Checksums *)

Definition mismatch : error := "hashsum did not match".
Definition matchSHA256 (filePath trueSHA : string) : Hub unit :=
  contents ← read_file filePath;
  if decide (sha256_hex contents = trueSHA) then mret tt else fail mismatch.

Definition hash_line (filename hash : string) : string :=
  filename +:+ "=>" +:+ hash +:+ String newline EmptyString.
Definition storeHashsum (pathdir filename hash : string) : Hub unit :=
  let p := path_join [pathdir; "hashsum.txt"] in
  disk_op (os_open_file false p);;
  disk_op (os_append p (hash_line filename hash)).

(** [linestrA[0]] and [linestrA[2]]; a line with fewer than two separators is a
    panic.  A file that opens is taken to be readable to its end. *)
Definition add_hash_line {W} (hashmap : gmap string string) (line : string) : M W (gmap string string) :=
  match split_separators line with
  | name :: _ :: hash :: _ => mret (<[name := hash]> hashmap)
  | _ => panic "index out of range [2]"
  end.
Definition gethashsum (folderpath : string) : Hub (gmap string string) :=
  text ← read_file folderpath;
  for_fold (scan_lines text) ∅ add_hash_line.

(** The numbers of corrupted and of checked files.  The entries without a file are
    only printed. *)
Definition checkfiles (folderpath : string) (hashsummap : gmap string string) : Hub (Z * Z) :=
  files ← ignore! [] of (read_dir folderpath);
  for_fold files (0, 0)%Z (fun ct file =>
    match hashsummap !! fi_name file with
    | None => mret ct
    | Some hash =>
        r ← try! (matchSHA256 (path_join [folderpath; fi_name file]) hash);
        mret (match r with inl _ => (ct.1 + 1, ct.2 + 1) | inr _ => (ct.1, ct.2 + 1) end)%Z
    end).

(** [checkfiles] on an open [hashsum.txt], or its error. *)
Definition check_with (hashfile folderpath : string) : Hub (error + (Z * Z)) :=
  m ← try! (gethashsum hashfile);
  match m with
  | inl fErr => mret (inl fErr)
  | inr hashsummap => ct ← checkfiles folderpath hashsummap; mret (inr ct)
  end.

Definition getTotalFiles (folderpath : string) : Hub Z :=
  let count name :=
    (there ← path_exists (path_join [folderpath; name]);
     if (there : bool) then
       files ← ignore! [] of (read_dir (path_join [folderpath; name]));
       mret (Z.of_nat (length files) - 1)%Z
     else mret 0%Z) in
  a ← count "metadatafiles"; b ← count "bulkfiles"; mret (a + b)%Z.

(** ** Deadlines *)

Definition deadline_file (path : string) : string := path_join [path; "deadline.txt"].
Definition storeDeadline (path deadline : string) : Hub unit :=
  there ← path_exists (deadline_file path);
  if (there : bool) then mret tt
  else
    disk_op (os_open_file false (deadline_file path));;
    disk_op (os_write (deadline_file path) deadline).
(** At most 64 bytes are read; what [ParseInt] complains about is dropped. *)
Definition getDeadline (path : string) : Hub Z :=
  text ← read_file (deadline_file path);
  mret (parse_int 64 (s_take 64 text)).1.
End Files.
