(* ===== verification/FilesSpec.v ===== *)
(** What the files next to a folder's content hold: checksums that were stored are
    read back, and so is a deadline. *)
From S2P Require Import Prelude GoStrings Host Storage FlatIndex Sha256 Files.
From Stdlib Require Import Ascii.

(** ** Paths *)

Lemma ends_in_unique x y s : no_char slash x = true -> no_char slash y = true ->
  ends_in x s -> ends_in y s -> x = y.
Proof. intros Hx Hy Ex Ey. apply ends_in_last in Ex, Ey; [congruence|done..]. Qed.

Lemma path_base_ends x p : plain x -> ends_in x p -> path_base p = x.
Proof.
  intros (Hx & Hne & _) Hp. unfold path_base.
  assert (p <> EmptyString) as Hp0.
  { destruct Hp as [->|[r ->]]; [done|]. by destruct r. }
  rewrite decide_False by done. cbv zeta.
  assert (trim_right slash p = p) as ->.
  { destruct Hp as [->|[r ->]]; [by apply trim_right_id|].
    change (String slash x) with (String slash EmptyString +:+ x). rewrite <-s_app_assoc.
    by apply trim_right_app. }
  assert (after_last_slash p = x) as ->; [|by rewrite decide_False].
  unfold after_last_slash. pose proof (ends_in_last x p Hx Hp) as Hl.
  rewrite last_lookup in Hl. revert Hl. generalize (split_on slash p). intros l.
  rewrite <-last_lookup. intros Hl. apply last_Some in Hl as [l' ->]. apply List.last_last.
Qed.

Lemma rooted_slash a : rooted a <-> exists r, a = String slash r.
Proof.
  unfold rooted, has_prefix. destruct a as [|c r]; [split; [done|by intros [r ?]]|].
  split; [|by intros [r' [= -> ->]]; destruct r']. cbn [String.prefix].
  destruct (ascii_dec "/" c) as [<-|]; [by eexists|done].
Qed.
Lemma rooted_join a l : rooted a -> rooted (path_join (a :: l)).
Proof.
  intros Ha. pose proof Ha as [r ->]%rooted_slash. cbn [path_join]. rewrite decide_False by done.
  unfold path_clean. assert (has_prefix "/" (join_with "/" (String slash r :: l)) = true) as ->.
  { apply rooted_slash. destruct l; [by eexists|]. rewrite join_with_cons, s_app_cons by done. by eexists. }
  apply rooted_slash. by eexists.
Qed.

(** Files of different names, in any directories. *)
Lemma apart_names a b x y : rooted a -> rooted b -> plain x -> plain y -> x <> y ->
  apart (path_join [a; x]) (path_join [b; y]).
Proof.
  intros Ha Hb Hx Hy Hne. split_and!; [by apply rooted_join..|]. intros E. apply Hne.
  pose proof (path_clean_ends x (path_join [a; x]) Hx (path_join_ends [a] x Hx)) as Ex.
  pose proof (path_clean_ends y (path_join [b; y]) Hy (path_join_ends [b] y Hy)) as Ey.
  rewrite E in Ey. eapply ends_in_unique; [apply Hx|apply Hy|exact Ex|exact Ey].
Qed.
Lemma path_base_join a x : plain x -> path_base (path_join [a; x]) = x.
Proof. intros Hx. apply path_base_ends; [done|]. by apply (path_join_ends [a]). Qed.

(** ** Lines *)

Lemma no_char_app c s t : no_char c (s +:+ t) = no_char c s && no_char c t.
Proof. induction s as [|a s IH]; [done|]. rewrite s_app_cons. simpl. by rewrite IH, andb_assoc. Qed.

Lemma s_drop_app_ge n (s t : string) : String.length s <= n -> s_drop n (s +:+ t) = s_drop (n - String.length s) t.
Proof.
  revert n. induction s as [|a s IH]; intros n Hn; [by rewrite Nat.sub_0_r|].
  destruct n as [|n]; [simpl in Hn; lia|]. rewrite s_app_cons. apply IH. simpl in Hn. lia.
Qed.
Lemma no_char_drop c n s : no_char c s = true -> no_char c (s_drop n s) = true.
Proof.
  revert n. induction s as [|a s IH]; intros [|n] H; simpl in *; try done. apply IH.
  by apply andb_true_iff in H as [_ ?].
Qed.

(** A line that ends in text without carriage return keeps its end. *)
Lemma drop_cr_id s t : t <> EmptyString -> no_char "013"%char t = true -> drop_cr (s +:+ t) = s +:+ t.
Proof.
  intros Hne Ht. unfold drop_cr. destruct (String.length (s +:+ t)) as [|n] eqn:El; [done|].
  rewrite decide_False; [done|]. intros E. rewrite s_length_app in El.
  assert (0 < String.length t) by (destruct t; [done|simpl; lia]).
  rewrite s_drop_app_ge in E by lia. pose proof (no_char_drop _ (n - String.length s) _ Ht) as Hd.
  by rewrite E in Hd.
Qed.

(** Names and checksums that a line of [hashsum.txt] can hold. *)
Definition line_name (x : string) : Prop :=
  Forall (fun c => no_char c x = true) ["="; ">"; newline]%char /\ (Z.of_nat (String.length x) < 65000)%Z.
Definition checksum (h : string) : Prop := hex_text h /\ String.length h = 64.

Definition entry_line (e : string * string) : string := e.1 +:+ "=>" +:+ e.2.
Definition hash_text (l : list (string * string)) : string := s_concat ((fun e => hash_line e.1 e.2) <$> l).
Definition entry_ok (e : string * string) : Prop := line_name e.1 /\ checksum e.2.

Lemma hex_no_char c h : c ∉ String.list_ascii_of_string "0123456789abcdef" -> checksum h -> no_char c h = true.
Proof. intros Hc [Hh _]. by apply hex_text_no_char. Qed.

Lemma split_text l : Forall entry_ok l ->
  split_on newline (hash_text l) = (entry_line <$> l) ++ [EmptyString].
Proof.
  induction 1 as [|[x h] l [Hx Hh] _ IH]; [done|]. unfold hash_text. rewrite !fmap_cons. simpl.
  unfold hash_line. rewrite !s_app_assoc. change (String newline EmptyString +:+ ?t) with (String newline t).
  rewrite <-(s_app_assoc "=>"), <-(s_app_assoc x). rewrite split_on_app; [by apply (f_equal (cons _)), IH|].
  destruct Hx as [Hx _]. rewrite !Forall_cons in Hx. destruct Hx as (_ & _ & ? & _). rewrite !no_char_app, andb_true_iff. split; [done|].
  rewrite andb_true_iff. split; [done|]. by apply hex_no_char; [set_solver|].
Qed.

Lemma scan_text l : Forall entry_ok l -> scan_lines (hash_text l) = entry_line <$> l.
Proof.
  intros Hl. unfold scan_lines, text_lines. rewrite split_text by done. rewrite last_snoc.
  rewrite length_app, Nat.add_sub. rewrite take_app_length' by done.
  induction Hl as [|[x h] l [[Hx Hlen] [Hh Hh64]] _ IH]; [done|]. rewrite fmap_cons. simpl.
  rewrite decide_True.
  - rewrite fmap_cons. f_equal; [|exact IH]. unfold entry_line. simpl. rewrite <-s_app_assoc.
    apply drop_cr_id; [by intros E; simpl in Hh64; rewrite E in Hh64|]. apply hex_text_no_char; [set_solver|done].
  - simpl in *. unfold max_token, entry_line. simpl. rewrite !s_length_app, Hh64. simpl. lia.
Qed.

Lemma split_separators_none s : no_char "="%char s = true -> no_char ">"%char s = true ->
  split_separators s = [s].
Proof.
  induction s as [|a s IH]; [done|]. simpl. intros [Ha Hs]%andb_true_iff [Hb Ht]%andb_true_iff.
  apply bool_decide_eq_true in Ha, Hb. unfold is_separator.
  rewrite !bool_decide_eq_false_2 by done. simpl. by rewrite IH.
Qed.
Lemma split_separators_app s t : no_char "="%char s = true -> no_char ">"%char s = true ->
  split_separators (s +:+ String "="%char t) = s :: split_separators t.
Proof.
  induction s as [|a s IH]; [done|]. rewrite s_app_cons. simpl.
  intros [Ha Hs]%andb_true_iff [Hb Ht]%andb_true_iff.
  apply bool_decide_eq_true in Ha, Hb. unfold is_separator at 1.
  rewrite !bool_decide_eq_false_2 by done. simpl. by rewrite IH.
Qed.
Lemma split_entry x h : entry_ok (x, h) -> split_separators (entry_line (x, h)) = [x; EmptyString; h].
Proof.
  intros [[Hx _] Hh]. rewrite !Forall_cons in Hx. destruct Hx as (? & ? & _). unfold entry_line. cbn [fst snd].
  change ("=>" +:+ h) with (String "="%char (String ">"%char h)).
  rewrite split_separators_app by done. change (split_separators (String ">"%char h)) with (EmptyString :: split_separators h).
  do 2 f_equal. apply split_separators_none; apply hex_no_char; [set_solver|done|set_solver|done].
Qed.

(** ** The operations *)
Section Operations.
Context `{Bolt, Disk, Env} `{!Files} `{!FilesLaws}.
Implicit Types (w : world) (d : disk).

(** Every file [q] with [P q] keeps its contents. *)
Definition kept (P : string -> Prop) d d' : Prop := forall q, P q -> same_text q d d'.
(** The file holds the text, or there is none and the text is empty. *)
Definition text_at (p c : string) d : Prop :=
  os_read_file p d = inr c \/ (os_exists p d = false /\ c = EmptyString).

Lemma disk_op_run f w o w' : disk_op f w = (o, w') ->
  w_db w' = w_db w /\ w_trace w' = w_trace w /\ w_disk w' = (f (w_disk w)).2 /\
  ((o = Ret tt /\ (f (w_disk w)).1 = None) \/ (exists e, o = Fail e)).
Proof. unfold disk_op. destruct (f (w_disk w)) as [[e|] d]; intros [= <- <-]; naive_solver. Qed.

Lemma matchSHA256_run p h w : exists o, matchSHA256 p h w = (o, w) /\
  (o = Ret tt <-> exists c, os_read_file p (w_disk w) = inr c /\ sha256_hex c = h) /\ is_result o.
Proof.
  unfold matchSHA256, read_file, mbind, M_bind. destruct (os_read_file p (w_disk w)) as [e|c].
  - eexists. split; [done|]. split; [|done]. split; [done|by intros (? & ? & _)].
  - case_decide as Hh; eexists; (split; [done|]; split; [|done]); split; naive_solver.
Qed.

Lemma storeHashsum_run dir n h w o w' : rooted dir ->
  let p := path_join [dir; "hashsum.txt"] in
  storeHashsum dir n h w = (o, w') ->
  w_db w' = w_db w /\ w_trace w' = w_trace w /\ is_result o /\ kept (apart p) (w_disk w) (w_disk w') /\
  (o = Ret tt -> forall c, text_at p c (w_disk w) -> os_read_file p (w_disk w') = inr (c +:+ hash_line n h)).
Proof.
  intros Hd p. unfold storeHashsum. cbv zeta. fold p.
  destruct (disk_op (os_open_file false p) w) as [o1 w1] eqn:E1.
  destruct (disk_op_run _ _ _ _ E1) as (Hdb & Ht & Hdisk & Ho).
  assert (kept (apart p) (w_disk w) (w_disk w1)) as Hk.
  { intros q Hq. rewrite Hdisk. by apply open_others. }
  destruct Ho as [[-> Hn]|[e ->]].
  2: { erewrite bind_Fail by exact E1. intros [= <- <-]. split_and!; try done. }
  erewrite bind_Ret by exact E1. intros E2.
  destruct (disk_op_run _ _ _ _ E2) as (Hdb2 & Ht2 & Hdisk2 & Ho2).
  split_and!; [congruence|congruence|by destruct Ho2 as [[-> _]|[? ->]]|..].
  - intros q Hq. rewrite Hdisk2. etrans; [by apply Hk|by apply append_others].
  - intros -> c Hc. destruct Ho2 as [[_ Hn2]|[? [=]]]. destruct (os_append p _ (w_disk w1)) as [r d2] eqn:Ea.
    simpl in Hn2. subst r. simpl in Hdisk2. subst d2. eapply append_ok; [exact Ea|].
    destruct (os_open_file false p (w_disk w)) as [r d1] eqn:Eo. simpl in Hn, Hdisk. subst r d1.
    destruct Hc as [Hc|[Hc ->]]; [by apply (open_existing _ _ _ _ _ Eo Hc)|by apply (open_missing _ _ _ _ Eo Hc)].
Qed.

Lemma storeDeadline_run dir deadline w o w' :
  storeDeadline dir deadline w = (o, w') ->
  w_db w' = w_db w /\ w_trace w' = w_trace w /\ is_result o /\
  kept (apart (deadline_file dir)) (w_disk w) (w_disk w') /\
  (o = Ret tt -> os_exists (deadline_file dir) (w_disk w) = false ->
   os_read_file (deadline_file dir) (w_disk w') = inr deadline) /\
  (os_exists (deadline_file dir) (w_disk w) = true -> w' = w).
Proof.
  unfold storeDeadline. set (p := deadline_file dir). unfold path_exists. erewrite bind_Ret by done.
  destruct (os_exists p (w_disk w)) eqn:Ee.
  { intros [= <- <-]. split_and!; try done. }
  destruct (disk_op (os_open_file false p) w) as [o1 w1] eqn:E1.
  destruct (disk_op_run _ _ _ _ E1) as (Hdb & Ht & Hdisk & Ho).
  assert (kept (apart p) (w_disk w) (w_disk w1)) as Hk.
  { intros q Hq. rewrite Hdisk. by apply open_others. }
  destruct Ho as [[-> Hn]|[e ->]].
  2: { erewrite bind_Fail by exact E1. intros [= <- <-]. split_and!; try done. }
  erewrite bind_Ret by exact E1. intros E2.
  destruct (disk_op_run _ _ _ _ E2) as (Hdb2 & Ht2 & Hdisk2 & Ho2).
  split_and!; [congruence|congruence|by destruct Ho2 as [[-> _]|[? ->]]|..|done].
  - intros q Hq. rewrite Hdisk2. etrans; [by apply Hk|by apply write_others].
  - intros -> _. destruct Ho2 as [[_ Hn2]|[? [=]]]. destruct (os_write p deadline (w_disk w1)) as [r d2] eqn:Ea.
    simpl in Hn2. subst r. simpl in Hdisk2. subst d2.
    destruct (os_open_file false p (w_disk w)) as [r d1] eqn:Eo. simpl in Hn, Hdisk. subst r d1.
    rewrite (write_ok _ _ _ _ EmptyString Ea) by by eapply open_missing.
    rewrite s_drop_ge, s_app_nil_r by (simpl; lia). done.
Qed.

(** *** Reading back *)

Lemma gethashsum_run p l w : os_read_file p (w_disk w) = inr (hash_text l) -> Forall entry_ok l ->
  gethashsum p w = (Ret (foldl (fun m e => <[e.1 := e.2]> m) ∅ l), w).
Proof.
  intros Hp Hl. unfold gethashsum, read_file. unfold mbind at 1, M_bind. rewrite Hp, scan_text by done.
  rewrite (for_fold_run _ _ (fun m line => match split_separators line with
      | name :: _ :: hash :: _ => <[name := hash]> m | _ => m end)).
  - f_equal. f_equal. clear Hp. generalize (∅ : gmap string string). induction Hl as [|[x h] l Hxh _ IH]; intros m; [done|].
    rewrite fmap_cons. cbn [foldl]. rewrite split_entry by done. apply IH.
  - intros m line ([x h] & -> & Hin)%list_elem_of_fmap. rewrite Forall_forall in Hl.
    unfold add_hash_line. by rewrite split_entry by by apply Hl.
Qed.

(** The last checksum of a name counts. *)
Lemma lookup_entries l (m : gmap string string) n h :
  foldl (fun m e => <[e.1 := e.2]> m) m l !! n = Some h -> (n, h) ∈ l \/ m !! n = Some h.
Proof.
  revert m. induction l as [|[x k] l IH]; intros m; [by right|]. simpl. intros [Hl|Hl]%IH; [left; by right|].
  destruct (decide (x = n)) as [->|]; [rewrite lookup_insert_eq in Hl|rewrite lookup_insert_ne in Hl by done].
  - left. injection Hl as ->. by left.
  - by right.
Qed.

Lemma entries_listed l (m : gmap string string) n :
  is_Some (foldl (fun m e => <[e.1 := e.2]> m) m l !! n) <-> n ∈ l.*1 \/ is_Some (m !! n).
Proof.
  revert m. induction l as [|[x k] l IH]; intros m; [set_solver|]. cbn [foldl fst snd]. rewrite IH, lookup_insert_is_Some'.
  change ((x, k) :: l).*1 with (x :: l.*1). set_solver.
Qed.

(** When every listed checksum is that of the file, none is corrupted. *)
Lemma checkfiles_all_match dir (m : gmap string string) w :
  (forall n h, m !! n = Some h -> exists c, os_read_file (path_join [dir; n]) (w_disk w) = inr c /\ sha256_hex c = h) ->
  exists files, ignoring [] (read_dir dir) w = (Ret files, w) /\
    checkfiles dir m w = (Ret (0, Z.of_nat (length (filter (fun f => is_Some (m !! fi_name f)) files)))%Z, w).
Proof.
  intros Hm. assert (exists files, ignoring [] (read_dir dir) w = (Ret files, w)) as [files Hf].
  { unfold read_dir. destruct (os_read_dir dir (w_disk w)) as [e|l] eqn:E; eexists;
      [eapply ignoring_Fail|apply ignoring_Ret]; by rewrite E. }
  exists files. split; [done|]. unfold checkfiles. erewrite bind_Ret by exact Hf.
  rewrite (for_fold_run _ _ (fun ct f => if decide (is_Some (m !! fi_name f)) then (ct.1, ct.2 + 1)%Z else ct)).
  - f_equal. f_equal.
    assert (forall t, foldl (fun ct f => if decide (is_Some (m !! fi_name f)) then (ct.1, ct.2 + 1)%Z else ct) (0, t)%Z files =
      (0, t + Z.of_nat (length (filter (fun f => is_Some (m !! fi_name f)) files)))%Z) as ->; [|done].
    clear Hf. induction files as [|f files IH]; intros t; [simpl; f_equal; lia|]. cbn [foldl]. rewrite filter_cons.
    case_decide; [|done]. simpl. rewrite IH. f_equal. simpl. lia.
  - intros [c t] f _. destruct (m !! fi_name f) as [h|] eqn:E.
    + destruct (matchSHA256_run (path_join [dir; fi_name f]) h w) as (o & Eo & Ho & _).
      assert (o = Ret tt) as -> by (by apply Ho, Hm). erewrite bind_Ret by (by apply attempt_Ret).
      by rewrite decide_True by by eexists.
    + by rewrite decide_False by by intros [].
Qed.
End Operations.
