(* ===== verification/Mstore.v ===== *)
(** [satdata_mstore.go]: the synchronisation of the flat index with the catalogue
    of the satellite receiver (MStore).  The hierarchy-based code of the same
    file ([getMstoreFiles_Old] and below) works on the tree of [Tree.v]. *)
From S2P Require Import Prelude GoStrings GoFloat LogData Host Storage Logger CloudData FlatIndex.

(** ** Data *)

Record ListContent := { lc_ContentID : string }.
Record VodList := { vl_Status : string; ListContents : list ListContent }.

(** The fields of [VodInfo] and its anonymous structs. *)
Record UserDefined := {
  Title : string;
  Contentid : string;
  Contentbroadcastcommandid : string;
}.
Record VodMetadata := {
  vm_UserDefined : UserDefined;
  MovieId : string;
  ValidityStartDate : Z;
  ValidityEndDate : Z;
  CID : string;
  VideoFilename : string;
  TrailerFilename : string;
  CoverFilename : string;
  URLForDataFiles : string;
  DataFiles : list (string * Z);
  ThumbnailFilename : string;
}.
Record VodInfo := { vi_Status : string; vi_Metadata : VodMetadata }.

Record DeletedContentsInfo := { SesCid : string; dc_CommandId : string }.
Definition no_deleted_info : DeletedContentsInfo :=
  {| SesCid := EmptyString; dc_CommandId := EmptyString |}.

Definition listcontents_url : string := "http://host.docker.internal:8134/listcontents".
Definition getmetadata_url (contentId : string) : string :=
  "http://host.docker.internal:8134/getmetadata/" +:+ contentId.

Section Mstore.
Context `{Bolt, Disk, Env, Json ContentInfoOnDevice, Json ApiData,
  Json VodList, Json VodInfo, Json TelemetryMessage}.
Variable logger : Logger.

(** ** Operations *)

(** [getDirSizeinMB]: the sizes are summed and divided as [float64]. *)
Definition getDirSizeinMB (path : string) : Hub float64 :=
  sizes ← gets (fun w => (os_walk_sizes path (w_disk w)).1);
  let size := foldl (fun s z => f64_add s (f64_of_Z z)) f64_zero sizes in
  mret (f64_div size (f64_of_Z 1048576)).

Definition totalAssetsCount (assetCount : Z) : Hub unit :=
  ignore! tt of (Log logger TotalNumberOfAssetsOnTheDevice (sm_integer assetCount)).

(** The request queued for a content that was put on the device. *)
Definition downloaded_request (contentid : string) (time : Z) (cid size commandId location : string)
    : ApiData :=
  {| Id := contentid; ApiType := Downloaded; RetryCount := 0; OperationTime := time;
     SendCloudTelemetry := true; SendIOTCentralTelemetry := true;
     Properties := [ {| Key := "sesCid"; Value := cid |}; {| Key := "size"; Value := size |};
                     {| Key := "commandId"; Value := commandId |};
                     {| Key := "containerLocation"; Value := location |} ] |}.

(** The request queued for a content that disappeared from the satellite. *)
Definition deleted_request (contentId : string) (time : Z) (info : DeletedContentsInfo) : ApiData :=
  {| Id := "DL_" +:+ contentId; ApiType := Deleted; RetryCount := 0; OperationTime := time;
     SendCloudTelemetry := true; SendIOTCentralTelemetry := true;
     Properties := [ {| Key := "sesCid"; Value := SesCid info |};
                     {| Key := "commandId"; Value := dc_CommandId info |} ] |}.

Definition getMstoreFiles (vod : VodInfo) (containerStorage deviceStorage : string) : Hub string :=
  let cid := CID (vi_Metadata vod) in
  let contentid := Contentid (vm_UserDefined (vi_Metadata vod)) in
  let commandid := Contentbroadcastcommandid (vm_UserDefined (vi_Metadata vod)) in
  found ← ignore! false of (DoesContentIdExist contentid);
  if (found : bool) then mret contentid
  else
    downlaodTime ← time_now;
    let pathToMpdFile :=
      replace_first deviceStorage containerStorage (VideoFilename (vi_Metadata vod)) in
    let contentInfo :=
      {| DownloadTime := downlaodTime; FolderPath := pathToMpdFile; CommandId := commandid |} in
    match json_marshal contentInfo with
    | inl err => fail err
    | inr contentInfoByteArr =>
        CreateSatelliteIndexing cid contentid contentInfoByteArr;;
        let pathToAsset := path_dir (FolderPath contentInfo) in
        assetSize ← getDirSizeinMB pathToAsset;
        PrintBuckets;;
        match json_marshal (downloaded_request contentid downlaodTime cid
                              (format_f assetSize) commandid pathToAsset) with
        | inl _ => mret tt
        | inr data => ignore! tt of (AddContent contentid data)
        end;;
        mret contentid
    end.

Definition getMetadataAPI (contentId containerStorage deviceStorage : string) : Hub unit :=
  jsonRes ← http_get (getmetadata_url contentId);
  match json_unmarshal jsonRes with
  | (_, Some jsonErr) => fail jsonErr
  | (vod, None) =>
      if decide (vi_Status vod = "15") then
        fail ("getMetadataAPI: No metadata available for CID " +:+ contentId +:+ " ")
      else if decide (String.length (Contentid (vm_UserDefined (vi_Metadata vod))) = 0) then
        mret tt
      else
        (* on an error, [Log_old] writes to the local log file *)
        getMstoreFiles vod containerStorage deviceStorage;; mret tt
  end.

(** [deletedContentsInfoMap] after its two loops. *)
Definition deleted_infos (deletedSatelliteIds deletedContentIds : list string)
    : Hub (gmap string DeletedContentsInfo) :=
  m ← for_fold deletedContentIds ∅ (fun m id =>
        c ← GetBroadcastCommandId id;
        mret (<[id := {| SesCid := EmptyString; dc_CommandId := c.1 |}]> m));
  for_fold deletedSatelliteIds m (fun m id =>
    contentId ← ignore! EmptyString of (GetContentIdFromSatelliteId id);
    let deletedContent := default no_deleted_info (m !! contentId) in
    mret (<[contentId := {| SesCid := id; dc_CommandId := dc_CommandId deletedContent |}]> m)).

Definition queue_deleted (infos : gmap string DeletedContentsInfo) (contentId : string) : Hub unit :=
  now ← time_now;
  match json_marshal (deleted_request contentId now (default no_deleted_info (infos !! contentId))) with
  | inl _ => mret tt
  | inr data => ignore! tt of (AddContent ("DL_" +:+ contentId) data)
  end.

(** [latestAvailableContents] *)
Definition available (vodlist : VodList) : list string := lc_ContentID <$> ListContents vodlist.

Definition handleDeletedContents (vodlist : VodList) : Hub unit :=
  satAssetMap ← GetSatelliteMappedItems;
  kvs ← range_map satAssetMap;
  let deleted := filter (fun kv => kv.1 ∉ available vodlist) kvs in
  let deletedSatelliteIds := deleted.*1 in
  let deletedContentIds := deleted.*2 in
  infos ← deleted_infos deletedSatelliteIds deletedContentIds;
  DeleteSatelliteIds deletedSatelliteIds;;
  DeleteAssetMapping deletedContentIds;;
  for_each deletedContentIds (queue_deleted infos).

Definition checkForVODViaMstore (containerStorage deviceStorage : string) : Hub unit :=
  jsonRes ← http_get listcontents_url;
  match json_unmarshal jsonRes with
  | (_, Some jsonErr) => fail jsonErr
  | (vodlist, None) =>
      totalAssetsCount (Z.of_nat (length (ListContents vodlist)));;
      for_each (ListContents vodlist) (fun id =>
        r ← try! (getMetadataAPI (lc_ContentID id) containerStorage deviceStorage);
        match r with
        | inl err => ignore! tt of (Log logger Error (sm_string ("SatdataMstore: " +:+ err)))
        | inr _ => mret tt
        end);;
      ignore! tt of (handleDeletedContents vodlist);;
      PrintBuckets
  end.

(** One round of the endless loop of [pollMstore]; the sleep is left out. *)
Definition pollMstore_round (containerStorage deviceStorage : string) : Hub unit :=
  r ← try! (checkForVODViaMstore containerStorage deviceStorage);
  match r with
  | inl err => ignore! tt of (Log logger Error (sm_string ("SatdataMstore: " +:+ err)))
  | inr _ => mret tt
  end.
Fixpoint pollMstore (rounds : nat) (containerStorage deviceStorage : string) : Hub unit :=
  match rounds with
  | 0 => mret tt
  | S n => pollMstore_round containerStorage deviceStorage;;
           pollMstore n containerStorage deviceStorage
  end.

Definition testMstore : Hub unit :=
  PrintBuckets;;
  bytevalue ← read_file "test/mstore_test.json";
  match json_unmarshal bytevalue with
  | (_, Some err) => fail err
  | (vod, None) =>
      if decide (vi_Status vod = "15") then fail "No metadata available"
      else getMstoreFiles vod EmptyString EmptyString;; PrintBuckets
  end.
End Mstore.
