(* ===== verification/Index.v ===== *)
(** The abstract specification of the flat index: a state machine on two maps,
    its invariant and its unreclaimable states. *)
From S2P Require Import Prelude GoStrings Host Storage.
From stdpp Require Import relations.

(** ** The state machine *)

(** Satellite id to content id, and content id to its information. *)
Record index := Index { i_sat : gmap string string; i_assets : gmap string string }.

(** The pairs [kvs] are entries of the satellite map. *)
Definition entries_of (s : gmap string string) (kvs : list (string * string)) : Prop :=
  Forall (fun kv => s !! kv.1 = Some kv.2) kvs.

(** A poll may add a content that has no entry yet, forget satellite ids together
    with their contents, or, when the second of the two transactions of a
    deletion fails, forget the satellite ids only. *)
Inductive index_step : index -> index -> Prop :=
  | step_add cid a info s m :
      m !! a = None -> index_step (Index s m) (Index (<[cid := a]> s) (<[a := info]> m))
  | step_delete kvs s m :
      entries_of s kvs ->
      index_step (Index s m) (Index (remove_keys kvs.*1 s) (remove_keys kvs.*2 m))
  | step_unpin kvs s m :
      entries_of s kvs -> index_step (Index s m) (Index (remove_keys kvs.*1 s) m).

(** Every satellite id points to a content with an entry, and no two point to the
    same content. *)
Definition index_ok (i : index) : Prop :=
  (forall cid a, i_sat i !! cid = Some a -> is_Some (i_assets i !! a)) /\
  (forall c1 c2 a, i_sat i !! c1 = Some a -> i_sat i !! c2 = Some a -> c1 = c2).

(** A content with an entry to which no satellite id points. *)
Definition orphan (a : string) (i : index) : Prop :=
  is_Some (i_assets i !! a) /\ forall cid, i_sat i !! cid <> Some a.

(** ** Invariants by induction on the steps *)

Lemma entries_of_elem s kvs c a : entries_of s kvs -> (c, a) ∈ kvs -> s !! c = Some a.
Proof. intros Hk Hin. by apply (proj1 (Forall_forall _ _) Hk (c, a)). Qed.

Lemma index_ok_add cid a info s m :
  m !! a = None -> index_ok (Index s m) ->
  index_ok (Index (<[cid := a]> s) (<[a := info]> m)).
Proof.
  intros Hn [Hd Hi]. split; simpl in *.
  - intros c b. rewrite lookup_insert_Some, lookup_insert_is_Some'. naive_solver.
  - intros c1 c2 b. rewrite !lookup_insert_Some.
    intros [[<- <-]|[? Hc1]] [[<- E]|[? Hc2]]; try done.
    + destruct (Hd _ _ Hc2) as [? ?]. congruence.
    + subst. destruct (Hd _ _ Hc1) as [? ?]. congruence.
    + by eapply Hi.
Qed.

Lemma index_ok_unpin ks s m :
  index_ok (Index s m) -> index_ok (Index (remove_keys ks s) m).
Proof.
  intros [Hd Hi]. split; simpl in *; intros *; rewrite !remove_keys_Some; naive_solver.
Qed.

Lemma index_ok_delete kvs s m :
  entries_of s kvs -> index_ok (Index s m) ->
  index_ok (Index (remove_keys kvs.*1 s) (remove_keys kvs.*2 m)).
Proof.
  intros Hkvs [Hd Hi]. split; simpl in *.
  - intros c a [Hc Hca]%remove_keys_Some. destruct (Hd _ _ Hca) as [info Hinfo].
    exists info. apply remove_keys_Some. split; [|done].
    intros ([c' a'] & -> & Hin)%list_elem_of_fmap. simpl in *.
    apply Hc. rewrite (Hi c c' a' Hca); [by apply (list_elem_of_fmap_2 fst _ (c', a'))|].
    by eapply entries_of_elem.
  - intros *. rewrite !remove_keys_Some. naive_solver.
Qed.

Lemma index_step_ok i i' : index_step i i' -> index_ok i -> index_ok i'.
Proof.
  destruct 1; [by apply index_ok_add|by apply index_ok_delete|by apply index_ok_unpin].
Qed.

Lemma index_steps_ok i i' : rtc index_step i i' -> index_ok i -> index_ok i'.
Proof. induction 1; eauto using index_step_ok. Qed.

(** An orphan stays: no step reaches a content through the satellite map. *)
Lemma index_step_orphan a i i' : index_step i i' -> orphan a i -> orphan a i'.
Proof.
  unfold orphan. destruct 1 as [cid b info s m Hn|kvs s m Hkvs|kvs s m Hkvs]; simpl;
    intros [Ha Hs]; split.
  - rewrite lookup_insert_is_Some'. by right.
  - intros c. rewrite lookup_insert_Some. intros [[<- ->]|[_ ?]]; [|by eapply Hs].
    destruct Ha as [? ?]. congruence.
  - rewrite lookup_remove_keys. rewrite decide_False; [done|].
    intros ([c b] & -> & Hin)%list_elem_of_fmap.
    by eapply (Hs c), entries_of_elem.
  - intros c [_ ?]%remove_keys_Some. by eapply Hs.
  - done.
  - intros c [_ ?]%remove_keys_Some. by eapply Hs.
Qed.

Lemma index_steps_orphan a i i' : rtc index_step i i' -> orphan a i -> orphan a i'.
Proof. induction 1; eauto using index_step_orphan. Qed.

#[export] Hint Resolve index_step_ok index_steps_ok index_step_orphan index_steps_orphan : hub.
