(* ===== verification/MstoreSpec.v ===== *)
(** The invariant of the flat index and the theorems about [Mstore]: what a poll
    of the satellite receiver does to the index and to the pending requests. *)
From S2P Require Import Prelude GoStrings GoFloat LogData Host Storage Logger CloudData FlatIndex Index Mstore.
From stdpp Require Import relations.

Section Index.
Context `{Bolt, Disk, Env, Json ContentInfoOnDevice, Json ApiData,
  Json VodList, Json VodInfo, Json TelemetryMessage} `{!BoltLaws} `{!EnvLaws}.
Variable logger : Logger.
Implicit Types (w : world).

(** ** Refinement

    [reaches i w]: the bucket of the index exist, and [w] holds an index that the
    state machine of [Index.v] reaches from [i]. *)
Definition abs w : index := Index (sat w) (assets w).
Definition reaches (i : index) w : Prop := ready w /\ rtc index_step i (abs w).

#[export] Instance reaches_proper i : DbInv (reaches i).
Proof.
  intros w w' E. unfold reaches, abs.
  by rewrite (ready_proper w w' E), (sat_proper w w' E), (assets_proper w w' E).
Qed.

(** ** The steps of a poll *)

(** [CreateSatelliteIndexing] writes both maps or none. *)
Lemma CreateSatelliteIndexing_cases cid a info w o w' :
  ready w -> CreateSatelliteIndexing cid a info w = (o, w') ->
  ready w' /\
  ((o = Ret tt /\ sat w' = <[cid := a]> (sat w) /\ assets w' = <[a := info]> (assets w) /\
    pending w' = pending w) \/
   (exists e, o = Fail e /\ same_db w' w)).
Proof.
  intros (Hs & Ha & Hp) Hr.
  destruct (db_update_two SatelliteIdtoAssetIdMapping AssetPathMapping
    _ _ _ _ _ _ _ ltac:(done) Hs Ha
    (tx_touches_put _ _ _ _) (tx_touches_put _ _ _ _) Hr)
    as [(-> & Hh & Es & Ea & Eo)|(e & -> & E)].
  - split; [unfold ready; by rewrite !Hh|]. left. split_and!; try done. by apply Eo.
  - split; [by rewrite E|]. right. by eexists.
Qed.

(** The steps, one by one. *)
Lemma reaches_step i w w' :
  reaches i w -> ready w' -> index_step (abs w) (abs w') -> reaches i w'.
Proof. intros [_ ?] ? ?. split; [done|]. eapply rtc_r; eassumption. Qed.

#[export] Instance reaches_ready i : ReadyInv (reaches i).
Proof. by intros w [? _]. Qed.
#[export] Instance reaches_queue i : QueueInv (reaches i).
Proof.
  split; [apply _|by intros w [(_ & _ & ?) _]|].
  intros f w w' [Hr Hi] U. destruct (pending_updated _ _ _ U) as (Es & Ea & _).
  split; [by eapply ready_updated|]. unfold abs. by rewrite Es, Ea.
Qed.

(** The index stays exactly as it is. *)
Definition holds (i : index) w : Prop := ready w /\ abs w = i.
#[export] Instance holds_proper i : DbInv (holds i).
Proof.
  intros w w' E. unfold holds, abs.
  by rewrite (ready_proper w w' E), (sat_proper w w' E), (assets_proper w w' E).
Qed.
#[export] Instance holds_ready i : ReadyInv (holds i).
Proof. by intros w [? _]. Qed.
#[export] Instance holds_queue i : QueueInv (holds i).
Proof.
  split; [apply _|by intros w [(_ & _ & ?) _]|].
  intros f w w' [Hr Hi] U. destruct (pending_updated _ _ _ U) as (Es & Ea & _).
  split; [by eapply ready_updated|]. unfold abs in *. by rewrite Es, Ea.
Qed.

(** *** Deletions *)

(** [deletedContentsInfoMap] as a function of the index. *)
Definition infos_of (cmd : string -> string) (satmap : gmap string string)
    (sids cids : list string) : gmap string DeletedContentsInfo :=
  foldl (fun m id =>
      let c := default EmptyString (satmap !! id) in
      <[c := {| SesCid := id; dc_CommandId := dc_CommandId (default no_deleted_info (m !! c)) |}]> m)
    (foldl (fun m id => <[id := {| SesCid := EmptyString; dc_CommandId := cmd id |}]> m) ∅ cids)
    sids.

Lemma deleted_infos_run sids cids w : ready w ->
  deleted_infos sids cids w = (Ret (infos_of (command_of (assets w)) (sat w) sids cids), w).
Proof.
  intros Hr. unfold deleted_infos, infos_of. erewrite bind_Ret; last first.
  { apply (for_fold_run _ _ (fun m id =>
      <[id := {| SesCid := EmptyString; dc_CommandId := command_of (assets w) id |}]> m)).
    intros m id _. destruct (GetBroadcastCommandId_run id w Hr) as [err E]. cbv beta.
    by erewrite bind_Ret by exact E. }
  apply (for_fold_run _ _ (fun m id =>
      let c := default EmptyString (sat w !! id) in
      <[c := {| SesCid := id; dc_CommandId := dc_CommandId (default no_deleted_info (m !! c)) |}]> m)).
  intros m id _. cbv beta. by erewrite bind_Ret by (by apply GetContentIdFromSatelliteId_run).
Qed.

Lemma infos_first_lookup cmd (m : gmap string DeletedContentsInfo) cids c :
  foldl (fun m id => <[id := {| SesCid := EmptyString; dc_CommandId := cmd id |}]> m) m cids !! c =
  if decide (c ∈ cids) then Some {| SesCid := EmptyString; dc_CommandId := cmd c |} else m !! c.
Proof.
  revert m. induction cids as [|c' cids IH]; intros m.
  { by rewrite decide_False by apply not_elem_of_nil. }
  simpl foldl. rewrite IH. destruct (decide (c = c')) as [->|].
  - rewrite lookup_insert_eq, (decide_True (P := c' ∈ c' :: cids)) by left.
    by case_decide.
  - rewrite lookup_insert_ne by done. repeat case_decide; set_solver.
Qed.

(** Every deleted content is reported with its satellite id and command id. *)
Lemma infos_of_lookup cmd (satmap : gmap string string) (kvs : list (string * string)) sid c :
  NoDup kvs.*2 -> Forall (fun kv => satmap !! kv.1 = Some kv.2) kvs -> (sid, c) ∈ kvs ->
  infos_of cmd satmap kvs.*1 kvs.*2 !! c = Some {| SesCid := sid; dc_CommandId := cmd c |}.
Proof.
  intros Hnd Hsat Hin. unfold infos_of. set (m0 := foldl _ ∅ kvs.*2).
  assert (forall kv, kv ∈ kvs -> dc_CommandId (default no_deleted_info (m0 !! kv.2)) = cmd kv.2) as H0'.
  { intros kv Hkv. unfold m0. rewrite infos_first_lookup, decide_True; [done|].
    by apply list_elem_of_fmap_2. }
  clearbody m0. revert m0 H0'. induction kvs as [|[s' c'] kvs IH]; [by apply elem_of_nil in Hin|].
  intros m0 Hm0. apply Forall_cons in Hsat as [Hs' Hsat]. apply NoDup_cons in Hnd as [Hc' Hnd].
  simpl in *. rewrite Hs'. simpl.
  assert (dc_CommandId (default no_deleted_info (m0 !! c')) = cmd c') as -> by (apply (Hm0 (s', c')); left).
  apply elem_of_cons in Hin as [[= <- <-]|Hin].
  - clear IH. assert (forall m : gmap string DeletedContentsInfo,
      m !! c = Some {| SesCid := sid; dc_CommandId := cmd c |} ->
      foldl (fun m id => let c := default EmptyString (satmap !! id) in
        <[c := {| SesCid := id; dc_CommandId := dc_CommandId (default no_deleted_info (m !! c)) |}]> m)
        m kvs.*1 !! c = Some {| SesCid := sid; dc_CommandId := cmd c |}) as Hkeep.
    { clear Hm0 m0. induction kvs as [|[s1 c1] kvs IH]; intros m Hm; simpl; [done|].
      apply Forall_cons in Hsat as [Hs1 Hsat]. apply not_elem_of_cons in Hc' as [? ?].
      apply NoDup_cons in Hnd as [? ?]. simpl in *. rewrite Hs1. apply IH; try done.
      by rewrite lookup_insert_ne. }
    apply Hkeep, lookup_insert_eq.
  - apply IH; try done. intros kv Hkv. rewrite lookup_insert_ne; [apply Hm0; by right|].
    intros ->. by apply Hc', list_elem_of_fmap_2.
Qed.

(** *** The refinement *)

Lemma safe_getDirSizeinMB P path : safe P (getDirSizeinMB path).
Proof. unfold getDirSizeinMB. step_safely. Qed.

Lemma getDirSizeinMB_run path w : exists sz, getDirSizeinMB path w = (Ret sz, w) /\
  forall w', w_disk w' = w_disk w -> getDirSizeinMB path w' = (Ret sz, w').
Proof.
  eexists. split; [by unfold getDirSizeinMB; erewrite bind_Ret by done|].
  intros w' Hd. unfold getDirSizeinMB. erewrite bind_Ret by done. by rewrite Hd.
Qed.

Lemma reaches_create i cid a info w o w' :
  reaches i w -> assets w !! a = None -> CreateSatelliteIndexing cid a info w = (o, w') ->
  reaches i w' /\ is_result o.
Proof.
  intros Hw Ha Hr. destruct (CreateSatelliteIndexing_cases _ _ _ _ _ _ (proj1 Hw) Hr)
    as [Hr' [(-> & Es & Em & _)|(e & -> & E)]]; (split; [|done]).
  - eapply reaches_step; [done..|]. unfold abs. rewrite Es, Em. by apply step_add.
  - by rewrite E.
Qed.

Lemma safe_getMstoreFiles i vod cs ds : safe (reaches i) (getMstoreFiles vod cs ds).
Proof.
  intros w Hw. unfold getMstoreFiles. cbv zeta.
  erewrite bind_Ret by (by apply ignoring_Ret, DoesContentIdExist_run, Hw).
  case_bool_decide as Hin; [done|].
  erewrite bind_Ret by done. set (w1 := log_event _ w).
  assert (reaches i w1) as Hw1 by done.
  destruct (json_marshal _) as [e|info]; [done|].
  destruct (CreateSatelliteIndexing (CID (vi_Metadata vod))
    (Contentid (vm_UserDefined (vi_Metadata vod))) info w1) as [o w2] eqn:E.
  destruct (reaches_create i _ _ _ _ _ _ Hw1 ltac:(by apply eq_None_not_Some) E) as [Hw2 Ho].
  destruct o as [[]|e| |]; try done.
  - erewrite bind_Ret by exact E. clear E. revert w2 Hw2.
    apply safe_bind; [apply safe_getDirSizeinMB|]. intros ?. step_safely.
  - by erewrite bind_Fail by exact E.
Qed.

Lemma safe_getMetadataAPI i id cs ds : safe (reaches i) (getMetadataAPI id cs ds).
Proof. unfold getMetadataAPI. step_safely. apply safe_getMstoreFiles. Qed.

Lemma safe_queue_deleted P `{!QueueInv P} infos c : safe P (queue_deleted infos c).
Proof. unfold queue_deleted. step_safely. Qed.

Lemma entries_of_filter (P : string * string -> Prop) `{!forall kv, Decision (P kv)}
    (m : gmap string string) kvs :
  kvs ≡ₚ map_to_list m -> entries_of m (filter P kvs).
Proof.
  intros Hp. apply Forall_forall. intros [k v] [_ Hin]%list_elem_of_filter.
  rewrite Hp in Hin. by apply elem_of_map_to_list in Hin.
Qed.

(** What the two transactions of a deletion leave behind. *)
Lemma delete_entries_cases i kvs w o w' :
  reaches i w -> entries_of (sat w) kvs ->
  (DeleteSatelliteIds kvs.*1;; DeleteAssetMapping kvs.*2) w = (o, w') ->
  reaches i w' /\ is_result o /\
  (o = Ret tt -> sat w' = remove_keys kvs.*1 (sat w) /\
     assets w' = remove_keys kvs.*2 (assets w) /\ pending w' = pending w).
Proof.
  intros Hw Hkvs. pose proof Hw as [(Hs & Ha & Hp) Hsteps].
  destruct (DeleteSatelliteIds kvs.*1 w) as [o1 w1] eqn:E1.
  destruct (DeleteSatelliteIds_touches _ _ _ _ Hs E1) as (_ & _ & [[-> U1]|(e & -> & Hsame)]);
    last first.
  { erewrite bind_Fail by exact E1. intros [= <- <-]. by rewrite Hsame. }
  erewrite bind_Ret by exact E1. destruct (sat_updated _ _ _ U1) as (Es1 & Ea1 & Ep1).
  intros E2. assert (ready w1) as Hr1 by (by eapply ready_updated).
  destruct (DeleteAssetMapping_touches kvs.*2 w1 _ _ (proj1 (proj2 Hr1)) E2)
    as (_ & _ & [[-> U2]|(e & -> & Hsame)]).
  - destruct (assets_updated _ _ _ U2) as (Es2 & Ea2 & Ep2). split_and!; [|done|].
    + eapply reaches_step; [done|by eapply ready_updated|].
      unfold abs. rewrite Es2, Ea2, Es1, Ea1. by apply step_delete.
    + intros _. rewrite Es2, Ea2, Ep2, Es1, Ea1, Ep1. done.
  - split_and!; [rewrite Hsame|done|done].
    eapply reaches_step; [done..|]. unfold abs. rewrite Es1, Ea1. by apply step_unpin.
Qed.

Lemma handleDeletedContents_reads vodlist w : ready w ->
  let kvs := filter (fun kv => kv.1 ∉ available vodlist) (env_range (w_trace w) (sat w)) in
  handleDeletedContents vodlist w =
  ((DeleteSatelliteIds kvs.*1;; DeleteAssetMapping kvs.*2);;
   for_each kvs.*2 (queue_deleted (infos_of (command_of (assets w)) (sat w) kvs.*1 kvs.*2))) w.
Proof.
  intros Hr kvs. unfold handleDeletedContents.
  erewrite bind_Ret by (by apply GetSatelliteMappedItems_run).
  erewrite bind_Ret by done. cbv zeta. fold kvs.
  erewrite bind_Ret by (by apply deleted_infos_run).
  unfold mbind, M_bind. by destruct (DeleteSatelliteIds _ _) as [[] ?].
Qed.

Lemma safe_handleDeletedContents i vodlist : safe (reaches i) (handleDeletedContents vodlist).
Proof.
  intros w Hw. rewrite handleDeletedContents_reads by apply Hw. cbv zeta.
  set (kvs := filter _ _). assert (entries_of (sat w) kvs) as Hk.
  { apply entries_of_filter, env_range_perm. }
  destruct ((DeleteSatelliteIds kvs.*1;; DeleteAssetMapping kvs.*2) w) as [o w1] eqn:E.
  destruct (delete_entries_cases i kvs w o w1 Hw Hk E) as (Hw1 & Ho & _).
  destruct o as [[]|e| |]; try done.
  - erewrite bind_Ret by exact E. clear E Ho. revert w1 Hw1.
    apply safe_for_each. intros c _. apply (safe_queue_deleted _ _ _).
  - by erewrite bind_Fail by exact E.
Qed.

(** *** With a database whose commits succeed *)

Lemma queue_deleted_reliable infos c w :
  reliable -> ready w ->
  let d := deleted_request c (env_now (w_trace w)) (default no_deleted_info (infos !! c)) in
  storable ("DL_" +:+ c) d ->
  exists w', queue_deleted infos c w = (Ret tt, w') /\ ready w' /\ abs w' = abs w /\
    queued ("DL_" +:+ c) d w' /\
    forall k, k <> "DL_" +:+ c -> pending w' !! k = pending w !! k.
Proof.
  intros Hrel Hr d (Hk & s & E & Hv). unfold queue_deleted. erewrite bind_Ret by done.
  fold d. rewrite E.
  destruct (AddContent_reliable ("DL_" +:+ c) s (log_event EvClock w) Hrel Hr Hk Hv)
    as (w' & Ew & U & _).
  exists w'. destruct (pending_updated _ _ _ U) as (Es & Ea & Ep).
  split_and!; [by apply ignoring_Ret|by eapply ready_updated|..].
  - unfold abs. by rewrite Es, Ea.
  - exists s. split; [done|]. by rewrite Ep, lookup_insert_eq.
  - intros k Hne. by rewrite Ep, lookup_insert_ne.
Qed.

Lemma queue_all_reliable infos cs w :
  reliable -> ready w -> NoDup cs ->
  (forall c tr, c ∈ cs -> storable ("DL_" +:+ c)
     (deleted_request c (env_now tr) (default no_deleted_info (infos !! c)))) ->
  exists w', for_each cs (queue_deleted infos) w = (Ret tt, w') /\ ready w' /\ abs w' = abs w /\
    (forall c, c ∈ cs -> exists tr, queued ("DL_" +:+ c)
       (deleted_request c (env_now tr) (default no_deleted_info (infos !! c))) w') /\
    (forall k, (forall c, c ∈ cs -> k <> "DL_" +:+ c) -> pending w' !! k = pending w !! k).
Proof.
  intros Hrel. revert w. induction cs as [|c cs IH]; intros w Hr Hnd Hst.
  { exists w. split_and!; try done. intros c Hc. by apply elem_of_nil in Hc. }
  apply NoDup_cons in Hnd as [Hc Hnd].
  destruct (queue_deleted_reliable infos c w Hrel Hr (Hst c _ (list_elem_of_here _ _)))
    as (w1 & E & Hr1 & Ha1 & Hq & Hk).
  destruct (IH w1 Hr1 Hnd) as (w2 & E2 & Hr2 & Ha2 & Hq2 & Hk2).
  { intros c' tr ?. apply Hst. by right. }
  exists w2. simpl. erewrite bind_Ret by exact E. split_and!; [done|done|congruence|..].
  - intros c' [->|Hc']%elem_of_cons; [|by apply Hq2]. exists (w_trace w).
    destruct Hq as (s & Es & Ep). exists s. split; [done|]. rewrite Hk2; [done|].
    by intros c' Hc' <-%(inj (String.append _)).
  - intros k Hne. rewrite Hk2, Hk; [done|apply Hne; by left|]. intros c' ?. apply Hne. by right.
Qed.

(** The entries a deletion forgets. *)
Definition gone (vodlist : VodList) w (cid a : string) : Prop :=
  sat w !! cid = Some a /\ cid ∉ available vodlist.

Lemma gone_range vodlist w cid a :
  (cid, a) ∈ filter (fun kv => kv.1 ∉ available vodlist) (env_range (w_trace w) (sat w)) <->
  gone vodlist w cid a.
Proof.
  unfold gone. rewrite list_elem_of_filter, env_range_perm, elem_of_map_to_list. simpl. tauto.
Qed.

Lemma gone_nodup vodlist w : index_ok (abs w) ->
  NoDup (filter (fun kv => kv.1 ∉ available vodlist) (env_range (w_trace w) (sat w))).*2.
Proof.
  intros [_ Hi]. apply NoDup_fmap_2_strong.
  - intros [c1 a] [c2 a'] Hg1%gone_range Hg2%gone_range Ea. simpl in Ea. subst a'.
    f_equal. apply (Hi _ _ a); [apply Hg1|apply Hg2].
  - apply NoDup_filter. rewrite env_range_perm. apply NoDup_map_to_list.
Qed.

(** An indexing on a database whose commits succeed. *)
Lemma CreateSatelliteIndexing_reliable cid a info w :
  reliable -> ready w -> key_ok cid -> key_ok a -> value_ok a -> value_ok info ->
  exists w', CreateSatelliteIndexing cid a info w = (Ret tt, w') /\ ready w' /\
    sat w' = <[cid := a]> (sat w) /\ assets w' = <[a := info]> (assets w) /\
    pending w' = pending w /\ w_disk w' = w_disk w /\ w_trace w' = w_trace w.
Proof.
  intros Hrel Hr Hc Ha Hva Hvi.
  destruct (CreateSatelliteIndexing cid a info w) as [o w'] eqn:E.
  destruct (db_update_atomic _ _ _ _ E) as (Hd & Ht & _).
  destruct (CreateSatelliteIndexing_cases _ _ _ _ _ _ Hr E)
    as [Hr' [(-> & Es & Ea & Ep)|(e & -> & Hsame)]]; [by exists w'|].
  exfalso. revert E. unfold CreateSatelliteIndexing, db_update.
  destruct (tx_put_ok SatelliteIdtoAssetIdMapping cid a _ (proj1 Hr) Hc Hva) as (t1 & E1 & U1).
  destruct (tx_put_ok AssetPathMapping a info t1) as (t2 & E2 & _); [|done..|].
  { rewrite (proj1 U1). apply Hr. }
  erewrite bind_Ret by (by apply wrap_error_Ret). erewrite wrap_error_Ret by done.
  pose proof (Hrel (w_db w) t2) as Hn. by destruct (tx_commit _ _) as [[] ?].
Qed.

(** After its two deletions, whatever happens to the queue. *)
Lemma handleDeletedContents_sat vodlist w :
  reliable -> ready w ->
  sat (handleDeletedContents vodlist w).2 =
  remove_keys (filter (fun kv => kv.1 ∉ available vodlist) (env_range (w_trace w) (sat w))).*1 (sat w).
Proof.
  intros Hrel Hr. rewrite handleDeletedContents_reads by done. cbv zeta. set (kvs := filter _ _).
  destruct (deletes_reliable SatelliteIdtoAssetIdMapping kvs.*1
    (fun e => "[Filesystem][DeleteSatelliteIds] " +:+ e) w Hrel (proj1 Hr)) as (w1 & E1 & U1 & _).
  assert (ready w1) as Hr1 by (by eapply ready_updated).
  destruct (deletes_reliable AssetPathMapping kvs.*2
    (fun e => "[Filesystem][DeleteAssetMapping] " +:+ e) w1 Hrel (proj1 (proj2 Hr1)))
    as (w2 & E2 & U2 & _).
  erewrite bind_Ret by (erewrite bind_Ret by exact E1; exact E2).
  destruct (sat_updated _ _ _ U1) as (Es1 & _). destruct (assets_updated _ _ _ U2) as (Es2 & _).
  set (infos := infos_of _ _ _ _).
  destruct (safe_for_each (holds (abs w2)) kvs.*2 (queue_deleted infos)
    (fun c _ => safe_queue_deleted _ _ c) w2) as [[_ Habs] _].
  { split; [by eapply ready_updated|done]. }
  injection Habs as -> _. congruence.
Qed.

(** A deletion on a database whose commits succeed, in terms of the entries that
    the iteration visited. *)
Lemma handleDeletedContents_reliable vodlist w :
  reliable -> ready w -> index_ok (abs w) ->
  (forall cid a tr, gone vodlist w cid a -> storable ("DL_" +:+ a)
     (deleted_request a (env_now tr) {| SesCid := cid; dc_CommandId := command_of (assets w) a |})) ->
  let kvs := filter (fun kv => kv.1 ∉ available vodlist) (env_range (w_trace w) (sat w)) in
  exists w', handleDeletedContents vodlist w = (Ret tt, w') /\ ready w' /\
    sat w' = remove_keys kvs.*1 (sat w) /\ assets w' = remove_keys kvs.*2 (assets w) /\
    (forall cid a, gone vodlist w cid a -> exists tr, queued ("DL_" +:+ a)
       (deleted_request a (env_now tr) {| SesCid := cid; dc_CommandId := command_of (assets w) a |}) w') /\
    (forall k, (forall cid a, gone vodlist w cid a -> k <> "DL_" +:+ a) ->
       pending w' !! k = pending w !! k).
Proof.
  intros Hrel Hr Hok Hst kvs. rewrite handleDeletedContents_reads by done. cbv zeta. fold kvs.
  assert (Forall (fun kv => sat w !! kv.1 = Some kv.2) kvs) as Hent.
  { apply Forall_forall. intros [c a] Hin%gone_range. apply Hin. }
  assert (forall cid a, gone vodlist w cid a ->
    infos_of (command_of (assets w)) (sat w) kvs.*1 kvs.*2 !! a =
    Some {| SesCid := cid; dc_CommandId := command_of (assets w) a |}) as Hinfo.
  { intros cid a Hg%gone_range. apply infos_of_lookup; [by apply gone_nodup|done|done]. }
  destruct (deletes_reliable SatelliteIdtoAssetIdMapping kvs.*1
    (fun e => "[Filesystem][DeleteSatelliteIds] " +:+ e) w Hrel (proj1 Hr)) as (w1 & E1 & U1 & _).
  assert (ready w1) as Hr1 by (by eapply ready_updated).
  destruct (deletes_reliable AssetPathMapping kvs.*2
    (fun e => "[Filesystem][DeleteAssetMapping] " +:+ e) w1 Hrel (proj1 (proj2 Hr1)))
    as (w2 & E2 & U2 & _).
  assert (ready w2) as Hr2 by (by eapply ready_updated).
  erewrite bind_Ret by (erewrite bind_Ret by exact E1; exact E2).
  destruct (sat_updated _ _ _ U1) as (Es1 & Ea1 & Ep1).
  destruct (assets_updated _ _ _ U2) as (Es2 & Ea2 & Ep2).
  edestruct (queue_all_reliable (infos_of (command_of (assets w)) (sat w) kvs.*1 kvs.*2)
    kvs.*2 w2 Hrel Hr2) as (w3 & E3 & Hr3 & Ha3 & Hq3 & Hk3); [by apply gone_nodup|..].
  { intros a tr ([cid a'] & -> & Hg%gone_range)%list_elem_of_fmap. simpl.
    rewrite (Hinfo cid a') by done. by apply Hst. }
  exists w3. injection Ha3 as Es3 Ea3. split_and!; [exact E3|done|congruence|congruence|..].
  - intros cid a Hg. destruct (Hq3 a) as [tr Htr].
    { eapply elem_of_seconds. by apply gone_range. }
    exists tr. by rewrite (Hinfo cid a Hg) in Htr.
  - intros k Hne. rewrite Hk3; [congruence|].
    intros a ([cid a'] & -> & Hg%gone_range)%list_elem_of_fmap. by eapply Hne.
Qed.

Lemma safe_totalAssetsCount i n : safe (reaches i) (totalAssetsCount logger n).
Proof. unfold totalAssetsCount. step_safely. Qed.

Lemma safe_checkForVODViaMstore i cs ds :
  safe (reaches i) (checkForVODViaMstore logger cs ds).
Proof.
  unfold checkForVODViaMstore. step_safely;
    eauto using safe_totalAssetsCount, safe_getMetadataAPI, safe_handleDeletedContents.
Qed.

Lemma safe_pollMstore i n cs ds : safe (reaches i) (pollMstore logger n cs ds).
Proof.
  induction n as [|n IH]; simpl; [apply safe_ret|].
  apply safe_bind; [|intros _; exact IH]. unfold pollMstore_round. step_safely.
  apply safe_checkForVODViaMstore.
Qed.
End Index.
