(* ===== verification/Reference.v ===== *)
(** A reference implementation of every interface of [Host.v], with the proofs of
    its laws: an in-memory bolt whose commits fail on demand, an in-memory disk,
    a scripted network and a bit-string codec.  The closed examples of the
    development run on it. *)
From S2P Require Import Prelude GoStrings GoFloat LogData Host Storage Logger CloudData FlatIndex Mstore.
From Stdlib Require Import Ascii.

(** ** bolt in memory *)

Record mem_db := MemDB {
  mem_buckets : gmap string (gmap string string);
  mem_faults : list bool;  (* whether the next commits fail *)
}.

(** An unfaulty database ignores the list of faults. *)
Definition mem_commit (faulty : bool) (d : mem_db) (t : gmap string (gmap string string))
    : option error * mem_db :=
  match mem_faults d with
  | true :: f => if faulty then (Some "commit failed", MemDB (mem_buckets d) f) else (None, MemDB t f)
  | false :: f => (None, MemDB t f)
  | [] => (None, MemDB t [])
  end.

Definition key_okb (k : string) : bool :=
  (0 <? String.length k) && (Z.of_nat (String.length k) <=? 32768)%Z.
Definition value_okb (v : string) : bool := (Z.of_nat (String.length v) <=? 2147483646)%Z.

Definition mem_bucket (t : gmap string (gmap string string)) (b : string) : gmap string string :=
  default ∅ (t !! b).

Definition mem_bolt (faulty : bool) : Bolt := {|
  DB := mem_db;
  Tx := gmap string (gmap string string);
  tx_begin := mem_buckets;
  tx_commit := mem_commit faulty;
  tx_bucket t b := bool_decide (is_Some (t !! b));
  tx_create_bucket t b :=
    if decide (b = EmptyString) then inl "bucket name required"
    else inr (<[b := mem_bucket t b]> t);
  bkt_get t b k := mem_bucket t b !! k;
  bkt_put t b k v :=
    if key_okb k then
      if value_okb v then inr (<[b := <[k := v]> (mem_bucket t b)]> t)
      else inl "value too large"
    else inl "key required";
  bkt_delete t b k := inr (<[b := delete k (mem_bucket t b)]> t);
  bkt_list t b := sorted_items (mem_bucket t b);
|}.

Section Laws.
Variable faulty : bool.
#[local] Hint Extern 0 Bolt => exact (mem_bolt faulty) : typeclass_instances.

Lemma mem_bkt_map (t : Tx) b : bkt_map t b = mem_bucket t b.
Proof. apply list_to_map_sorted_items. Qed.

Lemma mem_update (t : Tx) b f :
  tx_bucket t b = true ->
  let t' : Tx := <[b := f (mem_bucket t b)]> t in
  (forall b', tx_bucket t' b' = tx_bucket t b') /\
  bkt_map t' b = f (bkt_map t b) /\
  (forall b', b' <> b -> bkt_map t' b' = bkt_map t b').
Proof.
  intros Hb t'. simpl in *. apply bool_decide_eq_true in Hb.
  split_and!; [intros b'|..|intros b' Hne]; rewrite ?mem_bkt_map; unfold mem_bucket, t'.
  - apply bool_decide_ext. rewrite lookup_insert_is_Some'. naive_solver.
  - by rewrite lookup_insert_eq.
  - by rewrite lookup_insert_ne.
Qed.

Lemma mem_bolt_laws : @BoltLaws (mem_bolt faulty).
Proof.
  split.
  - intros t b. simpl. by rewrite mem_bkt_map.
  - intros t b k _. by rewrite mem_bkt_map.
  - intros t b k v t' Hb. simpl. destruct (key_okb k), (value_okb v); intros [= <-].
    by apply (mem_update t b <[k := v]>).
  - intros t b k v _ [? ?] ?. simpl. exists (<[b := <[k := v]> (mem_bucket t b)]> t).
    assert (key_okb k = true) as ->.
    { apply andb_true_iff. split; [by apply Nat.ltb_lt|by apply Z.leb_le]. }
    assert (value_okb v = true) as -> by (by apply Z.leb_le). done.
  - intros t b k t' Hb [= <-]. by apply (mem_update t b (delete k)).
  - intros t b k _. simpl. by eexists.
  - intros t b t'. simpl. case_decide; intros [= <-]. split_and!.
    + intros b'. destruct (decide (b' = b)) as [->|].
      * rewrite lookup_insert_eq, (bool_decide_eq_true_2 (b = b)), orb_true_r by done. done.
      * rewrite lookup_insert_ne, (bool_decide_eq_false_2 (b' = b)), orb_false_r by done. done.
    + intros b' Hb'. rewrite !mem_bkt_map. unfold mem_bucket.
      destruct (decide (b' = b)) as [->|]; [by rewrite lookup_insert_eq|by rewrite lookup_insert_ne].
    + intros Hb%bool_decide_eq_false. rewrite mem_bkt_map. unfold mem_bucket.
      rewrite lookup_insert_eq. by rewrite (proj2 (eq_None_not_Some _) Hb).
  - intros d t d'. simpl. unfold mem_commit.
    destruct (mem_faults d) as [|[] f], faulty; intros [= <-]; by intros b.
  - intros d t e d'. simpl. unfold mem_commit.
    destruct (mem_faults d) as [|[] f], faulty; intros [= <- <-]; by intros b.
Qed.
End Laws.
#[export] Existing Instance mem_bolt_laws.

Lemma sure_reliable : @reliable (mem_bolt false).
Proof. intros d tx. simpl. unfold mem_commit. by destruct (mem_faults d) as [|[] f]. Qed.

(** ** Files in memory *)

Record mem_disk := MemDisk {
  md_dirs : list string;
  md_files : list (string * string);  (* path and contents *)
  md_denied : list string;            (* paths on which every operation fails *)
}.

(** [q] is [p] or lies below it *)
Definition below (p q : string) : bool := bool_decide (q = p) || has_prefix (p +:+ "/") q.

Definition guarded (p : string) (d d' : mem_disk) : option error * mem_disk :=
  if decide (p ∈ md_denied d) then (Some ("permission denied: " +:+ p), d) else (None, d').

#[export] Instance mem_files : Disk := {|
  disk := mem_disk;
  os_mkdir_all p d := guarded p d (MemDisk (p :: md_dirs d) (md_files d) (md_denied d));
  os_remove_all p d := guarded p d
    (MemDisk (filter (fun q => below p q = false) (md_dirs d))
             (filter (fun f => below p f.1 = false) (md_files d)) (md_denied d));
  os_remove p d := guarded p d
    (MemDisk (filter (fun q => q <> p) (md_dirs d))
             (filter (fun f => f.1 <> p) (md_files d)) (md_denied d));
  os_rename p q d := guarded p d
    (let move r := if below p r then q +:+ s_drop (String.length p) r else r in
     MemDisk (move <$> md_dirs d) ((fun f => (move f.1, f.2)) <$> md_files d) (md_denied d));
  os_exists p d := bool_decide (p ∈ md_dirs d) || bool_decide (p ∈ (md_files d).*1);
  os_stat_size p d :=
    match list_find (fun f => f.1 = p) (md_files d) with
    | Some (_, (_, c)) => inr (Z.of_nat (String.length c))
    | None => inl "no such file"
    end;
  os_read_file p d :=
    match list_find (fun f => f.1 = p) (md_files d) with
    | Some (_, (_, c)) => inr c
    | None => inl "no such file"
    end;
  os_read_dir p d :=
    inr ((fun f => {| fi_name := path_base f.1; fi_is_dir := false;
                      fi_size := Z.of_nat (String.length f.2) |})
         <$> filter (fun f => path_dir f.1 = p) (md_files d));
  os_walk_sizes p d :=
    ((fun f => Z.of_nat (String.length f.2)) <$> filter (fun f => below p f.1 = true) (md_files d),
     None);
  os_walk p d :=
    filter (fun q => below p q = true) (md_dirs d) ++ filter (fun q => below p q = true) (md_files d).*1;
|}.

(** ** The network and the clock *)

(** A distinct 36-byte name per number. *)
Definition numbered_name (n : nat) : string :=
  let s := format_int (Z.of_nat n) in repeat_string "0" (36 - String.length s) +:+ s.

(** A script: pages by URL, and whether the n-th message is acknowledged. *)
Record script := Script {
  sc_pages : list (string * string);
  sc_nack : list nat;
}.

Definition sent_count (tr : list event) : nat :=
  length (List.filter (fun e => match e with EvTelemetry _ _ => true | _ => false end) tr).

Definition scripted (s : script) : Env := {|
  env_now tr := 1600000000000000000%Z;  (* a stopped clock *)
  env_uuid tr := numbered_name (length tr);
  env_http tr url :=
    match list_find (fun p => p.1 = url) (sc_pages s) with
    | Some (_, (_, body)) => inr (inr body)
    | None => inl ("no such page: " +:+ url)
    end;
  env_dial tr addr := None;
  env_send tr app text :=
    if decide (sent_count tr ∈ sc_nack s) then Some "unavailable" else None;
  env_range V tr m := map_to_list m;
  env_range_int V tr m := map_to_list m;
|}.
Lemma scripted_laws s : @EnvLaws (scripted s).
Proof. by split. Qed.

(** ** A codec *)

Fixpoint bits_of (p : positive) : string :=
  match p with
  | xH => EmptyString
  | xO q => String "0"%char (bits_of q)
  | xI q => String "1"%char (bits_of q)
  end.
Fixpoint of_bits (s : string) : option positive :=
  match s with
  | EmptyString => Some xH
  | String "0"%char s' => xO <$> of_bits s'
  | String "1"%char s' => xI <$> of_bits s'
  | _ => None
  end.
Lemma of_bits_of p : of_bits (bits_of p) = Some p.
Proof. induction p as [p IH|p IH|]; simpl; by rewrite ?IH. Qed.

Definition bit_codec {A} `{Countable A} (zero : A) : Json A := {|
  json_marshal a := inr (bits_of (encode a));
  json_unmarshal s :=
    match of_bits s ≫= decode with
    | Some a => (a, None)
    | None => (zero, Some "invalid character")
    end;
  json_wf _ := True;
|}.
Lemma bit_codec_laws {A} `{Countable A} (zero : A) : @JsonLaws A (bit_codec zero).
Proof.
  split; simpl; [by eauto|]. intros a s _ [= <-]. rewrite of_bits_of. simpl.
  by rewrite decode_encode.
Qed.

(** The types stored in the database or read from the network. *)
#[export] Instance ContentInfo_eq_dec : EqDecision ContentInfoOnDevice.
Proof. solve_decision. Defined.
#[export] Instance ContentInfo_countable : Countable ContentInfoOnDevice.
Proof.
  refine (inj_countable' (fun c => (DownloadTime c, FolderPath c, CommandId c))
    (fun '(a, b, c) => {| DownloadTime := a; FolderPath := b; CommandId := c |}) _).
  by intros [].
Defined.
#[export] Instance Property_countable : Countable Property.
Proof.
  refine (inj_countable' (fun p => (Key p, Value p)) (fun '(a, b) => {| Key := a; Value := b |}) _).
  by intros [].
Defined.
#[export] Instance ApiData_countable : Countable ApiData.
Proof.
  refine (inj_countable' (fun d => ((Id d, ApiType d : Z, RetryCount d, OperationTime d),
      (SendCloudTelemetry d, SendIOTCentralTelemetry d, Properties d)))
    (fun '((a, b, c, d), (e, f, g)) =>
      {| Id := a; ApiType := b; RetryCount := c; OperationTime := d; SendCloudTelemetry := e;
         SendIOTCentralTelemetry := f; Properties := g |}) _).
  by intros [].
Defined.
#[export] Instance ListContent_eq_dec : EqDecision ListContent.
Proof. solve_decision. Defined.
#[export] Instance ListContent_countable : Countable ListContent.
Proof.
  refine (inj_countable' lc_ContentID (fun a => {| lc_ContentID := a |}) _). by intros [].
Defined.
#[export] Instance VodList_eq_dec : EqDecision VodList.
Proof. solve_decision. Defined.
#[export] Instance VodList_countable : Countable VodList.
Proof.
  refine (inj_countable' (fun v => (vl_Status v, ListContents v))
    (fun '(a, b) => {| vl_Status := a; ListContents := b |}) _). by intros [].
Defined.

Definition zero_info : ContentInfoOnDevice :=
  {| DownloadTime := 0; FolderPath := EmptyString; CommandId := EmptyString |}.
Definition zero_api : ApiData :=
  {| Id := EmptyString; ApiType := 0%Z; RetryCount := 0; OperationTime := 0;
     SendCloudTelemetry := false; SendIOTCentralTelemetry := false; Properties := [] |}.
#[export] Instance info_codec : Json ContentInfoOnDevice := bit_codec zero_info.
#[export] Instance info_codec_laws : JsonLaws ContentInfoOnDevice := bit_codec_laws _.
#[export] Instance api_codec : Json ApiData := bit_codec zero_api.
#[export] Instance api_codec_laws : JsonLaws ApiData := bit_codec_laws _.
#[export] Instance api_codec_json : ApiJson.
Proof. split; [apply _|done..]. Qed.
#[export] Instance vodlist_codec : Json VodList := bit_codec {| vl_Status := EmptyString; ListContents := [] |}.

(** A metadata page holds its fields between bars:
    status, content id, command id, CID, video file. *)
Definition make_vod (status contentid commandid cid video : string) : VodInfo :=
  {| vi_Status := status;
     vi_Metadata :=
       {| vm_UserDefined := {| Title := EmptyString; Contentid := contentid;
                               Contentbroadcastcommandid := commandid |};
          MovieId := EmptyString; ValidityStartDate := 0; ValidityEndDate := 0; CID := cid;
          VideoFilename := video; TrailerFilename := EmptyString; CoverFilename := EmptyString;
          URLForDataFiles := EmptyString; DataFiles := []; ThumbnailFilename := EmptyString |} |}.
#[export] Instance vodinfo_codec : Json VodInfo := {|
  json_marshal v := inl "not used";
  json_unmarshal s :=
    match split_on "|"%char s with
    | [a; b; c; d; e] => (make_vod a b c d e, None)
    | _ => (make_vod EmptyString EmptyString EmptyString EmptyString EmptyString,
            Some "unexpected end of JSON input")
    end;
  json_wf _ := False;
|}.
#[export] Instance telemetry_codec : Json TelemetryMessage := {|
  json_marshal tm := inr (tm_EventType tm);
  json_unmarshal s := (make_message {| deviceId := EmptyString; applicationName := EmptyString;
      applicationVersion := EmptyString; upstreamAddress := EmptyString |} s new_MessageSubType 0 EmptyString,
    Some "not used");
  json_wf _ := False;
|}.

(** A request the in-memory database can hold. *)
Lemma storable_bits {A} `{Countable A} (zero : A) k (d : A) :
  key_okb k = true -> value_okb (bits_of (encode d)) = true ->
  storable (H4 := bit_codec zero) k d.
Proof.
  intros [Hk1 Hk2]%andb_true_iff Hv.
  split; [split; [by apply Nat.ltb_lt|by apply Z.leb_le]|].
  eexists. split; [done|by apply Z.leb_le].
Qed.

(** The bodies of messages are written, never read back: the device id and the
    content ids, between commas. *)
#[export] Instance update_codec : Json UpdateRequest := {|
  json_marshal r := inr (join_with "," (ur_DeviceId r :: (cd_ContentId <$> ur_Contents r)));
  json_unmarshal s := ({| ur_DeviceId := EmptyString; ur_Contents := [] |}, Some "not used");
  json_wf _ := True;
|}.
#[export] Instance properties_codec : Json (list ContentProperties_) := {|
  json_marshal l := inr (join_with "," (cp_ContentId <$> l));
  json_unmarshal s := ([], Some "not used");
  json_wf _ := True;
|}.
#[export] Instance status_codec : Json CommandStatusRequest := {|
  json_marshal r := inr (join_with "," [cs_DeviceId r; cs_CommandId r; cs_FailureReason r]);
  json_unmarshal s := ({| cs_DeviceId := EmptyString; cs_CommandId := EmptyString; cs_IsFailed := false;
    cs_FailureReason := EmptyString |}, Some "not used");
  json_wf _ := True;
|}.
#[export] Instance provision_codec : Json ProvisionDeviceRequest := {|
  json_marshal r := inr (pr_DeviceId r);
  json_unmarshal s := ({| pr_DeviceId := s |}, None);
  json_wf _ := True;
|}.

(** ** A device *)

Definition ref_logger : Logger :=
  {| deviceId := "hub-1"; applicationName := "Hub Module"; applicationVersion := "v1.0";
     upstreamAddress := "HubEdgeProxyModule:5001" |}.

Section Device.
Variable faulty : bool.
#[local] Hint Extern 0 Bolt => exact (mem_bolt faulty) : typeclass_instances.

Definition ref_world (faults : list bool) (sat assets pending : list (string * string)) : world :=
  World (MemDB (list_to_map [
      (SatelliteIdtoAssetIdMapping, list_to_map sat); (AssetPathMapping, list_to_map assets);
      (PendingAPIRequestMapping, list_to_map pending)]) faults)
    (MemDisk [] [] []) [].

Lemma ref_world_ready faults s a p : ready (ref_world faults s a p).
Proof. unfold ready, has_bucket. simpl. by vm_compute. Qed.
Lemma ref_world_sat faults s a p : sat (ref_world faults s a p) = list_to_map s.
Proof. unfold sat, bucket_of. rewrite mem_bkt_map. reflexivity. Qed.
Lemma ref_world_assets faults s a p : assets (ref_world faults s a p) = list_to_map a.
Proof. unfold assets, bucket_of. rewrite mem_bkt_map. reflexivity. Qed.
Lemma ref_world_pending faults s a p : pending (ref_world faults s a p) = list_to_map p.
Proof. unfold pending, bucket_of. rewrite mem_bkt_map. reflexivity. Qed.
End Device.
