(* ===== verification/FilesRef.v ===== *)
(** The in-memory disk of [Reference.v] with files that can be written. *)
From S2P Require Import Prelude GoStrings LogData Host Storage Logger CloudData FlatIndex Files Reference.

Definition mem_put (p c : string) (d : mem_disk) : mem_disk :=
  MemDisk (md_dirs d) ((p, c) :: filter (fun f => f.1 <> p) (md_files d)) (md_denied d).
Definition mem_get (p : string) (d : mem_disk) : option string :=
  (fun r => r.2.2) <$> list_find (fun f => f.1 = p) (md_files d).

#[export] Instance mem_writable : Files := {|
  os_open_file b p d := guarded p d
    (match mem_get p d with
     | Some _ => if b then mem_put p EmptyString d else d
     | None => mem_put p EmptyString d
     end);
  os_append p s d := guarded p d (mem_put p (default EmptyString (mem_get p d) +:+ s) d);
  os_write p s d := guarded p d
    (let old := default EmptyString (mem_get p d) in mem_put p (s +:+ s_drop (String.length s) old) d);
  os_append_count p s d := 0;
  http_partial tr url := EmptyString;
|}.

Lemma mem_read p d : os_read_file p d = match mem_get p d with Some c => inr c | None => inl "no such file" end.
Proof. simpl. unfold mem_get. by destruct (list_find _ _) as [[i [q c]]|]. Qed.
Lemma mem_get_put p c d q : mem_get q (mem_put p c d) = if decide (q = p) then Some c else mem_get q d.
Proof.
  unfold mem_get, mem_put. cbn [md_files list_find fst]. case_decide as Hp; case_decide as Hq; subst; try done.
  destruct d as [dirs files denied]. cbn [md_files]. induction files as [|[r k] l IH]; [done|].
  rewrite filter_cons. cbn [fst list_find]. destruct (decide (r = p)) as [->|].
  - rewrite decide_False by naive_solver. rewrite decide_False by congruence. rewrite IH.
    by destruct (list_find (fun f => f.1 = q) l) as [[]|].
  - rewrite decide_True by done. cbn [list_find fst]. case_decide; [done|].
    destruct (list_find _ (filter _ _)) as [[]|], (list_find (fun f => f.1 = q) l) as [[]|]; done.
Qed.
Lemma mem_get_missing p d : os_exists p d = false -> mem_get p d = None.
Proof.
  simpl. intros [_ Hp%bool_decide_eq_false]%orb_false_iff. unfold mem_get.
  destruct (list_find _ _) as [[i [q c]]|] eqn:E; [|done]. apply list_find_Some in E as (Hi & Hq & _).
  exfalso. apply Hp. simpl in Hq. subst q. apply list_elem_of_lookup_2 in Hi. apply (list_elem_of_fmap_2 fst _ _ Hi).
Qed.

Lemma guarded_cases p d d' : guarded p d d' = (None, d') \/ exists e, guarded p d d' = (Some e, d).
Proof. unfold guarded. case_decide; eauto. Qed.
Lemma guarded_ok p d d1 d' : guarded p d d1 = (None, d') -> d' = d1.
Proof. unfold guarded. case_decide; by intros [= <-]. Qed.

Lemma put_elsewhere p q c (d : mem_disk) : apart p q -> same_text q d (mem_put p c d).
Proof.
  intros (_ & _ & Hne) k. rewrite !mem_read, mem_get_put. rewrite decide_False; [done|]. by intros ->.
Qed.
Lemma read_put p c (d : mem_disk) : os_read_file p (mem_put p c d) = inr c.
Proof. by rewrite mem_read, mem_get_put, decide_True. Qed.

#[export] Instance mem_writable_laws : FilesLaws.
Proof.
  split.
  - intros b p d q Ha. cbn [os_open_file mem_writable].
    destruct (guarded_cases p d (match mem_get p d with
       | Some _ => if b then mem_put p EmptyString d else d | None => mem_put p EmptyString d end)) as [->|[e ->]]; [|done].
    simpl snd. destruct (mem_get p d), b; (done || by apply put_elsewhere).
  - intros p s d q Ha. cbn [os_append mem_writable].
    destruct (guarded_cases p d (mem_put p (default EmptyString (mem_get p d) +:+ s) d)) as [->|[e ->]]; [|done].
    by apply put_elsewhere.
  - intros p s d q Ha. cbn [os_write mem_writable]. cbv zeta.
    destruct (guarded_cases p d (mem_put p (s +:+ s_drop (String.length s) (default EmptyString (mem_get p d))) d))
      as [->|[e ->]]; [|done]. by apply put_elsewhere.
  - intros b p d d' c E Hc. cbn [os_open_file mem_writable] in E. apply guarded_ok in E as ->.
    rewrite mem_read in Hc. destruct (mem_get p d) as [k|] eqn:Ek; [|done]. injection Hc as ->.
    destruct b; [apply read_put|by rewrite mem_read, Ek].
  - intros b p d d' E Hp. cbn [os_open_file mem_writable] in E. apply guarded_ok in E as ->.
    rewrite (mem_get_missing p d Hp). apply read_put.
  - intros p s d d' c E Hc. cbn [os_append mem_writable] in E. apply guarded_ok in E as ->.
    rewrite mem_read in Hc. destruct (mem_get p d) as [k|] eqn:Ek; [|done]. injection Hc as ->. apply read_put.
  - intros p s d d' c E Hc. cbn [os_write mem_writable] in E. cbv zeta in E. apply guarded_ok in E as ->.
    rewrite mem_read in Hc. destruct (mem_get p d) as [k|] eqn:Ek; [|done]. injection Hc as ->. apply read_put.
Qed.

#[export] Instance mem_remove_laws : RemoveLaws.
Proof.
  intros p d q (_ & _ & Hne). cbn [os_remove mem_files].
  set (d1 := MemDisk _ _ _). destruct (guarded_cases p d d1) as [->|[e ->]]; [|done]. cbn [snd]. intros c.
  assert (mem_get q d1 = mem_get q d) as E; [|by rewrite !mem_read, E].
  transitivity (mem_get q (mem_put p c d)); [|by rewrite mem_get_put, decide_False by (by intros ->)].
  unfold mem_get, mem_put, d1. cbn [md_files list_find fst]. rewrite decide_False by (by intros ->).
  by destruct (list_find _ _) as [[]|].
Qed.
