(* ===== verification/LogFile.v ===== *)
(** [logger/logger.go]: the local log file.  [Log_old] writes lines through a
    [bufio.Writer] and flushes it after an urgent one.  The hub's own steps
    do not read this file; it is a component with its own state here. *)
From S2P Require Import Prelude GoStrings LogData Host Storage FlatIndex Logger Files Reference FilesRef.

(** ** [bufio.Writer] (Go 1.17)

    What is in the buffer, its size, and the first error of writing, which stays. *)
Record Writer := { buffered : string; buf_size : nat; wr_err : option error }.

(** [bufio.NewWriterSize]; a size that is not positive is replaced. *)
Definition NewWriterSize (size : Z) : Writer :=
  {| buffered := EmptyString; buf_size := if decide (size <= 0)%Z then Z.to_nat 4096 else Z.to_nat size; wr_err := None |}.
Definition Available (b : Writer) : nat := buf_size b - String.length (buffered b).

(** [Message] *)
Record LogMessage := {
  lm_DeviceId : string;
  MessagesubType : string;
  TimeStamp : string;
  MessageBody : gmap string string;
}.

Record LogFile := { lf_deviceId : string; lf_path : string; lf_writer : Writer }.
Definition set_writer (b : Writer) (l : LogFile) : LogFile :=
  {| lf_deviceId := lf_deviceId l; lf_path := lf_path l; lf_writer := b |}.

Section LogFile.
Context `{Bolt, Disk, Env} `{!Files} `{Json (gmap string LogMessage)}.

(** A failed write leaves the bytes it has not written in the buffer; after an error
    they are never written. *)
Definition Flush (path : string) (b : Writer) : Hub Writer :=
  match wr_err b with
  | Some _ => mret b
  | None =>
      if decide (buffered b = EmptyString) then mret b
      else
        n ← gets (fun w => os_append_count path (buffered b) (w_disk w));
        r ← try! (disk_op (os_append path (buffered b)));
        mret (match r with
              | inl e => {| buffered := s_drop n (buffered b); buf_size := buf_size b; wr_err := Some e |}
              | inr _ => {| buffered := EmptyString; buf_size := buf_size b; wr_err := None |}
              end)
  end.

(** The buffer is filled and flushed until the rest fits. *)
Fixpoint write_string (fuel : nat) (path s : string) (b : Writer) : Hub Writer :=
  match fuel with
  | 0 => out_of_fuel
  | S fuel' =>
      match wr_err b with
      | Some _ => mret b
      | None =>
          if decide (Available b < String.length s) then
            let n := Available b in
            b' ← Flush path {| buffered := buffered b +:+ s_take n s; buf_size := buf_size b; wr_err := None |};
            write_string fuel' path (s_drop n s) b'
          else mret {| buffered := buffered b +:+ s; buf_size := buf_size b; wr_err := None |}
      end
  end.
Definition WriteString (path s : string) (b : Writer) : Hub Writer :=
  write_string (String.length s + 2) path s b.

(** ** [Logger] *)

(** [None] is [log.Fatalf]. *)
Definition MakeLogger (deviceId logFilePath : string) (bufferSize : Z) : Hub (option LogFile) :=
  r ← try! (disk_op (os_open_file false logFilePath));
  match r with
  | inl _ => mret None
  | inr _ => mret (Some {| lf_deviceId := deviceId; lf_path := logFilePath; lf_writer := NewWriterSize bufferSize |})
  end.

Definition urgent : list string := ["Liveness"; "Telemetry"; "Critical"; "Error"].

(** The line of a message; the error about an invalid type is built and dropped, and
    a message that JSON cannot hold is an empty line. *)
Definition log_line (device messageType messagesubType : string) (messageBody : gmap string string) (now : Z) : string :=
  let msg := {| lm_DeviceId := device; MessagesubType := messagesubType;
                TimeStamp := format_int (now / 1000000000)%Z; MessageBody := messageBody |} in
  match json_marshal (A := gmap string LogMessage) {[messageType := msg]} with
  | inr s => s
  | inl _ => EmptyString
  end +:+ String newline EmptyString.

(** The advisory lock on the file excludes other programs; its errors are printed. *)
Definition Log_old (l : LogFile) (messageType messagesubType : string) (messageBody : gmap string string) : Hub LogFile :=
  now ← time_now;
  b ← WriteString (lf_path l) (log_line (lf_deviceId l) messageType messagesubType messageBody now) (lf_writer l);
  b ← (if decide (messageType ∈ urgent) then Flush (lf_path l) b else mret b);
  mret (set_writer b l).

Definition Close (l : LogFile) : Hub LogFile :=
  b ← Flush (lf_path l) (lf_writer l);
  mret (set_writer b l).

(** ** Runs *)

Record log_call := { lc_type : string; lc_sub : string; lc_body : gmap string string }.
Fixpoint log_all (calls : list log_call) (l : LogFile) : Hub LogFile :=
  match calls with
  | [] => mret l
  | c :: calls' => l' ← Log_old l (lc_type c) (lc_sub c) (lc_body c); log_all calls' l'
  end.

(** The text the calls ask to write: each reads the clock once. *)
Fixpoint lines_from (device : string) (tr : list event) (calls : list log_call) : string :=
  match calls with
  | [] => EmptyString
  | c :: calls' =>
      log_line device (lc_type c) (lc_sub c) (lc_body c) (env_now tr) +:+ lines_from device (tr ++ [EvClock]) calls'
  end.

(** ** The invariant

    The buffer is within its size, and while no write has failed the file followed by
    the buffer is [text]. *)
Definition holds (path text : string) (b : Writer) (w : world) : Prop :=
  0 < buf_size b /\ String.length (buffered b) <= buf_size b /\
  (wr_err b = None -> exists c, os_read_file path (w_disk w) = inr c /\ c +:+ buffered b = text).
Definition flushed (b : Writer) : Prop := wr_err b = None -> buffered b = EmptyString.

Context `{!FilesLaws}.

Lemma Flush_holds path text b w : holds path text b w ->
  exists b' w', Flush path b w = (Ret b', w') /\ holds path text b' w' /\ flushed b' /\
    buf_size b' = buf_size b /\ w_trace w' = w_trace w.
Proof.
  intros Hh. pose proof Hh as (Hs & Hl & Hc). unfold Flush. destruct (wr_err b) as [e|] eqn:Ee.
  { exists b, w. unfold flushed. rewrite Ee. by split_and!. }
  destruct (Hc eq_refl) as (c & Hr & Ht). unfold flushed. case_decide as Hb; [by exists b, w; split_and!|].
  erewrite bind_Ret by done.
  unfold disk_op, attempt, mbind, M_bind. destruct (os_append path (buffered b) (w_disk w)) as [[e|] d] eqn:E.
  - eexists _, _. split_and!; [done| |done..]. split_and!; simpl; [done|rewrite s_length_drop; lia|done].
  - eexists _, _. split_and!; [done| |done..]. unfold holds. simpl. split_and!; [done|lia|]. intros _.
    exists text. split; [|apply s_app_nil_r]. rewrite <-Ht. by eapply append_ok.
Qed.

(** A full buffer costs one round more. *)
Definition rounds (s : string) (b : Writer) : nat := String.length s + (if decide (Available b = 0) then 1 else 0).

Lemma write_string_holds fuel path s text b w : holds path text b w ->
  0 < fuel -> (wr_err b = None -> rounds s b < fuel) ->
  exists b' w', write_string fuel path s b w = (Ret b', w') /\ holds path (text +:+ s) b' w' /\
    w_trace w' = w_trace w.
Proof.
  revert s text b w. induction fuel as [|fuel IH]; intros s text b w Hh Hpos Hf; [lia|]. simpl.
  destruct Hh as (Hs & Hl & Hc). destruct (wr_err b) as [e|] eqn:Ee.
  { exists b, w. unfold holds. rewrite Ee. by split_and!. }
  destruct (Hc eq_refl) as (c & Hr & Ht). specialize (Hf eq_refl). case_decide as Ha; unfold rounds in Hf.
  - set (n := Available b) in *.
    assert (holds path (text +:+ s_take n s)
      {| buffered := buffered b +:+ s_take n s; buf_size := buf_size b; wr_err := None |} w) as Hh1.
    { split_and!; simpl; [done| |].
      - rewrite s_length_app, s_length_take. unfold n, Available in *. lia.
      - intros _. exists c. split; [done|]. by rewrite <-s_app_assoc, Ht. }
    destruct (Flush_holds _ _ _ _ Hh1) as (b2 & w2 & E2 & Hh2 & Hfl & Hsize & Htr). erewrite bind_Ret by exact E2.
    destruct (IH (s_drop n s) _ _ _ Hh2) as (b3 & w3 & E3 & Hh3 & Ht3).
    + case_decide; lia.
    + intros Hn. unfold rounds. rewrite s_length_drop.
      assert (Available b2 <> 0) as Hav. { unfold Available. rewrite Hfl, Hsize by done. simpl in *. lia. }
      rewrite (decide_False _ _ Hav). case_decide; lia.
    + exists b3, w3. split_and!; [done| |congruence]. by rewrite s_app_assoc, s_take_drop in Hh3.
  - eexists _, _. split_and!; [done| |done]. split_and!; simpl; [done| |].
    + rewrite s_length_app. unfold Available in *. lia.
    + intros _. exists c. split; [done|]. by rewrite <-s_app_assoc, Ht.
Qed.

Lemma WriteString_holds path s text b w : holds path text b w ->
  exists b' w', WriteString path s b w = (Ret b', w') /\ holds path (text +:+ s) b' w' /\ w_trace w' = w_trace w.
Proof.
  intros Hh. apply write_string_holds; [done|lia|]. intros _. unfold rounds. case_decide; lia.
Qed.

Lemma Log_old_holds l ty sub body text w : holds (lf_path l) text (lf_writer l) w ->
  exists b w', Log_old l ty sub body w = (Ret (set_writer b l), w') /\
    holds (lf_path l) (text +:+ log_line (lf_deviceId l) ty sub body (env_now (w_trace w))) b w' /\
    (ty ∈ urgent -> flushed b) /\ w_trace w' = w_trace w ++ [EvClock].
Proof.
  intros Hh. unfold Log_old. erewrite bind_Ret by done.
  destruct (WriteString_holds (lf_path l) (log_line (lf_deviceId l) ty sub body (env_now (w_trace w)))
    text (lf_writer l) (log_event EvClock w)) as (b1 & w1 & E1 & Hh1 & T1); [done|].
  erewrite bind_Ret by exact E1. case_decide as Hu.
  - destruct (Flush_holds _ _ _ _ Hh1) as (b2 & w2 & E2 & Hh2 & Hf & _ & T2). erewrite bind_Ret by exact E2.
    exists b2, w2. split_and!; [done..|]. by rewrite T2, T1.
  - exists b1, w1. by split_and!.
Qed.

Lemma log_all_holds calls l text w : holds (lf_path l) text (lf_writer l) w ->
  exists b w', log_all calls l w = (Ret (set_writer b l), w') /\
    holds (lf_path l) (text +:+ lines_from (lf_deviceId l) (w_trace w) calls) b w' /\
    forall c, last calls = Some c -> lc_type c ∈ urgent -> flushed b.
Proof.
  revert l text w. induction calls as [|c calls IH]; intros l text w Hh.
  - exists (lf_writer l), w. simpl. rewrite s_app_nil_r. by destruct l.
  - destruct (Log_old_holds l (lc_type c) (lc_sub c) (lc_body c) text w Hh) as (b & w1 & E & Hh1 & Hf & Ht).
    destruct (IH (set_writer b l) _ w1 Hh1) as (b2 & w2 & E2 & Hh2 & Hf2). exists b2, w2. simpl.
    erewrite bind_Ret by exact E. rewrite Ht in Hh2. rewrite <-s_app_assoc. split_and!; [done..|].
    destruct calls as [|c' calls]; [|exact Hf2]. intros ? [= <-] Hu. simpl in E2. injection E2 as E2 _.
    by rewrite <-E2; apply Hf.
Qed.

(** C37: the log file loses no line and keeps their order: as long as no write has
    failed, the file followed by the buffer is what the file held before and the lines
    of all messages so far; the buffer never outgrows its size, every call returns,
    and after an urgent message everything is in the file. *)
Theorem log_file_holds_every_line device path size w l w1 c0 calls :
  MakeLogger device path size w = (Ret (Some l), w1) ->
  os_read_file path (w_disk w) = inr c0 \/ os_exists path (w_disk w) = false /\ c0 = EmptyString ->
  exists l' w', log_all calls l w1 = (Ret l', w') /\
    String.length (buffered (lf_writer l')) <= buf_size (lf_writer l') /\
    (wr_err (lf_writer l') = None ->
      exists c, os_read_file path (w_disk w') = inr c /\
        c +:+ buffered (lf_writer l') = c0 +:+ lines_from device (w_trace w1) calls /\
        forall call, last calls = Some call -> lc_type call ∈ urgent ->
          c = c0 +:+ lines_from device (w_trace w1) calls).
Proof.
  intros Em Hc0. assert (l = {| lf_deviceId := device; lf_path := path; lf_writer := NewWriterSize size |} /\
    os_read_file path (w_disk w1) = inr c0) as [-> Hr].
  { unfold MakeLogger, disk_op, attempt, mbind, M_bind in Em.
    destruct (os_open_file false path (w_disk w)) as [[e|] d] eqn:E; [discriminate Em|].
    injection Em as <- <-. split; [done|].
    destruct Hc0 as [Hc|[He ->]]; [by apply (open_existing false _ _ _ _ E)|by eapply open_missing]. }
  destruct (log_all_holds calls {| lf_deviceId := device; lf_path := path; lf_writer := NewWriterSize size |} c0 w1)
    as (b & w' & E & (Hs & Hl & Hc) & Hf).
  { unfold holds. simpl. split_and!; [case_decide; lia|lia|]. intros _. exists c0. by rewrite s_app_nil_r. }
  eexists _, w'. split_and!; [exact E|exact Hl|]. simpl in *. intros Hn. destruct (Hc Hn) as (c & ? & Ec).
  exists c. split_and!; [done..|]. intros call Hh1 Hh2. by rewrite (Hf call Hh1 Hh2 Hn), s_app_nil_r in Ec.
Qed.

(** One failed write silences the log for good: every later call, urgent or
    not, returns normally and leaves the disk as it is. *)
Theorem failed_log_stays_silent l e calls w : wr_err (lf_writer l) = Some e ->
  exists w', log_all calls l w = (Ret l, w') /\ w_disk w' = w_disk w.
Proof.
  intros He. revert w. induction calls as [|c calls IH]; intros w; [by exists w|].
  assert (Log_old l (lc_type c) (lc_sub c) (lc_body c) w = (Ret l, log_event EvClock w)) as E.
  { unfold Log_old. erewrite bind_Ret by done. unfold WriteString. rewrite Nat.add_comm. simpl. rewrite He.
    erewrite bind_Ret by done. unfold Flush. rewrite He.
    destruct l; case_decide; by erewrite bind_Ret by done. }
  simpl. erewrite bind_Ret by exact E. destruct (IH (log_event EvClock w)) as (w' & ? & ?). by exists w'.
Qed.
End LogFile.

(** ** Witnesses: a buffer of ten bytes *)
Module Lines.
#[local] Hint Extern 0 Bolt => exact (mem_bolt false) : typeclass_instances.
#[local] Hint Extern 0 Files => exact mem_writable : typeclass_instances.
#[local] Instance ex_env : Env := scripted (Script [] []).
(** A message as its type and its time. *)
#[local] Instance message_codec : Json (gmap string LogMessage) := {|
  json_marshal m := inr (join_with "," ((fun p => p.1 +:+ TimeStamp p.2) <$> map_to_list m));
  json_unmarshal s := (∅, Some "not used");
  json_wf _ := True;
|}.
Definition ex_world : world := World (MemDB ∅ []) (MemDisk [] [("/log", "old;")] []) [].
Definition ex_calls : list log_call :=
  [ {| lc_type := "Info"; lc_sub := "a"; lc_body := ∅ |}; {| lc_type := "Error"; lc_sub := "b"; lc_body := ∅ |} ].
Definition ex_log : LogFile :=
  {| lf_deviceId := "hub-1"; lf_path := "/log"; lf_writer := NewWriterSize 10 |}.
Definition ex_opened : world := (MakeLogger "hub-1" "/log" 10 ex_world).2.
Definition ex_line (ty : string) : string := ty +:+ "1600000000" +:+ String newline EmptyString.

Lemma log_file_holds_every_line_witness : exists w,
  (log_all ex_calls ex_log ex_opened).2 = w /\
  os_read_file "/log" (w_disk w) = inr ("old;" +:+ ex_line "Info" +:+ ex_line "Error").
Proof.
  destruct (log_file_holds_every_line "hub-1" "/log" 10 ex_world ex_log ex_opened "old;" ex_calls) as (l & w & E & _ & Hc).
  - apply run_pair. reflexivity.
  - left. reflexivity.
  - exists w. rewrite E. split; [reflexivity|]. destruct Hc as (c & Hr & _ & Hall).
    + assert ((log_all ex_calls ex_log ex_opened).1 = Ret l) as E1 by (by rewrite E). vm_compute in E1.
      injection E1 as <-. reflexivity.
    + rewrite Hr, (Hall _ eq_refl); [reflexivity|]. by right; right; right; left.
Defined.

Lemma failed_log_stays_silent_witness :
  let l := set_writer {| buffered := "lost"; buf_size := 10; wr_err := Some "disk full" |} ex_log in
  exists w, log_all ex_calls l ex_world = (Ret l, w) /\ os_read_file "/log" (w_disk w) = inr "old;".
Proof.
  intros l. destruct (failed_log_stays_silent l "disk full" ex_calls ex_world) as (w & E & Hd); [reflexivity|].
  exists w. split; [exact E|]. rewrite Hd. reflexivity.
Defined.
End Lines.
