(* ===== verification/MstoreThms.v ===== *)
(** The properties of the synchronisation with the satellite receiver. *)
From S2P Require Import Prelude GoStrings GoFloat LogData Host Storage Logger CloudData FlatIndex Index Mstore MstoreSpec Reference.
From stdpp Require Import relations.

Section Poll.
Context `{Bolt, Disk, Env, Json ContentInfoOnDevice, Json ApiData,
  Json VodList, Json VodInfo, Json TelemetryMessage} `{!BoltLaws} `{!EnvLaws}.
Variable logger : Logger.
Implicit Types (w : world).

Lemma returns_pollMstore_round i cs ds : returns (reaches i) (pollMstore_round logger cs ds).
Proof. unfold pollMstore_round. surely_returns. apply safe_checkForVODViaMstore. Qed.

Lemma returns_pollMstore i n cs ds : returns (reaches i) (pollMstore logger n cs ds).
Proof.
  induction n as [|n IH]; simpl; [apply returns_ret|].
  apply returns_bind; [apply returns_pollMstore_round|by intros _].
Qed.

Lemma pollMstore_reaches n cs ds w o w' :
  ready w -> pollMstore logger n cs ds w = (o, w') -> o = Ret tt /\ reaches (abs w) w'.
Proof.
  intros Hr E. destruct (returns_pollMstore (abs w) n cs ds w) as ([] & w1 & E1 & Hw1); [by split|].
  rewrite E in E1. by simplify_eq.
Qed.

(** C5: whatever the receiver, the network, the disk and the commits of the
    database do, a poll of any number of rounds returns normally, without a
    panic, and what it does to the index is a sequence of steps of the abstract
    state machine: add a new content, delete entries of the satellite map with
    their contents, or forget such entries only. *)
Theorem poll_refines_index n cs ds w o w' :
  ready w -> pollMstore logger n cs ds w = (o, w') ->
  o = Ret tt /\ ready w' /\ rtc index_step (abs w) (abs w').
Proof.
  by intros Hr [-> []]%pollMstore_reaches.
Qed.

(** Polling keeps the index consistent: every satellite id points to a content
    that has an entry, and no two satellite ids point to the same content. *)
Theorem poll_keeps_index_ok n cs ds w o w' :
  ready w -> index_ok (abs w) -> pollMstore logger n cs ds w = (o, w') -> index_ok (abs w').
Proof.
  intros Hr Hok [_ [_ Hs]]%pollMstore_reaches; [|done]. by eapply index_steps_ok.
Qed.

(** A content entry that no satellite id points to is never reclaimed: after
    any further polling it is still there, and an announcement of the same
    content id is skipped, so the satellite map never reaches it again. *)
Theorem orphan_is_permanent a n cs ds w o w' :
  ready w -> orphan a (abs w) -> pollMstore logger n cs ds w = (o, w') ->
  orphan a (abs w') /\
  forall vod, Contentid (vm_UserDefined (vi_Metadata vod)) = a ->
    getMstoreFiles vod cs ds w' = (Ret a, w').
Proof.
  intros Hr Ho [_ [Hr1 Hs]]%pollMstore_reaches; [|done].
  assert (orphan a (abs w')) as Ho1 by (by eapply index_steps_orphan).
  split; [done|]. intros vod Hvod. unfold getMstoreFiles. rewrite Hvod.
  erewrite bind_Ret by (by apply ignoring_Ret, DoesContentIdExist_run).
  by rewrite bool_decide_eq_true_2 by apply Ho1.
Qed.

(** A successful [getMstoreFiles] of a new content indexed it. *)
Lemma getMstoreFiles_new vod cs ds w r w' :
  ready w -> assets w !! Contentid (vm_UserDefined (vi_Metadata vod)) = None ->
  getMstoreFiles vod cs ds w = (Ret r, w') ->
  exists info,
    sat w' = <[CID (vi_Metadata vod) := Contentid (vm_UserDefined (vi_Metadata vod))]> (sat w) /\
    assets w' = <[Contentid (vm_UserDefined (vi_Metadata vod)) := info]> (assets w).
Proof.
  intros Hr Hn. unfold getMstoreFiles. cbv zeta.
  erewrite bind_Ret by (by apply ignoring_Ret, DoesContentIdExist_run).
  rewrite bool_decide_eq_false_2 by (by apply eq_None_not_Some).
  erewrite bind_Ret by done. destruct (json_marshal _) as [e|info]; [done|].
  match goal with |- (mbind _ (CreateSatelliteIndexing ?c ?a ?i)) ?w1 = _ -> _ =>
    destruct (CreateSatelliteIndexing c a i w1) as [o w2] eqn:E;
    destruct (CreateSatelliteIndexing_cases c a i w1 o w2 Hr E)
      as [Hr2 [(-> & Es & Ea & _)|(e & -> & _)]] end; last first.
  { by erewrite bind_Fail by exact E. }
  erewrite bind_Ret by exact E. intros Hrest. exists info.
  match type of Hrest with ?m w2 = _ => assert (safe (holds (abs w2)) m) as Hs end.
  { apply safe_bind; [apply safe_getDirSizeinMB|]. intros ?. step_safely. }
  destruct (Hs w2 (conj Hr2 eq_refl)) as [[_ Habs] _]. rewrite Hrest in Habs. simpl in Habs.
  injection Habs as -> ->. by rewrite Es, Ea.
Qed.
(** C6: on a database whose commits succeed, a deletion forgets exactly the
    satellite ids the catalogue no longer lists, together with their contents,
    and queues for each such content one request of type Deleted that carries its
    satellite id and the command that put it on the device; the rest of the
    index and of the queue is untouched. *)
Theorem deletion_is_complete vodlist w o w' :
  reliable -> ready w -> index_ok (abs w) ->
  (forall cid a tr, gone vodlist w cid a -> storable ("DL_" +:+ a)
     (deleted_request a (env_now tr) {| SesCid := cid; dc_CommandId := command_of (assets w) a |})) ->
  handleDeletedContents vodlist w = (o, w') ->
  o = Ret tt /\
  (forall cid a, sat w' !! cid = Some a <-> sat w !! cid = Some a /\ cid ∈ available vodlist) /\
  (forall a info, assets w' !! a = Some info <->
     assets w !! a = Some info /\ forall cid, ~ gone vodlist w cid a) /\
  (forall cid a, gone vodlist w cid a -> exists tr, queued ("DL_" +:+ a)
     (deleted_request a (env_now tr) {| SesCid := cid; dc_CommandId := command_of (assets w) a |}) w') /\
  (forall k, (forall cid a, gone vodlist w cid a -> k <> "DL_" +:+ a) ->
     pending w' !! k = pending w !! k).
Proof.
  intros Hrel Hr Hok Hst E.
  destruct (handleDeletedContents_reliable vodlist w Hrel Hr Hok Hst)
    as (w1 & E1 & _ & Es & Ea & Hq & Hp).
  rewrite E in E1. simplify_eq. split_and!; [done|..|done|done].
  - intros cid a. rewrite Es, remove_keys_Some. split; intros [Hc Hs]; split; try done.
    + destruct (decide (cid ∈ available vodlist)) as [|Hn]; [done|]. destruct Hc.
      by eapply elem_of_firsts, gone_range.
    + intros ([c a'] & -> & Hg%gone_range)%list_elem_of_fmap. by destruct Hg.
  - intros a info. rewrite Ea, remove_keys_Some. split; intros [Hc Hs]; split; try done.
    + intros cid Hg. apply Hc. by eapply elem_of_seconds, gone_range.
    + intros ([c a'] & -> & Hg%gone_range)%list_elem_of_fmap. by apply (Hs c).
Qed.

(** C7: whatever the database does, a deletion leaves the index as it was, or
    forgets every unlisted satellite id with its content, or, when the second of
    its two transactions fails, fails too and turns every content it wanted to
    delete into an orphan, without queueing any request. *)
Theorem deletion_outcomes vodlist w o w' :
  ready w -> index_ok (abs w) -> handleDeletedContents vodlist w = (o, w') ->
  abs w' = abs w \/
  (forall cid a, gone vodlist w cid a -> sat w' !! cid = None /\ assets w' !! a = None) \/
  ((exists e, o = Fail e) /\ pending w' = pending w /\
   forall cid a, gone vodlist w cid a -> sat w' !! cid = None /\ orphan a (abs w')).
Proof.
  intros Hr Hok. rewrite handleDeletedContents_reads by done. cbv zeta.
  set (kvs := filter _ _). pose proof Hr as (Hs & Ha & Hp).
  destruct (DeleteSatelliteIds kvs.*1 w) as [o1 w1] eqn:E1.
  destruct (DeleteSatelliteIds_touches _ _ _ _ Hs E1) as (_ & _ & [[-> U1]|(e & -> & Hsame)]).
  2: { erewrite bind_Fail by (by apply bind_Fail). intros [= <- <-]. left. unfold abs. by rewrite Hsame. }
  destruct (sat_updated _ _ _ U1) as (Es1 & Ea1 & Ep1).
  assert (ready w1) as Hr1 by (by eapply ready_updated).
  destruct (DeleteAssetMapping kvs.*2 w1) as [o2 w2] eqn:E2.
  assert ((DeleteSatelliteIds kvs.*1;; DeleteAssetMapping kvs.*2) w = (o2, w2)) as E12
    by (by erewrite bind_Ret by exact E1).
  assert (forall cid a, gone vodlist w cid a -> cid ∈ kvs.*1 /\ a ∈ kvs.*2) as Hin.
  { intros cid a Hg%gone_range. split; [by eapply elem_of_firsts|by eapply elem_of_seconds]. }
  destruct (DeleteAssetMapping_touches kvs.*2 w1 _ _ (proj1 (proj2 Hr1)) E2)
    as (_ & _ & [[-> U2]|(e & -> & Hsame)]).
  - erewrite bind_Ret by exact E12. destruct (assets_updated _ _ _ U2) as (Es2 & Ea2 & _).
    set (infos := infos_of _ _ _ _). intros E3. right; left.
    destruct (safe_for_each (holds (abs w2)) kvs.*2 (queue_deleted infos)
      (fun c _ => safe_queue_deleted _ _ c) w2) as [[_ Habs] _].
    { split; [by eapply ready_updated|done]. }
    rewrite E3 in Habs. injection Habs as -> ->. rewrite Es2, Ea2, Es1, Ea1.
    intros cid a [Hc Hc']%Hin. by rewrite !lookup_remove_keys, !decide_True.
  - erewrite bind_Fail by exact E12. intros [= <- <-]. right; right.
    assert (abs w2 = Index (remove_keys kvs.*1 (sat w)) (assets w)) as Habs.
    { unfold abs. by rewrite Hsame, Es1, Ea1. }
    split_and!; [by eexists|by rewrite Hsame|]. intros cid a Hg. rewrite Habs.
    split; [rewrite Hsame, Es1, lookup_remove_keys; by rewrite decide_True by apply (Hin _ _ Hg)|].
    destruct Hok as [Hd Hi]. split; [apply (Hd cid), Hg|]. simpl.
    intros c [Hc Hca]%remove_keys_Some. apply Hc.
    rewrite (Hi c cid a Hca (proj1 Hg)). by apply (Hin _ a).
Qed.

(** C8: a new content announced under a satellite id that already carries another
    content takes over the satellite id; the old content becomes an orphan. *)
Theorem reused_satellite_id_makes_orphan vod cs ds w r w' old :
  ready w -> index_ok (abs w) ->
  sat w !! CID (vi_Metadata vod) = Some old ->
  assets w !! Contentid (vm_UserDefined (vi_Metadata vod)) = None ->
  getMstoreFiles vod cs ds w = (Ret r, w') ->
  orphan old (abs w').
Proof.
  intros Hr [Hd Hi] Hold Hnew E.
  destruct (getMstoreFiles_new vod cs ds w r w' Hr Hnew E) as (info & Es & Ea).
  destruct (Hd _ _ Hold) as [oi Hoi]. simpl in Hoi.
  assert (old <> Contentid (vm_UserDefined (vi_Metadata vod))) as Hne by congruence.
  unfold orphan, abs. rewrite Es, Ea. simpl. split; [by rewrite lookup_insert_ne, Hoi|].
  intros c. rewrite lookup_insert_Some. intros [[<- ?]|[Hc ?]]; [congruence|].
  by apply Hc, (Hi _ _ old).
Qed.
(** C9: a content that is announced and not on the device yet is indexed in one
    transaction under its satellite id and content id, with the path of its video
    file translated to the container's view of the storage, and one request of
    type Downloaded with its location, size and command is queued for it. *)
Theorem download_is_complete vod cs ds w o w' :
  let vm := vi_Metadata vod in
  let a := Contentid (vm_UserDefined vm) in
  let cmd := Contentbroadcastcommandid (vm_UserDefined vm) in
  let now := env_now (w_trace w) in
  let path := replace_first ds cs (VideoFilename vm) in
  let info := {| DownloadTime := now; FolderPath := path; CommandId := cmd |} in
  let size := (getDirSizeinMB (path_dir path) w).1 in
  reliable -> ready w -> assets w !! a = None ->
  key_ok (CID vm) -> value_ok a -> storable a info ->
  (forall sz, size = Ret sz ->
    storable a (downloaded_request a now (CID vm) (format_f sz) cmd (path_dir path))) ->
  getMstoreFiles vod cs ds w = (o, w') ->
  o = Ret a /\ ready w' /\ sat w' = <[CID vm := a]> (sat w) /\
  (exists s, json_marshal info = inr s /\ assets w' = <[a := s]> (assets w)) /\
  (exists sz s, size = Ret sz /\
     json_marshal (downloaded_request a now (CID vm) (format_f sz) cmd (path_dir path)) = inr s /\
     pending w' = <[a := s]> (pending w)).
Proof.
  intros vm a cmd now path info size Hrel Hr Hn Hkc Hva (Hka & si & Ei & Hvi) Hst.
  unfold getMstoreFiles. cbv zeta. fold vm a cmd path.
  erewrite bind_Ret by (by apply ignoring_Ret, DoesContentIdExist_run).
  rewrite bool_decide_eq_false_2 by (by apply eq_None_not_Some).
  erewrite bind_Ret by done. fold now. fold info. rewrite Ei.
  destruct (CreateSatelliteIndexing_reliable (CID vm) a si (log_event EvClock w))
    as (w1 & E1 & Hr1 & Es & Ea & Ep & Hd & Ht); try done.
  erewrite bind_Ret by exact E1.
  destruct (getDirSizeinMB_run (path_dir path) w) as (sz & Esz & Heq).
  specialize (Heq w1 Hd). cbn [FolderPath]. erewrite bind_Ret by exact Heq.
  erewrite bind_Ret by (by apply PrintBuckets_run).
  unfold size in *. rewrite Esz in *. simpl in *.
  destruct (Hst _ eq_refl) as (_ & s & E & Hv). rewrite E.
  destruct (AddContent_reliable a s w1 Hrel Hr1 Hka Hv) as (w2 & E2 & U2 & _).
  destruct (pending_updated _ _ _ U2) as (Es2 & Ea2 & Ep2).
  erewrite bind_Ret by (apply ignoring_Ret; exact E2). intros [= <- <-].
  split_and!; [done|by eapply ready_updated|by rewrite Es2, Es|..].
  - exists si. split; [done|]. by rewrite Ea2, Ea.
  - exists sz, s. split_and!; [done|exact E|by rewrite Ep2, Ep].
Qed.

(** After a check that could read the catalogue, on a database whose commits
    succeed, the device keeps no satellite id the catalogue does not list,
    whatever else failed in between. *)
Theorem check_converges cs ds w o w' page vodlist :
  reliable -> ready w ->
  env_http (w_trace w) listcontents_url = inr (inr page) ->
  json_unmarshal page = (vodlist, None) ->
  checkForVODViaMstore logger cs ds w = (o, w') ->
  o = Ret tt /\ forall cid a, sat w' !! cid = Some a -> cid ∈ available vodlist.
Proof.
  intros Hrel Hr Hp Hj. unfold checkForVODViaMstore.
  assert (http_get listcontents_url w = (Ret page, log_event (EvHttpGet listcontents_url) w)) as Eh
    by (unfold http_get; by rewrite Hp).
  erewrite bind_Ret by exact Eh. rewrite Hj.
  match goal with |- (mbind (fun _ => mbind (fun _ => ?last) ?mid) ?fst) _ = _ -> _ =>
    destruct (returns_bind (reaches (abs w)) fst (fun _ => mid)) with
      (w := log_event (EvHttpGet listcontents_url) w) as ([] & w1 & E1 & Hw1) end.
  { unfold totalAssetsCount. surely_returns. }
  { intros _. surely_returns. apply safe_getMetadataAPI. }
  { split; [exact Hr|apply rtc_refl]. }
  unfold mbind, M_bind in E1 |- *.
  destruct (totalAssetsCount _ _ _) as [[[]| | |] w2]; try done. rewrite E1.
  destruct (returns_ignoring (reaches (abs w)) tt (handleDeletedContents vodlist)) with (w := w1)
    as ([] & w3 & E3 & [Hr3 _]); [apply safe_handleDeletedContents|done|].
  intros E. rewrite E3, PrintBuckets_run in E by done. injection E as <- <-. rename w3 into w'. split; [done|].
  assert (w' = (handleDeletedContents vodlist w1).2) as ->.
  { revert E3. unfold ignoring, attempt, mbind, M_bind.
    destruct (handleDeletedContents _ _) as [[[]| | |] ?]; intros E; inversion E; done. }
  intros cid a. rewrite (handleDeletedContents_sat vodlist w1 Hrel (proj1 Hw1)), remove_keys_Some.
  intros [Hc Ha]. destruct (decide (cid ∈ available vodlist)) as [|Hn]; [done|]. destruct Hc.
  eapply elem_of_firsts, gone_range. by split.
Qed.

(** Opening the index on any database, a new one or one that already holds
    data, returns nil or an error; it loses nothing that was stored, and when it
    returns nil the three buckets exist. *)
Theorem init_makes_ready w o w' :
  InitFileSystem w = (o, w') ->
  is_result o /\ (o = Ret tt -> ready w') /\
  (ready w -> abs w' = abs w /\ pending w' = pending w).
Proof.
  intros (Ho & Hk & Hr)%InitFileSystem_cases. split_and!; [done..|].
  intros (Hs & Ha & Hp). unfold abs, sat, assets, pending.
  by rewrite (proj2 (Hk _ Hs)), (proj2 (Hk _ Ha)), (proj2 (Hk _ Hp)).
Qed.
End Poll.

(** ** Witnesses: a device whose receiver lists one content *)

Definition page_of (ids : list string) : string :=
  bits_of (encode {| vl_Status := "0"; ListContents := (fun i => {| lc_ContentID := i |}) <$> ids |}).
#[local] Instance ex_env : Env := scripted (Script
  [ (listcontents_url, page_of ["s1"]);
    (getmetadata_url "s1", "0|c1|cmd1|s1|/mnt/c1/v.mpd") ] []).
#[local] Instance ex_env_laws : EnvLaws := scripted_laws _.

Definition ex_info : string :=
  bits_of (encode {| DownloadTime := 5; FolderPath := "/c/c0/v.mpd"; CommandId := "k0" |}).
(** *** On a database whose commits may fail; [s0] is not listed any more. *)
Module Faulty.
#[local] Hint Extern 0 Bolt => exact (mem_bolt true) : typeclass_instances.

Definition ex_world (faults : list bool) : world :=
  ref_world true faults [("s0", "c0")] [("c0", ex_info)] [].
Definition ex_poll (n : nat) (w : world) : outcome unit * world :=
  pollMstore ref_logger n "/c" "/mnt" w.
Definition listed : VodList := {| vl_Status := "0"; ListContents := [{| lc_ContentID := "s1" |}] |}.

Lemma ex_ready faults : ready (ex_world faults).
Proof. unfold ex_world. apply (ref_world_ready true). Qed.
Lemma ex_sat faults cid a : sat (ex_world faults) !! cid = Some a -> cid = "s0" /\ a = "c0".
Proof.
  unfold ex_world. rewrite ref_world_sat. simpl.
  by intros [[? ?]|[_ Hn]]%lookup_insert_Some; [subst|rewrite lookup_empty in Hn].
Qed.
Lemma ex_ok faults : index_ok (abs (ex_world faults)).
Proof.
  split; simpl.
  - intros cid a [-> ->]%ex_sat. unfold ex_world. rewrite ref_world_assets. by eexists.
  - intros c1 c2 a [-> _]%ex_sat [-> _]%ex_sat. done.
Qed.

Lemma poll_refines_index_witness :
  ready (ex_poll 1 (ex_world [])).2 /\
  sat (ex_poll 1 (ex_world [])).2 = {["s1" := "c1"]} /\
  rtc index_step (abs (ex_world [])) (abs (ex_poll 1 (ex_world [])).2).
Proof.
  destruct (poll_refines_index ref_logger 1 "/c" "/mnt" (ex_world []) _ _ (ex_ready [])
    (surjective_pairing _)) as (_ & Hr & Hs).
  split_and!; [exact Hr|by vm_compute|exact Hs].
Defined.

Lemma poll_keeps_index_ok_witness : index_ok (abs (ex_poll 2 (ex_world [])).2).
Proof.
  exact (poll_keeps_index_ok ref_logger 2 "/c" "/mnt" (ex_world []) _ _ (ex_ready [])
    (ex_ok []) (surjective_pairing _)).
Defined.

Lemma not_listed : "s0" ∉ available listed.
Proof. unfold listed, available. simpl. set_solver. Qed.

(** The first of the two deletions commits, the second does not. *)
Definition ex_split : outcome unit * world := handleDeletedContents listed (ex_world [false; true]).

Lemma deletion_outcomes_witness : orphan "c0" (abs ex_split.2).
Proof.
  destruct (deletion_outcomes listed (ex_world [false; true]) ex_split.1 ex_split.2)
    as [Hx|[Hx|Hx]].
  - apply ex_ready.
  - apply ex_ok.
  - unfold ex_split. by destruct (handleDeletedContents _ _).
  - exfalso. apply (f_equal (fun i => i_sat i !! "s0")) in Hx. by vm_compute in Hx.
  - exfalso. destruct (Hx "s0" "c0") as [_ Ha]; [|by vm_compute in Ha].
    split; [by vm_compute|exact not_listed].
  - destruct Hx as (_ & _ & Hx). apply (Hx "s0" "c0").
    split; [by vm_compute|exact not_listed].
Defined.

Lemma orphan_is_permanent_witness : orphan "c0" (abs (ex_poll 3 ex_split.2).2).
Proof.
  refine (proj1 (orphan_is_permanent ref_logger "c0" 3 "/c" "/mnt" ex_split.2 _ _ _ _
    (surjective_pairing _))).
  - split_and!; by vm_compute.
  - split; [vm_compute; by eexists|]. intros cid.
    assert (sat ex_split.2 = ∅) as E by (by vm_compute).
    unfold abs. cbn [i_sat]. by rewrite E, lookup_empty.
Defined.

Lemma reused_satellite_id_makes_orphan_witness :
  orphan "c0" (abs (getMstoreFiles (make_vod "0" "c1" "cmd1" "s0" "/mnt/c1/v.mpd") "/c" "/mnt" (ex_world [])).2).
Proof.
  apply (reused_satellite_id_makes_orphan (make_vod "0" "c1" "cmd1" "s0" "/mnt/c1/v.mpd")
    "/c" "/mnt" (ex_world []) "c1").
  - apply ex_ready.
  - apply ex_ok.
  - by vm_compute.
  - by vm_compute.
  - apply run_pair. by vm_compute.
Defined.

Lemma init_makes_ready_witness :
  ready (InitFileSystem (World (MemDB ∅ []) (MemDisk [] [] []) [])).2 /\
  abs (InitFileSystem (ex_world [])).2 = abs (ex_world []).
Proof.
  split.
  - eapply init_makes_ready; [by apply run_pair|by vm_compute].
  - eapply init_makes_ready; [by apply run_pair|apply ex_ready].
Defined.
End Faulty.

(** *** On a database whose commits succeed. *)
Module Sure.
#[local] Hint Extern 0 Bolt => exact (mem_bolt false) : typeclass_instances.

Definition ex_world : world := ref_world false [] [("s0", "c0")] [("c0", ex_info)] [].
Definition listed : VodList := {| vl_Status := "0"; ListContents := [{| lc_ContentID := "s1" |}] |}.

Lemma sure_ready : ready ex_world.
Proof. unfold ex_world. apply (ref_world_ready false). Qed.
Lemma sure_sat cid a : sat ex_world !! cid = Some a -> cid = "s0" /\ a = "c0".
Proof.
  unfold ex_world. rewrite ref_world_sat. simpl.
  by intros [[? ?]|[_ Hn]]%lookup_insert_Some; [subst|rewrite lookup_empty in Hn].
Qed.
Lemma sure_ok : index_ok (abs ex_world).
Proof.
  split; simpl.
  - intros cid a [-> ->]%sure_sat. unfold ex_world. rewrite ref_world_assets. by eexists.
  - intros c1 c2 a [-> _]%sure_sat [-> _]%sure_sat. done.
Qed.

Lemma sure_not_listed : "s0" ∉ available listed.
Proof. unfold listed, available. simpl. set_solver. Qed.

Lemma deletion_is_complete_witness :
  exists tr, queued "DL_c0" (deleted_request "c0" (env_now tr)
    {| SesCid := "s0"; dc_CommandId := "k0" |}) (handleDeletedContents listed ex_world).2.
Proof.
  destruct (deletion_is_complete listed ex_world (Ret tt) (handleDeletedContents listed ex_world).2)
    as (_ & _ & _ & Hq & _).
  - apply sure_reliable.
  - apply sure_ready.
  - apply sure_ok.
  - intros cid a tr [[-> ->]%sure_sat _].
    assert (command_of (assets ex_world) "c0" = "k0") as -> by evaluate.
    apply storable_bits; evaluate.
  - apply run_pair. evaluate.
  - destruct (Hq "s0" "c0") as [tr Htr].
    + split; [by vm_compute|exact sure_not_listed].
    + exists tr. by vm_compute in Htr |- *.
Defined.

Lemma download_is_complete_witness :
  assets (getMstoreFiles (make_vod "0" "c1" "cmd1" "s1" "/mnt/c1/v.mpd") "/c" "/mnt" ex_world).2
    !! "c1" <> None.
Proof.
  destruct (download_is_complete (make_vod "0" "c1" "cmd1" "s1" "/mnt/c1/v.mpd") "/c" "/mnt"
    ex_world (Ret "c1")
    (getMstoreFiles (make_vod "0" "c1" "cmd1" "s1" "/mnt/c1/v.mpd") "/c" "/mnt" ex_world).2)
    as (_ & _ & _ & (s & _ & Ha) & _).
  - apply sure_reliable.
  - apply sure_ready.
  - by vm_compute.
  - unfold key_ok. simpl. lia.
  - unfold value_ok. simpl. lia.
  - apply storable_bits; evaluate.
  - intros sz E. vm_compute in E. injection E as <-. apply storable_bits; evaluate.
  - apply run_pair. evaluate.
  - rewrite Ha. simpl. by rewrite lookup_insert_eq.
Defined.

Lemma check_converges_witness :
  sat (checkForVODViaMstore ref_logger "/c" "/mnt" ex_world).2 !! "s0" = None.
Proof.
  destruct (check_converges ref_logger "/c" "/mnt" ex_world (Ret tt)
    (checkForVODViaMstore ref_logger "/c" "/mnt" ex_world).2 (page_of ["s1"]) listed)
    as [_ Hc]; [apply sure_reliable|apply sure_ready|by vm_compute|by vm_compute|
      apply run_pair; evaluate|].
  apply eq_None_not_Some. intros [a Ha%Hc]. by apply sure_not_listed.
Defined.
End Sure.
