(* ===== verification/Telemetry.v ===== *)
(** [telemetry_events.go], the part the hub runs, and the disk statistics of
    [utils.go]: messages that the device is alive and how much room is left. *)
From S2P Require Import Prelude GoStrings GoFloat LogData Host Storage Logger Mstore.

(** [statfs]: the numbers of blocks, of blocks that are available, and the size of
    a block. *)
Class Statfs `{Disk} := { statfs : string -> disk -> error + (Z * Z * Z) }.

Record DiskStatus := { Total : Z; Avail : Z }.
(** [uint64] *)
Definition wrapu64 (z : Z) : Z := (z mod 2 ^ 64)%Z.
Definition MB : Z := 1048576.

(** [math.Round]: to the nearest integer, halves away from zero. *)
Definition f64_round (x : float64) : float64 :=
  match x with
  | S754_finite s m e =>
      if decide (0 <= e)%Z then x
      else
        let q := (Zpos m / 2 ^ (- e))%Z in
        let r := (Zpos m mod 2 ^ (- e))%Z in
        let n := if decide (2 ^ (- e) <= 2 * r)%Z then (q + 1)%Z else q in
        if decide (n = 0)%Z then S754_zero s
        else binary_normalize 53 1024 (if s then (- n)%Z else n) 0 s
  | _ => x
  end.
(** [math.Round(x*100) / 100] *)
Definition two_decimals (x : float64) : float64 := f64_div (f64_round (f64_mul x (f64_of_Z 100))) (f64_of_Z 100).

Section Telemetry.
Context `{Bolt, Disk, Env, Json TelemetryMessage} `{!Statfs}.
Variable logger : Logger.

Definition DiskUsage (path : string) : Hub DiskStatus := fun w =>
  (match statfs path (w_disk w) with
   | inl err => Fail err
   | inr (blocks, bavail, bsize) =>
       Ret {| Total := wrapu64 (blocks * wrapu64 bsize); Avail := wrapu64 (bavail * wrapu64 bsize) |}
   end, w).
(** What is available and the total, in megabytes. *)
Definition getDiskInfo (directory : string) : Hub (float64 * float64) :=
  disk ← DiskUsage directory;
  mret (f64_div (f64_of_Z (Avail disk)) (f64_of_Z MB), f64_div (f64_of_Z (Total disk)) (f64_of_Z MB)).

Definition liveness : Hub unit := ignore! tt of (Log logger Liveness (sm_string "ALIVE")).
Definition livenessNumeric : Hub unit := ignore! tt of (Log logger LivenessNumeric (sm_integer 1)).
Definition storageInfo (dirpath : string) : Hub unit :=
  r ← try! (getDiskInfo dirpath);
  match r with
  | inl _ => mret tt
  | inr (available, total) =>
      ignore! tt of (Log logger HubStorageAvailable (sm_float (two_decimals available)));;
      ignore! tt of (Log logger TotalStorage (sm_float (two_decimals total)))
  end.

(** Rounds of the endless loop; the sleep is left out. *)
Fixpoint telemetryScheduler (rounds : nat) (dirpath : string) : Hub unit :=
  match rounds with
  | 0 => mret tt
  | S n => liveness;; livenessNumeric;; storageInfo dirpath;; telemetryScheduler n dirpath
  end.

(** [mockUpstreamMsgs.go]: rounds of its loop with the values that are drawn. *)
Fixpoint mock_hubstorageandmemory (values : list float64) : Hub unit :=
  match values with
  | [] => mret tt
  | f :: values' => ignore! tt of (Log logger "HubStorage" (sm_float f));; mock_hubstorageandmemory values'
  end.
(** The type of the messages is not valid: nothing is sent. *)
Lemma mock_sends_nothing values w : mock_hubstorageandmemory values w = (Ret tt, w).
Proof.
  induction values as [|f values IH]; [done|]. simpl.
  erewrite bind_Ret by (by eapply (ignoring_Fail tt (Log logger "HubStorage" (sm_float f)))). exact IH.
Qed.

(** *** The loop neither ends nor touches the database *)

Lemma returns_getDiskInfo (P : world -> Prop) dirpath : safe P (getDiskInfo dirpath).
Proof.
  intros w Hw. unfold getDiskInfo, DiskUsage, mbind, M_bind. by destruct (statfs _ _) as [|[[] ?]].
Qed.
Lemma telemetryScheduler_returns (P : world -> Prop) `{!DbInv P} rounds dirpath :
  returns P (telemetryScheduler rounds dirpath).
Proof.
  induction rounds as [|n IH]; [apply returns_ret|]. cbn [telemetryScheduler].
  unfold liveness, livenessNumeric, storageInfo. pose proof (returns_getDiskInfo P). surely_returns.
Qed.
End Telemetry.

(** Halves go away from zero. *)
Example round_half : f64_round (f64_div (f64_of_Z 5) (f64_of_Z 2)) = f64_of_Z 3.
Proof. reflexivity. Qed.
Example round_down : two_decimals (f64_div (f64_of_Z 100) (f64_of_Z 3)) = f64_div (f64_of_Z 3333) (f64_of_Z 100).
Proof. reflexivity. Qed.
