(* ===== verification/Cloud.v ===== *)
(** [cloudapihandler/api_handler.go]: the loops that send the pending requests and
    the map of the contents on the device to the cloud, in batches.

    The batches of the code hold pointers [&apidata[i]] into the slice of the
    requests; here the slice is passed along as the store and the pointers are
    its indices. *)
From S2P Require Import Prelude GoStrings GoFloat LogData Host Storage Logger CloudData FlatIndex.

(** The two names of telemetry flags. *)
Definition flag_cloud : string := "sendCloudTelemetry".
Definition flag_iot : string := "sendIotCentralTelemetry".

(** ** Operations on a batch of pointers into [apidata] *)

Definition deref (apidata : list ApiData) (ptrs : list nat) : list ApiData :=
  omap (fun i => apidata !! i) ptrs.

Definition setTelemetryFlag (flag : string) (val : bool) (ptrs : list nat)
    (apidata : list ApiData) : list ApiData :=
  if decide (flag = flag_cloud) then foldl (fun h i => alter (set_cloud_flag val) i h) apidata ptrs
  else if decide (flag = flag_iot) then foldl (fun h i => alter (set_iot_flag val) i h) apidata ptrs
  else apidata.

Definition GetIds (apidata : list ApiData) (ptrs : list nat) : list string :=
  Id <$> deref apidata ptrs.

Definition IncrementRetryCount (ptrs : list nat) (apidata : list ApiData) : list ApiData :=
  foldl (fun h i => alter incr_retry i h) apidata ptrs.

Definition GetApiDataToBeRemovedFromPendingAPI (apidata : list ApiData) (ptrs : list nat)
    : list string :=
  Id <$> filter (fun d => SendCloudTelemetry d = false /\ SendIOTCentralTelemetry d = false)
           (deref apidata ptrs).

Definition GetSegregatedItems (apiData : list ApiData) : gmap Z (list ApiData) :=
  foldl (fun m d => <[ApiType d := default [] (m !! ApiType d) ++ [d]]> m) ∅ apiData.

Section Cloud.
Context `{Bolt, Disk, Env, Json ContentInfoOnDevice, Json ApiData, Json UpdateRequest,
  Json (list ContentProperties_), Json CommandStatusRequest, Json ProvisionDeviceRequest,
  Json TelemetryMessage}.
Variable logger : Logger.
Variable deviceId : string.

(** A failing [json.Marshal] skips the item, so the result may be shorter. *)
Definition GetDataArray (apidata : list ApiData) (ptrs : list nat) : list string :=
  omap (fun d => match json_marshal d with inr s => Some s | inl _ => None end)
    (deref apidata ptrs).

(** The result is the slice after the call. *)
Definition AddApiDataBackToPendingAPIBucketOrDelete (err : option error) (apidata : list ApiData)
    (ptrs : list nat) (telemetryFlag : string) : Hub (list ApiData) :=
  match err with
  | None =>
      let apidata := setTelemetryFlag telemetryFlag false ptrs apidata in
      ignore! tt of (DeletePendingAPIRequestEntries
                       (GetApiDataToBeRemovedFromPendingAPI apidata ptrs));;
      mret apidata
  | Some _ =>
      let apidata := IncrementRetryCount ptrs apidata in
      ignore! tt of (AddContents (GetIds apidata ptrs) (GetDataArray apidata ptrs));;
      mret apidata
  end.

(** ** Messages *)

Definition send_command (name : TelemetryCommandName) (isAssetMap : bool) (body : string) : Hub unit :=
  Log logger TelemetryCommandMessage
    (sm_command {| CommandName := name; CommandData := body; IsAssetMap := isAssetMap |}).

Definition sendDownloadedTelemetryData (updateRequest : UpdateRequest) (isAssetMap : bool) : Hub unit :=
  match json_marshal updateRequest with
  | inl err => fail err
  | inr body => send_command ContentDownloaded isAssetMap body
  end.

Definition sendDeleteTelemetryData (updateRequest : UpdateRequest) : Hub unit :=
  match json_marshal updateRequest with
  | inl err => fail err
  | inr body => send_command ContentDeleted false body
  end.

Definition send_properties (eventType : EventType) (contentProperties : list ContentProperties_) : Hub unit :=
  match json_marshal contentProperties with
  | inl err => fail err
  | inr body =>
      Log logger eventType
        (sm_contents {| NumberOfContents := Z.of_nat (length contentProperties);
                        ContentProperties := body |})
  end.
Definition sendDeletedTelemetryForIoTCentralGraph : list ContentProperties_ -> Hub unit :=
  send_properties AssetDeleteOnDeviceByScheduler.
Definition sendDownloadedTelemetryForIoTCentralGraph : list ContentProperties_ -> Hub unit :=
  send_properties AssetDownloadOnDeviceFromSES.

(** ** Sending in batches

    [sendDownloadRequestInBatches] and [sendDeleteRequestInBatches] are the same
    loop over different contents and messages. *)
Record Kind := {
  k_content : ApiData -> ContentData;
  k_properties : ApiData -> ContentProperties_;
  k_send_cloud : UpdateRequest -> Hub unit;
  k_send_iot : list ContentProperties_ -> Hub unit;
}.

Definition download_content (d : ApiData) : ContentData :=
  {| cd_ContentId := Id d; cd_OperationTime := OperationTime d |}.
Definition download_properties (d : ApiData) : ContentProperties_ :=
  let responseMap := response_map (Properties d) in
  {| cp_Size := parse_float (response_get responseMap "size");
     cp_ContentId := Id d;
     cp_ContainerLocation := response_get responseMap "containerLocation";
     cp_OperationTime := OperationTime d;
     cp_SesCID := response_get responseMap "sesCid";
     cp_BroadcastCommandId := response_get responseMap "commandId" |}.
Definition delete_content (d : ApiData) : ContentData :=
  {| cd_ContentId := trim_prefix "DL_" (Id d); cd_OperationTime := OperationTime d |}.
Definition delete_properties (d : ApiData) : ContentProperties_ :=
  let responseMap := response_map (Properties d) in
  {| cp_Size := f64_zero;
     cp_ContentId := trim_prefix "DL_" (Id d);
     cp_ContainerLocation := EmptyString;
     cp_OperationTime := OperationTime d;
     cp_SesCID := response_get responseMap "sesCid";
     cp_BroadcastCommandId := response_get responseMap "commandId" |}.

Definition downloads : Kind :=
  {| k_content := download_content; k_properties := download_properties;
     k_send_cloud r := sendDownloadedTelemetryData r false;
     k_send_iot := sendDownloadedTelemetryForIoTCentralGraph |}.
Definition deletes : Kind :=
  {| k_content := delete_content; k_properties := delete_properties;
     k_send_cloud := sendDeleteTelemetryData;
     k_send_iot := sendDeletedTelemetryForIoTCentralGraph |}.

(** The locals of the loop. *)
Record Batches := MkBatches {
  apidata : list ApiData;
  contentDataBatch : list ContentData;
  contentDataApiBatch : list nat;
  contentPropertiesBatch : list ContentProperties_;
  contentPropertiesApiBatch : list nat;
}.

(** [if data.SendCloudTelemetry { ... }], [if data.SendIOTCentralTelemetry { ... }] *)
Definition add_content (k : Kind) (i : nat) (data : ApiData) (b : Batches) : Batches :=
  if SendCloudTelemetry data then
    MkBatches (apidata b) (contentDataBatch b ++ [k_content k data]) (contentDataApiBatch b ++ [i])
      (contentPropertiesBatch b) (contentPropertiesApiBatch b)
  else b.
Definition add_properties (k : Kind) (i : nat) (data : ApiData) (b : Batches) : Batches :=
  if SendIOTCentralTelemetry data then
    MkBatches (apidata b) (contentDataBatch b) (contentDataApiBatch b)
      (contentPropertiesBatch b ++ [k_properties k data]) (contentPropertiesApiBatch b ++ [i])
  else b.

Definition error_of {A} (r : error + A) : option error :=
  match r with inl e => Some e | inr _ => None end.

Definition flush_contents (k : Kind) (b : Batches) : Hub Batches :=
  r ← try! (k_send_cloud k {| ur_DeviceId := deviceId; ur_Contents := contentDataBatch b |});
  a ← AddApiDataBackToPendingAPIBucketOrDelete (error_of r) (apidata b) (contentDataApiBatch b) flag_cloud;
  mret (MkBatches a [] [] (contentPropertiesBatch b) (contentPropertiesApiBatch b)).
Definition flush_properties (k : Kind) (b : Batches) : Hub Batches :=
  r ← try! (k_send_iot k (contentPropertiesBatch b));
  a ← AddApiDataBackToPendingAPIBucketOrDelete (error_of r) (apidata b) (contentPropertiesApiBatch b) flag_iot;
  mret (MkBatches a (contentDataBatch b) (contentDataApiBatch b) [] []).

(** A full batch is printed with its first element before it is sent. *)
Definition flush_full {A} (messageSize : Z) (batch : list A) (flush : Hub Batches) (b : Batches)
    : Hub Batches :=
  if decide (Z.of_nat (length batch) = messageSize) then
    match batch with
    | [] => panic "index out of range [0] with length 0"
    | _ => flush
    end
  else mret b.

Definition batch_step (k : Kind) (messageSize : Z) (b : Batches) (i : nat) : Hub Batches :=
  match apidata b !! i with
  | None => panic "index out of range"
  | Some data =>
      let b := add_properties k i data (add_content k i data b) in
      b ← flush_full messageSize (contentDataBatch b) (flush_contents k b) b;
      flush_full messageSize (contentPropertiesBatch b) (flush_properties k b) b
  end.

(** What is left after the loop is sent as it is. *)
Definition flush_rest {A} (batch : list A) (flush : Hub Batches) (b : Batches) : Hub Batches :=
  if decide (0 < length batch) then flush else mret b.

(** [make([]T, 0, messageSize)] panics on a negative size. *)
Definition send_in_batches (k : Kind) (items : list ApiData) (messageSize : Z) : Hub unit :=
  if decide (messageSize < 0)%Z then panic "makeslice: cap out of range"
  else
    b ← for_fold (seq 0 (length items)) (MkBatches items [] [] [] []) (batch_step k messageSize);
    b ← flush_rest (contentDataBatch b) (flush_contents k b) b;
    _ ← flush_rest (contentPropertiesBatch b) (flush_properties k b) b;
    mret tt.

Definition sendDownloadRequestInBatches (items : list ApiData) (messageSize : Z) : Hub unit :=
  send_in_batches downloads items messageSize.
Definition sendDeleteRequestInBatches (items : list ApiData) (messageSize : Z) : Hub unit :=
  send_in_batches deletes items messageSize.

(** ** Requests sent one by one *)

Definition command_status (data : ApiData) : CommandStatusRequest :=
  let responseMap := response_map (Properties data) in
  {| cs_DeviceId := Id data;
     cs_CommandId := response_get responseMap "commandId";
     cs_IsFailed := (parse_bool (response_get responseMap "isFailed")).1;
     cs_FailureReason := response_get responseMap "failureReason" |}.

(** Send [body]; on an error store [data] again with a higher retry count, by
    [store]; the result is the list of the keys to delete. *)
Definition send_or_requeue (name : TelemetryCommandName) (body key : string) (data : ApiData)
    (store : string -> Hub unit) (deleteIds : list string) : Hub (list string) :=
  r ← try! (send_command name false body);
  match r with
  | inl _ =>
      match json_marshal (incr_retry data) with
      | inr byteData => ignore! tt of (store byteData);; mret deleteIds
      | inl _ => mret deleteIds
      end
  | inr _ => mret (deleteIds ++ [key])
  end.

Definition handleFilterUpdatedRequest (items : list ApiData) : Hub unit :=
  deleteIds ← for_fold items [] (fun deleteIds data =>
    let commandStatusReq := command_status data in
    match json_marshal commandStatusReq with
    | inl _ => mret deleteIds
    | inr body =>
        send_or_requeue CompleteCommand body (cs_CommandId commandStatusReq) data
          (AddCommandStatus (cs_CommandId commandStatusReq)) deleteIds
    end);
  ignore! tt of (DeletePendingAPIRequestEntries deleteIds).

Definition handledProvisionedRequest (items : list ApiData) : Hub unit :=
  deleteIds ← for_fold items [] (fun deleteIds data =>
    match json_marshal {| pr_DeviceId := Id data |} with
    | inl _ => mret deleteIds
    | inr body =>
        send_or_requeue ProvisionDevice body (Id data) data (AddProvisionedStatus (Id data)) deleteIds
    end);
  ignore! tt of (DeletePendingAPIRequestEntries deleteIds).

(** ** The loops *)

Definition ProcessRequests (segragatedMap : gmap Z (list ApiData))
    (downloadBatchMessageSize deleteBatchMessageSize : Z) : Hub unit :=
  kvs ← range_int_map segragatedMap;
  for_each kvs (fun '(key, items) =>
    if decide (key = Downloaded) then sendDownloadRequestInBatches items downloadBatchMessageSize
    else if decide (key = Deleted) then sendDeleteRequestInBatches items deleteBatchMessageSize
    else if decide (key = FilterUpdated) then handleFilterUpdatedRequest items
    else if decide (key = Provisioned) then handledProvisionedRequest items
    else mret tt).

Definition HandleApiRequests_round (downloadBatchMessageSize deleteBatchMessageSize : Z) : Hub unit :=
  result ← GetPendingApiRequests;
  let apiData := (fun data => (json_unmarshal data).1) <$> result in
  ProcessRequests (GetSegregatedItems apiData) downloadBatchMessageSize deleteBatchMessageSize.
Fixpoint HandleApiRequests (rounds : nat) (downloadBatchMessageSize deleteBatchMessageSize : Z) : Hub unit :=
  match rounds with
  | 0 => mret tt
  | S n => HandleApiRequests_round downloadBatchMessageSize deleteBatchMessageSize;;
           HandleApiRequests n downloadBatchMessageSize deleteBatchMessageSize
  end.

(** [sendAssetmapInBatches], its loop body first. *)
Definition assetmap_step (messageSize : Z) (contentBatch : list ContentData) (kv : string * string)
    : Hub (list ContentData) :=
  match json_unmarshal kv.2 with
  | (_, Some err) => fail err
  | (contentInfo, None) =>
      let contentBatch :=
        contentBatch ++ [{| cd_ContentId := kv.1; cd_OperationTime := DownloadTime contentInfo |}] in
      if decide (Z.of_nat (length contentBatch) = messageSize) then
        sendDownloadedTelemetryData {| ur_DeviceId := deviceId; ur_Contents := contentBatch |} true;;
        mret []
      else mret contentBatch
  end.
Definition sendAssetmapInBatches (messageSize : Z) : Hub unit :=
  assetMap ← GetAssetInfoMapItems;
  if decide (messageSize < 0)%Z then panic "makeslice: cap out of range"
  else
    kvs ← range_map assetMap;
    contentBatch ← for_fold kvs [] (assetmap_step messageSize);
    if decide (0 < length contentBatch) then
      sendDownloadedTelemetryData {| ur_DeviceId := deviceId; ur_Contents := contentBatch |} true
    else mret tt.

(** One round of [HandleAssetMapRequest]; the configuration is passed along, and
    [deviceIniFilename] is the file it is saved to.  [time.Now().Unix()] is in
    seconds and the difference wraps at 64 bits. *)
Definition HandleAssetMapRequest_round `{!Ini} (deviceIniFilename : string) (messageSize : Z)
    (deviceCfg : ini) : Hub ini :=
  now ← time_now;
  let currentTimestamp := (now / 1000000000)%Z in
  let lastTimestamp :=
    match ini_int64 "DEVICE_DETAIL" "ASSETMAP_TIMESTAMP" deviceCfg with inr t => t | inl _ => 0%Z end in
  let timeElapsedInHr := Z.quot (Z.quot (wrap64 (currentTimestamp - lastTimestamp)) 60) 60 in
  if decide (1 <= timeElapsedInHr)%Z then
    r ← try! (sendAssetmapInBatches messageSize);
    match r with
    | inl _ => mret deviceCfg
    | inr _ =>
        let deviceCfg := ini_set "DEVICE_DETAIL" "ASSETMAP_TIMESTAMP" (format_int currentTimestamp) deviceCfg in
        (* an error of [SaveTo] is only printed *)
        ignore! tt of (disk_op (ini_save deviceIniFilename deviceCfg));;
        mret deviceCfg
    end
  else mret deviceCfg.
End Cloud.
