(* ===== verification/CloudSpec.v ===== *)
(** What the loops of [Cloud.v] promise: a request leaves the queue only when
    every message it asked for was acknowledged. *)
From S2P Require Import Prelude GoStrings GoFloat LogData Host Storage Logger CloudData FlatIndex Cloud.

(** [d] is [d0] after some updates of its flags and retry count. *)
Definition same_request (d0 d : ApiData) : Prop :=
  Id d = Id d0 /\ ApiType d = ApiType d0 /\ OperationTime d = OperationTime d0 /\
  Properties d = Properties d0 /\
  (SendCloudTelemetry d = true -> SendCloudTelemetry d0 = true) /\
  (SendIOTCentralTelemetry d = true -> SendIOTCentralTelemetry d0 = true).
Lemma same_request_refl d : same_request d d.
Proof. by split_and!. Qed.

(** The key under which a request is queued. *)
Definition queue_key (d : ApiData) : string :=
  if decide (ApiType d = FilterUpdated) then cs_CommandId (command_status d) else Id d.

(** A request no handler takes: its type is none of the four, or it is a content
    whose two messages are both marked as sent. *)
Definition idle (d : ApiData) : Prop :=
  if decide (ApiType d = Downloaded \/ ApiType d = Deleted)
  then SendCloudTelemetry d = false /\ SendIOTCentralTelemetry d = false
  else ApiType d <> FilterUpdated /\ ApiType d <> Provisioned.
#[export] Instance idle_dec d : Decision (idle d).
Proof. unfold idle. case_decide; apply _. Defined.

Lemma not_idle_type d : ApiType d = FilterUpdated \/ ApiType d = Provisioned -> ~ idle d.
Proof. unfold idle. intros [-> | ->] Hi; rewrite decide_False in Hi by (by intros []); by destruct Hi. Qed.
Lemma not_idle_flag d : ApiType d = Downloaded \/ ApiType d = Deleted ->
  SendCloudTelemetry d = true \/ SendIOTCentralTelemetry d = true -> ~ idle d.
Proof. unfold idle. intros Ht Hf. rewrite decide_True by done. intros []. destruct Hf; congruence. Qed.

(** *** Stores of requests *)

Lemma foldl_alter_length (f : ApiData -> ApiData) (ptrs : list nat) (a : list ApiData) :
  length (foldl (fun h i => alter f i h) a ptrs) = length a.
Proof. revert a. induction ptrs as [|i ptrs IH]; intros a; simpl; [done|]. by rewrite IH, length_alter. Qed.

(** The relation of an item to its former value is kept by an update that keeps it. *)
Lemma foldl_alter_lookup (R : ApiData -> Prop) (f : ApiData -> ApiData) (ptrs : list nat) (a : list ApiData) i d :
  (forall x, R x -> R (f x)) -> foldl (fun h i => alter f i h) a ptrs !! i = Some d ->
  exists d1, a !! i = Some d1 /\ (R d1 -> R d) /\ (i ∉ ptrs -> d = d1).
Proof.
  intros Hf. revert a. induction ptrs as [|j ptrs IH]; intros a; simpl; [by eauto|].
  intros (d1 & Hl & HR & Hn)%IH. destruct (decide (i = j)) as [->|Hij].
  - rewrite list_lookup_alter_eq in Hl. apply fmap_Some in Hl as (d2 & Hl & ->).
    exists d2. split_and!; [done|auto|set_solver].
  - rewrite list_lookup_alter_ne in Hl by done. exists d1. split_and!; [done|done|set_solver].
Qed.

Lemma foldl_alter_forward (R : ApiData -> Prop) (f : ApiData -> ApiData) (ptrs : list nat)
    (a : list ApiData) d :
  (forall x, R x -> R (f x)) -> R d -> d ∈ a ->
  exists d', d' ∈ foldl (fun h i => alter f i h) a ptrs /\ R d'.
Proof.
  intros Hf Hd [i Hi]%list_elem_of_lookup.
  assert (is_Some (foldl (fun h i => alter f i h) a ptrs !! i)) as [d' Hd'].
  { apply lookup_lt_is_Some. rewrite foldl_alter_length. by eapply lookup_lt_Some. }
  exists d'. split; [by eapply list_elem_of_lookup_2|].
  destruct (foldl_alter_lookup R f ptrs a i d' Hf Hd') as (d1 & Hi1 & HR & _).
  apply HR. congruence.
Qed.

Lemma deref_elem (a : list ApiData) (ptrs : list nat) d : d ∈ deref a ptrs <-> exists i, i ∈ ptrs /\ a !! i = Some d.
Proof. apply list_elem_of_omap. Qed.

Section Spec.
Context `{Bolt, Disk, Env, Json ContentInfoOnDevice, Json ApiData, Json UpdateRequest,
  Json (list ContentProperties_), Json CommandStatusRequest, Json ProvisionDeviceRequest,
  Json TelemetryMessage} `{!BoltLaws}.
Variable logger : Logger.
Variable deviceId : string.
Implicit Types (w : world) (d : ApiData).

(** ** What was acknowledged *)

Definition sent (eventType : EventType) (sub : MessageSubType) w : Prop :=
  exists now id, EvTelemetry (make_message logger eventType sub now id) true ∈ w_trace w.
Definition command_sent (name : TelemetryCommandName) (isAssetMap : bool) (body : string) w : Prop :=
  sent TelemetryCommandMessage
    (sm_command {| CommandName := name; CommandData := body; IsAssetMap := isAssetMap |}) w.

(** A batch with the content of [d] was acknowledged. *)
Definition cloud_delivered (name : TelemetryCommandName) (isAssetMap : bool) (c : ContentData) w : Prop :=
  exists batch body,
    json_marshal {| ur_DeviceId := deviceId; ur_Contents := batch |} = inr body /\
    c ∈ batch /\ command_sent name isAssetMap body w.
Definition iot_delivered (eventType : EventType) (p : ContentProperties_) w : Prop :=
  exists batch body, json_marshal batch = inr body /\ p ∈ batch /\
    sent eventType (sm_contents {| NumberOfContents := Z.of_nat (length batch);
                                   ContentProperties := body |}) w.

(** Everything the request [d] asks for was acknowledged. *)
Definition acknowledged (d : ApiData) w : Prop :=
  if decide (ApiType d = Downloaded) then
    (SendCloudTelemetry d = true -> cloud_delivered ContentDownloaded false (download_content d) w) /\
    (SendIOTCentralTelemetry d = true ->
       iot_delivered AssetDownloadOnDeviceFromSES (download_properties d) w)
  else if decide (ApiType d = Deleted) then
    (SendCloudTelemetry d = true -> cloud_delivered ContentDeleted false (delete_content d) w) /\
    (SendIOTCentralTelemetry d = true ->
       iot_delivered AssetDeleteOnDeviceByScheduler (delete_properties d) w)
  else if decide (ApiType d = FilterUpdated) then
    exists body, json_marshal (command_status d) = inr body /\ command_sent CompleteCommand false body w
  else
    exists body, json_marshal {| pr_DeviceId := Id d |} = inr body /\
      command_sent ProvisionDevice false body w.

(** Later states know at least as many acknowledgements. *)
Definition later w w' : Prop := w_trace w `prefix_of` w_trace w'.
#[export] Instance later_preorder : PreOrder later.
Proof. unfold later. split; [by intros w|intros ???; apply transitivity]. Qed.

Lemma sent_later ty sub w w' : later w w' -> sent ty sub w -> sent ty sub w'.
Proof. intros [t E] (now & id & Hin). exists now, id. rewrite E. set_solver. Qed.
Lemma cloud_delivered_later name m c w w' :
  later w w' -> cloud_delivered name m c w -> cloud_delivered name m c w'.
Proof. intros ? (b & body & ? & ? & ?). exists b, body. split_and!; eauto using sent_later. by eapply sent_later. Qed.
Lemma iot_delivered_later ty p w w' : later w w' -> iot_delivered ty p w -> iot_delivered ty p w'.
Proof. intros ? (b & body & ? & ? & ?). exists b, body. split_and!; eauto using sent_later. Qed.
Lemma acknowledged_later d w w' : later w w' -> acknowledged d w -> acknowledged d w'.
Proof.
  intros Hl. unfold acknowledged. repeat case_decide.
  - intros []. split; eauto using cloud_delivered_later, iot_delivered_later.
  - intros []. split; eauto using cloud_delivered_later, iot_delivered_later.
  - intros (b & ? & ?). exists b. split; [done|by eapply sent_later].
  - intros (b & ? & ?). exists b. split; [done|by eapply sent_later].
Qed.

(** ** Messages *)

(** [m] leaves the database alone, and establishes [Q] when it returns. *)
Definition message (m : Hub unit) (Q : world -> Prop) : Prop := forall w o w',
  m w = (o, w') -> w_db w' = w_db w /\ later w w' /\ (o = Ret tt -> Q w').

Lemma message_Log ty sub : message (Log logger ty sub) (sent ty sub).
Proof.
  intros w o w' E. pose proof (Log_db logger ty sub w) as Hd. rewrite E in Hd.
  by destruct (Log_trace _ _ _ _ _ _ E).
Qed.
Lemma message_fail e Q : message (fail e) Q.
Proof. by intros w o w' [= <- <-]. Qed.

Lemma message_command name m body : message (send_command logger name m body) (command_sent name m body).
Proof. apply message_Log. Qed.

(** A batch, once it is delivered. *)
Definition batch_sent name m batch w : Prop := exists body,
  json_marshal {| ur_DeviceId := deviceId; ur_Contents := batch |} = inr body /\ command_sent name m body w.
Definition properties_sent ty (batch : list ContentProperties_) w : Prop := exists body,
  json_marshal batch = inr body /\
  sent ty (sm_contents {| NumberOfContents := Z.of_nat (length batch); ContentProperties := body |}) w.

Lemma message_downloaded m batch :
  message (sendDownloadedTelemetryData logger {| ur_DeviceId := deviceId; ur_Contents := batch |} m)
    (batch_sent ContentDownloaded m batch).
Proof.
  unfold sendDownloadedTelemetryData. destruct (json_marshal _) as [e|body] eqn:E; [apply message_fail|].
  intros w o w' (? & ? & Hs)%message_command. split_and!; [done|done|]. intros Ho. exists body. auto.
Qed.
Lemma message_deleted batch :
  message (sendDeleteTelemetryData logger {| ur_DeviceId := deviceId; ur_Contents := batch |})
    (batch_sent ContentDeleted false batch).
Proof.
  unfold sendDeleteTelemetryData. destruct (json_marshal _) as [e|body] eqn:E; [apply message_fail|].
  intros w o w' (? & ? & Hs)%message_command. split_and!; [done|done|]. intros Ho. exists body. auto.
Qed.
Lemma message_properties ty batch : message (send_properties logger ty batch) (properties_sent ty batch).
Proof.
  unfold send_properties. destruct (json_marshal _) as [e|body] eqn:E; [apply message_fail|].
  intros w o w' (? & ? & Hs)%message_Log. split_and!; [done|done|]. intros Ho. exists body. auto.
Qed.

(** What a kind of batch sends, and what its contents depend on. *)
Record kind_spec (k : Kind) (name : TelemetryCommandName) (ty : EventType) : Prop := {
  ks_cloud batch : message (k_send_cloud k {| ur_DeviceId := deviceId; ur_Contents := batch |})
    (batch_sent name false batch);
  ks_iot batch : message (k_send_iot k batch) (properties_sent ty batch);
  ks_content d0 d : same_request d0 d -> k_content k d = k_content k d0;
  ks_properties d0 d : same_request d0 d -> k_properties k d = k_properties k d0;
}.

Lemma downloads_spec : kind_spec (downloads logger) ContentDownloaded AssetDownloadOnDeviceFromSES.
Proof.
  split.
  - intros. apply message_downloaded.
  - intros. apply message_properties.
  - intros d0 d (E1 & _ & E2 & _). simpl. unfold download_content. by rewrite E1, E2.
  - intros d0 d (E1 & _ & E2 & E3 & _). simpl. unfold download_properties. by rewrite E1, E2, E3.
Qed.
Lemma deletes_spec : kind_spec (deletes logger) ContentDeleted AssetDeleteOnDeviceByScheduler.
Proof.
  split.
  - intros. apply message_deleted.
  - intros. apply message_properties.
  - intros d0 d (E1 & _ & E2 & _). simpl. unfold delete_content. by rewrite E1, E2.
  - intros d0 d (E1 & _ & E2 & E3 & _). simpl. unfold delete_properties. by rewrite E1, E2, E3.
Qed.

(** ** The invariant of a batch run

    [a] is the slice of the requests [items] some time after [w0], where the queue
    was read: a cleared flag has been acknowledged, and a request that left the
    queue has no flag. *)
Section Batches.
Context (k : Kind) (name : TelemetryCommandName) (ty : EventType).
Hypothesis Hk : kind_spec k name ty.
Context (items : list ApiData) (w0 : world).

Definition done_with (d : ApiData) : Prop :=
  SendCloudTelemetry d = false /\ SendIOTCentralTelemetry d = false.

Definition item_inv (d0 d : ApiData) w : Prop :=
  same_request d0 d /\
  (SendCloudTelemetry d0 = true -> SendCloudTelemetry d = false ->
     cloud_delivered name false (k_content k d0) w) /\
  (SendIOTCentralTelemetry d0 = true -> SendIOTCentralTelemetry d = false ->
     iot_delivered ty (k_properties k d0) w).

Record store_inv (a : list ApiData) w : Prop := {
  si_bucket : has_bucket w PendingAPIRequestMapping = true;
  si_later : later w0 w;
  si_length : length a = length items;
  si_item i d0 d : items !! i = Some d0 -> a !! i = Some d -> item_inv d0 d w;
  si_queue key : is_Some (pending w0 !! key) -> pending w !! key = None ->
    exists d, d ∈ a /\ Id d = key /\ done_with d;
}.

Definition store_post (o : outcome (list ApiData)) w : Prop :=
  match o with Ret a => store_inv a w | _ => exists a, store_inv a w end.

Lemma item_inv_later d0 d w w' : later w w' -> item_inv d0 d w -> item_inv d0 d w'.
Proof.
  intros Hl (? & ? & ?). split_and!; eauto using cloud_delivered_later, iot_delivered_later.
Qed.

(** Messages and failed commits do not matter. *)
Lemma store_inv_frame a w w' :
  same_db w w' -> later w w' -> store_inv a w -> store_inv a w'.
Proof.
  intros Hs Hl []. split; [by rewrite <-Hs|by etrans|done|..].
  - intros i d0 d H1' H2'. eapply item_inv_later; eauto.
  - intros key. rewrite <-Hs. auto.
Qed.

(** An update of the flags of [ptrs] that is justified there. *)
Lemma store_inv_update f ptrs a w :
  (forall d, Id (f d) = Id d) -> (forall d, done_with d -> done_with (f d)) ->
  (forall i d0 d, i ∈ ptrs -> items !! i = Some d0 -> item_inv d0 d w -> item_inv d0 (f d) w) ->
  store_inv a w -> store_inv (foldl (fun h i => alter f i h) a ptrs) w.
Proof.
  intros Hid Hdone Hf []. split; [done|done|by rewrite foldl_alter_length|..].
  - intros i d0 d Hi Hd. destruct (decide (i ∈ ptrs)) as [Hin|Hin].
    + destruct (foldl_alter_lookup (fun x => item_inv d0 x w) f ptrs a i d) as (d1 & Hd1 & HR & _);
        eauto.
    + destruct (foldl_alter_lookup (fun _ => True) f ptrs a i d) as (d1 & Hd1 & _ & Heq); try done.
      rewrite Heq by done. eauto.
  - intros key H1' H2'. destruct (si_queue0 key H1' H2') as (d & Hd & <- & Hdw).
    destruct (foldl_alter_forward (fun x => Id x = Id d /\ done_with x) f ptrs a d)
      as (d' & ? & ? & ?); [|done|done|by eauto].
    intros x [Hx ?]. rewrite Hid. auto.
Qed.

(** A change of the queue that only removes finished requests. *)
Lemma store_inv_queue a w w' :
  has_bucket w' PendingAPIRequestMapping = true -> later w w' ->
  (forall key, pending w' !! key = None -> pending w !! key = None \/
     exists d, d ∈ a /\ Id d = key /\ done_with d) ->
  store_inv a w -> store_inv a w'.
Proof.
  intros Hb Hl Hq []. split; [done|by etrans|done|..].
  - intros i d0 d H1' H2'. eapply item_inv_later; eauto.
  - intros key H1' [H2'|?]%Hq; eauto.
Qed.

Definition flag_delivered (flag : string) (d0 : ApiData) w : Prop :=
  if decide (flag = flag_cloud) then cloud_delivered name false (k_content k d0) w
  else iot_delivered ty (k_properties k d0) w.

Lemma AddBack_inv err a ptrs flag w :
  flag = flag_cloud \/ flag = flag_iot ->
  (err = None -> forall i d0, i ∈ ptrs -> items !! i = Some d0 -> flag_delivered flag d0 w) ->
  store_inv a w ->
  wp (AddApiDataBackToPendingAPIBucketOrDelete err a ptrs flag) w store_post.
Proof.
  intros Hflag Hok Ha. unfold AddApiDataBackToPendingAPIBucketOrDelete. destruct err as [e|].
  - assert (store_inv (IncrementRetryCount ptrs a) w) as Ha'.
    { apply store_inv_update; try done. }
    set (a' := IncrementRetryCount ptrs a) in *. apply wp_bind, wp_ignoring. unfold wp.
    destruct (AddContents _ _ w) as [o w'] eqn:E.
    destruct (AddContents_cases _ _ _ _ _ (si_bucket _ _ Ha') E)
      as (Ht & _ & [(-> & [f U] & Hp)|[[[e' ->] Hs]|(_ & [s ->] & Hs)]]); simpl.
    + eapply store_inv_queue; [..|exact Ha'].
      * rewrite (db_updated_has _ _ _ _ _ U). apply Ha'.
      * unfold later. by rewrite Ht.
      * intros key Hn. left. by eapply puts_some_keeps.
    + eapply store_inv_frame; [by symmetry| |exact Ha']. unfold later. by rewrite Ht.
    + exists a'. eapply store_inv_frame; [by symmetry| |exact Ha']. unfold later. by rewrite Ht.
  - assert (store_inv (setTelemetryFlag flag false ptrs a) w) as Ha'.
    { unfold setTelemetryFlag. specialize (Hok eq_refl).
      destruct Hflag as [-> | ->].
      - rewrite decide_True by done. apply store_inv_update; try done.
        + intros d []. by split.
        + intros i d0 d Hi Hd0 ((?&?&?&?&?&?) & Hc & Hi'). unfold item_inv, same_request. split_and!; simpl; try done;
            first [exact (fun _ _ => Hok i d0 Hi Hd0)|eauto].
      - rewrite (decide_False (P := flag_iot = flag_cloud)) by done.
        rewrite decide_True by done. apply store_inv_update; try done.
        + intros d []. by split.
        + intros i d0 d Hi Hd0 ((?&?&?&?&?&?) & Hc & Hi'). unfold item_inv, same_request. split_and!; simpl; try done;
            first [exact (fun _ _ => Hok i d0 Hi Hd0)|eauto]. }
    set (a' := setTelemetryFlag flag false ptrs a) in *. apply wp_bind, wp_ignoring. unfold wp.
    destruct (DeletePendingAPIRequestEntries _ w) as [o w'] eqn:E.
    destruct (DeletePending_touches _ _ _ _ (si_bucket _ _ Ha') E)
      as (_ & Ht & [[-> U]|(e & -> & Hs)]); simpl.
    + destruct (pending_updated _ _ _ U) as (_ & _ & Ep). eapply store_inv_queue; [..|exact Ha'].
      * rewrite (db_updated_has _ _ _ _ _ U). apply Ha'.
      * unfold later. by rewrite Ht.
      * intros key. rewrite Ep, lookup_remove_keys. case_decide as Hin; [|by left]. intros _. right.
        apply list_elem_of_fmap in Hin as (d & -> & [Hd (i & _ & Hi)%deref_elem]%list_elem_of_filter).
        exists d. split_and!; [by eapply list_elem_of_lookup_2|done|done].
    + eapply store_inv_frame; [by symmetry| |exact Ha']. unfold later. by rewrite Ht.
Qed.

#[local] Arguments AddApiDataBackToPendingAPIBucketOrDelete : simpl never.

(** *** The loop *)

Definition batch_inv (b : Batches) w : Prop :=
  store_inv (apidata b) w /\
  contentDataBatch b = k_content k <$> deref items (contentDataApiBatch b) /\
  contentPropertiesBatch b = k_properties k <$> deref items (contentPropertiesApiBatch b).
Definition batch_post (o : outcome Batches) w : Prop :=
  match o with Ret b => batch_inv b w | _ => exists a, store_inv a w end.

(** A message, then the update it justifies. *)
Lemma flush_inv (m : Hub unit) (Q : world -> Prop) b ptrs flag (next : list ApiData -> Batches) w :
  message m Q -> flag = flag_cloud \/ flag = flag_iot ->
  (forall w, Q w -> forall i d0, i ∈ ptrs -> items !! i = Some d0 -> flag_delivered flag d0 w) ->
  (forall a w, store_inv a w -> batch_inv (next a) w) ->
  store_inv (apidata b) w ->
  wp (r ← attempt m; a ← AddApiDataBackToPendingAPIBucketOrDelete (error_of r) (apidata b) ptrs flag;
      mret (next a)) w batch_post.
Proof.
  intros Hm Hflag HQ Hnext Hs. apply wp_bind, wp_attempt. unfold wp at 1.
  destruct (m w) as [o w1] eqn:E. destruct (Hm _ _ _ E) as (Hd & Hl & Ho). simpl.
  assert (same_db w w1) as Hw1 by (unfold same_db; by rewrite Hd).
  pose proof (store_inv_frame _ _ _ Hw1 Hl Hs) as Hs1.
  destruct o as [[]|e| |]; simpl; [..|by eexists|by eexists];
    (apply wp_bind; apply (wp_mono _ _ store_post); [apply AddBack_inv; [done| |exact Hs1]|
     intros [] w2 Hp; try done; by apply Hnext]); [|done].
  intros _. by apply HQ, Ho.
Qed.

Lemma flush_contents_inv b w : batch_inv b w -> wp (flush_contents deviceId k b) w batch_post.
Proof.
  intros (Hs & Hc & Hp). eapply flush_inv; [by eapply ks_cloud|by left|..|done].
  - intros w' (body & Hb & Hsent) i d0 Hi Hd0. exists (contentDataBatch b), body.
    split_and!; [done| |done]. rewrite Hc. apply list_elem_of_fmap_2, deref_elem. eauto.
  - intros a w' Ha. by split.
Qed.
Lemma flush_properties_inv b w : batch_inv b w -> wp (flush_properties k b) w batch_post.
Proof.
  intros (Hs & Hc & Hp). eapply flush_inv; [by eapply ks_iot|by right|..|done].
  - intros w' (body & Hb & Hsent) i d0 Hi Hd0. exists (contentPropertiesBatch b), body.
    split_and!; [done| |done]. rewrite Hp. apply list_elem_of_fmap_2, deref_elem. eauto.
  - intros a w' Ha. by split.
Qed.

Lemma deref_snoc (a : list ApiData) ptrs i d :
  a !! i = Some d -> deref a (ptrs ++ [i]) = deref a ptrs ++ [d].
Proof. intros Hi. unfold deref. rewrite omap_app. simpl. by rewrite Hi. Qed.

Lemma batch_inv_add i d b w : apidata b !! i = Some d -> batch_inv b w ->
  batch_inv (add_properties k i d (add_content k i d b)) w.
Proof.
  intros Hi (Hs & Hc & Hp).
  assert (is_Some (items !! i)) as [d0 Hd0].
  { apply lookup_lt_is_Some. rewrite <-(si_length _ _ Hs). by eapply lookup_lt_Some. }
  destruct (si_item _ _ Hs i d0 d Hd0 Hi) as [Hsame _].
  unfold add_properties, add_content.
  destruct (SendCloudTelemetry d), (SendIOTCentralTelemetry d); (split_and!; simpl; [done|..]);
    rewrite ?Hc, ?Hp, ?(deref_snoc _ _ _ _ Hd0), ?fmap_app; simpl;
    rewrite ?(ks_content _ _ _ Hk _ _ Hsame), ?(ks_properties _ _ _ Hk _ _ Hsame); done.
Qed.

Lemma batch_post_weaken o w : batch_post o w -> exists a, store_inv a w.
Proof. destruct o; simpl; [intros [? _]; by eexists|done..]. Qed.

Lemma flush_full_inv {A} n (batch : list A) flush b w :
  wp flush w batch_post -> batch_inv b w -> wp (flush_full n batch flush b) w batch_post.
Proof.
  intros Hf Hb. unfold flush_full. case_decide; [|done]. destruct batch; [|done].
  exists (apidata b). apply Hb.
Qed.
Lemma flush_rest_inv {A} (batch : list A) flush b w :
  wp flush w batch_post -> batch_inv b w -> wp (flush_rest batch flush b) w batch_post.
Proof. intros Hf Hb. unfold flush_rest. by case_decide. Qed.

Lemma batch_step_inv n b i w : batch_inv b w -> wp (batch_step deviceId k n b i) w batch_post.
Proof.
  intros Hb. unfold batch_step. destruct (apidata b !! i) as [d|] eqn:Hi; last first.
  { exists (apidata b). apply Hb. }
  pose proof (batch_inv_add i d b w Hi Hb) as Hb1. cbv zeta.
  set (b1 := add_properties _ _ _ _) in *. apply wp_bind. eapply wp_mono.
  { apply flush_full_inv; [by apply flush_contents_inv|done]. }
  intros [b2|e| |] w2 Hb2; try done. apply flush_full_inv; [by apply flush_properties_inv|done].
Qed.

Lemma send_in_batches_inv n w :
  store_inv items w -> wp (send_in_batches deviceId k items n) w (fun _ w' => exists a, store_inv a w').
Proof.
  intros Hs. unfold send_in_batches. case_decide; [by exists items|]. apply wp_bind.
  apply (wp_for_fold batch_inv).
  - done.
  - intros b i w1 _ Hb. eapply wp_mono; [by apply batch_step_inv|]. by intros [].
  - intros b w1 Hb. apply wp_bind. eapply wp_mono.
    { apply flush_rest_inv; [by apply flush_contents_inv|done]. }
    intros [b2|e| |] w2 Hb2; try done. apply wp_bind. eapply wp_mono.
    { apply flush_rest_inv; [by apply flush_properties_inv|done]. }
    intros [b3|e| |] w3 Hb3; try done. simpl. by eexists; apply Hb3.
Qed.
End Batches.

(** ** Handlers

    From [w] to [w'] only requests of [items] left the queue, and they were
    acknowledged. *)
Definition only_acknowledged (items : list ApiData) w w' : Prop :=
  has_bucket w' PendingAPIRequestMapping = true /\ later w w' /\
  forall key, is_Some (pending w !! key) -> pending w' !! key = None ->
    exists d, d ∈ items /\ queue_key d = key /\ acknowledged d w'.
Definition handler_ok (items : list ApiData) {A} (m : Hub A) : Prop :=
  forall w, has_bucket w PendingAPIRequestMapping = true -> only_acknowledged items w (m w).2.

Lemma only_acknowledged_refl items w :
  has_bucket w PendingAPIRequestMapping = true -> only_acknowledged items w w.
Proof. intros Hb. split_and!; [done|done|]. intros key [? E] Hn. congruence. Qed.

Lemma only_acknowledged_trans l1 l2 l w1 w2 w3 :
  l1 ⊆ l -> l2 ⊆ l -> only_acknowledged l1 w1 w2 -> only_acknowledged l2 w2 w3 ->
  only_acknowledged l w1 w3.
Proof.
  intros Hl1 Hl2 (Hb2 & Ht2 & H12) (Hb3 & Ht3 & H23). split_and!; [done|by etrans|].
  intros key Hs Hn. destruct (pending w2 !! key) eqn:E2.
  - destruct (H23 key) as (d & ? & ? & ?); [by eexists|done|]. exists d. eauto.
  - destruct (H12 key Hs E2) as (d & ? & ? & ?). exists d. split_and!; eauto using acknowledged_later.
Qed.

Lemma store_inv_start k name ty items w :
  has_bucket w PendingAPIRequestMapping = true -> store_inv k name ty items w items w.
Proof.
  intros Hb. split; [done|done|done|..].
  - intros i d0 d E1 E2. simplify_eq. split; [apply same_request_refl|].
    split; congruence.
  - intros key [? E] Hn. congruence.
Qed.

Lemma send_in_batches_ok k name ty items n :
  kind_spec k name ty ->
  (forall d w, d ∈ items -> (SendCloudTelemetry d = true -> cloud_delivered name false (k_content k d) w) ->
     (SendIOTCentralTelemetry d = true -> iot_delivered ty (k_properties k d) w) ->
     queue_key d = Id d /\ acknowledged d w) ->
  handler_ok items (send_in_batches deviceId k items n).
Proof.
  intros Hk Hack w Hb.
  destruct (send_in_batches_inv k name ty Hk items w n w (store_inv_start k name ty items w Hb))
    as [a Ha]. split_and!; [apply Ha|apply Ha|]. intros key H1' H2'.
  destruct (si_queue _ _ _ _ _ _ _ Ha key H1' H2') as (d & [i Hi]%list_elem_of_lookup & <- & Hc & Hp).
  assert (is_Some (items !! i)) as [d0 Hd0].
  { apply lookup_lt_is_Some. rewrite <-(si_length _ _ _ _ _ _ _ Ha). by eapply lookup_lt_Some. }
  destruct (si_item _ _ _ _ _ _ _ Ha i d0 d Hd0 Hi) as ((-> & _) & Hcloud & Hiot).
  exists d0. destruct (Hack d0 (send_in_batches deviceId k items n w).2) as [<- ?]; auto.
  - by eapply list_elem_of_lookup_2.
  - split_and!; [by eapply list_elem_of_lookup_2|done|done].
Qed.

Lemma downloads_ok items n : Forall (fun d => ApiType d = Downloaded) items ->
  handler_ok items (sendDownloadRequestInBatches logger deviceId items n).
Proof.
  intros Hty. apply (send_in_batches_ok _ _ _ _ _ downloads_spec). intros d w Hd Hc Hp.
  unfold queue_key, acknowledged. by rewrite (proj1 (Forall_forall _ _) Hty d Hd).
Qed.
Lemma deletes_ok items n : Forall (fun d => ApiType d = Deleted) items ->
  handler_ok items (sendDeleteRequestInBatches logger deviceId items n).
Proof.
  intros Hty. apply (send_in_batches_ok _ _ _ _ _ deletes_spec). intros d w Hd Hc Hp.
  unfold queue_key, acknowledged. by rewrite (proj1 (Forall_forall _ _) Hty d Hd).
Qed.

(** *** Requests sent one by one *)

Definition one_by_one_inv (items : list ApiData) w0 (deleteIds : list string) w : Prop :=
  only_acknowledged [] w0 w /\
  forall id, id ∈ deleteIds -> exists d, d ∈ items /\ queue_key d = id /\ acknowledged d w.

Lemma only_acknowledged_insert w w' f key v :
  has_bucket w PendingAPIRequestMapping = true ->
  w_trace w' = w_trace w -> db_updated PendingAPIRequestMapping f w w' -> f = <[key := v]> ->
  only_acknowledged [] w w'.
Proof.
  intros Hb Ht U ->. destruct (pending_updated _ _ _ U) as (_ & _ & Ep). split_and!.
  - by rewrite (db_updated_has _ _ _ _ _ U).
  - unfold later. by rewrite Ht.
  - intros k' [v' Hs]. rewrite Ep. intros [Hn _]%lookup_insert_None. congruence.
Qed.

Lemma only_acknowledged_same w w' :
  has_bucket w PendingAPIRequestMapping = true -> same_db w w' -> later w w' ->
  only_acknowledged [] w w'.
Proof.
  intros Hb Hs Hl. split_and!; [by rewrite <-Hs|done|].
  intros key [v E] Hn. rewrite <-Hs in Hn. congruence.
Qed.

Lemma one_by_one_step items w0 ids w w' :
  one_by_one_inv items w0 ids w -> only_acknowledged [] w w' -> one_by_one_inv items w0 ids w'.
Proof.
  intros [Ha Hd] H1'. split; [by eapply only_acknowledged_trans; [..|exact Ha|exact H1']|].
  intros id (d & ? & ? & ?)%Hd. exists d. split_and!; [done|done|].
  eapply acknowledged_later; [apply H1'|done].
Qed.

Lemma send_or_requeue_inv items w0 name body key d store ids w :
  (forall v, touches PendingAPIRequestMapping <[key := v]> (store v)) ->
  d ∈ items -> queue_key d = key ->
  (forall w, command_sent name false body w -> acknowledged d w) ->
  one_by_one_inv items w0 ids w ->
  wp (send_or_requeue logger name body key d store ids) w (fun o w' =>
    match o with Ret ids' => one_by_one_inv items w0 ids' w' | _ => False end).
Proof.
  intros Hst Hd Hkey Hack Hinv. unfold send_or_requeue. apply wp_bind, wp_attempt. unfold wp at 1.
  destruct (Log_outcome logger TelemetryCommandMessage
    (sm_command {| CommandName := name; CommandData := body; IsAssetMap := false |}) w)
    as [[w1 E]|(e & w1 & E)]; unfold send_command; rewrite E; simpl;
    destruct (message_command name false body _ _ _ E) as (Hdb & Hl & Ho);
    (assert (one_by_one_inv items w0 ids w1) as [Ha1 Hi1] by
      (eapply one_by_one_step; [exact Hinv|];
       apply only_acknowledged_same; [apply Hinv|unfold same_db; by rewrite Hdb|done])).
  - split; [done|]. intros id [?| ->%list_elem_of_singleton]%elem_of_app; [auto|].
    exists d. split_and!; [done|done|by apply Hack, Ho].
  - destruct (json_marshal _) as [|v]; [by split|]. apply wp_bind, wp_ignoring. unfold wp at 1.
    destruct (store v w1) as [o w2] eqn:E2.
    destruct (Hst v _ _ _ (proj1 Ha1) E2) as (_ & Ht & [[-> U]|(e' & -> & Hs)]); simpl;
      (apply (one_by_one_step items w0 ids w1 w2); [by split|]).
    + by eapply only_acknowledged_insert; [apply Ha1|..].
    + apply only_acknowledged_same; [apply Ha1|by symmetry|unfold later; by rewrite Ht].
Qed.

(** After the loop the successful keys are deleted. *)
Lemma one_by_one_delete items w0 ids w :
  one_by_one_inv items w0 ids w ->
  only_acknowledged items w0 (ignoring tt (DeletePendingAPIRequestEntries ids) w).2.
Proof.
  intros [Ha Hi]. pose proof Ha as (Hb & _). unfold ignoring, attempt, mbind, M_bind.
  destruct (DeletePendingAPIRequestEntries ids w) as [o w1] eqn:E.
  assert (only_acknowledged items w w1) as H1'.
  { destruct (DeletePending_touches _ _ _ _ Hb E) as (_ & Ht & [[-> U]|(e & -> & Hs)]).
    - destruct (pending_updated _ _ _ U) as (_ & _ & Ep). split_and!.
      + by rewrite (db_updated_has _ _ _ _ _ U).
      + unfold later. by rewrite Ht.
      + intros key [v Hv]. rewrite Ep, lookup_remove_keys. case_decide as Hin; [|congruence].
        intros _. destruct (Hi key Hin) as (d & ? & ? & ?). exists d. split_and!; [done|done|].
        eapply acknowledged_later; [|done]. unfold later. by rewrite Ht.
    - eapply (only_acknowledged_trans [] []); [set_solver|set_solver| |].
      + by apply only_acknowledged_refl.
      + apply only_acknowledged_same; [done|by symmetry|unfold later; by rewrite Ht]. }
  assert (only_acknowledged items w0 w1) as Hfin.
  { eapply (only_acknowledged_trans [] items); [set_solver|set_solver|exact Ha|done]. }
  by destruct o.
Qed.

Lemma one_by_one_ok items (body : list string -> ApiData -> Hub (list string)) :
  (forall w0 ids d w, d ∈ items -> one_by_one_inv items w0 ids w ->
     wp (body ids d) w (fun o w' => match o with Ret ids' => one_by_one_inv items w0 ids' w' | _ => False end)) ->
  handler_ok items (ids ← for_fold items [] body; ignoring tt (DeletePendingAPIRequestEntries ids)).
Proof.
  intros Hbody w Hb.
  assert (wp (ids ← for_fold items [] body; ignoring tt (DeletePendingAPIRequestEntries ids)) w
    (fun _ w' => only_acknowledged items w w')) as Hwp; [|exact Hwp].
  apply wp_bind, (wp_for_fold (one_by_one_inv items w)).
  - split; [by apply only_acknowledged_refl|]. intros id Hid. by apply elem_of_nil in Hid.
  - intros ids d w1 Hd Hinv. eapply wp_mono; [by apply Hbody|]. by intros [].
  - intros ids w1 Hinv. by apply one_by_one_delete.
Qed.

Lemma filter_updated_ok items : Forall (fun d => ApiType d = FilterUpdated) items ->
  handler_ok items (handleFilterUpdatedRequest logger items).
Proof.
  intros Hty. apply one_by_one_ok. intros w0 ids d w Hd Hinv.
  pose proof (proj1 (Forall_forall _ _) Hty d Hd) as Et. simpl in Et.
  cbv zeta. destruct (json_marshal (command_status d)) as [e|body] eqn:E; [done|].
  apply send_or_requeue_inv; [intros; apply AddCommandStatus_touches|done|..|done].
  - unfold queue_key. by rewrite Et.
  - intros w1 Hs. unfold acknowledged. rewrite Et. simpl. by exists body.
Qed.
Lemma provisioned_ok items : Forall (fun d => ApiType d = Provisioned) items ->
  handler_ok items (handledProvisionedRequest logger items).
Proof.
  intros Hty. apply one_by_one_ok. intros w0 ids d w Hd Hinv.
  pose proof (proj1 (Forall_forall _ _) Hty d Hd) as Et. simpl in Et.
  destruct (json_marshal {| pr_DeviceId := Id d |}) as [e|body] eqn:E; [done|].
  apply send_or_requeue_inv; [intros; apply AddProvisionedStatus_touches|done|..|done].
  - unfold queue_key. by rewrite Et.
  - intros w1 Hs. unfold acknowledged. rewrite Et. simpl. by exists body.
Qed.
(** ** A round *)

Lemma segregated_lookup (l : list ApiData) (t : Z) :
  GetSegregatedItems l !! t =
  match filter (fun d => ApiType d = t) l with [] => None | l' => Some l' end.
Proof.
  unfold GetSegregatedItems.
  assert (forall m : gmap Z (list ApiData),
    foldl (fun m d => <[ApiType d := default [] (m !! ApiType d) ++ [d]]> m) m l !! t
    = match filter (fun d => ApiType d = t) l with
      | [] => m !! t | l' => Some (default [] (m !! t) ++ l') end) as Hgen.
  { induction l as [|d l IH]; intros m; simpl; [done|]. rewrite IH, filter_cons.
    destruct (decide (ApiType d = t)) as [->|Hne].
    - rewrite lookup_insert_eq. simpl. destruct (filter _ l); [done|]. by rewrite <-app_assoc.
    - by rewrite lookup_insert_ne. }
  rewrite Hgen, lookup_empty. by destruct (filter _ l).
Qed.

Lemma segregated_elem (l : list ApiData) (t : Z) (l' : list ApiData) : GetSegregatedItems l !! t = Some l' ->
  Forall (fun d => ApiType d = t) l' /\ l' ⊆ l.
Proof.
  rewrite segregated_lookup. intros E.
  assert (l' = filter (fun d => ApiType d = t) l) as -> by (by destruct (filter _ l); simplify_eq).
  split; [apply Forall_forall; by intros d [? _]%list_elem_of_filter|].
  intros d. by intros [_ ?]%list_elem_of_filter.
Qed.

Lemma for_each_ok {A} items (xs : list A) (body : A -> Hub unit) :
  (forall x, x ∈ xs -> handler_ok items (body x)) -> handler_ok items (for_each xs body).
Proof.
  induction xs as [|x xs IH]; intros Hx w Hb; simpl; [by apply only_acknowledged_refl|].
  pose proof (Hx x ltac:(left) w Hb) as H1'. unfold mbind, M_bind.
  destruct (body x w) as [[[]| | |] w1]; simpl in *; try done.
  eapply only_acknowledged_trans; [reflexivity|reflexivity|exact H1'|].
  apply IH; [|apply H1']. intros y Hy. apply Hx. by right.
Qed.

Lemma handler_ok_subset l l' {A} (m : Hub A) : l ⊆ l' -> handler_ok l m -> handler_ok l' m.
Proof.
  intros Hl Hm w Hb. destruct (Hm w Hb) as (? & ? & Hq). split_and!; [done|done|].
  intros key H1' H2'. destruct (Hq key H1' H2') as (d & ? & ?). exists d. split; [by apply Hl|done].
Qed.

Lemma ProcessRequests_ok `{!EnvLaws} l n1 n2 :
  handler_ok l (ProcessRequests logger deviceId (GetSegregatedItems l) n1 n2).
Proof.
  intros w Hb. unfold ProcessRequests. erewrite bind_Ret by done.
  revert w Hb. intros w0 Hb. set (kvs := env_range_int _ _). revert Hb.
  assert (forall t items, (t, items) ∈ kvs -> GetSegregatedItems l !! t = Some items) as Hkvs.
  { intros t items. unfold kvs. by rewrite env_range_int_perm, elem_of_map_to_list. }
  clearbody kvs. revert w0. apply for_each_ok.
  intros [t items] [Hty Hl]%Hkvs%segregated_elem. eapply handler_ok_subset; [exact Hl|].
  case_decide; [subst; by apply downloads_ok|]. case_decide; [subst; by apply deletes_ok|].
  case_decide; [subst; by apply filter_updated_ok|]. case_decide; [subst; by apply provisioned_ok|].
  intros w Hb. by apply only_acknowledged_refl.
Qed.

(** The requests in the queue, in the order of their keys. *)
Definition queue_items w : list ApiData :=
  (fun data => (json_unmarshal data).1) <$> (sorted_items (pending w)).*2.
Lemma elem_of_queue_items w d :
  d ∈ queue_items w <-> exists key s, pending w !! key = Some s /\ d = (json_unmarshal s).1.
Proof.
  unfold queue_items. rewrite <-list_fmap_compose, list_elem_of_fmap. split.
  - intros ([key s] & -> & ?%elem_of_sorted_items). eauto.
  - intros (key & s & E%elem_of_sorted_items & ->). by exists (key, s).
Qed.

Lemma HandleApiRequests_round_run n1 n2 w : ready w ->
  HandleApiRequests_round logger deviceId n1 n2 w =
  ProcessRequests logger deviceId (GetSegregatedItems (queue_items w)) n1 n2 w.
Proof.
  intros Hr. unfold HandleApiRequests_round.
  by erewrite bind_Ret by (by apply GetPendingApiRequests_run).
Qed.

(** ** The map of the contents *)

Definition asset_content (kv : string * string) : ContentData :=
  {| cd_ContentId := kv.1; cd_OperationTime := DownloadTime (json_unmarshal kv.2).1 |}.

(** The loop and the last batch, with [batch] waiting. *)
Lemma assetmap_run n kvs batch w w' :
  (contentBatch ← for_fold kvs batch (assetmap_step logger deviceId n);
   if decide (0 < length contentBatch) then
     sendDownloadedTelemetryData logger {| ur_DeviceId := deviceId; ur_Contents := contentBatch |} true
   else mret tt) w = (Ret tt, w') ->
  w_db w' = w_db w /\ later w w' /\
  (forall c, c ∈ batch -> cloud_delivered ContentDownloaded true c w') /\
  (forall kv, kv ∈ kvs -> exists info, json_unmarshal kv.2 = (info, None) /\
     cloud_delivered ContentDownloaded true
       {| cd_ContentId := kv.1; cd_OperationTime := DownloadTime info |} w').
Proof.
  revert batch w. induction kvs as [|kv kvs IH]; intros batch w.
  - simpl. erewrite bind_Ret by done. case_decide as Hl.
    + intros E. destruct (message_downloaded true batch _ _ _ E) as (Hd & Ht & Hs).
      split_and!; [done|done| |by intros ? ?%elem_of_nil].
      intros c Hc. destruct (Hs eq_refl) as (body & ? & ?). by exists batch, body.
    + intros [= <-]. split_and!; [done|done| |by intros ? ?%elem_of_nil].
      destruct batch; simpl in Hl; [by intros ? ?%elem_of_nil|lia].
  - simpl. rewrite bind_assoc. set (rest := fun s' : list ContentData => _).
    unfold assetmap_step.
    destruct (json_unmarshal kv.2) as [info [err|]] eqn:Ej; [by erewrite bind_Fail by done|].
    cbv zeta. set (c := {| cd_ContentId := kv.1; cd_OperationTime := DownloadTime info |}).
    case_decide as Hn.
    + rewrite bind_assoc. unfold mbind at 1, M_bind at 1.
      destruct (sendDownloadedTelemetryData _ _ _ w) as [[[]| | |] w1] eqn:E; try done.
      intros E2. destruct (message_downloaded true (batch ++ [c]) _ _ _ E) as (Hd & Ht & Hs).
      destruct (IH [] w1 E2) as (Hd2 & Ht2 & _ & Hall). destruct (Hs eq_refl) as (body & Hb & Hsent).
      assert (forall x, x ∈ batch ++ [c] -> cloud_delivered ContentDownloaded true x w') as Hx.
      { intros x Hx. eapply cloud_delivered_later; [exact Ht2|]. by exists (batch ++ [c]), body. }
      split_and!; [congruence|by etrans|intros; apply Hx; set_solver|].
      intros kv' [->|?]%elem_of_cons; [|by apply Hall]. exists info. split; [done|]. apply Hx. set_solver.
    + rewrite bind_Ret with (a := batch ++ [c]) (w' := w) by done. intros E2.
      destruct (IH (batch ++ [c]) w E2) as (Hd2 & Ht2 & Hb & Hall).
      split_and!; [done|done|intros; apply Hb; set_solver|].
      intros kv' [->|?]%elem_of_cons; [|by apply Hall]. exists info. split; [done|]. apply Hb. set_solver.
Qed.
End Spec.
