(* ===== verification/KeyManager.v ===== *)
(** [keymanager/keymanager.go], the loading of the keys in [hub.go] and
    [middlewares.go]: a first-in first-out cache of public keys, and the middleware
    that lets a request pass when its token was signed for one of them.  The mutex
    of the cache guards [AddKey]: a call is one step here. *)
From S2P Require Import Prelude GoStrings LogData Host Storage FlatIndex GoNumbers Sha256 Files FilesSpec Mstore Index Reference FilesRef.
From stdpp Require Import sorting.

(** The user and the claims of the library (the expiry and the like). *)
Record Claims (StandardClaims : Type) := { Userid : string; Standard : StandardClaims }.
Arguments Userid {_}.
Arguments Standard {_}.

(** [github.com/dgrijalva/jwt-go] *)
Class Jwt := {
  PublicKey : Type;
  StandardClaims : Type;
  ParseRSAPublicKeyFromPEM : string -> error + PublicKey;
  (** by the time of the call (of the claims [exp], [iat] and [nbf]), the token and a
      key, which may be nil: the error, or the claims and [tkn.Valid] *)
  ParseWithClaims : Z -> string -> option PublicKey -> error + (Claims StandardClaims * bool);
}.
(** A token that was parsed without an error is valid. *)
Class JwtLaws `{Jwt} : Prop :=
  parsed_is_valid now token k claims b : ParseWithClaims now token k = inr (claims, b) -> b = true.

Section KeyManager.
Context `{Bolt, Disk, Env, Jwt}.

(** ** The cache *)

(** An unused entry holds a nil pointer. *)
Record KeyEntry := { key : option PublicKey; fileName : string }.
Record KeyManager := {
  keys : list KeyEntry;
  maxLength : Z;
  currentLength : Z;
  PubkeysDir : string;
}.

Definition MakeKeyManager {W} (maxLength : Z) (PubkeysDir : string) : M W KeyManager :=
  if decide (maxLength < 0)%Z then panic "makeslice: len out of range"
  else mret {| keys := replicate (Z.to_nat maxLength) {| key := None; fileName := EmptyString |};
               maxLength := maxLength; currentLength := 0; PubkeysDir := PubkeysDir |}.

(** The result is the cache after the call; on an error it is unchanged. *)
Definition AddKey (publicKeyName : string) (km : KeyManager) : Hub KeyManager :=
  keyData ← read_file (path_join [PubkeysDir km; publicKeyName]);
  match ParseRSAPublicKeyFromPEM keyData with
  | inl err => fail err
  | inr k =>
      let entry := {| key := Some k; fileName := publicKeyName |} in
      if decide (currentLength km = maxLength km) then
        match keys km with
        | [] => panic "index out of range [0] with length 0"
        | oldest :: rest =>
            ignore! tt of (disk_op (os_remove (path_join [PubkeysDir km; fileName oldest])));;
            mret {| keys := rest ++ [entry]; maxLength := maxLength km;
                    currentLength := currentLength km; PubkeysDir := PubkeysDir km |}
        end
      else
        if decide (0 <= currentLength km < Z.of_nat (length (keys km)))%Z then
          mret {| keys := <[Z.to_nat (currentLength km) := entry]> (keys km); maxLength := maxLength km;
                  currentLength := currentLength km + 1; PubkeysDir := PubkeysDir km |}
        else panic "index out of range"
  end.

Definition GetKeyList {W} (km : KeyManager) : M W (list (option PublicKey)) :=
  if decide (currentLength km <= Z.of_nat (length (keys km)))%Z then
    mret (take (Z.to_nat (currentLength km)) (key <$> keys km))
  else panic "index out of range".

(** ** Loading the keys at the start, [hub.go] *)

(** The numbers of the files [<number>.pem] among the paths. *)
Definition file_times (paths : list string) : list Z :=
  omap (fun path =>
    let ext := path_ext path in
    if decide (ext = ".pem") then
      let file_full_name := path_base path in
      let file_name := s_take (String.length file_full_name - String.length ext) file_full_name in
      match parse_int 64 file_name with
      | (t, None) => Some t
      | (_, Some _) => None
      end
    else None) paths.

(** A key that cannot be added is only logged. *)
Definition load_keys (km : KeyManager) : Hub KeyManager :=
  paths ← gets (fun w => os_walk (PubkeysDir km) (w_disk w));
  for_fold (merge_sort Z.le (file_times paths)) km (fun km file_time =>
    r ← try! (AddKey (format_int file_time +:+ ".pem") km);
    mret (match r with inr km' => km' | inl _ => km end)).

(** ** A key from the cloud, [handle_method_calls.go]

    The answer is a message, here with the cache after the call.  Two keys within a
    second share a file, which is not truncated. *)
Definition AddNewPublicKey `{!Files} (public_key : string) (km : KeyManager) : Hub (string * KeyManager) :=
  now ← time_now;
  let filePath := path_join [PubkeysDir km; format_int (now / 1000000000) +:+ ".pem"] in
  r ← try! (disk_op (os_open_file false filePath);;
            disk_op (os_write filePath public_key);;
            AddKey (path_base filePath) km);
  mret (match r with
        | inl err => ("New Public Key Not Added: " +:+ err, km)
        | inr km' => ("New Public Key Added", km')
        end).

(** ** [middlewares.go] *)

(** Each try reads the clock.  [err.Error()] on the nil error of an invalid token is
    a panic. *)
Fixpoint verify_with (token : string) (l : list (option PublicKey)) : Hub (Claims StandardClaims) :=
  match l with
  | [] => fail "Token is invalid"
  | k :: l' =>
      now ← time_now;
      match ParseWithClaims now token k with
      | inr (claims, true) => mret claims
      | inr (_, false) => panic "invalid memory address or nil pointer dereference"
      | inl _ => verify_with token l'
      end
  end.
Definition verifyToken (token : string) (km : KeyManager) : Hub (Claims StandardClaims) :=
  l ← GetKeyList km; verify_with token l.

(** What becomes of the request: the answer 401, or the next handler with the
    user id in the context and the device id in a header. *)
Inductive verdict :=
  | Unauthorized
  | Next (userId hubId : string).

Definition AuthRequiredMiddleware (deviceId authorization : string) (km : KeyManager) : Hub verdict :=
  let authToken := replace_first "Bearer " EmptyString authorization in
  r ← try! (verifyToken authToken km);
  match r with
  | inl err =>
      if decide (err = "Token is invalid") then mret Unauthorized
      else panic "invalid memory address or nil pointer dereference"
  | inr claims => mret (Next (Userid claims) deviceId)
  end.

(** ** The cache is a queue of bounded length *)

Definition km_wf (km : KeyManager) : Prop :=
  Z.of_nat (length (keys km)) = maxLength km /\ (0 <= currentLength km <= maxLength km)%Z /\
  (0 < maxLength km)%Z /\
  Forall (fun e => is_Some (key e)) (take (Z.to_nat (currentLength km)) (keys km)).
(** The keys in the cache, the oldest first. *)
Definition cached (km : KeyManager) : list PublicKey :=
  omap key (take (Z.to_nat (currentLength km)) (keys km)).
Definition keep_last {A} (n : nat) (l : list A) : list A := drop (length l - n) l.

Lemma omap_some l : Forall (fun e => is_Some (key e)) l -> Some <$> omap key l = key <$> l.
Proof. induction 1 as [|e l [k Hk] _ IH]; [done|]. rewrite fmap_cons. simpl. rewrite Hk. simpl. by rewrite <-IH. Qed.

Lemma length_cached km : km_wf km -> length (cached km) = Z.to_nat (currentLength km).
Proof.
  intros (Hl & Hc & _ & Hk). unfold cached.
  rewrite <-(length_fmap Some), omap_some, length_fmap, length_take by done. lia.
Qed.

Lemma GetKeyList_run {W} km (w : W) : km_wf km -> GetKeyList km w = (Ret (Some <$> cached km), w).
Proof.
  intros (Hl & Hc & _ & Hk). unfold GetKeyList, cached. rewrite decide_True by lia.
  by rewrite omap_some, <-fmap_take.
Qed.

Lemma MakeKeyManager_wf {W} n dir (w : W) : (0 < n)%Z -> exists km,
  MakeKeyManager n dir w = (Ret km, w) /\ km_wf km /\ cached km = [] /\ maxLength km = n.
Proof.
  intros Hn. unfold MakeKeyManager. rewrite decide_False by lia. eexists. split; [done|].
  split_and!; [|done|done]. split_and!; simpl; rewrite ?length_replicate; [lia..|constructor].
Qed.

Lemma keep_last_short {A} n (l : list A) : length l <= n -> keep_last n l = l.
Proof. intros Hn. unfold keep_last. by replace (length l - n) with 0 by lia. Qed.
Lemma keep_last_full {A} n x (l : list A) y : length (x :: l) = n -> keep_last n ((x :: l) ++ [y]) = l ++ [y].
Proof. intros <-. unfold keep_last. rewrite length_app. simpl. by replace (length l + 1 - length l) with 1 by lia. Qed.
Lemma keep_last_app {A} n (l k : list A) : 0 < n -> keep_last n (keep_last n l ++ k) = keep_last n (l ++ k).
Proof.
  intros Hn. unfold keep_last. rewrite !length_app, length_drop.
  destruct (decide (length l <= n)) as [Hl|Hl].
  - replace (length l - n) with 0 by lia. by rewrite drop_0, Nat.sub_0_r.
  - rewrite <-(drop_app_le l k (length l - n)) at 1 by lia. rewrite drop_drop. f_equal. lia.
Qed.

Lemma take_set {A} n (x : A) l : n < length l -> take (S n) (<[n := x]> l) = take n l ++ [x].
Proof.
  intros Hn. rewrite (take_S_r _ _ x) by by apply list_lookup_insert_eq. by rewrite take_insert_ge.
Qed.

(** One call, by whether the file holds a key. *)
Definition key_in_file (km : KeyManager) (name : string) (w : world) : error + PublicKey :=
  match os_read_file (path_join [PubkeysDir km; name]) (w_disk w) with
  | inl e => inl e
  | inr data => ParseRSAPublicKeyFromPEM data
  end.

Lemma AddKey_run name km w : km_wf km ->
  match key_in_file km name w with
  | inl e => AddKey name km w = (Fail e, w)
  | inr k => exists km' w', AddKey name km w = (Ret km', w') /\ km_wf km' /\ w_db w' = w_db w /\
      maxLength km' = maxLength km /\ PubkeysDir km' = PubkeysDir km /\
      cached km' = keep_last (Z.to_nat (maxLength km)) (cached km ++ [k])
  end.
Proof.
  intros Hwf. pose proof Hwf as (Hl & Hc & Hm & Hk). pose proof (length_cached km Hwf) as Hlen.
  unfold key_in_file, AddKey, read_file, mbind, M_bind.
  destruct (os_read_file _ _) as [e|data]; [done|]. destruct (ParseRSAPublicKeyFromPEM data) as [e|k]; [done|].
  cbv zeta. case_decide as Hfull.
  - unfold cached in *. rewrite Hfull in *. replace (Z.to_nat (maxLength km)) with (length (keys km)) in * by lia.
    rewrite take_ge in * by lia. destruct (keys km) as [|oldest rest] eqn:E; [simpl in *; lia|].
    apply Forall_cons in Hk as [[k0 Hk0] Hrest].
    unfold ignoring, attempt, disk_op, mbind, M_bind. simpl.
    destruct (os_remove _ _) as [[e|] d]; simpl;
      (eexists _, _; split; [done|]; simpl in *; rewrite Hk0 in *; split; [|split_and!; [done..|];
        rewrite take_ge by (rewrite length_app; simpl; lia);
        by rewrite omap_app, keep_last_full by (simpl in *; lia)];
       split_and!; simpl; rewrite ?length_app; simpl; [lia..|];
       apply Forall_take, Forall_app; split; [done|by repeat constructor]).
  - rewrite decide_True by lia. eexists _, _. split; [done|]. unfold cached. simpl.
    set (n := Z.to_nat (currentLength km)) in *.
    replace (Z.to_nat (currentLength km + 1)) with (S n) by lia.
    rewrite take_set by lia.
    split_and!; [|done..|].
    + split_and!; simpl; rewrite ?length_insert; [lia..|].
      fold n. replace (Z.to_nat (currentLength km + 1)) with (S n) by lia. rewrite take_set by lia.
      apply Forall_app. split; [done|by repeat constructor].
    + rewrite omap_app. symmetry. apply keep_last_short. rewrite length_app. fold (cached km). fold n.
      change (length (cached km) + 1 <= Z.to_nat (maxLength km)). lia.
Qed.

(** C34: whatever the disk does, adding a key to a well-formed cache returns: when
    the file cannot be read or holds no key the cache and the state are as
    before; otherwise the cache holds the same keys in the same order followed
    by the new one, less the oldest one when it was full, and the key list is
    what the verification sees. *)
Theorem key_cache_is_a_bounded_queue name km w o w' :
  km_wf km -> AddKey name km w = (o, w') ->
  match key_in_file km name w with
  | inl e => o = Fail e /\ w' = w
  | inr k => exists km', o = Ret km' /\ km_wf km' /\ w_db w' = w_db w /\
      length (cached km') <= Z.to_nat (maxLength km') /\
      GetKeyList km' w' = (Ret (Some <$> keep_last (Z.to_nat (maxLength km)) (cached km ++ [k])), w')
  end.
Proof.
  intros Hwf E. pose proof (AddKey_run name km w Hwf) as Hr. destruct (key_in_file km name w) as [e|k].
  - rewrite Hr in E. by injection E as <- <-.
  - destruct Hr as (km' & w1 & E1 & Hwf' & Hdb & Hmax & _ & Hc). rewrite E in E1. injection E1 as -> ->.
    exists km'. split_and!; [done..| |].
    + rewrite length_cached by done. destruct Hwf' as (_ & ? & _). lia.
    + by rewrite GetKeyList_run, Hc.
Qed.

(** *** Loading *)

(** The entries in use, and the file of a number. *)
Definition in_use (km : KeyManager) : list KeyEntry := take (Z.to_nat (currentLength km)) (keys km).
Definition pem (t : Z) : string := format_int t +:+ ".pem".
Definition numbered_key (km : KeyManager) (w : world) (t : Z) : option PublicKey :=
  match key_in_file km (pem t) w with inr k => Some k | inl _ => None end.

Lemma pem_plain t : plain (pem t).
Proof.
  unfold pem. split; [by rewrite no_char_app, format_int_no_slash|].
  assert (3 < String.length (format_int t +:+ ".pem")) as Hl by (rewrite s_length_app; simpl; lia).
  split_and!; intros E; rewrite E in Hl; simpl in Hl; lia.
Qed.
Lemma pem_inj t t' : pem t = pem t' -> t = t'.
Proof.
  unfold pem. intros E. apply format_int_inj. pose proof (f_equal String.length E) as El. rewrite !s_length_app in El.
  rewrite <-(s_take_app (format_int t) ".pem"), E. replace (String.length (format_int t)) with (String.length (format_int t')) by lia.
  apply s_take_app.
Qed.

(** A call that adds a key removes at most the file of an entry in use, and the
    entries in use are old ones and the new one. *)
Lemma AddKey_files name km w km' w' : km_wf km -> AddKey name km w = (Ret km', w') ->
  (forall e, e ∈ in_use km' -> fileName e = name \/ e ∈ in_use km) /\
  (w_disk w' = w_disk w \/ exists e, e ∈ in_use km /\
     w_disk w' = (os_remove (path_join [PubkeysDir km; fileName e]) (w_disk w)).2).
Proof.
  intros (Hl & Hc & Hm & _). unfold AddKey, read_file, mbind, M_bind, in_use.
  destruct (os_read_file _ _) as [e|data]; [done|]. destruct (ParseRSAPublicKeyFromPEM data) as [e|k]; [done|].
  cbv zeta. case_decide as Hfull.
  - rewrite (take_ge (keys km)) by lia. destruct (keys km) as [|oldest rest] eqn:E; [simpl in *; lia|].
    unfold ignoring, attempt, disk_op, mbind, M_bind. simpl.
    destruct (os_remove _ _) as [[e|] d] eqn:Er; simpl; intros [= <- <-]; simpl;
      (split; [|try (by left); right; exists oldest; split; [by left|by rewrite Er]]);
      intros x Hx%subseteq_take; (apply elem_of_app in Hx as [Hx| ->%list_elem_of_singleton]; [right; by right|by left]).
  - rewrite decide_True by lia. intros [= <- <-]. simpl. split; [|by left].
    replace (Z.to_nat (currentLength km + 1)) with (S (Z.to_nat (currentLength km))) by lia.
    rewrite take_set by lia. intros x [Hx| ->%list_elem_of_singleton]%elem_of_app; [by right|by left].
Qed.

Section Load.
Context `{!RemoveLaws}.
Variable dir : string.
Hypothesis Hdir : rooted dir.
Variable w0 : world.

(** [km] after the files [seen], when [times] are still to be read: they are as they
    were in [w0]. *)
Record loading (seen times : list Z) (km : KeyManager) (w : world) : Prop := {
  ld_wf : km_wf km;
  ld_dir : PubkeysDir km = dir;
  ld_names e : e ∈ in_use km -> exists t, t ∈ seen /\ fileName e = pem t;
  ld_files t : t ∈ times -> same_text (path_join [dir; pem t]) (w_disk w0) (w_disk w);
}.

Lemma loading_key seen t times km w : loading seen (t :: times) km w ->
  numbered_key km w t = numbered_key km w0 t.
Proof.
  intros [Hwf Hd Hn Hf]. unfold numbered_key, key_in_file. rewrite Hd. specialize (Hf t (list_elem_of_here _ _)).
  destruct (os_read_file _ (w_disk w)) as [e|c] eqn:E.
  - destruct (os_read_file _ (w_disk w0)) as [e0|c] eqn:E0; [done|]. apply Hf in E0. congruence.
  - apply Hf in E. by rewrite E.
Qed.
Lemma loading_skip seen t times km w : loading seen (t :: times) km w -> loading (t :: seen) times km w.
Proof.
  intros []. split; [done|done| |].
  - intros e (t' & ? & ?)%ld_names0. exists t'. split; [by right|done].
  - intros t' ?. apply ld_files0. by right.
Qed.
Lemma loading_add seen t times km w km' w' : NoDup (seen ++ t :: times) -> loading seen (t :: times) km w ->
  AddKey (pem t) km w = (Ret km', w') -> km_wf km' -> PubkeysDir km' = PubkeysDir km ->
  loading (t :: seen) times km' w'.
Proof.
  intros Hnd Hl E Hwf' Hd'. destruct (AddKey_files _ _ _ _ _ (ld_wf _ _ _ _ Hl) E) as [Hu Hdisk].
  destruct Hl as [Hwf Hd Hn Hf]. split; [done|congruence| |].
  - intros e [->|He]%Hu; [exists t; split; [by left|done]|].
    destruct (Hn e He) as (t' & ? & ->). exists t'. split; [by right|done].
  - intros t' Ht'. etrans; [apply Hf; by right|]. destruct Hdisk as [->|(e & He & ->)]; [done|].
    destruct (Hn e He) as (t1 & Ht1 & ->). rewrite Hd. apply remove_others, apart_names; [done|done|apply pem_plain..|].
    intros ->%pem_inj. apply NoDup_app in Hnd as (_ & Hdis & _). apply (Hdis t' Ht1). by right.
Qed.

(** The keys in the files, in order, follow those in the cache. *)
Lemma load_run (body : KeyManager -> Z -> Hub KeyManager) seen times km w :
  body = (fun km file_time =>
    r ← try! (AddKey (pem file_time) km);
    mret (match r with inr km' => km' | inl _ => km end)) ->
  NoDup (seen ++ times) -> loading seen times km w ->
  exists km' w', for_fold times km body w = (Ret km', w') /\ km_wf km' /\ w_db w' = w_db w /\
    cached km' = keep_last (Z.to_nat (maxLength km)) (cached km ++ omap (numbered_key km w0) times).
Proof.
  intros Hbody. revert seen km w. induction times as [|t times IH]; intros seen km w Hnd Hl.
  { exists km, w. pose proof (ld_wf _ _ _ _ Hl) as Hwf. split_and!; try done.
    rewrite app_nil_r. symmetry. apply keep_last_short. rewrite length_cached by done. destruct Hwf as (_ & ? & _). lia. }
  pose proof (AddKey_run (pem t) km w (ld_wf _ _ _ _ Hl)) as Hr. cbn [for_fold].
  pose proof (loading_key _ _ _ _ _ Hl) as Ek. cbn [omap list_omap]. rewrite <-Ek. unfold numbered_key at 1.
  assert (NoDup ((t :: seen) ++ times)) as Hnd' by (by rewrite <-Permutation_middle in Hnd).
  destruct (key_in_file km (pem t) w) as [e|k] eqn:Ekey.
  - destruct (IH (t :: seen) km w Hnd' (loading_skip _ _ _ _ _ Hl)) as (km' & w' & E & ? & ? & ?).
    exists km', w'. rewrite (bind_Ret _ _ _ km w); [by split_and!|].
    subst body. by erewrite bind_Ret by (by apply attempt_Fail).
  - destruct Hr as (km1 & w1 & E1 & Hwf1 & Hdb1 & Hmax1 & Hdir1 & Hc1).
    destruct (IH (t :: seen) km1 w1 Hnd') as (km' & w' & E & Hwf' & Hdb & Hc); [by eapply loading_add|].
    exists km', w'. rewrite (bind_Ret _ _ _ km1 w1); last first.
    { subst body. by erewrite bind_Ret by (by apply attempt_Ret). }
    split_and!; [done|done|congruence|].
    rewrite Hc, Hc1, Hmax1. rewrite keep_last_app by (destruct (ld_wf _ _ _ _ Hl) as (_ & _ & ? & _); lia).
    rewrite <-app_assoc. do 2 f_equal. simpl. f_equal. apply list_omap_ext, Forall_Forall2_diag, Forall_forall.
    intros t' _. unfold numbered_key, key_in_file. by rewrite Hdir1.
Qed.
End Load.

(** C35: at the start the cache ends up with the newest keys.  For an absolute
    directory in which no number occurs twice among the names of the [.pem] files,
    the loading returns, and the cache holds exactly the last keys, as many as fit,
    of all keys that the files [<number>.pem] of the directory held at the start,
    in the order of the numbers: no file that holds a key is skipped, and removing
    the files of the keys that fall out of the cache loses none of the others. *)
Theorem loaded_keys_are_the_newest `{!RemoveLaws} n dir w o w' km :
  let times := file_times (os_walk dir (w_disk w)) in
  (0 < n)%Z -> rooted dir -> NoDup times ->
  MakeKeyManager n dir w = (Ret km, w) -> load_keys km w = (o, w') ->
  exists km', o = Ret km' /\ km_wf km' /\ w_db w' = w_db w /\
    cached km' = keep_last (Z.to_nat n) (omap (numbered_key km w) (merge_sort Z.le times)).
Proof.
  intros times Hn Hdir Hnd Em. destruct (MakeKeyManager_wf n dir w Hn) as (km0 & Em' & Hwf & Hc & Hmax).
  rewrite Em in Em'. injection Em' as <-. unfold load_keys. erewrite bind_Ret by done.
  unfold MakeKeyManager in Em. rewrite decide_False in Em by lia. injection Em as Ekm.
  assert (PubkeysDir km = dir /\ in_use km = []) as [Hd Hu] by (by subst km).
  rewrite Hd. fold times. intros Hl.
  destruct (load_run dir Hdir w _ [] (merge_sort Z.le times) km w eq_refl) as (km' & w1 & E & ? & ? & Hc').
  - simpl. by rewrite merge_sort_Permutation.
  - split; [done|done| |done]. rewrite Hu. by intros e ?%elem_of_nil.
  - unfold pem in E. rewrite E in Hl. injection Hl as <- <-. exists km'. rewrite Hc, Hmax in Hc'. done.
Qed.

(** The claims of a token that a key verifies at a time, and what each key of a list
    says of it when they are tried in turn after the events [tr]. *)
Definition accepts (now : Z) (token : string) (k : PublicKey) : option (Claims StandardClaims) :=
  match ParseWithClaims now token (Some k) with inr (c, _) => Some c | inl _ => None end.
Definition tried_at (tr : list event) (i : nat) : Z := env_now (tr ++ replicate i EvClock).
Definition answers (tr : list event) (token : string) (l : list PublicKey) : list (Claims StandardClaims) :=
  omap id (imap (fun i k => accepts (tried_at tr i) token k) l).

Lemma answers_cons tr token k l : answers tr token (k :: l) =
  match accepts (env_now tr) token k with Some c => [c] | None => [] end ++ answers (tr ++ [EvClock]) token l.
Proof.
  unfold answers. rewrite imap_cons. cbn [omap list_omap id]. unfold tried_at at 1. rewrite app_nil_r.
  assert (imap ((fun i k => accepts (tried_at tr i) token k) ∘ S) l =
    imap (fun i k => accepts (tried_at (tr ++ [EvClock]) i) token k) l) as ->; [|by destruct (accepts _ _ _)].
  apply imap_ext. intros i k' _. simpl. unfold tried_at. by rewrite <-app_assoc.
Qed.

Lemma verify_with_run `{!JwtLaws} token l w : exists n,
  verify_with token (Some <$> l) w =
  (match answers (w_trace w) token l with c :: _ => Ret c | [] => Fail "Token is invalid" end,
   World (w_db w) (w_disk w) (w_trace w ++ replicate n EvClock)).
Proof.
  revert w. induction l as [|k l IH]; intros w.
  { exists 0. simpl. rewrite app_nil_r. by destruct w. }
  rewrite fmap_cons, answers_cons. cbn [verify_with]. erewrite bind_Ret by done. unfold accepts at 1.
  destruct (ParseWithClaims (env_now (w_trace w)) token (Some k)) as [e|[c b]] eqn:E; simpl.
  - destruct (IH (log_event EvClock w)) as [n En]. exists (S n). rewrite En. simpl. by rewrite <-app_assoc.
  - exists 1. by rewrite (parsed_is_valid _ _ _ _ _ E).
Qed.

(** C36: with a well-formed cache the middleware answers every request without a
    panic: the next handler runs exactly when one of the cached keys verifies the
    token at the time it is tried, with the user of the oldest such key; otherwise
    the answer is 401.  Nothing but the clock is touched. *)
Theorem only_signed_requests_pass `{!JwtLaws} deviceId authorization km w :
  km_wf km -> exists n,
  AuthRequiredMiddleware deviceId authorization km w =
  (Ret (match answers (w_trace w) (replace_first "Bearer " EmptyString authorization) (cached km) with
        | c :: _ => Next (Userid c) deviceId
        | [] => Unauthorized
        end), World (w_db w) (w_disk w) (w_trace w ++ replicate n EvClock)).
Proof.
  intros Hwf. unfold AuthRequiredMiddleware, verifyToken. cbv zeta.
  destruct (verify_with_run (replace_first "Bearer " EmptyString authorization) (cached km) w) as [n Hv]. exists n.
  destruct (answers _ _ _) as [|c l].
  - by erewrite bind_Ret by (eapply attempt_Fail; by erewrite bind_Ret by by apply GetKeyList_run).
  - by erewrite bind_Ret by (eapply attempt_Ret; by erewrite bind_Ret by by apply GetKeyList_run).
Qed.
End KeyManager.

(** ** Witnesses: three key files, a cache of two *)
Module Keys.
#[local] Hint Extern 0 Bolt => exact (mem_bolt false) : typeclass_instances.
#[local] Instance ex_env : Env := scripted (Script [] []).
(** Tokens that expire: their claims hold the last second they are good for. *)
#[local] Instance ex_jwt : Jwt := {|
  PublicKey := string;
  StandardClaims := Z;
  ParseRSAPublicKeyFromPEM s := if decide (s = "bad") then inl "not PEM" else inr s;
  ParseWithClaims now token k :=
    match k with
    | Some k =>
        if decide (token = "by " +:+ k) then
          if decide (now / 1000000000 <= 1600000001)%Z then inr ({| Userid := "u"; Standard := 1600000001%Z |}, true)
          else inl "token is expired"
        else inl "signature is invalid"
    | None => inl "key is of invalid type"
    end;
|}.
#[local] Instance ex_jwt_laws : JwtLaws.
Proof. intros now token [k|] claims b; simpl; [|done]. repeat case_decide; try done. by intros [= _ <-]. Qed.

Definition ex_world : world :=
  World (MemDB ∅ []) (MemDisk ["/k"] [("/k/20.pem", "B"); ("/k/3.pem", "A"); ("/k/30.pem", "bad"); ("/k/40.pem", "C")] []) [].
Definition ex_manager : KeyManager :=
  {| keys := replicate 2 {| key := None; fileName := EmptyString |}; maxLength := 2;
     currentLength := 0; PubkeysDir := "/k" |}.
Definition ex_full : KeyManager :=
  {| keys := [{| key := Some "A"; fileName := "3.pem" |}; {| key := Some "B"; fileName := "20.pem" |}];
     maxLength := 2; currentLength := 2; PubkeysDir := "/k" |}.
Lemma ex_full_wf : km_wf ex_full.
Proof. split_and!; simpl; [lia..|]. by repeat constructor. Qed.

Lemma key_cache_is_a_bounded_queue_witness :
  exists km', (AddKey "40.pem" ex_full ex_world).1 = Ret km' /\
    GetKeyList km' (AddKey "40.pem" ex_full ex_world).2 =
      (Ret [Some "B"; Some "C"], (AddKey "40.pem" ex_full ex_world).2).
Proof.
  destruct (key_cache_is_a_bounded_queue "40.pem" ex_full ex_world _ _ ex_full_wf (surjective_pairing _))
    as (km' & E & _ & _ & _ & Hl).
  exists km'. split; [exact E|exact Hl].
Defined.

Lemma loaded_keys_are_the_newest_witness :
  exists km', (load_keys ex_manager ex_world).1 = Ret km' /\
    omap (numbered_key ex_manager ex_world) [3; 20; 30; 40]%Z = ["A"; "B"; "C"] /\ cached km' = ["B"; "C"].
Proof.
  destruct (loaded_keys_are_the_newest 2 "/k" ex_world _ _ ex_manager ltac:(lia) eq_refl
    ltac:(apply (bool_decide_eq_true_1 _); evaluate) eq_refl (surjective_pairing _)) as (km' & E & _ & _ & Hc).
  exists km'. split; [exact E|]. split; [evaluate|]. rewrite Hc. evaluate.
Defined.

Lemma only_signed_requests_pass_witness :
  (AuthRequiredMiddleware "hub-1" "Bearer by B" ex_full ex_world).1 = Ret (Next "u" "hub-1") /\
  (AuthRequiredMiddleware "hub-1" "Bearer by C" ex_full ex_world).1 = Ret Unauthorized.
Proof.
  split.
  - destruct (only_signed_requests_pass "hub-1" "Bearer by B" ex_full ex_world ex_full_wf) as [n E].
    rewrite E. evaluate.
  - destruct (only_signed_requests_pass "hub-1" "Bearer by C" ex_full ex_world ex_full_wf) as [n E].
    rewrite E. evaluate.
Defined.
End Keys.
