(* ===== verification/Commands.v ===== *)
(** [handle_commands.go] and the start of the hub in [hub.go]: the commands the
    upstream proxy sends to the hub, and the filters of the satellite receiver. *)
From S2P Require Import Prelude GoStrings LogData Host Storage Logger CloudData FlatIndex Cloud.
From Stdlib Require Import Ascii.

Record UpdateFilterPayload := {
  DeviceID : string;
  CommandID : string;
  Filters : option (list string);  (* a nil slice is [None] *)
}.
(** A command and its parameters; the answer. *)
Record CommandServiceRequest := { cr_CommandName : string; cr_Payload : string }.
Record CommandServiceResponse := { Code : Z; Message : string }.

(** The goroutines [ReceiveCommand] starts. *)
Inductive task :=
  | handleDownload (payload : string)
  | handleDelete (payload : string)
  | FilterUpdate (payload deviceIniFile : string).

Definition setkeywords_url (serviceId keywords : string) : string :=
  "http://host.docker.internal:8134/setkeywords/" +:+ serviceId +:+ keywords.

(** [FindString] of a regular expression that matches the tag [<body>], anything,
    and the tag [</body>]: from the first [<body>] to the last [</body>]. *)
Definition find_body (str : string) : string :=
  match from_first "<body>" str with
  | None => EmptyString
  | Some t =>
      match upto_last "</body>" (s_drop 6 t) with
      | None => EmptyString
      | Some r => "<body>" +:+ r
      end
  end.

(** [keywords += "/" + filter] for each filter *)
Definition keywords_of (filters : list string) : string :=
  foldl (fun keywords filter => keywords +:+ "/" +:+ filter) EmptyString filters.

Section Commands.
Context `{Bolt, Disk, Env, Json ContentInfoOnDevice, Json ApiData, Json UpdateFilterPayload,
  Json TelemetryMessage} `{!Ini}.
Variable logger : Logger.

Definition log_filter_error (e : error) : Hub unit :=
  ignore! tt of (Log logger Error (sm_string ("FilterUpdate: " +:+ e))).

(** [status[2]] is a panic when the answer holds fewer than three words. *)
Definition callSetkeywords (serviceId keywords : string) : Hub unit :=
  r ← try! (http_get (setkeywords_url serviceId keywords));
  match r with
  | inl err => log_filter_error err;; fail err
  | inr str =>
      let status := fields (trim_char "010"%char (find_body str)) in
      match status !! 2 with
      | None => panic "index out of range [2]"
      | Some word =>
          if decide (word = "FAILED") then
            let err := "setkeywords API of mstore service failed. Response: [" +:+ join_with " " status +:+ "]" in
            log_filter_error err;; fail err
          else mret tt
      end
  end.

(** The request that reports the outcome of a command. *)
Definition command_report (deviceId commandId : string) (time : Z) (failedReason : string) : ApiData :=
  {| Id := deviceId; ApiType := FilterUpdated; RetryCount := 0; OperationTime := time;
     SendCloudTelemetry := false; SendIOTCentralTelemetry := false;
     Properties :=
       {| Key := "commandId"; Value := commandId |} ::
       (if decide (failedReason = EmptyString) then
          [{| Key := "isFailed"; Value := "false" |}; {| Key := "failureReason"; Value := failedReason |}]
        else [{| Key := "isFailed"; Value := "true" |}]) |}.

(** The configuration of the device and the one of the hub are passed along; the
    result is the one of the device after the call.  A failing [SaveTo] is a
    panic: the code reads the other error, which is nil. *)
Definition handleFilterUpdate (payload deviceIniFile : string) (cfg device_cfg : ini) : Hub ini :=
  match json_unmarshal payload with
  | (_, Some jsonerr) => log_filter_error jsonerr;; mret device_cfg
  | (filterPayload, None) =>
      let deviceId := ini_string "DEVICE_DETAIL" "deviceId" device_cfg in
      let invalid :=
        ignore! tt of (Log logger InvalidCommandOnDevice
          (sm_string "FilterUpdate: Invalid payload received on the device"));;
        mret device_cfg in
      match Filters filterPayload with
      | None => invalid
      | Some filtersInPayload =>
          if decide (DeviceID filterPayload <> deviceId \/ CommandID filterPayload = EmptyString) then invalid
          else
            let serviceId := ini_string "MSTORE_SERVICE" "serviceId" cfg in
            let keywords := keywords_of filtersInPayload in
            r ← try! (callSetkeywords serviceId keywords);
            '(device_cfg, failedReason) ←
              match r with
              | inl err => mret (device_cfg, err)
              | inr _ =>
                  let device_cfg := ini_set "DEVICE_DETAIL" "FILTERS" keywords device_cfg in
                  s ← try! (disk_op (ini_save deviceIniFile device_cfg));
                  match s with
                  | inr _ => mret (device_cfg, EmptyString)
                  | inl _ => panic "invalid memory address or nil pointer dereference"
                  end
              end;
            now ← time_now;
            match json_marshal (command_report deviceId (CommandID filterPayload) now failedReason) with
            | inl _ => mret tt
            | inr data => ignore! tt of (AddCommandStatus (CommandID filterPayload) data)
            end;;
            mret device_cfg
      end
  end.

(** [ReceiveCommand]: the answer, and the goroutine that was started. *)
Definition ReceiveCommand (commandParams : CommandServiceRequest) (cfg : ini)
    : Hub (CommandServiceResponse * option task) :=
  let command := cr_CommandName commandParams in
  let payload := cr_Payload commandParams in
  started ←
    (if decide (command = "Download") then mret (Some (handleDownload payload))
     else if decide (command = "Delete") then mret (Some (handleDelete payload))
     else if decide (command = "FilterUpdate") then
       mret (Some (FilterUpdate payload (ini_string "HUB_AUTHENTICATION" "DEVICE_DETAIL_FILE" cfg)))
     else
       ignore! tt of (Log logger InvalidCommandOnDevice
         (sm_string "Invalid command name received on the device"));;
       mret None);
  mret ({| Code := 1; Message := "Recieved payload for " +:+ command |}, started).

(** What a goroutine does; the first two are empty but for a sleep. *)
Definition run_task (t : task) (cfg device_cfg : ini) : Hub ini :=
  match t with
  | handleDownload _ | handleDelete _ => mret device_cfg
  | FilterUpdate payload deviceIniFile => handleFilterUpdate payload deviceIniFile cfg device_cfg
  end.

(** ** The start of the hub, [hub.go] *)

(** The filters of the last run are set again; ["Invalid"] when there are none. *)
Definition restore_filters (device_ini : string) (cfg device_cfg : ini) : Hub ini :=
  let filters := ini_string "DEVICE_DETAIL" "FILTERS" device_cfg in
  let serviceId := ini_string "MSTORE_SERVICE" "serviceId" cfg in
  '(filters, device_cfg) ←
    (if decide (filters = EmptyString) then
       let device_cfg := ini_set "DEVICE_DETAIL" "FILTERS" "Invalid" device_cfg in
       ignore! tt of (disk_op (ini_save device_ini device_cfg));;
       mret ("Invalid", device_cfg)
     else mret (filters, device_cfg));
  ignore! tt of (callSetkeywords serviceId ("/" +:+ trim_char "/"%char filters));;
  mret device_cfg.

Definition provision_request (deviceId : string) (time : Z) : ApiData :=
  {| Id := deviceId; ApiType := Provisioned; RetryCount := 0; OperationTime := time;
     SendCloudTelemetry := false; SendIOTCentralTelemetry := false; Properties := [] |}.
Definition queue_provisioned (deviceId : string) : Hub unit :=
  now ← time_now;
  match json_marshal (provision_request deviceId now) with
  | inl _ => mret tt
  | inr data => ignore! tt of (AddProvisionedStatus deviceId data)
  end.
End Commands.
