(* ===== verification/CommandsThms.v ===== *)
(** The properties of the commands and of the start of the hub. *)
From S2P Require Import Prelude GoStrings LogData Host Storage Logger CloudData FlatIndex Mstore Index Cloud CloudSpec Commands Reference.
From Stdlib Require Import Ascii.

Section Thms.
Context `{Bolt, Disk, Env, Json ContentInfoOnDevice, Json ApiData, Json UpdateFilterPayload,
  Json UpdateRequest, Json (list ContentProperties_), Json CommandStatusRequest, Json ProvisionDeviceRequest,
  Json TelemetryMessage} `{!Ini} `{!BoltLaws}.
Variable logger : Logger.
Implicit Types (w : world) (cfg device_cfg : ini).

Lemma log_filter_error_run e w : exists w', log_filter_error logger e w = (Ret tt, w') /\ w_db w' = w_db w.
Proof.
  unfold log_filter_error. pose proof (Log_db logger Error (sm_string ("FilterUpdate: " +:+ e)) w) as Hd.
  destruct (Log_outcome logger Error (sm_string ("FilterUpdate: " +:+ e)) w) as [[w' E]|(e' & w' & E)];
    rewrite E in Hd; exists w'; (split; [|done]); [by apply ignoring_Ret|by eapply ignoring_Fail].
Qed.

(** The words of the answer of the receiver. *)
Definition answer_words (page : string) : list string :=
  fields (trim_char "010"%char (find_body page)).

(** The receiver is asked once; the database is not touched. *)
Lemma callSetkeywords_run serviceId keywords w o w' :
  callSetkeywords logger serviceId keywords w = (o, w') ->
  w_db w' = w_db w /\
  match env_http (w_trace w) (setkeywords_url serviceId keywords) with
  | inl e | inr (inl e) => o = Fail e
  | inr (inr page) =>
      match answer_words page !! 2 with
      | None => exists s, o = Panic s
      | Some word => if decide (word = "FAILED") then exists e, o = Fail e else o = Ret tt
      end
  end.
Proof.
  unfold callSetkeywords, http_get, attempt, answer_words. unfold mbind, M_bind.
  set (w1 := log_event _ w).
  assert (forall e, exists w2, (log_filter_error logger e;; fail e : Hub unit) w1 = (Fail e, w2) /\
    w_db w2 = w_db w) as Hfail.
  { intros e. destruct (log_filter_error_run e w1) as (w2 & E & Hd). exists w2. by erewrite bind_Ret by exact E. }
  destruct (env_http _ _) as [e|[e|page]]; simpl.
  - destruct (Hfail e) as (w2 & E & Hd). unfold mbind, M_bind in E. rewrite E. by intros [= <- <-].
  - destruct (Hfail e) as (w2 & E & Hd). unfold mbind, M_bind in E. rewrite E. by intros [= <- <-].
  - destruct (fields _ !! 2) as [word|]; [|intros [= <- <-]; split; [done|by eexists]].
    case_decide; [|by intros [= <- <-]].
    match goal with |- context [log_filter_error logger ?e] => destruct (Hfail e) as (w2 & E & Hd) end.
    unfold mbind, M_bind in E. rewrite E. intros [= <- <-]. split; [done|by eexists].
Qed.

(** A payload that asks this device for new filters. *)
Definition valid_payload (payload : string) (device_cfg : ini) (commandId : string) (filters : list string) : Prop :=
  exists p, json_unmarshal payload = (p, None) /\ Filters p = Some filters /\
    DeviceID p = ini_string "DEVICE_DETAIL" "deviceId" device_cfg /\ CommandID p = commandId /\
    commandId <> EmptyString.

Definition new_filters (filters : list string) (device_cfg : ini) : ini :=
  ini_set "DEVICE_DETAIL" "FILTERS" (keywords_of filters) device_cfg.

(** What follows the call of the receiver. *)
Definition report_outcome (deviceId commandId : string) (r : ini * string) : Hub ini :=
  now ← time_now;
  match json_marshal (command_report deviceId commandId now r.2) with
  | inl _ => mret tt
  | inr data => ignoring tt (AddCommandStatus commandId data)
  end;;
  mret r.1.

Lemma handleFilterUpdate_valid payload file cfg device_cfg commandId filters w :
  valid_payload payload device_cfg commandId filters ->
  handleFilterUpdate logger payload file cfg device_cfg w =
  (r ← attempt (callSetkeywords logger (ini_string "MSTORE_SERVICE" "serviceId" cfg) (keywords_of filters));
   x ← match r with
       | inl err => mret (device_cfg, err)
       | inr _ =>
           s ← attempt (disk_op (ini_save file (new_filters filters device_cfg)));
           match s with
           | inr _ => mret (new_filters filters device_cfg, EmptyString)
           | inl _ => panic "invalid memory address or nil pointer dereference"
           end
       end;
   report_outcome (ini_string "DEVICE_DETAIL" "deviceId" device_cfg) commandId x) w.
Proof.
  intros (p & Ep & Ef & Ed & Ec & Hne). unfold handleFilterUpdate. rewrite Ep. cbv zeta. rewrite Ef.
  rewrite decide_False by (rewrite Ed, Ec; tauto). rewrite Ec.
  apply bind_ext. intros r w1. unfold report_outcome. apply bind_ext. by intros [].
Qed.

Lemma report_outcome_run deviceId commandId r w :
  reliable -> ready w ->
  (forall tr, storable commandId (command_report deviceId commandId (env_now tr) r.2)) ->
  exists w' tr, report_outcome deviceId commandId r w = (Ret r.1, w') /\
    queued commandId (command_report deviceId commandId (env_now tr) r.2) w' /\
    sat w' = sat w /\ assets w' = assets w /\
    forall k, k <> commandId -> pending w' !! k = pending w !! k.
Proof.
  intros Hrel Hr Hst. destruct (Hst (w_trace w)) as (Hk & s & Es & Hv).
  destruct (put_reliable PendingAPIRequestMapping commandId s (fun e => "[AddCommandStatus] " +:+ e)
    (log_event EvClock w) Hrel (proj2 (proj2 Hr)) Hk Hv) as (w1 & E1 & U & _).
  assert (ignoring tt (AddCommandStatus commandId s) (log_event EvClock w) = (Ret tt, w1)) as E2
    by (apply ignoring_Ret; exact E1).
  assert (report_outcome deviceId commandId r w = (Ret r.1, w1)) as E3.
  { unfold report_outcome, mbind, M_bind, time_now. by rewrite Es, E2. }
  destruct (pending_updated _ _ _ U) as (Es1 & Ea1 & Ep1).
  exists w1, (w_trace w). split; [done|]. split_and!; [|done|done|].
  - exists s. split; [done|]. by rewrite Ep1, lookup_insert_eq.
  - intros k Hne. by rewrite Ep1, lookup_insert_ne.
Qed.

Lemma command_status_report deviceId commandId time reason :
  let r := command_status (command_report deviceId commandId time reason) in
  cs_DeviceId r = deviceId /\ cs_CommandId r = commandId /\
  cs_IsFailed r = bool_decide (reason <> EmptyString) /\ cs_FailureReason r = EmptyString.
Proof.
  unfold command_status, command_report. simpl. case_decide as Hd; simpl.
  - subst. rewrite bool_decide_eq_false_2 by by intros []. split_and!; [done|..]; by vm_compute.
  - rewrite bool_decide_eq_true_2 by done. split_and!; [done|..];
      unfold response_get, response_map; simpl; by simplify_map_eq.
Qed.

(** C32: on a database whose commits succeed, a command with a valid payload queues
    one report under its own id and touches nothing else of the database, unless
    the answer of the receiver or the saving of the configuration ends in a panic:
    the report says whether the receiver took the filters, which are then also
    stored in the configuration of the device.  The report that reaches the cloud
    never holds the reason of a failure. *)
Theorem filter_update_is_reported payload file cfg device_cfg commandId filters w o w' :
  let deviceId := ini_string "DEVICE_DETAIL" "deviceId" device_cfg in
  let asked := callSetkeywords logger (ini_string "MSTORE_SERVICE" "serviceId" cfg) (keywords_of filters) w in
  reliable -> ready w -> valid_payload payload device_cfg commandId filters ->
  (forall tr reason, storable commandId (command_report deviceId commandId (env_now tr) reason)) ->
  handleFilterUpdate logger payload file cfg device_cfg w = (o, w') ->
  ((exists s, o = Panic s) /\
   ((exists s, asked.1 = Panic s) \/
    asked.1 = Ret tt /\ is_Some (ini_save file (new_filters filters device_cfg) (w_disk asked.2)).1)) \/
  exists reason tr,
    let report := command_report deviceId commandId (env_now tr) reason in
    (asked.1 = Ret tt /\ o = Ret (new_filters filters device_cfg) /\ reason = EmptyString \/
     asked.1 = Fail reason /\ o = Ret device_cfg) /\
    queued commandId report w' /\
    (forall k, k <> commandId -> pending w' !! k = pending w !! k) /\ sat w' = sat w /\ assets w' = assets w /\
    command_status report = {| cs_DeviceId := deviceId; cs_CommandId := commandId;
      cs_IsFailed := bool_decide (reason <> EmptyString); cs_FailureReason := EmptyString |}.
Proof.
  intros deviceId asked Hrel Hr Hv Hst. rewrite (handleFilterUpdate_valid _ _ _ _ _ _ _ Hv).
  assert (forall tr reason, command_status (command_report deviceId commandId (env_now tr) reason) =
    {| cs_DeviceId := deviceId; cs_CommandId := commandId;
       cs_IsFailed := bool_decide (reason <> EmptyString); cs_FailureReason := EmptyString |}) as Hcs.
  { intros tr reason. destruct (command_status_report deviceId commandId (env_now tr) reason) as (E1 & E2 & E3 & E4).
    destruct (command_status _). simpl in *. by subst. }
  unfold asked in *. clear asked.
  destruct (callSetkeywords logger _ _ w) as [oc w1] eqn:Ec.
  destruct (callSetkeywords_run _ _ _ _ _ Ec) as (Hdb & _).
  assert (same_db w1 w) as Hs by (unfold same_db; by rewrite Hdb).
  assert (ready w1) as Hr1 by by rewrite Hs.
  assert (forall r, (forall tr, storable commandId (command_report deviceId commandId (env_now tr) r.2)) ->
    forall w2, same_db w2 w -> report_outcome deviceId commandId r w2 = (o, w') -> exists tr,
    o = Ret r.1 /\ queued commandId (command_report deviceId commandId (env_now tr) r.2) w' /\
    (forall k, k <> commandId -> pending w' !! k = pending w !! k) /\ sat w' = sat w /\ assets w' = assets w) as Hrep.
  { intros r Hstr w2 Hs2 Erun. assert (ready w2) as Hr2 by by rewrite Hs2.
    destruct (report_outcome_run deviceId commandId r w2 Hrel Hr2 Hstr) as (w3 & tr & E3 & Hq & Es & Ea & Hp).
    rewrite E3 in Erun. injection Erun as <- <-. exists tr. rewrite Es, Ea. split_and!; [done..| |by rewrite Hs2|by rewrite Hs2].
    intros k Hk. rewrite Hp by done. by rewrite (pending_proper _ _ Hs2). }
  destruct oc as [[]|e|why|].
  - erewrite bind_Ret by (by apply attempt_Ret). cbv beta iota. rewrite bind_assoc.
    destruct (quiet_disk (ini_save file (new_filters filters device_cfg)) w1) as [Hs2 Ho2].
    destruct (disk_op (ini_save file (new_filters filters device_cfg)) w1) as [[[]|e| |] w2] eqn:Ed; try done; simpl in Hs2.
    + erewrite bind_Ret by (by apply attempt_Ret). erewrite bind_Ret by done. intros Erun. right.
      destruct (Hrep (new_filters filters device_cfg, EmptyString) (fun tr => Hst tr EmptyString) w2 ltac:(by etrans) Erun)
        as (tr & -> & Hq & Hp & Es & Ea).
      exists EmptyString, tr. split_and!; [by left|done..|apply Hcs].
    + erewrite bind_Ret by (by apply attempt_Fail). intros [= <- <-]. left. split; [by eexists|]. right. split; [done|]. simpl.
      revert Ed. unfold disk_op. destruct (ini_save _ _ _) as [[] ?]; [by eexists|done].
  - erewrite bind_Ret by (by apply attempt_Fail). erewrite bind_Ret by done. intros Erun. right.
    destruct (Hrep (device_cfg, e) (fun tr => Hst tr e) w1 Hs Erun) as (tr & -> & Hq & Hp & Es & Ea).
    exists e, tr. split_and!; [by right|done..|apply Hcs].
  - unfold attempt, mbind, M_bind. rewrite Ec. intros [= <- <-]. left.
    split; [by eexists|]. left. by eexists.
  - exfalso. destruct (callSetkeywords_run _ _ _ _ _ Ec) as (_ & Hc).
    destruct (env_http _ _) as [|[|page]]; [done..|]. destruct (_ !! 2); [case_decide|]; naive_solver.
Qed.

Lemma short_answer_panics payload file cfg device_cfg commandId filters w page :
  valid_payload payload device_cfg commandId filters ->
  (forall url, env_http (w_trace w) url = inr (inr page)) -> length (answer_words page) < 3 ->
  (exists s, (handleFilterUpdate logger payload file cfg device_cfg w).1 = Panic s) /\
  (exists s, (restore_filters logger file cfg device_cfg w).1 = Panic s).
Proof.
  intros Hv Hpage Hshort.
  assert (forall sid kw w1, w_trace w1 = w_trace w -> exists s w2,
    callSetkeywords logger sid kw w1 = (Panic s, w2)) as Hcall.
  { intros sid kw w1 Ht. destruct (callSetkeywords logger sid kw w1) as [o w2] eqn:E.
    destruct (callSetkeywords_run _ _ _ _ _ E) as (_ & Hc). rewrite Ht, Hpage in Hc.
    rewrite lookup_ge_None_2 in Hc by lia. destruct Hc as [s ->]. by exists s, w2. }
  split.
  - rewrite (handleFilterUpdate_valid _ _ _ _ _ _ _ Hv).
    destruct (Hcall (ini_string "MSTORE_SERVICE" "serviceId" cfg) (keywords_of filters) w eq_refl) as (s & w2 & E).
    exists s. unfold attempt, mbind, M_bind. by rewrite E.
  - unfold restore_filters. case_decide.
    + destruct (disk_op (ini_save file (ini_set "DEVICE_DETAIL" "FILTERS" "Invalid" device_cfg)) w) as [o1 w1] eqn:Ed.
      assert (w_trace w1 = w_trace w /\ is_result o1) as [Ht Ho].
      { revert Ed. unfold disk_op. by destruct (ini_save _ _ _) as [[] ?]; intros [= <- <-]. }
      destruct (Hcall (ini_string "MSTORE_SERVICE" "serviceId" cfg) ("/" +:+ trim_char "/"%char "Invalid") w1 Ht)
        as (s & w2 & E).
      exists s. unfold ignoring, attempt, mbind, M_bind. rewrite Ed.
      destruct o1 as [[]|e| |]; try done; simpl; by rewrite E.
    + destruct (Hcall (ini_string "MSTORE_SERVICE" "serviceId" cfg)
        ("/" +:+ trim_char "/"%char (ini_string "DEVICE_DETAIL" "FILTERS" device_cfg)) w eq_refl) as (s & w2 & E).
      exists s. unfold ignoring, attempt, mbind, M_bind. simpl. by rewrite E.
Qed.

Lemma failing_save_panics payload file cfg device_cfg commandId filters w :
  valid_payload payload device_cfg commandId filters ->
  (callSetkeywords logger (ini_string "MSTORE_SERVICE" "serviceId" cfg) (keywords_of filters) w).1 = Ret tt ->
  (forall d, is_Some (ini_save file (new_filters filters device_cfg) d).1) ->
  (exists s, (handleFilterUpdate logger payload file cfg device_cfg w).1 = Panic s) /\
  pending (handleFilterUpdate logger payload file cfg device_cfg w).2 = pending w.
Proof.
  intros Hv Hcall Hsave. rewrite (handleFilterUpdate_valid _ _ _ _ _ _ _ Hv).
  destruct (callSetkeywords logger _ _ w) as [oc w1] eqn:Ec. simpl in Hcall. subst oc.
  destruct (callSetkeywords_run _ _ _ _ _ Ec) as (Hdb & _).
  erewrite bind_Ret by (by apply attempt_Ret). cbv beta iota. rewrite bind_assoc.
  assert (exists e w2, disk_op (ini_save file (new_filters filters device_cfg)) w1 = (Fail e, w2) /\ w_db w2 = w_db w1)
    as (e & w2 & Ed & Hdb2).
  { unfold disk_op. destruct (Hsave (w_disk w1)) as [e E]. destruct (ini_save _ _ _) as [oe d]. simpl in E. subst oe.
    by exists e, (set_disk d w1). }
  erewrite bind_Ret by (by eapply attempt_Fail). simpl. split; [by eexists|].
  unfold pending, bucket_of. by rewrite Hdb2, Hdb.
Qed.

(** C33: Two ways in which a filter command stops the whole hub.  An answer of the
    receiver with fewer than three words between its tags is a panic, of the
    goroutine of the command and of the start of the hub, which asks the same of the
    receiver.  And when the receiver takes the filters and the configuration cannot
    be saved, the goroutine panics before it queues a report. *)
Theorem filter_command_can_stop_the_hub payload file cfg device_cfg commandId filters w :
  valid_payload payload device_cfg commandId filters ->
  (forall page, (forall url, env_http (w_trace w) url = inr (inr page)) -> length (answer_words page) < 3 ->
    (exists s, (handleFilterUpdate logger payload file cfg device_cfg w).1 = Panic s) /\
    (exists s, (restore_filters logger file cfg device_cfg w).1 = Panic s)) /\
  ((callSetkeywords logger (ini_string "MSTORE_SERVICE" "serviceId" cfg) (keywords_of filters) w).1 = Ret tt ->
   (forall d, is_Some (ini_save file (new_filters filters device_cfg) d).1) ->
   (exists s, (handleFilterUpdate logger payload file cfg device_cfg w).1 = Panic s) /\
   pending (handleFilterUpdate logger payload file cfg device_cfg w).2 = pending w).
Proof.
  intros Hv. split; [intros page Hpage Hshort|intros Hcall Hsave].
  - by apply (short_answer_panics _ _ _ _ commandId filters _ page).
  - by apply (failing_save_panics _ _ _ _ commandId filters).
Qed.

(** A command the hub does not know is acknowledged to its sender like any
    other, and nobody is told: the event type of the telemetry that should report
    it is refused by the logger. *)
Theorem unknown_command_is_not_reported request cfg w :
  cr_CommandName request ∉ ["Download"; "Delete"; "FilterUpdate"] ->
  ReceiveCommand logger request cfg w =
  (Ret ({| Code := 1; Message := "Recieved payload for " +:+ cr_CommandName request |}, None), w).
Proof.
  intros Hn. unfold ReceiveCommand. cbv zeta. rewrite !decide_False by set_solver. done.
Qed.
End Thms.

(** ** Witnesses *)

(** A configuration is a list of settings. *)
#[local] Instance ex_ini : Ini := {|
  ini := list (string * string);
  ini_string section k c := default EmptyString (snd <$> (list_find (fun p => p.1 = section +:+ "." +:+ k) c ≫= fun r => Some r.2));
  ini_int64 section k c := inr 0%Z;
  ini_set section k v c := (section +:+ "." +:+ k, v) :: c;
  ini_save file c d := os_mkdir_all file d;
|}.
Definition ex_cfg : ini := [("MSTORE_SERVICE.serviceId", "svc")].
Definition ex_device_cfg : ini := [("DEVICE_DETAIL.deviceId", "hub-1")].
#[local] Instance payload_codec : Json UpdateFilterPayload := {|
  json_marshal p := inl "not used";
  json_unmarshal s :=
    match split_on "|"%char s with
    | [d; c; f] => ({| DeviceID := d; CommandID := c; Filters := Some [f] |}, None)
    | _ => ({| DeviceID := EmptyString; CommandID := EmptyString; Filters := None |}, Some "invalid character")
    end;
  json_wf _ := False;
|}.
Lemma ex_payload : valid_payload "hub-1|cmd7|news" ex_device_cfg "cmd7" ["news"].
Proof. eexists. split; [reflexivity|]. by split_and!. Qed.

Module Answered.
#[local] Hint Extern 0 Bolt => exact (mem_bolt false) : typeclass_instances.
#[local] Instance ex_env : Env := scripted (Script
  [(setkeywords_url "svc" "/news", "<html><body> setkeywords FAILED </body></html>")] []).
Definition ex_commands : world := ref_world false [] [] [] [].
Definition ex_run : outcome ini * world :=
  handleFilterUpdate ref_logger "hub-1|cmd7|news" "/device.ini" ex_cfg ex_device_cfg ex_commands.

(** The receiver refused the filters; the report is a failure without a reason. *)
Lemma filter_update_is_reported_witness :
  exists reason tr, queued "cmd7" (command_report "hub-1" "cmd7" (env_now tr) reason) ex_run.2 /\
    reason <> EmptyString.
Proof.
  destruct (filter_update_is_reported ref_logger "hub-1|cmd7|news" "/device.ini" ex_cfg ex_device_cfg "cmd7" ["news"]
    ex_commands ex_run.1 ex_run.2 sure_reliable (ref_world_ready false [] [] [] []) ex_payload)
    as [[[s Hp] _]|(reason & tr & Ho & Hq & _)].
  - intros tr reason. unfold command_report. case_decide as Hd; [subst reason|]; apply storable_bits; evaluate.
  - apply surjective_pairing.
  - exfalso. assert (ex_run.1 = Ret ex_device_cfg) as E by evaluate. congruence.
  - exists reason, tr. split; [exact Hq|]. intros ->.
    destruct Ho as [(Ho & _)|(Ho & _)]; revert Ho; vm_compute; discriminate.
Defined.
End Answered.

Module Short.
#[local] Hint Extern 0 Bolt => exact (mem_bolt false) : typeclass_instances.
(** Every address answers with the same page. *)
#[local] Instance ex_env : Env := {|
  env_now tr := 1600000000000000000%Z;
  env_uuid tr := numbered_name (length tr);
  env_http tr url := inr (inr "<body>FAILED</body>");
  env_dial tr addr := None;
  env_send tr app text := None;
  env_range V tr m := map_to_list m;
  env_range_int V tr m := map_to_list m;
|}.
Definition ex_commands : world := ref_world false [] [] [] [].

Lemma short_answer_example :
  exists s, (restore_filters ref_logger "/device.ini" ex_cfg ex_device_cfg ex_commands).1 = Panic s.
Proof.
  refine (proj2 (short_answer_panics ref_logger "hub-1|cmd7|news" "/device.ini" ex_cfg ex_device_cfg
    "cmd7" ["news"] ex_commands "<body>FAILED</body>" ex_payload _ _)).
  - intros url. reflexivity.
  - apply (bool_decide_unpack _). by vm_compute.
Defined.

Lemma unknown_command_is_not_reported_witness :
  (ReceiveCommand ref_logger {| cr_CommandName := "Reboot"; cr_Payload := "" |} ex_cfg ex_commands).2 = ex_commands.
Proof.
  rewrite (unknown_command_is_not_reported ref_logger {| cr_CommandName := "Reboot"; cr_Payload := "" |} ex_cfg ex_commands).
  - reflexivity.
  - apply (bool_decide_unpack _). by vm_compute.
Defined.
End Short.

(** The receiver accepts, but the file of the configuration cannot be written. *)
Module Unsaved.
#[local] Hint Extern 0 Bolt => exact (mem_bolt false) : typeclass_instances.
#[local] Instance ex_env : Env := scripted (Script
  [(setkeywords_url "svc" "/news", "<body>set keywords OK</body>")] []).
#[local] Instance read_only : Ini := {|
  ini := list (string * string);
  ini_string := @ini_string _ ex_ini;
  ini_int64 := @ini_int64 _ ex_ini;
  ini_set := @ini_set _ ex_ini;
  ini_save file c d := (Some "read-only file system", d);
|}.
Definition ex_commands : world := ref_world false [] [] [] [].

Definition ro_cfg : ini := [("MSTORE_SERVICE.serviceId", "svc")].
Definition ro_device_cfg : ini := [("DEVICE_DETAIL.deviceId", "hub-1")].
Lemma ro_payload : valid_payload "hub-1|cmd7|news" ro_device_cfg "cmd7" ["news"].
Proof. eexists. split; [reflexivity|]. by split_and!. Qed.

Lemma filter_command_can_stop_the_hub_witness :
  exists s, (handleFilterUpdate ref_logger "hub-1|cmd7|news" "/device.ini" ro_cfg ro_device_cfg ex_commands).1 = Panic s.
Proof.
  refine (proj1 (proj2 (filter_command_can_stop_the_hub ref_logger "hub-1|cmd7|news" "/device.ini" ro_cfg ro_device_cfg
    "cmd7" ["news"] ex_commands ro_payload) _ _)).
  - evaluate.
  - intros d. by eexists.
Defined.
End Unsaved.
