(* ===== verification/Tree.v ===== *)
(** [filesys/filesys.go], lines 454-1144: the hierarchy of folders.  Three buckets:
    [Tree] maps a node to its parent followed by its children, all of
    [nodeLength] bytes; [FolderNameMapping] a node to the name of its folder; and
    [SatelliteMapping] a node to the location of a satellite folder.  The home
    node is its own parent.  The folders of all nodes lie side by side in the
    home folder of the disk, under the names of the nodes. *)
From S2P Require Import Prelude GoStrings Host Storage FlatIndex.
From Stdlib Require Import Ascii.

Definition Tree : string := "Tree".
Definition FolderNameMapping : string := "FolderNameMapping".
Definition SatelliteMapping : string := "SatelliteMapping".

(** [a[len(a)-1]] and [a[0 : len(a)-1]] *)
Definition last_of {W} (l : list string) : M W string :=
  match last l with Some x => mret x | None => panic "index out of range [-1]" end.
Definition but_last (l : list string) : list string := take (length l - 1) l.

(** [strings.Split(strings.Trim(path, "/"), "/")] *)
Definition hierarchy_of (path : string) : list string := split_on "/"%char (trim_char "/"%char path).

(** The error of the functions that refuse a folder whose name is taken. *)
Definition folder_exists_error : error :=
  "[Filesystem][CreateFolder] A folder with the same name at the requested level already exists".

Section Tree.
Context `{Bolt, Disk, Env}.
Variable fs : FileSystem.

(** The folder of a node on the disk. *)
Definition node_folder (node : string) : string :=
  path_join [homeDirLocation fs; homeNode fs; node].

(** The loops [for i := 0; i < len(children); i += nodeLength] skip the first piece,
    the parent, and slice out the others.  A last piece that is too short, which
    the invariant of [TreeSpec.v] excludes, is a panic here. *)
Definition pieces_of (children : string) : list string := chunks (nodeLength fs) children.
Definition whole {W A} (piece : string) (m : M W A) : M W A :=
  if decide (String.length piece = nodeLength fs) then m else panic "slice bounds out of range".

(** ** Queries *)

(** The message names the missing value, which is empty. *)
Definition GetFolderNameForNode (node : string) : Hub string :=
  db_view (
    name ← tx_get FolderNameMapping node;
    match name with
    | None => fail "[Filesystem][GetFolderNameForNode] can't find node  in FolderNameMapping Bucket"
    | Some name => mret name
    end).

Definition GetChildrenForNode (root : string) : Hub string :=
  db_view (
    children ← tx_get Tree root;
    match children with
    | None => fail "[Filesystem][GetChildrenForNode] can't find node  in Tree Bucket. Empty node"
    | Some children => mret children
    end).

(** The child named [folder] among [nodes]. *)
Fixpoint find_child (nodes : list string) (folder : string) : Hub (option string) :=
  match nodes with
  | [] => mret None
  | node :: nodes' =>
      whole node (
        name ← GetFolderNameForNode node;
        if decide (name = folder) then mret (Some node) else find_child nodes' folder)
  end.

Fixpoint node_for_path (root : string) (hierarchy : list string) : Hub string :=
  match hierarchy with
  | [] => mret root
  | folder :: hierarchy' =>
      children ← GetChildrenForNode root;
      found ← find_child (tail (pieces_of children)) folder;
      match found with
      | None => fail ("[Filesystem][GetFolderNameForNode] can't find the node for folder " +:+ folder +:+ " in the hierarchy")
      | Some node => node_for_path node hierarchy'
      end
  end.
Definition getNodeForPath (hierarchy : list string) : Hub string := node_for_path (homeNode fs) hierarchy.

Fixpoint names_of_nodes (nodes : list string) : Hub (list string) :=
  match nodes with
  | [] => mret []
  | node :: nodes' =>
      whole node (
        name ← GetFolderNameForNode node;
        names ← names_of_nodes nodes';
        mret (name :: names))
  end.
Definition getChildrenNamesForNode (parent : string) : Hub (list string) :=
  children ← GetChildrenForNode parent;
  names_of_nodes (tail (pieces_of children)).

Definition GetSatelliteFolderPath (node : string) : Hub string :=
  db_view (
    path ← tx_get SatelliteMapping node;
    match path with
    | None => fail ("Satellite folder " +:+ node +:+ " does not exist")
    | Some path => mret path
    end).

Definition succeeds {A} (m : Hub A) : Hub bool :=
  r ← try! m; mret (match r with inr _ => true | inl _ => false end).
Definition IsSatelliteFolder (node : string) : Hub bool := succeeds (GetSatelliteFolderPath node).
Definition IsSatelliteLeaf (abstractPath : string) : Hub bool :=
  succeeds (node ← getNodeForPath (hierarchy_of abstractPath); GetSatelliteFolderPath node).

Definition GetActualPathForAbstractedPath (path : string) : Hub string :=
  node ← getNodeForPath (hierarchy_of path);
  satellite ← IsSatelliteFolder node;
  if (satellite : bool) then GetSatelliteFolderPath node else mret (node_folder node).

Definition IsLeaf (actual_path_folder : string) : Hub bool :=
  there ← path_exists actual_path_folder;
  if (there : bool) then
    node ← last_of (hierarchy_of actual_path_folder);
    children ← GetChildrenForNode node;
    mret (bool_decide (String.length children = nodeLength fs))
  else fail ("[Filesystem][IsLeaf] stat " +:+ actual_path_folder +:+ ": no such file or directory").

(** [make([][]interface{}, n-1)] panics for [n = 0]. *)
Fixpoint children_info {A} (nodes : list string) (pfunc : string -> Hub (list A))
    : Hub (list (string * list A)) :=
  match nodes with
  | [] => mret []
  | child :: nodes' =>
      folder_name ← ignore! EmptyString of (GetFolderNameForNode child);
      child_ret ← pfunc (node_folder child);
      rest ← children_info nodes' pfunc;
      mret ((folder_name, child_ret) :: rest)
  end.
Definition GetChildrenInfo {A} (path : string) (pfunc : string -> Hub (list A))
    : Hub (list (string * list A)) :=
  node ← getNodeForPath (hierarchy_of path);
  children ← GetChildrenForNode node;
  let n := String.length children / nodeLength fs in
  if decide (n = 0) then panic "makeslice: len out of range"
  else children_info (take (n - 1) (tail (pieces_of children))) pfunc.

(** The recursion follows the children found in the database: fuel. *)
Fixpoint preOrderTraversal (fuel : nat) (root prefix : string) : Hub (list string) :=
  match fuel with
  | 0 => out_of_fuel
  | S fuel' =>
      folder_name ← ignore! EmptyString of (GetFolderNameForNode root);
      children ← ignore! EmptyString of (GetChildrenForNode root);
      if decide (String.length children = nodeLength fs) then mret [prefix +:+ "/" +:+ folder_name]
      else
        for_fold (tail (pieces_of children)) [] (fun ans node =>
          whole node (
            leaves ← preOrderTraversal fuel' node (prefix +:+ "/" +:+ folder_name);
            mret (ans ++ leaves)))
  end.

(** [x[len(homeNodeName)+1:]] for each [x]. *)
Fixpoint cut_each {W} (n : nat) (l : list string) : M W (list string) :=
  match l with
  | [] => mret []
  | x :: l' =>
      if decide (n <= String.length x) then r ← cut_each n l'; mret (s_drop n x :: r)
      else panic "slice bounds out of range"
  end.

Definition GetLeavesList (fuel : nat) (actual_path : string) : Hub (list string) :=
  let all := bool_decide (trim_char "/"%char actual_path = EmptyString) in
  startingNode ← (if all then mret (homeNode fs) else getNodeForPath (hierarchy_of actual_path));
  ans ← preOrderTraversal fuel startingNode EmptyString;
  ans ← (if all then
           homeNodeName ← ignore! EmptyString of (GetFolderNameForNode startingNode);
           cut_each (String.length homeNodeName + 1) ans
         else mret ans);
  mret (filter (fun x => String.length x <> 0) ans).

Definition GetFileType (file_name : string) : error + string :=
  match split_on "_"%char file_name with
  | [] | [_] => inl "[Filesystem][GetFileType] file does't have a type"
  | t :: _ => inr t
  end.

(** ** Updates *)

Definition CreateHome : Hub unit :=
  let err e := "[Filesystem][CreateHome] " +:+ e in
  db_update (
    home ← tx_get Tree (homeNode fs);
    match home with
    | None => wrap_error err (tx_put Tree (homeNode fs) (homeNode fs))
    | Some _ => mret tt
    end;;
    name ← tx_get FolderNameMapping (homeNode fs);
    match name with
    | None => wrap_error err (tx_put FolderNameMapping (homeNode fs) "home")
    | Some _ => mret tt
    end).

Definition CreateHomeFolder : Hub unit := disk_op (os_mkdir_all (GetHomeFolder fs)).

Definition Old_InitFileSystem : Hub unit :=
  CreateBucket Tree;;
  CreateBucket FolderNameMapping;;
  CreateBucket SatelliteMapping;;
  CreateHome;;
  CreateHomeFolder.

Definition InsertNode (node parent : string) : Hub unit :=
  let err e := "[Filesystem][InsertNode] " +:+ e in
  db_update (
    wrap_error err (tx_put Tree node parent);;
    children ← tx_get Tree parent;
    match children with
    | None => fail ("[Filesystem][InsertNode] parent node " +:+ parent +:+ " doesn't exist in Tree Bucket")
    | Some children => wrap_error err (tx_put Tree parent (children +:+ node))
    end).

Definition MarkFolderSatellite (node satelliteFolderPath : string) : Hub unit :=
  db_update (wrap_error (fun e => "[Filesystem][MarkFolderSatellite] " +:+ e)
    (tx_put SatelliteMapping node satelliteFolderPath)).

(** The checks before a folder is created, and the first write. *)
Definition new_folder_parent (hierarchy : list string) (folder_name : string) : Hub string :=
  parent ← getNodeForPath (but_last hierarchy);
  current_children ← getChildrenNamesForNode parent;
  if stringInSlice current_children folder_name then fail folder_exists_error
  else mret parent.
Definition put_folder_name (node folder_name : string) : Hub unit :=
  db_update (wrap_error (fun e => "[Filesystem][CreateFolder] " +:+ e)
    (tx_put FolderNameMapping node folder_name)).

Definition CreateFolder (fuel : nat) (hierarchy : list string) : Hub string :=
  folder_name ← last_of hierarchy;
  node ← RandStringBytes fuel (homeNode fs);
  parent ← new_folder_parent hierarchy folder_name;
  put_folder_name node folder_name;;
  InsertNode node parent;;
  disk_op (os_mkdir_all (node_folder node));;
  mret node.

Definition CreateDownloadNewFolder (fuel : nat) (hierarchy : list string)
    (dfunc : string -> list (list string) -> Hub unit) (downloadParams : list (list string))
    (isSatellite : bool) (satelliteFolderPath : string) : Hub unit :=
  folder_name ← last_of hierarchy;
  node ← RandStringBytes fuel (homeNode fs);
  parent ← new_folder_parent hierarchy folder_name;
  let actual_path := node_folder node in
  disk_op (os_mkdir_all actual_path);;
  r ← try! (dfunc actual_path downloadParams);
  match r with
  | inl err => disk_op (os_remove_all actual_path);; fail err
  | inr _ =>
      put_folder_name node folder_name;;
      InsertNode node parent;;
      when isSatellite (MarkFolderSatellite node satelliteFolderPath)
  end.

Definition MoveFolder (source_folder destination_folder : string) : Hub unit :=
  source ← path_exists source_folder;
  if negb source then fail "[Filesystem][MoveFolder] Source Folder path does not exist"
  else
    destination ← path_exists destination_folder;
    if negb destination then fail "[Filesystem][MoveFolder] Destination Folder path does not exist"
    else
      let err e := "[Filesystem][MoveFolder] " +:+ e in
      subdirs ← wrap_error err (read_dir source_folder);
      for_each subdirs (fun subdir =>
        wrap_error err (disk_op (os_rename (path_join [source_folder; fi_name subdir])
                                           (path_join [destination_folder; fi_name subdir])))).

Definition MoveFile (source_file_path destination_folder file_type : string) : Hub unit :=
  node ← getNodeForPath (hierarchy_of destination_folder);
  let new_file := file_type +:+ "_" +:+ path_base source_file_path in
  disk_op (os_rename source_file_path (path_join [homeDirLocation fs; homeNode fs; node; new_file])).

(** ** Deletion *)

Definition delete_key (b node : string) : Hub unit :=
  db_update (wrap_error (fun e => "[Filesystem][DeleteNodeSubtree] " +:+ e) (tx_delete b node)).

(** A location that [os.Stat] does not find is not removed. *)
Definition remove_satellite_folder (satelliteFolderPath : string) : Hub unit :=
  there ← path_exists satelliteFolderPath;
  when there (disk_op (os_remove_all satelliteFolderPath)).

Fixpoint DeleteNodeSubtree (fuel : nat) (node : string) : Hub unit :=
  match fuel with
  | 0 => out_of_fuel
  | S fuel' =>
      children ← GetChildrenForNode node;
      for_each (tail (pieces_of children)) (fun child =>
        whole child (ignore! tt of (DeleteNodeSubtree fuel' child)));;
      delete_key Tree node;;
      delete_key FolderNameMapping node;;
      satellite ← IsSatelliteFolder node;
      when satellite (
        satelliteFolderPath ← ignore! EmptyString of (GetSatelliteFolderPath node);
        delete_key SatelliteMapping node;;
        remove_satellite_folder satelliteFolderPath);;
      disk_op (os_remove_all (node_folder node))
  end.

(** Take [node] out of the children of its parent. *)
Fixpoint without_node {W} (node : string) (pieces : list string) : M W string :=
  match pieces with
  | [] => mret EmptyString
  | p :: pieces' =>
      whole p (
        rest ← without_node node pieces';
        mret (if decide (node = p) then rest else p +:+ rest))
  end.
Definition unlink_node (node : string) : Hub unit :=
  db_update (
    value ← tx_get Tree node;
    match value with
    | None => panic "slice bounds out of range"
    | Some value =>
        if decide (nodeLength fs <= String.length value) then
          let parent := s_take (nodeLength fs) value in
          children ← tx_get Tree parent;
          children_w_node_removed ← without_node node (pieces_of (default EmptyString children));
          wrap_error (fun e => "[Filesystem][DeleteNodeSubtree] " +:+ e)
            (tx_put Tree parent children_w_node_removed)
        else panic "slice bounds out of range"
    end).

(** The error of [unlink_node] is looked at only for a satellite folder. *)
Definition DeleteFolder (fuel : nat) (hierarchy : list string) : Hub unit :=
  node ← getNodeForPath hierarchy;
  r ← try! (unlink_node node);
  satellite ← IsSatelliteFolder node;
  when satellite (
    satelliteFolderPath ← ignore! EmptyString of (GetSatelliteFolderPath node);
    match r with
    | inl err => fail err
    | inr _ => disk_op (os_remove_all satelliteFolderPath)
    end);;
  disk_op (os_remove_all (node_folder node));;
  DeleteNodeSubtree fuel node.

(** Delete the ancestors [hierarchy[0 : i+1]], from below, while they are empty. *)
Fixpoint delete_empty (fuel : nat) (hierarchy : list string) (i : nat) : Hub unit :=
  match i with
  | 0 => mret tt
  | S i' =>
      let h := take i hierarchy in
      node ← getNodeForPath h;
      children ← GetChildrenForNode node;
      if decide (String.length children = nodeLength fs) then
        DeleteFolder fuel h;;
        delete_empty fuel hierarchy i'
      else mret tt
  end.
Definition RecursiveDeleteFolder (fuel : nat) (hierarchy : list string) : Hub unit :=
  DeleteFolder fuel hierarchy;;
  delete_empty fuel hierarchy (length hierarchy - 1).
End Tree.
