(* ===== verification/Content.v ===== *)
(** Filling and emptying the hierarchy of folders: the older synchronisation with
    the satellite receiver ([satdata_mstore.go], lines 364-605), the one with the
    NOOVO receiver ([satdata_noovo.go]), the remote procedures that download and
    delete folders ([handle_method_calls.go]), the deletion of expired folders
    ([delete_content.go]) and the check of the files ([telemetry_events.go]).  The
    hub does not start them any more.  Printing the buckets and the tree is left out. *)
From S2P Require Import Prelude GoStrings LogData Host Storage Logger FlatIndex Tree Files.
From Stdlib Require Import Ascii.

(** ** Rows of files

    [fileInfos] is a slice of rows of five strings: name, source, checksum, kind and
    deadline; the last row has only a deadline. *)
Record FileInfo := { Name : string; Hashsum : string }.

Definition cell {W} (row : list string) (i : nat) : M W string :=
  match row !! i with Some x => mret x | None => panic "index out of range" end.
Definition file_row (x : FileInfo) (source kind deadline : string) : list string :=
  [Name x; source; Hashsum x; kind; deadline].
Definition last_row (deadline : string) : list string :=
  [EmptyString; EmptyString; EmptyString; EmptyString; deadline].
Definition files_of (m : gmap string (list FileInfo)) (folder : string) : list FileInfo := default [] (m !! folder).
(** [m[k]] of a map of strings *)
Definition path_of (m : gmap string string) (k : string) : string := default EmptyString (m !! k).

(** [append(m[e.FolderId], FileInfo{e.Filename, e.Checksum})] for each entry *)
Record FileEntry := { fe_Filename : string; fe_Checksum : string; fe_FolderId : string }.
Definition by_folder (entries : list FileEntry) : gmap string (list FileInfo) :=
  foldl (fun m e => <[fe_FolderId e := files_of m (fe_FolderId e) ++
                        [{| Name := fe_Filename e; Hashsum := fe_Checksum e |}]]> m) ∅ entries.

(** [deadline.Unix()] of nanoseconds. *)
Definition unix (t : Z) : Z := (t / 1000000000)%Z.

Definition populateFileInfos (folder : string) (folderMetadataFilesMap folderBulkFilesMap : gmap string (list FileInfo))
    (filepathMap : gmap string string) (deadline : Z) : list (list string) :=
  let d := format_int (unix deadline) in
  let row kind x := file_row x (path_of filepathMap (Name x)) kind d in
  (row "metadata" <$> files_of folderMetadataFilesMap folder) ++
  (row "bulkfile" <$> files_of folderBulkFilesMap folder) ++ [last_row d].

(** The loops over the rows leave the last one out. *)
Fixpoint each_file {W} (rows : list (list string)) (body : list string -> M W unit) : M W unit :=
  match rows with
  | [] | [_] => mret tt
  | x :: rows' => body x;; each_file rows' body
  end.
(** [fileInfos[0][4]] *)
Definition first_deadline {W} (rows : list (list string)) : M W string :=
  match rows with [] => panic "index out of range [0]" | row :: _ => cell row 4 end.

Section Content.
Context `{Bolt, Disk, Env, Json TelemetryMessage} `{!Files}.
Variable logger : Logger.
Variable fs : FileSystem.
(** The configured names of the two subfolders. *)
Variables METADATA_FOLDER BULKFILE_FOLDER : string.

(** ** Downloading into a folder *)

(** [os.Open(source)], [os.Create(dest)], [io.Copy]: the error of the last one is
    dropped.  A source that opens is taken to be readable to its end. *)
Definition copySingleFile (dest source : string) : Hub unit :=
  contents ← read_file source;
  disk_op (os_open_file true dest);;
  ignore! tt of (disk_op (os_write dest contents)).

(** The error of reading the body comes after what was received of it was written. *)
Definition DownloadFile (filepath url : string) : Hub unit := fun w =>
  let w' := log_event (EvHttpGet url) w in
  match env_http (w_trace w) url with
  | inl err => (Fail err, w')
  | inr body =>
      (disk_op (os_open_file true filepath);;
       match body with
       | inr contents => disk_op (os_write filepath contents)
       | inl err => disk_op (os_write filepath (http_partial (w_trace w) url));; fail err
       end) w'
  end.

(** The place of a file, by its kind. *)
Definition download_path (filePath : string) (row : list string) : Hub (option string) :=
  kind ← cell row 3;
  name ← cell row 0;
  mret (if decide (kind = "metadata") then Some (path_join [filePath; METADATA_FOLDER; name])
        else if decide (kind = "bulkfile") then Some (path_join [filePath; BULKFILE_FOLDER; name])
        else None).

Definition hash_error (e : error) : error := "Hashsum did not match: " +:+ e.
Definition store_error (e : error) : error := "Could not store Hashsum in the text file: " +:+ e.
Definition deadline_error (e : error) : error := "Could not store validity end date: " +:+ e.

(** [copyFiles] and [DownloadFiles] are the same loop around two ways to fetch a
    file. *)
Definition fetch_file (fetch : string -> string -> Hub unit) (filePath : string) (row : list string) : Hub unit :=
  place ← download_path filePath row;
  match place with
  | None => mret tt
  | Some downloadpath =>
      disk_op (os_mkdir_all (path_dir downloadpath));;
      source ← cell row 1;
      fetch downloadpath source;;
      hash ← cell row 2;
      wrap_error hash_error (matchSHA256 downloadpath hash);;
      wrap_error store_error (storeHashsum (path_dir downloadpath) (path_base downloadpath) hash)
  end.
Definition fetch_files (fetch : string -> string -> Hub unit) (filePath : string) (fileInfos : list (list string)) : Hub unit :=
  each_file fileInfos (fetch_file fetch filePath);;
  deadline ← first_deadline fileInfos;
  wrap_error deadline_error (storeDeadline filePath deadline).
Definition copyFiles : string -> list (list string) -> Hub unit := fetch_files copySingleFile.
Definition DownloadFiles : string -> list (list string) -> Hub unit := fetch_files DownloadFile.

(** A folder whose files stay where the satellite receiver put them. *)
Definition check_satellite_file (folderPath : string) (row : list string) : Hub unit :=
  file ← cell row 1;
  hash ← cell row 2;
  wrap_error (fun e => "Hashsum did not match: " +:+ e +:+ " for file: " +:+ file +:+ " value: " +:+ hash)
    (matchSHA256 file hash);;
  wrap_error store_error (storeHashsum folderPath (path_base file) hash).
Definition generateSatelliteFolderIntegrity (folderPath : string) (fileInfos : list (list string)) : Hub unit :=
  match fileInfos with
  | [] => fail ("FileInfos length is 0 for folder %!(EXTRA string=" +:+ folderPath +:+
                ", string= in generateSatelliteFolder)")
  | _ =>
      each_file fileInfos (check_satellite_file folderPath);;
      deadline ← first_deadline fileInfos;
      wrap_error deadline_error (storeDeadline folderPath deadline)
  end.

(** ** The older synchronisation with the satellite receiver *)

Record OldVodInfo := {
  old_MediaId : string;
  old_MediaHouse : string;
  old_AncestorIds : string;
  old_MetadataFiles : list FileEntry;
  old_BulkFiles : list FileEntry;
  old_ValidityEndDate : Z;
  old_VideoFilename : string;
  old_CoverFilename : string;
  old_URLForDataFiles : string;
  old_DataFiles : list string;
  old_ThumbnailFilename : string;
}.

Definition media_path (mediaHouse ancestorIds mediaId : string) : string :=
  if decide (ancestorIds = EmptyString) then mediaHouse +:+ "/" +:+ mediaId
  else mediaHouse +:+ ancestorIds +:+ "/" +:+ mediaId.

Definition filepath_map (vod : OldVodInfo) : gmap string string :=
  foldl (fun m f => <[path_base f := old_URLForDataFiles vod +:+ f]> m)
    (<[path_base (old_VideoFilename vod) := old_VideoFilename vod]>
     (<[path_base (old_CoverFilename vod) := old_CoverFilename vod]>
      (<[path_base (old_ThumbnailFilename vod) := old_ThumbnailFilename vod]> ∅)))
    (old_DataFiles vod).

(** The folders of a path, each with the path that leads to it:
    [subpath = subpath + folder + "/"]. *)
Fixpoint subpaths (subpath : string) (hierarchy : list string) : list (string * string) :=
  match hierarchy with
  | [] => []
  | folder :: hierarchy' =>
      let subpath := subpath +:+ folder +:+ "/" in
      (folder, subpath) :: subpaths subpath hierarchy'
  end.

(** Create the folders of the path, which may exist, and at its end a folder for
    the files on the satellite receiver's disk.  [deleteFlag] is false. *)
Definition getMstoreFiles_Old (fuel : nat) (vod : OldVodInfo) : Hub string :=
  let _heirarchy := media_path (old_MediaHouse vod) (old_AncestorIds vod) (old_MediaId vod) in
  path ← ignore! EmptyString of (GetActualPathForAbstractedPath fs _heirarchy);
  if decide (path <> EmptyString) then
    ignore! tt of (Log logger Info_ (sm_string ("SatdataMstore: " +:+ _heirarchy +:+ " already exist.")));;
    mret _heirarchy
  else
    let filepathMap := filepath_map vod in
    let metadata := by_folder (old_MetadataFiles vod) in
    let bulk := by_folder (old_BulkFiles vod) in
    let infos folder := populateFileInfos folder metadata bulk filepathMap (old_ValidityEndDate vod) in
    let hierarchy := hierarchy_of _heirarchy in
    for_each (take (length hierarchy - 1) (subpaths EmptyString hierarchy))
      (fun '(folder, subpath) =>
        r ← try! (CreateDownloadNewFolder fs fuel (hierarchy_of subpath) copyFiles (infos folder) false EmptyString);
        match r with
        | inl err => if decide (err = folder_exists_error) then mret tt else fail err
        | inr _ => mret tt
        end);;
    CreateDownloadNewFolder fs fuel hierarchy generateSatelliteFolderIntegrity
      (infos (List.last hierarchy EmptyString)) true (path_dir (old_VideoFilename vod));;
    mret _heirarchy.

(** [FindStringSubmatch] of the tag [<body>], anything, [</body>]: what is between. *)
Definition body_text (str : string) : option string :=
  t ← from_first "<body>" str;
  r ← upto_last "</body>" (s_drop 6 t);
  Some (s_take (String.length r - 7) r).
(** Not called while [deleteFlag] is false.  Without a match, and with fewer than
    three words, it panics. *)
Definition deleteAPI (cid : string) : Hub unit :=
  str ← http_get ("http://localhost:8134/deletecontent/" +:+ cid);
  match body_text str with
  | None => panic "index out of range [1] with length 0"
  | Some text =>
      match fields (trim_char newline text) !! 2 with
      | None => panic "index out of range [2]"
      | Some status => if decide (status = "OK") then mret tt else fail "Could not Delete from Mstore db"
      end
  end.

(** ** The synchronisation with the NOOVO receiver *)

(** The fields of [VodObj] that are used. *)
Record VodObj := {
  no_Source : string;
  no_MovieID : string;
  no_ValidityEndDate : Z;
  no_MediaHouse : string;
  no_AncestorIds : string;
  no_MediaId : string;
  no_PushId : Z;
  no_MetadataFiles : list FileEntry;
  no_BulkFiles : list FileEntry;
  no_Thumbnail : string;
  no_Cover : string;
  no_Movie : string;
  no_DataFiles : list string;
}.

Definition files_url_map (vod : VodObj) : gmap string string :=
  foldl (fun m f => <[path_base f := f]> m) ∅ (no_Thumbnail vod :: no_Cover vod :: no_Movie vod :: no_DataFiles vod).

(** The rows as the code fills them: the row of the [i]-th bulk file is made at
    index [i] and written at index [metafilesLen + i], where writing to a row that
    was not made is a panic. *)
Definition noovo_rows {W} (metadata bulk : list FileInfo) (url : string -> string) (d : string)
    : M W (list (list string)) :=
  let m := length metadata in
  let b := length bulk in
  let rows := foldl (fun rows ix => <[ix.1 := file_row ix.2 (url (Name ix.2)) "metadata" d]> rows)
    (replicate (m + b + 1) []) (imap pair metadata) in
  rows ← for_fold (imap pair bulk) rows (fun rows ix =>
    let rows := <[ix.1 := replicate 5 EmptyString]> rows in
    match rows !! (m + ix.1) with
    | Some (_ :: _) => mret (<[m + ix.1 := file_row ix.2 (url (Name ix.2)) "bulkfile" d]> rows)
    | _ => panic "index out of range [0] with length 0"
    end);
  mret (<[m + b := last_row d]> rows).

Definition noovo_exists_error : error :=
  "[Filesystem][CreateFolder]A folder with the same name at the requested level already exists".

Definition downloadContent (fuel : nat) (vod : VodObj) (_heirarchy : string) : Hub unit :=
  let pushId := format_int (no_PushId vod) in
  let urls := files_url_map vod in
  let metadata := by_folder (no_MetadataFiles vod) in
  let bulk := by_folder (no_BulkFiles vod) in
  for_each (subpaths EmptyString (hierarchy_of _heirarchy)) (fun '(folder, subpath) =>
    fileInfos ← noovo_rows (files_of metadata folder) (files_of bulk folder)
      (fun name => path_of urls (pushId +:+ "_" +:+ folder +:+ "_" +:+ name))
      (format_int (unix (no_ValidityEndDate vod)));
    r ← try! (CreateDownloadNewFolder fs fuel (hierarchy_of subpath) DownloadFiles fileInfos false EmptyString);
    match r with
    | inl err => if decide (err = noovo_exists_error) then mret tt else fail err
    | inr _ => mret tt
    end).

(** [^BINE.]: the prefix and one more character of the line. *)
Definition is_bine (movieID : string) : bool :=
  match movieID with
  | String "B" (String "I" (String "N" (String "E" (String a _)))) => bool_decide (a <> newline)
  | _ => false
  end.

Definition callNoovoAPI (fuel : nat) `{Json (list VodObj)} : Hub unit :=
  jsonRes ← http_get "http://localhost:40000/vod/list";
  match json_unmarshal jsonRes with
  | (_, Some jsonErr) => fail jsonErr
  | (vods, None) =>
      for_each vods (fun vod =>
        when (is_bine (no_MovieID vod)) (
          let _heirarchy := media_path (no_MediaHouse vod) (no_AncestorIds vod) (no_MediaId vod) in
          path ← ignore! EmptyString of (GetActualPathForAbstractedPath fs _heirarchy);
          if decide (path <> EmptyString) then mret tt
          else ignore! tt of (downloadContent fuel vod _heirarchy)))
  end.

(** Rounds of the endless loop; errors are printed. *)
Fixpoint pollNoovo (rounds fuel : nat) `{Json (list VodObj)} : Hub unit :=
  match rounds with
  | 0 => mret tt
  | S n => ignore! tt of (callNoovoAPI fuel);; pollNoovo n fuel
  end.

Definition source : string := "mstore".
Definition test_path (mediaHouse ancestorIds mediaId : string) : string :=
  if decide (ancestorIds = EmptyString) then mediaHouse +:+ "/" +:+ mediaId
  else mediaHouse +:+ "/" +:+ ancestorIds +:+ "/" +:+ mediaId.
Definition dummyTest (fuel : nat) `{Json (list VodObj)} : Hub unit :=
  bytevalue ← read_file "test/sampleResp.json";
  match json_unmarshal bytevalue with
  | (_, Some err) => fail err
  | (vods, None) =>
      for_each vods (fun vod =>
        when (bool_decide (no_Source vod = source) && is_bine (no_MovieID vod))
          (ignore! tt of (downloadContent fuel vod (test_path (no_MediaHouse vod) (no_AncestorIds vod) (no_MediaId vod)))))
  end.

(** ** The remote procedures *)

Record RemoteFile := { rf_Name : string; rf_Cdn : string; rf_Hashsum : string }.
Record DownloadParams := {
  dp_Folderpath : string;
  dp_Metadatafiles : list RemoteFile;
  dp_Bulkfiles : list RemoteFile;
  dp_Deadline : Z;
  dp_Addtoexisting : bool;
}.
Record DeleteParams := { del_Folderpath : string; del_Recursive : bool }.

Definition remote_rows (p : DownloadParams) : list (list string) :=
  let d := format_int (dp_Deadline p) in
  let row kind x := file_row {| Name := rf_Name x; Hashsum := rf_Hashsum x |} (rf_Cdn x) kind d in
  (row "metadata" <$> dp_Metadatafiles p) ++ (row "bulkfile" <$> dp_Bulkfiles p) ++ [last_row d].

(** Another kind gives the empty path, which [os.Stat] does not find. *)
Definition delete_fetched (path : string) (row : list string) : Hub unit :=
  place ← download_path path row;
  match place with
  | None => mret tt
  | Some deletepath =>
      there ← path_exists deletepath;
      when there (ignore! tt of (disk_op (os_remove deletepath)))
  end.
Definition deleteFilesFromExistingFolder (path : string) (fileInfos : list (list string)) : Hub unit :=
  each_file fileInfos (delete_fetched path).

(** The answers are messages; the telemetry of the end is commented out. *)
Definition Download (fuel : nat) (download_params : DownloadParams) : Hub string :=
  let hierarchy := hierarchy_of (dp_Folderpath download_params) in
  let fileInfos := remote_rows download_params in
  if dp_Addtoexisting download_params then
    actualPath ← ignore! EmptyString of (GetActualPathForAbstractedPath fs (dp_Folderpath download_params));
    if decide (actualPath <> EmptyString) then
      r ← try! (DownloadFiles actualPath fileInfos);
      match r with
      | inl err =>
          deleteFilesFromExistingFolder actualPath fileInfos;;
          mret ("Additional files could not be downloaded: " +:+ err)
      | inr _ => mret "Additional Files downloaded"
      end
    else mret "Additional files could not be downloaded: Folder does not exist"
  else
    r ← try! (CreateDownloadNewFolder fs fuel hierarchy DownloadFiles fileInfos false EmptyString);
    match r with
    | inl err => mret ("Folder not downloaded: " +:+ err)
    | inr _ => mret (if decide (length fileInfos = 1) then "Folder created. No files to download" else "Folder downloaded")
    end.

(** Only the recursive deletion trims the path. *)
Definition Delete (fuel : nat) (delete_params : DeleteParams) : Hub string :=
  let folder_path := del_Folderpath delete_params in
  r ← try! (if del_Recursive delete_params then RecursiveDeleteFolder fs fuel (hierarchy_of folder_path)
            else DeleteFolder fs fuel (split_on "/"%char folder_path));
  mret (match r with inl err => "Folder not deleted: " +:+ err | inr _ => "Folder deleted" end).
End Content.
