(* ===== verification/Expiry.v ===== *)
(** The two walks over the hierarchy of folders: [delete_content.go] deletes the
    folders whose deadline has passed, and the last part of [telemetry_events.go]
    counts the files whose checksum does not match.  Both recurse over the
    database: fuel.  A slice of the database is read once and kept. *)
From S2P Require Import Prelude GoStrings LogData Host Storage Logger FlatIndex Tree Files Content.
From Stdlib Require Import Ascii.

Section Expiry.
Context `{Bolt, Disk, Env, Json TelemetryMessage} `{!Files}.
Variable logger : Logger.
Variable fs : FileSystem.

(** ** Deletion of expired folders *)

(** [fmt.Sprintf] with an operand no verb consumes: a path error or nil. *)
Definition no_deadline (err : option error) : error :=
  "Error in getting the deadline: %!(EXTRA " +:+
  match err with Some e => "*fs.PathError=" +:+ e | None => "<nil>" end +:+ ")".

Definition checkDeadlineAndDelete (fuel : nat) (path actualPathPrefix : string) : Hub unit :=
  r ← try! (getDeadline path);
  match r with
  | inl err => fail (no_deadline (Some err))
  | inr deadline =>
      if decide (deadline < 0)%Z then fail (no_deadline None)
      else
        now ← time_now;
        if decide (deadline < unix now)%Z then RecursiveDeleteFolder fs fuel (hierarchy_of actualPathPrefix)
        else mret tt
  end.

Definition log_expiry_error (e : error) : Hub unit :=
  ignore! tt of (Log logger Error (sm_string ("DeleteContentOnExpiry: " +:+ e))).

(** [prefix[:strings.LastIndex(prefix, "/")]], when there is a slash *)
Definition before_last_slash (prefix : string) : option string :=
  if decide (no_char slash prefix = true) then None
  else Some (s_take (String.length prefix - String.length (after_last_slash prefix) - 1) prefix).

(** The loop over the children; an error of a child ends it. *)
Fixpoint traverse_children (visit : string -> string -> Hub string) (fuel : nat) (nodes : list string) (prefix : string)
    : Hub string :=
  match nodes with
  | [] => mret prefix
  | child :: nodes' =>
      whole fs child (
        actualName ← ignore! EmptyString of (GetFolderNameForNode child);
        let prefix' := prefix +:+ "/" +:+ actualName in
        r ← try! (checkDeadlineAndDelete fuel (path_join [GetHomeFolder fs; child]) prefix');
        match r with
        | inl err => log_expiry_error err;; mret prefix'
        | inr _ => visit child prefix';; traverse_children visit fuel nodes' prefix
        end)
  end.
(** [depth] bounds the recursion, [fuel] is that of the deletions. *)
Fixpoint traverse (depth fuel : nat) (node prefix : string) : Hub string :=
  match depth with
  | 0 => out_of_fuel
  | S depth' =>
      r ← try! (GetChildrenForNode node);
      children ← match r with
                 | inl err => log_expiry_error err;; mret EmptyString
                 | inr children => mret children
                 end;
      let nodes := tail (pieces_of fs children) in
      if decide (String.length children = nodeLength fs) then
        match before_last_slash prefix with
        | Some p => mret p
        | None => traverse_children (traverse depth' fuel) fuel nodes prefix
        end
      else traverse_children (traverse depth' fuel) fuel nodes prefix
  end.

(** One round of the endless loop; the sleep is left out. *)
Definition deleteContent_round (depth fuel : nat) : Hub unit := traverse depth fuel (homeNode fs) EmptyString;; mret tt.

(** ** Counting corrupted files *)

Definition add_counts (a b : Z * Z) : Z * Z := (a.1 + b.1, a.2 + b.2)%Z.

(** An unreadable [hashsum.txt] ends the loop with nothing counted. *)
Fixpoint check_subfolders (actualPath : string) (subfolders : list file_info) (ct : Z * Z) : Hub (Z * Z) :=
  match subfolders with
  | [] => mret ct
  | subfolder :: subfolders' =>
      if fi_is_dir subfolder then
        r ← check_with (path_join [actualPath; fi_name subfolder; "hashsum.txt"])
                       (path_join [actualPath; fi_name subfolder]);
        match r with
        | inl _ => mret (0, 0)%Z
        | inr ct' => check_subfolders actualPath subfolders' (add_counts ct ct')
        end
      else check_subfolders actualPath subfolders' ct
  end.

Definition folderToCheck (folderName : string) : Hub (Z * Z) :=
  let actualPath := path_join [GetHomeFolder fs; folderName] in
  _ ← ignore! EmptyString of (GetFolderNameForNode folderName);
  there ← path_exists actualPath;
  if negb there then mret (0, 0)%Z
  else
    satellite ← IsSatelliteFolder folderName;
    if (satellite : bool) then
      satellitePath ← ignore! EmptyString of (GetSatelliteFolderPath folderName);
      there ← path_exists satellitePath;
      if negb there then mret (0, 0)%Z
      else
        r ← check_with (path_join [actualPath; "hashsum.txt"]) satellitePath;
        mret (match r with inl _ => (0, 0)%Z | inr ct => ct end)
    else
      subfolders ← ignore! [] of (read_dir actualPath);
      check_subfolders actualPath subfolders (0, 0)%Z.

(** The counts of the folders below a node, on top of [ct]. *)
Fixpoint checkheirarchy (fuel : nat) (node : string) (ct : Z * Z) : Hub (Z * Z) :=
  match fuel with
  | 0 => out_of_fuel
  | S fuel' =>
      r ← try! (GetChildrenForNode node);
      match r with
      | inl _ => mret (0, 0)%Z
      | inr children =>
          for_fold (tail (pieces_of fs children)) ct (fun ct nodeToCheck =>
            whole fs nodeToCheck (
              ct' ← folderToCheck nodeToCheck;
              checkheirarchy fuel' nodeToCheck (add_counts ct ct')))
      end
  end.

(** One round: what is printed for each folder of the home folder, its name and the
    numbers of corrupted and of checked files. *)
Definition checkIntegrity_round (fuel : nat) : Hub (list (string * (Z * Z))) :=
  children ← ignore! EmptyString of (GetChildrenForNode (homeNode fs));
  for_fold (tail (pieces_of fs children)) [] (fun reports nodeToCheck =>
    whole fs nodeToCheck (
      foldername ← ignore! EmptyString of (GetFolderNameForNode nodeToCheck);
      ct ← folderToCheck nodeToCheck;
      ct' ← checkheirarchy fuel nodeToCheck (0, 0)%Z;
      mret (reports ++ [(foldername, add_counts ct' ct)]))).
End Expiry.
