(* ===== verification/TreeSpec.v ===== *)
(** The abstract specification of the hierarchy of folders: a tree of named
    folders, how a database represents it, and what the queries of [Tree.v]
    answer on it. *)
From S2P Require Import Prelude GoStrings Host Storage FlatIndex Tree.
From Stdlib Require Import Ascii.

(** ** Trees of folders *)

Inductive tree := Node (id name : string) (children : list tree).

Definition root_id (t : tree) : string := let 'Node i _ _ := t in i.
Definition root_name (t : tree) : string := let 'Node _ n _ := t in n.
Definition kids (t : tree) : list tree := let 'Node _ _ l := t in l.

Lemma tree_induction (P : tree -> Prop) :
  (forall i n l, Forall P l -> P (Node i n l)) -> forall t, P t.
Proof.
  intros HP. fix IH 1. intros [i n l]. apply HP.
  induction l as [|t l IHl]; constructor; [apply IH|exact IHl].
Qed.

(** The nodes, a parent before its children. *)
Fixpoint node_ids (t : tree) : list string :=
  let 'Node i _ l := t in i :: flat_map node_ids l.

Fixpoint height (t : tree) : nat :=
  let 'Node _ _ l := t in S (foldr Nat.max 0 (height <$> l)).

(** The value of a node in the bucket [Tree]. *)
Definition tree_value (parent : string) (t : tree) : string :=
  parent +:+ s_concat (root_id <$> kids t).

(** What the database holds for the tree: node, value, name. *)
Fixpoint entries (parent : string) (t : tree) : list (string * (string * string)) :=
  let 'Node i n l := t in
  (i, (parent +:+ s_concat (root_id <$> l), n)) :: flat_map (entries i) l.

(** The folder at a path, or the error of [getNodeForPath]. *)
Definition child_named (l : list tree) (folder : string) : option tree :=
  snd <$> list_find (fun c => root_name c = folder) l.
Fixpoint find_path (t : tree) (hierarchy : list string) : error + tree :=
  match hierarchy with
  | [] => inr t
  | folder :: hierarchy' =>
      match child_named (kids t) folder with
      | Some c => find_path c hierarchy'
      | None => inl ("[Filesystem][GetFolderNameForNode] can't find the node for folder " +:+ folder +:+ " in the hierarchy")
      end
  end.

(** The paths of the folders without children. *)
Fixpoint leaves (prefix : string) (t : tree) : list string :=
  let 'Node _ n l := t in
  match l with
  | [] => [prefix +:+ "/" +:+ n]
  | _ => flat_map (leaves (prefix +:+ "/" +:+ n)) l
  end.

Lemma height_kid t c : c ∈ kids t -> height c < height t.
Proof.
  destruct t as [i n l]. simpl. intros Hc. apply Nat.lt_succ_r.
  induction Hc as [c l|c d l _ IH]; rewrite fmap_cons; simpl in *; lia.
Qed.

Lemma find_path_height t h t' fuel : find_path t h = inr t' -> height t <= fuel -> height t' <= fuel.
Proof.
  revert t. induction h as [|f h IH]; intros t; simpl; [by intros [= <-]|].
  unfold child_named. destruct (list_find _ (kids t)) as [[k c]|] eqn:E; [|done]. simpl.
  apply list_find_Some in E as (Hc%list_elem_of_lookup_2 & _). apply height_kid in Hc.
  intros. apply (IH c); [done|lia].
Qed.

Lemma node_ids_kid t c : c ∈ kids t -> node_ids c ⊆ node_ids t.
Proof.
  destruct t as [i n l]. simpl. intros Hc x Hx. right. apply list_elem_of_In, in_flat_map.
  exists c. by split; apply list_elem_of_In.
Qed.
Lemma root_in_ids t : root_id t ∈ node_ids t.
Proof. destruct t. by left. Qed.

Lemma entries_ids parent t : (entries parent t).*1 = node_ids t.
Proof.
  revert parent. induction t as [i n l IH] using tree_induction. intros parent. simpl. f_equal.
  change ((flat_map (entries i) l).*1 = flat_map node_ids l).
  induction IH as [|t l Ht _ IHl]; cbn [flat_map]; [done|]. by rewrite fmap_app, Ht, IHl.
Qed.

Lemma entries_root parent t : (root_id t, (tree_value parent t, root_name t)) ∈ entries parent t.
Proof. destruct t. by left. Qed.
Lemma entries_kid parent t c e : c ∈ kids t -> e ∈ entries (root_id t) c -> e ∈ entries parent t.
Proof.
  destruct t as [i n l]. simpl. intros Hc He. right. apply list_elem_of_In, in_flat_map.
  exists c. by split; apply list_elem_of_In.
Qed.

(** ** Representation *)
Section Repr.
Context `{Bolt, Disk, Env} `{!BoltLaws}.
Variable fs : FileSystem.
Implicit Types (w : world).

Definition tree_map w : gmap string string := bucket_of w Tree.
Definition name_map w : gmap string string := bucket_of w FolderNameMapping.
Definition satellite_map w : gmap string string := bucket_of w SatelliteMapping.
#[export] Instance tree_map_proper : Proper (same_db ==> (=)) tree_map.
Proof. intros w w' E. unfold tree_map. by rewrite E. Qed.
#[export] Instance name_map_proper : Proper (same_db ==> (=)) name_map.
Proof. intros w w' E. unfold name_map. by rewrite E. Qed.
#[export] Instance satellite_map_proper : Proper (same_db ==> (=)) satellite_map.
Proof. intros w w' E. unfold satellite_map. by rewrite E. Qed.

(** [Old_InitFileSystem] has run. *)
Definition tree_ready w : Prop :=
  has_bucket w Tree = true /\ has_bucket w FolderNameMapping = true /\ has_bucket w SatelliteMapping = true.
#[export] Instance tree_ready_proper : Proper (same_db ==> iff) tree_ready.
Proof. intros w w' E. unfold tree_ready. by rewrite E. Qed.

(** The nodes of [t] are distinct and have the right length. *)
Definition tree_wf (t : tree) : Prop :=
  NoDup (node_ids t) /\ Forall (fun i => String.length i = nodeLength fs) (node_ids t) /\ 0 < nodeLength fs.

(** The maps hold [t] below [parent]; they may hold more. *)
Definition stored (parent : string) (t : tree) (tm nm : gmap string string) : Prop :=
  forall i v n, (i, (v, n)) ∈ entries parent t -> tm !! i = Some v /\ nm !! i = Some n.

(** The database represents [t]: the root is the home node, its own parent. *)
Definition represents (t : tree) w : Prop :=
  tree_ready w /\ tree_wf t /\ root_id t = homeNode fs /\ stored (homeNode fs) t (tree_map w) (name_map w).
#[export] Instance represents_proper t : Proper (same_db ==> iff) (represents t).
Proof.
  intros w w' E. unfold represents.
  by rewrite (tree_ready_proper w w' E), (tree_map_proper w w' E), (name_map_proper w w' E).
Qed.

Lemma wf_kid t c : c ∈ kids t -> tree_wf t -> tree_wf c.
Proof.
  intros Hc (Hnd & Hlen & Hn). split_and!; [|apply Forall_forall; intros i Hi; apply (proj1 (Forall_forall _ _) Hlen); by eapply node_ids_kid|done].
  destruct t as [i n l]. simpl in *. apply NoDup_cons in Hnd as [_ Hnd]. clear Hlen.
  induction Hc as [c l|c d l _ IH]; simpl in Hnd; apply NoDup_app in Hnd; tauto.
Qed.
Lemma stored_kid parent t c tm nm : c ∈ kids t -> stored parent t tm nm -> stored (root_id t) c tm nm.
Proof. intros Hc Hs i v n He. apply Hs. by eapply entries_kid. Qed.

Lemma wf_root_length t : tree_wf t -> String.length (root_id t) = nodeLength fs.
Proof. intros (_ & Hl & _). by apply (proj1 (Forall_forall _ _) Hl), root_in_ids. Qed.
Lemma wf_kids_length t : tree_wf t -> Forall (fun i => String.length i = nodeLength fs) (root_id <$> kids t).
Proof.
  intros Hwf. apply Forall_fmap, Forall_forall. intros c Hc. by apply wf_root_length, (wf_kid t).
Qed.

(** Cutting a value into pieces gives the parent and the children. *)
Lemma pieces_of_value parent t : String.length parent = nodeLength fs -> tree_wf t ->
  pieces_of fs (tree_value parent t) = parent :: (root_id <$> kids t).
Proof.
  intros Hp Hwf. apply (chunks_concat (nodeLength fs) (parent :: (root_id <$> kids t))).
  - apply Hwf.
  - constructor; [done|by apply wf_kids_length].
Qed.
Lemma length_value parent t : String.length parent = nodeLength fs -> tree_wf t ->
  String.length (tree_value parent t) = nodeLength fs * S (length (kids t)).
Proof.
  intros Hp Hwf. unfold tree_value. rewrite s_length_app, Hp.
  rewrite (s_length_concat _ (nodeLength fs)) by (by apply wf_kids_length). rewrite length_fmap. lia.
Qed.
Lemma value_is_leaf parent t : String.length parent = nodeLength fs -> tree_wf t ->
  (String.length (tree_value parent t) = nodeLength fs <-> kids t = []).
Proof.
  intros Hp Hwf. rewrite length_value by done. destruct Hwf as (_ & _ & Hn).
  destruct (kids t); simpl; split; intros; try done; nia.
Qed.

(** *** Queries, one node at a time *)

Lemma GetFolderNameForNode_run parent t w :
  tree_ready w -> stored parent t (tree_map w) (name_map w) ->
  GetFolderNameForNode (root_id t) w = (Ret (root_name t), w).
Proof.
  intros (_ & Hb & _) Hs. unfold GetFolderNameForNode.
  rewrite view_lookup by done. fold (name_map w).
  by destruct (Hs _ _ _ (entries_root parent t)) as [_ ->].
Qed.
Lemma GetChildrenForNode_run parent t w :
  tree_ready w -> stored parent t (tree_map w) (name_map w) ->
  GetChildrenForNode (root_id t) w = (Ret (tree_value parent t), w).
Proof.
  intros (Hb & _ & _) Hs. unfold GetChildrenForNode.
  rewrite view_lookup by done. fold (tree_map w).
  by destruct (Hs _ _ _ (entries_root parent t)) as [-> _].
Qed.

Lemma whole_run {A} i (m : Hub A) w : String.length i = nodeLength fs -> whole fs i m w = m w.
Proof. intros Hi. unfold whole. by rewrite decide_True. Qed.

(** The children of a node, in terms of the tree. *)
Definition kids_stored (p : string) (l : list tree) w : Prop :=
  forall c, c ∈ l -> tree_wf c /\ stored p c (tree_map w) (name_map w).

Lemma find_child_run p l folder w : tree_ready w -> kids_stored p l w ->
  find_child fs (root_id <$> l) folder w = (Ret (root_id <$> child_named l folder), w).
Proof.
  intros Hr. induction l as [|c l IH]; intros Hl; [done|]. rewrite fmap_cons. cbn [find_child].
  destruct (Hl c) as [Hwf Hs]; [by left|]. rewrite whole_run by (by apply wf_root_length).
  erewrite bind_Ret by (by eapply GetFolderNameForNode_run). unfold child_named. simpl.
  case_decide; [done|]. rewrite IH by (intros d Hd; apply Hl; by right).
  unfold child_named. by destruct (list_find _ l) as [[]|].
Qed.

Lemma names_of_nodes_run p l w : tree_ready w -> kids_stored p l w ->
  names_of_nodes fs (root_id <$> l) w = (Ret (root_name <$> l), w).
Proof.
  intros Hr. induction l as [|c l IH]; intros Hl; [done|]. rewrite !fmap_cons. cbn [names_of_nodes].
  destruct (Hl c) as [Hwf Hs]; [by left|]. rewrite whole_run by (by apply wf_root_length).
  erewrite bind_Ret by (by eapply GetFolderNameForNode_run).
  by erewrite bind_Ret by (apply IH; intros d Hd; apply Hl; by right).
Qed.

Lemma kids_of_stored parent t w : tree_wf t -> stored parent t (tree_map w) (name_map w) ->
  kids_stored (root_id t) (kids t) w.
Proof. intros Hwf Hs c Hc. split; [by eapply wf_kid|by eapply stored_kid]. Qed.

Lemma child_named_elem l folder c : child_named l folder = Some c -> c ∈ l /\ root_name c = folder.
Proof.
  unfold child_named. rewrite fmap_Some. intros ([k d] & E & ->).
  apply list_find_Some in E as (Hl & Hn & _). split; [by eapply list_elem_of_lookup_2|done].
Qed.

(** The subtree at a path is stored below some parent of the right length. *)
Lemma find_path_stored parent t h t' w :
  String.length parent = nodeLength fs -> tree_wf t -> stored parent t (tree_map w) (name_map w) ->
  find_path t h = inr t' ->
  exists parent', String.length parent' = nodeLength fs /\ tree_wf t' /\
    stored parent' t' (tree_map w) (name_map w) /\ node_ids t' ⊆ node_ids t.
Proof.
  revert parent t. induction h as [|f h IH]; intros parent t Hp Hwf Hs; simpl.
  { intros [= <-]. by exists parent. }
  destruct (child_named (kids t) f) as [c|] eqn:E; [|done].
  apply child_named_elem in E as [Hc _]. intros Hf.
  destruct (IH (root_id t) c) as (p' & ? & ? & ? & Hsub); [by apply wf_root_length|by eapply wf_kid|
    by eapply stored_kid|done|]. exists p'. split_and!; [done..|].
  etrans; [exact Hsub|by apply node_ids_kid].
Qed.

Lemma node_for_path_run parent t h w :
  tree_ready w -> String.length parent = nodeLength fs -> tree_wf t ->
  stored parent t (tree_map w) (name_map w) ->
  node_for_path fs (root_id t) h w =
  (match find_path t h with inr t' => Ret (root_id t') | inl e => Fail e end, w).
Proof.
  intros Hr. revert parent t. induction h as [|f h IH]; intros parent t Hp Hwf Hs; simpl; [done|].
  erewrite bind_Ret by (by eapply GetChildrenForNode_run).
  rewrite pieces_of_value by done. simpl.
  erewrite bind_Ret by (eapply find_child_run; [done|by eapply kids_of_stored]).
  destruct (child_named (kids t) f) as [c|] eqn:E; simpl; [|done].
  apply child_named_elem in E as [Hc _].
  apply (IH (root_id t) c); [by apply wf_root_length|by eapply wf_kid|by eapply stored_kid].
Qed.

Lemma home_length t w : represents t w -> String.length (homeNode fs) = nodeLength fs.
Proof. intros (_ & Hwf & <- & _). by apply wf_root_length. Qed.

Lemma getNodeForPath_run t h w : represents t w ->
  getNodeForPath fs h w = (match find_path t h with inr t' => Ret (root_id t') | inl e => Fail e end, w).
Proof.
  intros Hrep. pose proof (home_length t w Hrep) as Hh. destruct Hrep as (Hr & Hwf & Hroot & Hs).
  unfold getNodeForPath.
  replace (node_for_path fs (homeNode fs) h w) with (node_for_path fs (root_id t) h w) by (by rewrite Hroot).
  by apply (node_for_path_run (homeNode fs)).
Qed.

Lemma getChildrenNamesForNode_run parent t w :
  tree_ready w -> String.length parent = nodeLength fs -> tree_wf t ->
  stored parent t (tree_map w) (name_map w) ->
  getChildrenNamesForNode fs (root_id t) w = (Ret (root_name <$> kids t), w).
Proof.
  intros Hr Hp Hwf Hs. unfold getChildrenNamesForNode.
  erewrite bind_Ret by (by eapply GetChildrenForNode_run). rewrite pieces_of_value by done. simpl.
  eapply names_of_nodes_run; [done|by eapply kids_of_stored].
Qed.

(** ** Traversal *)

Lemma leaves_node prefix i n l : l <> [] ->
  leaves prefix (Node i n l) = flat_map (leaves (prefix +:+ "/" +:+ n)) l.
Proof. by destruct l. Qed.

Lemma preOrderTraversal_run fuel parent t prefix w :
  tree_ready w -> String.length parent = nodeLength fs -> tree_wf t ->
  stored parent t (tree_map w) (name_map w) -> height t <= fuel ->
  preOrderTraversal fs fuel (root_id t) prefix w = (Ret (leaves prefix t), w).
Proof.
  intros Hr. revert parent t prefix. induction fuel as [|fuel IH]; intros parent t prefix Hp Hwf Hs Hf.
  { destruct t; simpl in Hf; lia. }
  simpl. erewrite bind_Ret by (apply ignoring_Ret; by eapply GetFolderNameForNode_run).
  erewrite bind_Ret by (apply ignoring_Ret; by eapply GetChildrenForNode_run).
  destruct (decide (String.length (tree_value parent t) = nodeLength fs)) as [Hl|Hl].
  - apply value_is_leaf in Hl; [|done|done]. destruct t as [i n l]. simpl in Hl. by subst.
  - rewrite pieces_of_value by done. cbn [tail].
    assert (kids t <> []) as Hk by (intros Hk; apply Hl; by apply value_is_leaf).
    assert (forall l ans, (forall c, c ∈ l -> c ∈ kids t) ->
      for_fold (root_id <$> l) ans (fun ans node => whole fs node (
        leaves ← preOrderTraversal fs fuel node (prefix +:+ "/" +:+ root_name t);
        mret (ans ++ leaves))) w
      = (Ret (ans ++ flat_map (leaves (prefix +:+ "/" +:+ root_name t)) l), w)) as Hloop.
    { intros l. induction l as [|c l IHl]; intros ans Hl'; [by rewrite app_nil_r|].
      rewrite fmap_cons. cbn [for_fold flat_map].
      assert (c ∈ kids t) as Hc by (apply Hl'; by left).
      erewrite bind_Ret; [rewrite IHl by (intros; apply Hl'; by right); by rewrite app_assoc|].
      rewrite whole_run by (by apply wf_root_length, (wf_kid t)).
      erewrite bind_Ret; [done|]. apply (IH (root_id t)); [by apply wf_root_length|by eapply wf_kid|
        by eapply stored_kid|]. apply height_kid in Hc. lia. }
    rewrite (Hloop (kids t)) by done. destruct t as [i n l]. simpl in *. by destruct l.
Qed.

Lemma leaves_prefix p q t : leaves (p +:+ q) t = (fun s => p +:+ s) <$> leaves q t.
Proof.
  revert q. induction t as [i n l IH] using tree_induction. intros q. destruct l as [|c l].
  - simpl. by rewrite s_app_assoc.
  - rewrite !leaves_node by done. rewrite s_app_assoc. revert IH. generalize (c :: l).
    induction 1 as [|d k Hd _ IHk]; cbn [flat_map]; [done|]. by rewrite fmap_app, Hd, IHk.
Qed.

Lemma leaves_nonempty q t : Forall (fun s => String.length s <> 0) (leaves q t).
Proof.
  revert q. induction t as [i n l IH] using tree_induction. intros q. destruct l as [|c l].
  - simpl. constructor; [|done]. rewrite !s_length_app. simpl. lia.
  - rewrite leaves_node by done. revert IH. generalize (c :: l).
    induction 1 as [|d k Hd _ IHk]; cbn [flat_map]; [done|]. by apply Forall_app.
Qed.

Lemma cut_each_run {W} p (l : list string) (w : W) :
  cut_each (String.length p) ((fun s => p +:+ s) <$> l) w = (Ret l, w).
Proof.
  induction l as [|s l IH]; [done|]. rewrite fmap_cons. cbn [cut_each].
  rewrite decide_True by (rewrite s_length_app; lia). erewrite bind_Ret by exact IH.
  by rewrite s_drop_app.
Qed.

(** The paths below the home folder, without its name. *)
Definition home_leaves (t : tree) : list string := flat_map (leaves EmptyString) (kids t).

Lemma filter_nonempty (l : list string) :
  Forall (fun s => String.length s <> 0) l -> filter (fun x => String.length x <> 0) l = l.
Proof. induction 1 as [|s l Hs _ IH]; [done|]. by rewrite filter_cons_True, IH. Qed.

Lemma GetLeavesList_all fuel path t w :
  represents t w -> height t <= fuel -> trim_char "/"%char path = EmptyString ->
  GetLeavesList fs fuel path w = (Ret (home_leaves t), w).
Proof.
  intros Hrep Hf Hpath. pose proof (home_length t w Hrep) as Hh.
  destruct Hrep as (Hr & Hwf & Hroot & Hs). unfold GetLeavesList.
  rewrite bool_decide_eq_true_2 by done. cbv zeta. erewrite bind_Ret by done. rewrite <-Hroot in *.
  erewrite bind_Ret by (by eapply preOrderTraversal_run).
  erewrite bind_Ret.
  2: { erewrite bind_Ret by (apply ignoring_Ret; by eapply GetFolderNameForNode_run).
    assert (leaves EmptyString t =
      (fun s => ("/" +:+ root_name t) +:+ s) <$>
        (match kids t with [] => [EmptyString] | _ => home_leaves t end)) as ->.
    { destruct t as [i n l]. destruct l as [|c l]; simpl kids; cbv iota.
      - simpl. by rewrite s_app_nil_r.
      - rewrite leaves_node by done. unfold home_leaves. simpl kids. generalize (c :: l).
        intros k. induction k as [|d k IHk]; cbn [flat_map]; [done|].
        rewrite fmap_app, IHk, <-leaves_prefix, s_app_nil_r. done. }
    replace (String.length (root_name t) + 1) with (String.length ("/" +:+ root_name t))
      by (rewrite s_length_app; simpl; lia).
    apply cut_each_run. }
  destruct (kids t) eqn:E; [by unfold home_leaves; rewrite E|]. rewrite filter_nonempty; [done|].
  unfold home_leaves. generalize (kids t). intros k.
  induction k as [|d k IHk]; cbn [flat_map]; [done|]. apply Forall_app. split; [apply leaves_nonempty|done].
Qed.

Lemma GetLeavesList_path fuel path t w :
  represents t w -> height t <= fuel -> trim_char "/"%char path <> EmptyString ->
  GetLeavesList fs fuel path w =
  (match find_path t (hierarchy_of path) with inr t' => Ret (leaves EmptyString t') | inl e => Fail e end, w).
Proof.
  intros Hrep Hf Hpath. unfold GetLeavesList. rewrite bool_decide_eq_false_2 by done. cbv zeta.
  pose proof (getNodeForPath_run t (hierarchy_of path) w Hrep) as En.
  pose proof (home_length t w Hrep) as Hh. destruct Hrep as (Hr & Hwf & Hroot & Hs).
  destruct (find_path t (hierarchy_of path)) as [e|t'] eqn:E; [by erewrite bind_Fail by exact En|].
  erewrite bind_Ret by exact En.
  destruct (find_path_stored _ _ _ _ w Hh Hwf Hs E) as (p' & Hp' & Hwf' & Hs' & _).
  erewrite bind_Ret by (eapply preOrderTraversal_run; eauto using find_path_height).
  erewrite bind_Ret by done. by rewrite filter_nonempty by apply leaves_nonempty.
Qed.
End Repr.
