(* ===== verification/TreeUpdate.v ===== *)
(** Updates of the hierarchy of folders, on trees: adding and removing a folder at
    a path, and what creating and deleting folders does to the tree that the
    database represents. *)
From S2P Require Import Prelude GoStrings Host Storage FlatIndex Tree TreeSpec.

(** ** Updates of trees *)

Definition add_kid (c : tree) (t : tree) : tree := let 'Node i n l := t in Node i n (l ++ [c]).
Definition drop_kid (id : string) (t : tree) : tree :=
  let 'Node i n l := t in Node i n (filter (fun c => root_id c <> id) l).

Fixpoint modify_at (g : tree -> tree) (hierarchy : list string) (t : tree) : tree :=
  match hierarchy with
  | [] => g t
  | folder :: hierarchy' =>
      match list_find (fun c => root_name c = folder) (kids t) with
      | Some (k, c) => Node (root_id t) (root_name t) (<[k := modify_at g hierarchy' c]> (kids t))
      | None => t
      end
  end.

(** The folder at a path with its parent node. *)
Fixpoint find_at (parent : string) (t : tree) (hierarchy : list string) : option (string * tree) :=
  match hierarchy with
  | [] => Some (parent, t)
  | folder :: hierarchy' => c ← child_named (kids t) folder; find_at (root_id t) c hierarchy'
  end.

Lemma find_at_path parent t h t' :
  find_path t h = inr t' <-> exists p, find_at parent t h = Some (p, t').
Proof.
  revert parent t. induction h as [|f h IH]; intros parent t; simpl; [naive_solver|].
  destruct (child_named (kids t) f) as [c|]; simpl; [|naive_solver]. apply IH.
Qed.

Lemma find_path_app t h f t' : find_path t (h ++ [f]) = inr t' ->
  exists tp, find_path t h = inr tp /\ child_named (kids tp) f = Some t'.
Proof.
  revert t. induction h as [|g h IH]; intros t; simpl.
  - destruct (child_named (kids t) f) as [c|] eqn:E; [|done]. intros [= <-]. by exists t.
  - destruct (child_named (kids t) g) as [c|]; [apply IH|done].
Qed.

(** A child in the list of its siblings. *)
Lemma child_split l folder k c :
  list_find (fun c => root_name c = folder) l = Some (k, c) ->
  exists l1 l2, l = l1 ++ c :: l2 /\ (forall c', <[k := c']> l = l1 ++ c' :: l2) /\ c ∈ l /\
    child_named l folder = Some c.
Proof.
  intros E. pose proof E as (Hl & _ & _)%list_find_Some.
  exists (take k l), (drop (S k) l). split_and!.
  - by rewrite take_drop_middle.
  - intros c'. apply insert_take_drop. by eapply lookup_lt_Some.
  - by eapply list_elem_of_lookup_2.
  - unfold child_named. by rewrite E.
Qed.

Lemma child_named_None l folder :
  list_find (fun c => root_name c = folder) l = None -> child_named l folder = None.
Proof. unfold child_named. by intros ->. Qed.

Lemma modify_root (g : tree -> tree) h t :
  (forall x, root_id (g x) = root_id x) -> root_id (modify_at g h t) = root_id t.
Proof.
  intros Hg. destruct h as [|f h]; simpl; [apply Hg|]. by destruct (list_find _ _) as [[]|].
Qed.

(** The nodes of the modified tree, as a multiset. *)
Lemma modify_ids g h p t p' t' : find_at p t h = Some (p', t') ->
  node_ids (modify_at g h t) ++ node_ids t' ≡ₚ node_ids t ++ node_ids (g t').
Proof.
  revert p t. induction h as [|f h IH]; intros p t; simpl.
  { intros [= <- <-]. by rewrite (Permutation_app_comm (node_ids (g t))). }
  destruct (list_find _ (kids t)) as [[k c]|] eqn:E; last first.
  { by rewrite (child_named_None _ _ E). }
  apply child_split in E as (l1 & l2 & Hl & Hins & _ & ->). simpl. intros Hf%IH.
  rewrite Hins. destruct t as [i n l]. simpl in *. subst l.
  rewrite !flat_map_app. simpl. constructor. rewrite <-!app_assoc. f_equiv.
  rewrite (Permutation_app_comm (flat_map node_ids l2)), app_assoc, Hf, <-!app_assoc. f_equiv.
  apply Permutation_app_comm.
Qed.

Lemma find_at_ids p t h p' t' : find_at p t h = Some (p', t') -> node_ids t' ⊆ node_ids t.
Proof.
  revert p t. induction h as [|f h IH]; intros p t; simpl; [by intros [= <- <-]|].
  destruct (child_named (kids t) f) as [c|] eqn:E; [|done]. simpl.
  apply child_named_elem in E as [Hc _]. intros Hf%IH. etrans; [exact Hf|by apply node_ids_kid].
Qed.

(** No child of the folder is its parent. *)
Lemma find_at_parent p t h p' t' :
  NoDup (node_ids t) -> p ∉ flat_map node_ids (kids t) -> find_at p t h = Some (p', t') ->
  NoDup (node_ids t') /\ p' ∉ flat_map node_ids (kids t').
Proof.
  revert p t. induction h as [|f h IH]; intros p t Hnd Hp; simpl; [by intros [= <- <-]|].
  destruct (child_named (kids t) f) as [c|] eqn:E; [|done]. simpl.
  apply child_named_elem in E as [Hc _]. destruct t as [i n l]. simpl in *.
  apply NoDup_cons in Hnd as [Hi Hnd].
  assert (node_ids c ⊆ flat_map node_ids l) as Hsub.
  { intros x Hx. apply list_elem_of_In, in_flat_map. exists c. by split; apply list_elem_of_In. }
  apply IH.
  - clear Hp Hi Hsub. induction Hc as [c l|c d l _ IHc]; simpl in Hnd; apply NoDup_app in Hnd; tauto.
  - intros Hin. apply Hi, Hsub. destruct c. simpl in *. by right.
Qed.

(** A tree with one part changed is stored when the part is stored and the
    entries of the other nodes are unchanged. *)
Lemma stored_modify g h p t p' t' tm nm tm' nm' :
  (forall x, root_id (g x) = root_id x) ->
  find_at p t h = Some (p', t') -> NoDup (node_ids t) -> stored p t tm nm ->
  (forall i, i ∈ node_ids t -> i ∉ node_ids t' -> tm' !! i = tm !! i /\ nm' !! i = nm !! i) ->
  stored p' (g t') tm' nm' -> stored p (modify_at g h t) tm' nm'.
Proof.
  intros Hg. revert p t. induction h as [|f h IH]; intros p t; simpl; [by intros [= <- <-]|].
  destruct (list_find _ (kids t)) as [[k c]|] eqn:E; last first.
  { by rewrite (child_named_None _ _ E). }
  apply child_split in E as (l1 & l2 & Hl & Hins & Hc & ->). simpl. intros Hf Hnd Hs Hsame Hnew.
  rewrite Hins. pose proof (find_at_ids _ _ _ _ _ Hf) as Hsub.
  assert (root_id (modify_at g h c) = root_id c) as Hrc by (by apply modify_root).
  destruct t as [i n l]. simpl in *. subst l. rewrite flat_map_app in Hnd. simpl in Hnd.
  apply NoDup_cons in Hnd as [Hi Hnd]. apply NoDup_app in Hnd as (Hnd1 & Hd1 & Hnd2).
  apply NoDup_app in Hnd2 as (Hndc & Hd2 & Hnd2).
  intros j v m [He|He]%elem_of_cons.
  - injection He as -> -> ->. rewrite !fmap_app, fmap_cons, Hrc.
    destruct (Hs i (p +:+ s_concat (root_id <$> l1 ++ c :: l2)) n) as [Ht Hn]; [by left|].
    destruct (Hsame i) as [-> ->]; [by left| |].
    { intros Hin. apply Hi. rewrite elem_of_app, elem_of_app. right; left. by apply Hsub. }
    rewrite fmap_app, fmap_cons in Ht. done.
  - rewrite flat_map_app in He. simpl in He. rewrite elem_of_app, elem_of_app in He.
    assert (forall d, d ∈ l1 ++ l2 -> (j, (v, m)) ∈ entries i d -> tm' !! j = Some v /\ nm' !! j = Some m) as Hother.
    { intros d Hd Hin. assert (j ∈ node_ids d) as Hj.
      { rewrite <-(entries_ids i). by eapply elem_of_firsts. }
      assert (j ∈ flat_map node_ids l1 ++ flat_map node_ids l2) as Hj'.
      { rewrite <-flat_map_app. apply list_elem_of_In, in_flat_map. exists d. by split; apply list_elem_of_In. }
      destruct (Hsame j) as [-> ->].
      - right. rewrite flat_map_app. simpl. set_solver.
      - intros Hjt%Hsub. apply elem_of_app in Hj' as [?|?]; [|by apply (Hd2 j)].
        apply (Hd1 j); [done|]. set_solver.
      - apply Hs. right. rewrite flat_map_app. simpl.
        assert (d ∈ l1 \/ d ∈ l2) as Hd' by set_solver.
        rewrite !elem_of_app. destruct Hd' as [Hd'|Hd']; [left|right; right];
          apply list_elem_of_In, in_flat_map; exists d; by split; apply list_elem_of_In. }
    assert (forall k : list tree, (j, (v, m)) ∈ flat_map (entries i) k -> exists d, d ∈ k /\ (j, (v, m)) ∈ entries i d) as Hfm.
    { intros k' (d & ? & ?)%list_elem_of_In%in_flat_map. exists d. by split; apply list_elem_of_In. }
    destruct He as [(d & Hd & Hin)%Hfm|[Hin|(d & Hd & Hin)%Hfm]].
    + apply (Hother d); [set_solver|done].
    + refine (IH i c Hf Hndc _ _ Hnew j v m Hin).
      * eapply (stored_kid p (Node i n (l1 ++ c :: l2))); [|exact Hs]. simpl. set_solver.
      * intros x Hx. apply Hsame. right. rewrite flat_map_app. simpl. set_solver.
    + apply (Hother d); [set_solver|done].
Qed.

(** *** Lookup after an update *)

Lemma modify_name (g : tree -> tree) h t :
  (forall x, root_name (g x) = root_name x) -> root_name (modify_at g h t) = root_name t.
Proof.
  intros Hg. destruct h as [|f h]; simpl; [apply Hg|]. by destruct (list_find _ _) as [[]|].
Qed.

Lemma child_named_insert l k folder c c' :
  list_find (fun c => root_name c = folder) l = Some (k, c) -> root_name c' = root_name c ->
  child_named (<[k := c']> l) folder = Some c'.
Proof.
  intros (Hl & Hn & Hbefore)%list_find_Some Hc'. unfold child_named.
  assert (list_find (fun c => root_name c = folder) (<[k := c']> l) = Some (k, c')) as ->; [|done].
  apply list_find_Some. split_and!; [by apply list_lookup_insert_eq; eapply lookup_lt_Some|congruence|].
  intros j y Hy Hj. rewrite list_lookup_insert_ne in Hy by lia. by eapply Hbefore.
Qed.

Lemma find_path_modify g h t t' r : (forall x, root_name (g x) = root_name x) ->
  find_path t h = inr t' -> find_path (modify_at g h t) (h ++ r) = find_path (g t') r.
Proof.
  intros Hg. revert t. induction h as [|f h IH]; intros t; simpl; [by intros [= <-]|].
  destruct (list_find _ (kids t)) as [[k c]|] eqn:E; last first.
  { by rewrite (child_named_None _ _ E). }
  assert (child_named (kids t) f = Some c) as -> by (unfold child_named; by rewrite E).
  intros Hf. simpl. erewrite child_named_insert by (exact E || by apply modify_name). by apply IH.
Qed.

(** No two folders of the same folder have the same name. *)
Inductive unique_names : tree -> Prop :=
  | unique_node i n l : NoDup (root_name <$> l) -> Forall unique_names l -> unique_names (Node i n l).

Lemma unique_kid t c : unique_names t -> c ∈ kids t -> unique_names c.
Proof. intros [i n l _ Hl] Hc. by apply (proj1 (Forall_forall _ _) Hl). Qed.

Lemma find_path_unique t h t' : unique_names t -> find_path t h = inr t' -> unique_names t'.
Proof.
  revert t. induction h as [|f h IH]; intros t Hu; simpl; [by intros [= <-]|].
  destruct (child_named (kids t) f) as [c|] eqn:E; [|done].
  apply child_named_elem in E as [Hc _]. by apply IH, (unique_kid t).
Qed.

Lemma modify_unique g h t t' : (forall x, root_name (g x) = root_name x) -> unique_names t ->
  find_path t h = inr t' -> unique_names (g t') -> unique_names (modify_at g h t).
Proof.
  intros Hg. revert t. induction h as [|f h IH]; intros t Hu; simpl; [by intros [= <-]|].
  destruct (list_find _ (kids t)) as [[k c]|] eqn:E; last first.
  { by rewrite (child_named_None _ _ E). }
  apply child_split in E as (l1 & l2 & Hl & Hins & Hc & ->). simpl. intros Hf Hnew.
  rewrite Hins. destruct Hu as [i n l Hnd Hall]. simpl in *. subst l.
  rewrite fmap_app, fmap_cons in Hnd. apply Forall_app in Hall as [H1 [Hcu H2]%Forall_cons].
  constructor.
  - by rewrite fmap_app, fmap_cons, modify_name.
  - apply Forall_app. split; [done|]. constructor; [by apply IH|done].
Qed.

Lemma add_kid_unique c t : unique_names t -> unique_names c -> root_name c ∉ (root_name <$> kids t) ->
  unique_names (add_kid c t).
Proof.
  intros [i n l Hnd Hl] Hc Hn. simpl in *. constructor.
  - rewrite fmap_app. apply NoDup_app. split_and!; [done| |apply NoDup_singleton].
    intros x Hx ->%list_elem_of_singleton. done.
  - apply Forall_app. split; [done|by constructor].
Qed.

Lemma child_named_app l1 l2 folder : folder ∉ (root_name <$> l1) ->
  child_named (l1 ++ l2) folder = child_named l2 folder.
Proof.
  unfold child_named. induction l1 as [|c l1 IH]; [done|]. rewrite fmap_cons, not_elem_of_cons. simpl.
  intros [Hn Hl]. rewrite decide_False by congruence. rewrite <-IH by done.
  by destruct (list_find _ (l1 ++ l2)) as [[]|].
Qed.

Lemma drop_kid_lookup t c : unique_names t -> c ∈ kids t ->
  child_named (kids (drop_kid (root_id c) t)) (root_name c) = None.
Proof.
  intros [i n l Hnd _] Hc. simpl in *. destruct (child_named _ _) as [d|] eqn:E; [|done].
  apply child_named_elem in E as [[Hd Hl]%list_elem_of_filter Hn]. destruct Hd.
  apply list_elem_of_lookup in Hc as [j Hj], Hl as [k Hk].
  assert (j = k) as <-; [|congruence].
  eapply NoDup_lookup; [exact Hnd|rewrite list_lookup_fmap, Hj; simpl; done|].
  rewrite list_lookup_fmap, Hk. simpl. by rewrite Hn.
Qed.

(** ** Updates of the database *)
Section Update.
Context `{Bolt, Disk, Env} `{!BoltLaws}.
Variable fs : FileSystem.
Implicit Types (w : world).

Lemma tree_updated f w w' : db_updated Tree f w w' ->
  tree_map w' = f (tree_map w) /\ name_map w' = name_map w /\ satellite_map w' = satellite_map w.
Proof.
  intros U. split_and!; [by eapply db_updated_bucket| |];
    by (eapply db_updated_other; [exact U|done]).
Qed.
Lemma name_updated f w w' : db_updated FolderNameMapping f w w' ->
  tree_map w' = tree_map w /\ name_map w' = f (name_map w) /\ satellite_map w' = satellite_map w.
Proof.
  intros U. split_and!; [|by eapply db_updated_bucket|];
    by (eapply db_updated_other; [exact U|done]).
Qed.
Lemma satellite_updated f w w' : db_updated SatelliteMapping f w w' ->
  tree_map w' = tree_map w /\ name_map w' = name_map w /\ satellite_map w' = f (satellite_map w).
Proof.
  intros U. split_and!; [| |by eapply db_updated_bucket];
    by (eapply db_updated_other; [exact U|done]).
Qed.
Lemma tree_ready_updated b f w w' : db_updated b f w w' -> tree_ready w -> tree_ready w'.
Proof. intros U. unfold tree_ready. by rewrite !(db_updated_has _ _ _ _ _ U). Qed.

(** More entries do not matter. *)
Lemma stored_more p t tm nm tm' nm' :
  stored p t tm nm ->
  (forall i, i ∈ node_ids t -> tm' !! i = tm !! i /\ nm' !! i = nm !! i) -> stored p t tm' nm'.
Proof.
  intros Hs Hsame i v n He. destruct (Hsame i) as [-> ->]; [|by apply Hs].
  rewrite <-(entries_ids p). by eapply elem_of_firsts.
Qed.

(** [InsertNode] appends the node to its parent and gives it a value, or does
    nothing. *)
Lemma InsertNode_cases node parent v w o w' :
  tree_ready w -> tree_map w !! parent = Some v -> node <> parent ->
  InsertNode node parent w = (o, w') ->
  (o = Ret tt /\ db_updated Tree (<[parent := v +:+ node]> ∘ <[node := parent]>) w w') \/
  (exists e, o = Fail e /\ same_db w' w).
Proof.
  intros (Hb & _ & _) Hv Hne Hr.
  apply (db_update_body Tree (<[parent := v +:+ node]> ∘ <[node := parent]>)) in Hr as (_ & _ & Hr);
    [done|]. clear Hr. intros o1 tx. set (err := fun e => "[Filesystem][InsertNode] " +:+ e).
  destruct (wrap_error err (tx_put Tree node parent) (tx_begin (w_db w))) as [o2 tx1] eqn:E1.
  destruct (tx_touches_put _ _ _ _ _ _ _ Hb E1) as [[-> U1]|[e ->]].
  2: { erewrite bind_Fail by exact E1. intros [= <- <-]. right. by eexists. }
  erewrite bind_Ret by exact E1.
  assert (tx_bucket tx1 Tree = true) as Hb1 by (by rewrite (proj1 U1)).
  erewrite bind_Ret by (by apply tx_get_run).
  rewrite (proj1 (proj2 U1)), lookup_insert_ne by done. fold (bucket_of w Tree). fold (tree_map w).
  rewrite Hv. intros E2. destruct (tx_touches_put _ _ _ _ _ _ _ Hb1 E2) as [[-> U2]|[e ->]];
    [left; split; [done|by eapply bkt_updated_trans]|right; by eexists].
Qed.

(** The database after a part of the tree was changed. *)
Lemma represents_modify g h t p' t' w w' :
  (forall x, root_id (g x) = root_id x) -> represents fs t w ->
  find_at (homeNode fs) t h = Some (p', t') -> tree_ready w' -> tree_wf fs (modify_at g h t) ->
  (forall i, i ∈ node_ids t -> i ∉ node_ids t' ->
     tree_map w' !! i = tree_map w !! i /\ name_map w' !! i = name_map w !! i) ->
  stored p' (g t') (tree_map w') (name_map w') ->
  represents fs (modify_at g h t) w'.
Proof.
  intros Hg (Hr & Hwf & Hroot & Hs) Hf Hr' Hwf' Hsame Hnew. split_and!; [done|done| |].
  - by rewrite modify_root.
  - eapply stored_modify; [done|exact Hf|apply Hwf|exact Hs|done|done].
Qed.

Lemma find_at_stored t h p' t' w : represents fs t w -> find_at (homeNode fs) t h = Some (p', t') ->
  String.length p' = nodeLength fs /\ tree_wf fs t' /\ stored p' t' (tree_map w) (name_map w).
Proof.
  intros Hrep. pose proof (home_length fs t w Hrep) as Hh. destruct Hrep as (Hr & Hwf & _ & Hs).
  revert Hh Hwf Hs. generalize (homeNode fs). revert t. induction h as [|f h IH]; intros t p Hp Hwf Hs; simpl.
  { by intros [= <- <-]. }
  destruct (child_named (kids t) f) as [c|] eqn:E; [|done]. simpl. apply child_named_elem in E as [Hc _].
  apply IH; [by apply wf_root_length|by eapply wf_kid|by eapply stored_kid].
Qed.

Lemma home_not_below t w : represents fs t w -> homeNode fs ∉ flat_map node_ids (kids t).
Proof. intros (_ & (Hnd & _) & <- & _). destruct t. by apply NoDup_cons in Hnd as [? _]. Qed.

(** *** Creation *)

Lemma add_kid_root c t : root_id (add_kid c t) = root_id t.
Proof. by destruct t. Qed.
Lemma add_kid_ids c t : node_ids (add_kid c t) ≡ₚ node_ids t ++ node_ids c.
Proof. destruct t as [i n l]. simpl. by rewrite flat_map_app; simpl; rewrite app_nil_r. Qed.

Definition fresh_node (node : string) (t : tree) : Prop :=
  node ∉ node_ids t /\ String.length node = nodeLength fs.

Lemma add_wf node name h p t p' t' : tree_wf fs t -> fresh_node node t ->
  find_at p t h = Some (p', t') -> tree_wf fs (modify_at (add_kid (Node node name [])) h t).
Proof.
  intros (Hnd & Hlen & Hn) [Hfresh Hl] Hf. pose proof (modify_ids (add_kid (Node node name [])) _ _ _ _ _ Hf) as Hp.
  rewrite add_kid_ids in Hp. simpl in Hp.
  rewrite (Permutation_app_comm (node_ids t') [node]), app_assoc in Hp. apply Permutation_app_inv_r in Hp.
  split_and!; [..|done].
  - rewrite Hp. apply NoDup_app. split_and!; [done|set_solver|apply NoDup_singleton].
  - rewrite Hp. apply Forall_app. split; [done|by constructor].
Qed.

Lemma attach_cases node name h t p' t' w o w' :
  represents fs t w -> fresh_node node t -> find_at (homeNode fs) t h = Some (p', t') ->
  (put_folder_name node name;; InsertNode node (root_id t')) w = (o, w') ->
  (o = Ret tt /\ represents fs (modify_at (add_kid (Node node name [])) h t) w') \/
  (exists e, o = Fail e /\ represents fs t w').
Proof.
  intros Hrep Hfresh Hf. pose proof Hrep as (Hr & Hwf & Hroot & Hs).
  destruct (find_at_stored _ _ _ _ _ Hrep Hf) as (Hp' & Hwf' & Hs').
  pose proof (find_at_ids _ _ _ _ _ Hf) as Hsub.
  assert (node ∉ node_ids t') as Hn' by (intros Hin; by apply Hfresh, Hsub).
  destruct (put_folder_name node name w) as [o1 w1] eqn:E1.
  destruct (touches_update _ _ _ (tx_touches_put FolderNameMapping node name _) _ _ _ (proj1 (proj2 Hr)) E1)
    as (_ & _ & [[-> U1]|(e & -> & Hsame)]).
  2: { erewrite bind_Fail by exact E1. intros [= <- <-]. right. exists e. split; [done|by rewrite Hsame]. }
  erewrite bind_Ret by exact E1. destruct (name_updated _ _ _ U1) as (Et1 & En1 & _).
  assert (tree_ready w1) as Hr1 by (by eapply tree_ready_updated).
  assert (tree_map w1 !! root_id t' = Some (tree_value p' t')) as Hv.
  { rewrite Et1. apply (Hs' _ _ _ (entries_root p' t')). }
  intros E2. apply (InsertNode_cases _ _ _ _ _ _ Hr1 Hv) in E2 as [[-> U2]|(e & -> & Hsame)].
  3: { intros ->. by apply Hn', root_in_ids. }
  - left. split; [done|]. destruct (tree_updated _ _ _ U2) as (Et2 & En2 & _). simpl in Et2.
    assert (forall i, i <> node -> i <> root_id t' ->
      tree_map w' !! i = tree_map w !! i /\ name_map w' !! i = name_map w !! i) as Hsame.
    { intros i ? ?. rewrite Et2, Et1, En2, En1. by rewrite !lookup_insert_ne. }
    apply (represents_modify _ _ _ p' t' w); try done.
    + apply add_kid_root.
    + by eapply tree_ready_updated.
    + by eapply add_wf.
    + intros i Hi Hni. apply Hsame.
      * intros ->. by apply Hfresh.
      * intros ->. by apply Hni, root_in_ids.
    + destruct t' as [i n l]. simpl in *. intros j v m [He|He]%elem_of_cons.
      * injection He as -> -> ->. rewrite Et2, lookup_insert_eq, En2, En1, lookup_insert_ne by set_solver.
        split; [|apply (Hs' i (p' +:+ s_concat (root_id <$> l)) n); by left].
        unfold tree_value. simpl. by rewrite fmap_app, s_concat_app, s_app_assoc; simpl; rewrite s_app_nil_r.
      * rewrite flat_map_app, elem_of_app in He. simpl in He. destruct He as [He|He].
        -- assert (j ∈ flat_map node_ids l) as Hj.
           { apply list_elem_of_In, in_flat_map in He as (d & Hd & He). apply list_elem_of_In, in_flat_map.
             exists d. split; [done|]. apply list_elem_of_In. rewrite <-(entries_ids i).
             eapply elem_of_firsts. by apply list_elem_of_In. }
           destruct (Hsame j) as [-> ->]; [set_solver| |apply Hs'; by right].
           intros ->. destruct Hwf' as (Hnd & _). simpl in Hnd. by apply NoDup_cons in Hnd as [? _].
        -- apply list_elem_of_singleton in He. injection He as -> -> ->.
           rewrite Et2, lookup_insert_ne by set_solver. rewrite lookup_insert_eq, s_app_nil_r.
           by rewrite En2, En1, lookup_insert_eq.
  - right. exists e. split; [done|]. rewrite Hsame. split_and!; [done|done|done|].
    eapply stored_more; [exact Hs|]. intros i Hi. rewrite Et1, En1.
    split; [done|]. apply lookup_insert_ne. intros ->. by apply Hfresh.
Qed.

(** *** Removing a folder from its parent *)

Lemma drop_kid_root i t : root_id (drop_kid i t) = root_id t.
Proof. by destruct t. Qed.

Lemma drop_kid_ids t c : NoDup (node_ids t) -> c ∈ kids t ->
  node_ids (drop_kid (root_id c) t) ++ node_ids c ≡ₚ node_ids t.
Proof.
  destruct t as [i n l]. simpl. intros Hnd%NoDup_cons Hc. destruct Hnd as [_ Hnd]. constructor.
  assert (forall k, root_id c ∉ flat_map node_ids k ->
    filter (fun d => root_id d <> root_id c) k = k) as Hkeep.
  { intros k Hk. induction k as [|d k IH]; [done|]. simpl in Hk. apply not_elem_of_app in Hk as [Hd Hk].
    rewrite filter_cons_True, IH; [done|done|]. intros E. apply Hd. rewrite <-E. apply root_in_ids. }
  induction Hc as [c l|c d l Hc IH]; simpl in Hnd; apply NoDup_app in Hnd as (_ & Hdis & Hnd).
  - rewrite filter_cons_False by (intros Hne; by apply Hne). rewrite Hkeep.
    + simpl. apply Permutation_app_comm.
    + by apply Hdis, root_in_ids.
  - rewrite filter_cons_True.
    + simpl. rewrite <-app_assoc. f_equiv. by apply IH.
    + intros E. apply (Hdis (root_id d) (root_in_ids d)). rewrite E.
      apply list_elem_of_In, in_flat_map. exists c. split; apply list_elem_of_In; [done|apply root_in_ids].
Qed.

Lemma removed_ids p t h p' t' c : NoDup (node_ids t') -> find_at p t h = Some (p', t') -> c ∈ kids t' ->
  node_ids (modify_at (drop_kid (root_id c)) h t) ++ node_ids c ≡ₚ node_ids t.
Proof.
  intros Hnd Hf Hc. pose proof (modify_ids (drop_kid (root_id c)) _ _ _ _ _ Hf) as Hp.
  rewrite <-(drop_kid_ids t' c Hnd Hc) in Hp at 1.
  rewrite (Permutation_app_comm (node_ids (drop_kid (root_id c) t'))), !app_assoc in Hp.
  by apply Permutation_app_inv_r in Hp.
Qed.

Lemma without_node_run {W} node pieces (w : W) :
  Forall (fun p => String.length p = nodeLength fs) pieces ->
  without_node fs node pieces w = (Ret (s_concat (filter (fun p => p <> node) pieces)), w).
Proof.
  induction 1 as [|p pieces Hp _ IH]; [done|]. simpl. unfold whole. rewrite decide_True by done.
  erewrite bind_Ret by exact IH. destruct (decide (node = p)) as [->|Hne].
  - by rewrite filter_cons_False by (intros Hx; by apply Hx).
  - by rewrite filter_cons_True by done.
Qed.

Lemma filter_roots x (l : list tree) :
  filter (fun p => p <> x) (root_id <$> l) = root_id <$> filter (fun d => root_id d <> x) l.
Proof.
  induction l as [|d l IH]; [done|]. rewrite fmap_cons, !filter_cons, IH. by repeat case_decide.
Qed.

(** On a database that represents the tree the update of the parent is one [Put]. *)
Lemma unlink_node_run p t c w :
  tree_ready w -> String.length p = nodeLength fs -> tree_wf fs t ->
  p ∉ flat_map node_ids (kids t) -> stored p t (tree_map w) (name_map w) -> c ∈ kids t ->
  unlink_node fs (root_id c) w =
  db_update (wrap_error (fun e => "[Filesystem][DeleteNodeSubtree] " +:+ e)
    (tx_put Tree (root_id t) (tree_value p (drop_kid (root_id c) t)))) w.
Proof.
  intros (Hb & _) Hp Hwf Hpn Hs Hc. unfold unlink_node, db_update.
  erewrite bind_Ret by (by apply tx_get_run). fold (bucket_of w Tree). fold (tree_map w).
  destruct (stored_kid p t c _ _ Hc Hs _ _ _ (entries_root (root_id t) c)) as [-> _].
  rewrite decide_True by (unfold tree_value; rewrite s_length_app, (wf_root_length fs t Hwf); lia).
  assert (s_take (nodeLength fs) (tree_value (root_id t) c) = root_id t) as ->.
  { rewrite <-(wf_root_length fs t Hwf). apply s_take_app. }
  cbv zeta. erewrite bind_Ret by (by apply tx_get_run). fold (bucket_of w Tree). fold (tree_map w).
  destruct (Hs _ _ _ (entries_root p t)) as [-> _].
  rewrite (pieces_of_value fs p t Hp Hwf : pieces_of fs (default EmptyString (Some _)) = _).
  erewrite bind_Ret by (apply without_node_run; constructor; [done|by apply wf_kids_length]).
  assert (s_concat (filter (fun p0 => p0 <> root_id c) (p :: (root_id <$> kids t))) =
    tree_value p (drop_kid (root_id c) t)) as ->; [|done].
  rewrite filter_cons_True.
  - unfold tree_value. simpl. f_equal. rewrite filter_roots. by destruct t.
  - intros ->. apply Hpn, list_elem_of_In, in_flat_map. exists c.
    split; apply list_elem_of_In; [done|apply root_in_ids].
Qed.

(** After the update of its parent a folder is gone from the tree. *)
Lemma unlinked_represents t h p' t' c w w' :
  represents fs t w -> find_at (homeNode fs) t h = Some (p', t') -> c ∈ kids t' ->
  db_updated Tree <[root_id t' := tree_value p' (drop_kid (root_id c) t')]> w w' ->
  represents fs (modify_at (drop_kid (root_id c)) h t) w'.
Proof.
  intros Hrep Hf Hc U. destruct (find_at_stored _ _ _ _ _ Hrep Hf) as (Hp' & Hwf' & Hs').
  pose proof Hrep as (Hr & Hwf & Hroot & Hs). destruct (tree_updated _ _ _ U) as (Et & En & _).
  apply (represents_modify _ _ _ p' t' w); [apply drop_kid_root|done|done|by eapply tree_ready_updated|..].
  - pose proof (removed_ids _ _ _ _ _ _ (proj1 Hwf') Hf Hc) as Hp. destruct Hwf as (Hnd & Hlen & Hn).
    rewrite <-Hp in Hnd, Hlen. apply NoDup_app in Hnd as (? & _). apply Forall_app in Hlen as [? _].
    by split_and!.
  - intros i Hi Hni. rewrite Et, En. split; [|done]. apply lookup_insert_ne.
    intros <-. by apply Hni, root_in_ids.
  - destruct t' as [i n l]. simpl in *. intros j v m [He|He]%elem_of_cons.
    + injection He as -> -> ->. rewrite Et, lookup_insert_eq, En.
      split; [done|]. apply (Hs' i (p' +:+ s_concat (root_id <$> l)) n). by left.
    + assert (j ∈ flat_map node_ids l /\ (j, (v, m)) ∈ flat_map (entries i) l) as [Hj He'].
      { apply list_elem_of_In, in_flat_map in He as (d & Hd & He).
        apply list_elem_of_In, list_elem_of_filter in Hd as [_ Hd]. split.
        - apply list_elem_of_In, in_flat_map. exists d. split; [by apply list_elem_of_In|].
          apply list_elem_of_In. rewrite <-(entries_ids i). eapply elem_of_firsts. by apply list_elem_of_In.
        - apply list_elem_of_In, in_flat_map. exists d. split; [by apply list_elem_of_In|done]. }
      rewrite Et, En, lookup_insert_ne; [apply Hs'; by right|].
      intros ->. destruct Hwf' as (Hnd & _). simpl in Hnd. by apply NoDup_cons in Hnd as [? _].
Qed.
End Update.
