(* ===== verification/TreeDelete.v ===== *)
(** Deleting a subtree: on a database whose commits succeed, every node of the
    folder disappears from the three buckets and nothing else changes, whatever
    the disk answers. *)
From S2P Require Import Prelude GoStrings Host Storage FlatIndex Tree TreeSpec TreeUpdate.

Section Delete.
Context `{Bolt, Disk, Env} `{!BoltLaws}.
Variable fs : FileSystem.
Hypothesis Hrel : reliable.
Implicit Types (w : world).

(** The nodes [ids] are gone from the buckets, the others are as they were. *)
Definition erased (ids : list string) w w' : Prop :=
  tree_ready w' /\ forall i,
    if decide (i ∈ ids)
    then tree_map w' !! i = None /\ name_map w' !! i = None /\ satellite_map w' !! i = None
    else tree_map w' !! i = tree_map w !! i /\ name_map w' !! i = name_map w !! i /\
         satellite_map w' !! i = satellite_map w !! i.

Lemma erased_nil w : tree_ready w -> erased [] w w.
Proof. intros Hr. split; [done|]. intros i. by rewrite decide_False by apply not_elem_of_nil. Qed.

Lemma erased_app l1 l2 w1 w2 w3 : erased l1 w1 w2 -> erased l2 w2 w3 -> erased (l1 ++ l2) w1 w3.
Proof.
  intros [_ H12] [Hr H23]. split; [done|]. intros i. specialize (H12 i). specialize (H23 i).
  destruct (decide (i ∈ l1)) as [H1'|H1'], (decide (i ∈ l2)) as [H2'|H2'];
    [rewrite decide_True by set_solver|rewrite decide_True by set_solver|
     rewrite decide_True by set_solver|rewrite decide_False by set_solver];
    destruct H12 as (E1 & E2 & E3), H23 as (-> & -> & ->); done.
Qed.

Lemma erased_equiv l l' w w' : (forall i, i ∈ l <-> i ∈ l') -> erased l w w' -> erased l' w w'.
Proof.
  intros Hl [Hr He]. split; [done|]. intros i. specialize (He i).
  by rewrite (decide_ext (i ∈ l') (i ∈ l)) by (by rewrite Hl).
Qed.

Lemma erased_same_db l w w1 w2 : same_db w2 w1 -> erased l w w1 -> erased l w w2.
Proof.
  intros E [Hr He]. split; [by rewrite E|]. intros i. specialize (He i). by rewrite (tree_map_proper _ _ E), (name_map_proper _ _ E), (satellite_map_proper _ _ E).
Qed.

Lemma erased_kept l w w' p t : erased l w w' -> (forall i, i ∈ node_ids t -> i ∉ l) ->
  stored p t (tree_map w) (name_map w) -> stored p t (tree_map w') (name_map w').
Proof.
  intros [_ He] Hdis Hs. eapply stored_more; [exact Hs|]. intros i Hi. specialize (He i).
  rewrite decide_False in He by (by apply Hdis). by destruct He as (-> & -> & _).
Qed.

(** *** One node *)

Lemma delete_key_run b node w : has_bucket w b = true ->
  exists w', delete_key b node w = (Ret tt, w') /\ db_updated b (delete node) w w' /\ w_disk w' = w_disk w.
Proof.
  intros Hb. destruct (tx_delete_ok b node _ Hb) as (tx & E & U).
  destruct (db_update_reliable b (delete node) (wrap_error
    (fun e => "[Filesystem][DeleteNodeSubtree] " +:+ e) (tx_delete b node)) w tx Hrel) as (w' & ? & ? & ? & _);
    [by apply wrap_error_Ret|done|]. by exists w'.
Qed.

Lemma IsSatelliteFolder_run node w : tree_ready w ->
  IsSatelliteFolder node w = (Ret (bool_decide (is_Some (satellite_map w !! node))), w).
Proof.
  intros (_ & _ & Hb). unfold IsSatelliteFolder, succeeds, GetSatelliteFolderPath.
  pose proof (view_lookup SatelliteMapping node ("Satellite folder " +:+ node +:+ " does not exist") w Hb) as Hv.
  fold (satellite_map w) in Hv. destruct (satellite_map w !! node).
  - by erewrite bind_Ret by (by apply attempt_Ret).
  - by erewrite bind_Ret by (by apply attempt_Fail).
Qed.

(** What follows the first two deletions. *)
Definition delete_rest (node : string) : Hub unit :=
  satellite ← IsSatelliteFolder node;
  when satellite (
    satelliteFolderPath ← ignoring EmptyString (GetSatelliteFolderPath node);
    delete_key SatelliteMapping node;;
    remove_satellite_folder satelliteFolderPath);;
  disk_op (os_remove_all (node_folder fs node)).

Lemma quiet_remove p w : same_db (remove_satellite_folder p w).2 w /\ is_result (remove_satellite_folder p w).1.
Proof.
  unfold remove_satellite_folder. erewrite bind_Ret by done. destruct (os_exists _ _); simpl; [|done].
  apply quiet_disk.
Qed.

(** A quiet step at the end. *)
Lemma quiet_bind {A} (m : Hub unit) (k : unit -> Hub A) w :
  same_db (m w).2 w /\ is_result (m w).1 ->
  (forall w', same_db w' w -> same_db (k tt w').2 w' /\ is_result (k tt w').1) ->
  same_db ((m ≫= k) w).2 w /\ is_result ((m ≫= k) w).1.
Proof.
  unfold mbind, M_bind. destruct (m w) as [[[]| | |] w1]; simpl; intros [Hs Hr] Hk; try done.
  destruct (Hk w1 Hs). split; [by etrans|done].
Qed.

Lemma delete_rest_run node w : tree_ready w -> exists w1,
  db_updated SatelliteMapping (delete node) w w1 /\
  same_db (delete_rest node w).2 w1 /\ is_result (delete_rest node w).1.
Proof.
  intros Hr. unfold delete_rest. erewrite bind_Ret by (by apply IsSatelliteFolder_run).
  case_bool_decide as Hsat; simpl.
  - destruct (delete_key_run SatelliteMapping node w (proj2 (proj2 Hr))) as (w1 & E1 & U1 & _).
    exists w1. split; [done|].
    rewrite bind_assoc. erewrite bind_Ret by (apply ignoring_view_lookup, Hr).
    rewrite bind_assoc. erewrite bind_Ret by exact E1.
    apply quiet_bind; [apply quiet_remove|]. intros w' Hs. apply quiet_disk.
  - exists w. split; [|erewrite bind_Ret by done; apply quiet_disk].
    apply eq_None_not_Some in Hsat. split_and!; [done| |done]. symmetry. by apply delete_id.
Qed.

Lemma delete_node_run node w : tree_ready w -> exists o w',
  (delete_key Tree node;; delete_key FolderNameMapping node;; delete_rest node) w = (o, w') /\
  is_result o /\ erased [node] w w'.
Proof.
  intros Hr. destruct (delete_key_run Tree node w (proj1 Hr)) as (w1 & E1 & U1 & _).
  assert (tree_ready w1) as Hr1 by (by eapply tree_ready_updated).
  destruct (delete_key_run FolderNameMapping node w1 (proj1 (proj2 Hr1))) as (w2 & E2 & U2 & _).
  assert (tree_ready w2) as Hr2 by (by eapply tree_ready_updated).
  destruct (delete_rest_run node w2 Hr2) as (w3 & U3 & Hs & Ho).
  erewrite bind_Ret by exact E1. erewrite bind_Ret by exact E2.
  eexists _, _. split; [apply surjective_pairing|]. split; [exact Ho|].
  eapply erased_same_db; [exact Hs|]. split; [by eapply tree_ready_updated|].
  destruct (tree_updated _ _ _ U1) as (Et1 & En1 & Es1).
  destruct (name_updated _ _ _ U2) as (Et2 & En2 & Es2).
  destruct (satellite_updated _ _ _ U3) as (Et3 & En3 & Es3).
  intros i. rewrite Et3, Et2, Et1, En3, En2, En1, Es3, Es2, Es1. case_decide as Hi.
  - apply list_elem_of_singleton in Hi as ->. by rewrite !lookup_delete_eq.
  - rewrite !lookup_delete_ne by set_solver. done.
Qed.

(** *** Subtrees *)

Lemma DeleteNodeSubtree_run fuel p t w :
  tree_ready w -> String.length p = nodeLength fs -> tree_wf fs t ->
  stored p t (tree_map w) (name_map w) -> height t <= fuel ->
  exists o w', DeleteNodeSubtree fs fuel (root_id t) w = (o, w') /\ is_result o /\ erased (node_ids t) w w'.
Proof.
  revert p t w. induction fuel as [|fuel IH]; intros p t w Hr Hp Hwf Hs Hf.
  { destruct t; simpl in Hf; lia. }
  cbn [DeleteNodeSubtree]. erewrite bind_Ret by (by eapply GetChildrenForNode_run).
  rewrite pieces_of_value by done. cbn [tail].
  assert (forall l w1, tree_ready w1 -> NoDup (flat_map node_ids l) ->
    (forall c, c ∈ l -> c ∈ kids t /\ stored (root_id t) c (tree_map w1) (name_map w1)) ->
    exists w2, for_each (root_id <$> l) (fun child => whole fs child
      (ignoring tt (DeleteNodeSubtree fs fuel child))) w1 = (Ret tt, w2) /\
      erased (flat_map node_ids l) w1 w2) as Hloop.
  { intros l. induction l as [|c l IHl]; intros w1 Hr1 Hnd Hl.
    { exists w1. split; [done|by apply erased_nil]. }
    destruct (Hl c) as [Hc Hsc]; [by left|]. simpl in Hnd. apply NoDup_app in Hnd as (_ & Hdis & Hnd).
    destruct (IH (root_id t) c w1 Hr1) as (o & w2 & E & Ho & He);
      [by apply wf_root_length|by eapply wf_kid|done|apply height_kid in Hc; lia|].
    destruct (IHl w2 (proj1 He) Hnd) as (w3 & E3 & He3).
    { intros d Hd. destruct (Hl d) as [? Hsd]; [by right|]. split; [done|].
      eapply erased_kept; [exact He| |exact Hsd]. intros i Hi Hic. apply (Hdis i Hic).
      apply list_elem_of_In, in_flat_map. exists d. by split; apply list_elem_of_In. }
    exists w3. rewrite fmap_cons. cbn [for_each flat_map].
    rewrite (bind_Ret _ _ _ tt w2).
    - split; [done|]. by eapply erased_app.
    - rewrite whole_run by (by apply wf_root_length, (wf_kid fs t)).
      destruct o as [[]|e| |]; try done; [by apply ignoring_Ret|by eapply ignoring_Fail]. }
  destruct t as [i n l]. destruct (Hloop l w Hr) as (w2 & E2 & He2).
  { destruct Hwf as (Hnd & _). simpl in Hnd. by apply NoDup_cons in Hnd as [_ ?]. }
  { intros c Hc. split; [done|]. by eapply (stored_kid p (Node i n l)). }
  simpl kids in *. simpl root_id in *. erewrite bind_Ret by exact E2.
  destruct (delete_node_run i w2 (proj1 He2)) as (o & w3 & E3 & Ho & He3).
  exists o, w3. split; [exact E3|]. split; [done|].
  eapply erased_equiv; [|eapply erased_app; [exact He2|exact He3]].
  intros j. simpl. rewrite elem_of_app, !elem_of_cons, elem_of_nil. tauto.
Qed.
End Delete.

(** *** Without reliable commits *)
Section Erode.
Context `{Bolt, Disk, Env} `{!BoltLaws}.
Variable fs : FileSystem.
Implicit Types (w : world).

(** Some entries of the nodes [ids] are gone, nothing else has changed. *)
Definition worn (ids : list string) (m m' : gmap string string) : Prop :=
  forall i, m' !! i = m !! i \/ i ∈ ids /\ m' !! i = None.
Definition eroded (ids : list string) w w' : Prop :=
  tree_ready w' /\ worn ids (tree_map w) (tree_map w') /\ worn ids (name_map w) (name_map w') /\
  worn ids (satellite_map w) (satellite_map w').

Lemma worn_refl ids m : worn ids m m.
Proof. by left. Qed.
Lemma worn_trans ids m1 m2 m3 : worn ids m1 m2 -> worn ids m2 m3 -> worn ids m1 m3.
Proof. intros H12 H23 i. destruct (H12 i) as [<-|[? E]], (H23 i) as [->|[? ->]]; rewrite ?E; auto. Qed.
Lemma worn_more ids ids' m m' : ids ⊆ ids' -> worn ids m m' -> worn ids' m m'.
Proof. intros Hsub Hw i. destruct (Hw i) as [->|[? ->]]; auto. Qed.
Lemma worn_delete ids m k : k ∈ ids -> worn ids m (delete k m).
Proof.
  intros Hk i. destruct (decide (i = k)) as [->|]; [right; split; [done|apply lookup_delete_eq]|].
  left. by apply lookup_delete_ne.
Qed.

Lemma eroded_refl ids w w' : tree_ready w -> same_db w' w -> eroded ids w w'.
Proof.
  intros Hr E. split; [by rewrite E|].
  rewrite (tree_map_proper _ _ E), (name_map_proper _ _ E), (satellite_map_proper _ _ E).
  split_and!; apply worn_refl.
Qed.
Lemma eroded_trans ids w1 w2 w3 : eroded ids w1 w2 -> eroded ids w2 w3 -> eroded ids w1 w3.
Proof. intros (_ & ? & ? & ?) (? & ? & ? & ?). split_and!; [done|by eapply worn_trans..]. Qed.
Lemma eroded_more ids ids' w w' : ids ⊆ ids' -> eroded ids w w' -> eroded ids' w w'.
Proof. intros Hs (? & ? & ? & ?). split_and!; [done|by eapply worn_more..]. Qed.

Lemma delete_key_cases b k w o w' : has_bucket w b = true -> delete_key b k w = (o, w') ->
  (o = Ret tt /\ db_updated b (delete k) w w') \/ (exists e, o = Fail e) /\ same_db w' w.
Proof.
  intros Hb E. destruct (touches_update _ _ _ (tx_touches_delete b k _) _ _ _ Hb E) as (_ & _ & [?|(e & -> & ?)]); eauto.
Qed.

Lemma eroded_delete b k ids w w' : b = Tree \/ b = FolderNameMapping \/ b = SatelliteMapping ->
  tree_ready w -> k ∈ ids -> db_updated b (delete k) w w' -> eroded ids w w'.
Proof.
  intros Hb Hr Hk U. split; [by eapply tree_ready_updated|].
  destruct Hb as [->|[->| ->]];
    [destruct (tree_updated _ _ _ U) as (-> & -> & ->)|destruct (name_updated _ _ _ U) as (-> & -> & ->)|
     destruct (satellite_updated _ _ _ U) as (-> & -> & ->)];
    split_and!; first [by apply worn_delete | apply worn_refl].
Qed.

Lemma delete_rest_erodes node ids w : tree_ready w -> node ∈ ids ->
  is_result (delete_rest fs node w).1 /\ eroded ids w (delete_rest fs node w).2 /\
  tree_map (delete_rest fs node w).2 = tree_map w /\ name_map (delete_rest fs node w).2 = name_map w.
Proof.
  intros Hr Hin. unfold delete_rest. erewrite bind_Ret by (by apply IsSatelliteFolder_run).
  assert (forall (m : Hub unit) w1, same_db (m w1).2 w1 /\ is_result (m w1).1 -> eroded ids w w1 ->
    tree_map w1 = tree_map w /\ name_map w1 = name_map w ->
    is_result (m w1).1 /\ eroded ids w (m w1).2 /\
    tree_map (m w1).2 = tree_map w /\ name_map (m w1).2 = name_map w) as Hquiet.
  { intros m w1 [Hs Ho] He [Et En]. split_and!; [done| |by rewrite Hs, Et|by rewrite Hs, En].
    eapply eroded_trans; [exact He|]. apply eroded_refl; [apply He|done]. }
  case_bool_decide; simpl; [|erewrite bind_Ret by done; apply Hquiet; [apply quiet_disk|by apply eroded_refl|done]].
  rewrite bind_assoc. erewrite bind_Ret by (apply ignoring_view_lookup, Hr). rewrite bind_assoc.
  destruct (delete_key SatelliteMapping node w) as [o w1] eqn:E.
  destruct (delete_key_cases _ _ _ _ _ (proj2 (proj2 Hr)) E) as [[-> U]|[[e ->] Hs]].
  - erewrite bind_Ret by exact E. apply Hquiet.
    + apply quiet_bind; [apply quiet_remove|]. intros. apply quiet_disk.
    + eapply eroded_delete; [|done|done|exact U]. auto.
    + by destruct (satellite_updated _ _ _ U) as (-> & -> & _).
  - erewrite bind_Fail by exact E. simpl. split_and!; [done|by apply eroded_refl|by rewrite Hs..].
Qed.

(** The value of a node is the one of the tree, or it is gone. *)
Definition half_stored p t w : Prop :=
  forall i v n, (i, (v, n)) ∈ entries p t -> tree_map w !! i = Some v \/ tree_map w !! i = None.

Lemma half_stored_eroded ids p t w w' : eroded ids w w' -> half_stored p t w -> half_stored p t w'.
Proof. intros (_ & He & _) Hs i v n Hi. destruct (He i) as [->|[_ ->]]; [by eapply Hs|by right]. Qed.

Lemma half_stored_kid p t c w : c ∈ kids t -> half_stored p t w -> half_stored (root_id t) c w.
Proof. intros Hc Hs i v n Hi. eapply Hs. by eapply entries_kid. Qed.

Lemma delete_node_erodes node ids w : tree_ready w -> node ∈ ids -> exists o w',
  (delete_key Tree node;; delete_key FolderNameMapping node;; delete_rest fs node) w = (o, w') /\
  is_result o /\ eroded ids w w' /\
  (o = Ret tt -> tree_map w' !! node = None /\ name_map w' !! node = None).
Proof.
  intros Hr Hin. destruct (delete_key Tree node w) as [o1 w1] eqn:E1.
  destruct (delete_key_cases _ _ _ _ _ (proj1 Hr) E1) as [[-> U1]|[[e ->] Hs]].
  2: { erewrite bind_Fail by exact E1. exists (Fail e), w1. split_and!; [done..|by apply eroded_refl|done]. }
  assert (eroded ids w w1) as He1 by (eapply eroded_delete; [|done|done|exact U1]; auto).
  erewrite bind_Ret by exact E1. destruct (delete_key FolderNameMapping node w1) as [o2 w2] eqn:E2.
  destruct (delete_key_cases _ _ _ _ _ (proj1 (proj2 (proj1 He1))) E2) as [[-> U2]|[[e ->] Hs]].
  2: { erewrite bind_Fail by exact E2. exists (Fail e), w2. split_and!; [done..| |done].
    eapply eroded_trans; [exact He1|]. apply eroded_refl; [apply He1|done]. }
  assert (eroded ids w1 w2) as He2 by (eapply eroded_delete; [|apply He1|done|exact U2]; auto).
  erewrite bind_Ret by exact E2.
  destruct (delete_rest_erodes node ids w2 (proj1 He2) Hin) as (Ho & He3 & Et & En).
  eexists _, _. split; [apply surjective_pairing|]. split_and!; [done| |].
  - eapply eroded_trans; [exact He1|]. by eapply eroded_trans.
  - intros _. rewrite Et, En. destruct (tree_updated _ _ _ U1) as (Et1 & _).
    destruct (name_updated _ _ _ U2) as (Et2 & En2 & _).
    by rewrite Et2, Et1, En2, !lookup_delete_eq.
Qed.

(** Whatever the commits do, the deletion of a subtree removes entries of its own
    nodes only, returns, and when it returns no error its root is gone. *)
Lemma DeleteNodeSubtree_erodes fuel p t w :
  tree_ready w -> String.length p = nodeLength fs -> tree_wf fs t -> half_stored p t w -> height t <= fuel ->
  exists o w', DeleteNodeSubtree fs fuel (root_id t) w = (o, w') /\ is_result o /\ eroded (node_ids t) w w' /\
    (o = Ret tt -> tree_map w' !! root_id t = None /\ name_map w' !! root_id t = None).
Proof.
  revert p t w. induction fuel as [|fuel IH]; intros p t w Hr Hp Hwf Hs Hf.
  { destruct t; simpl in Hf; lia. }
  cbn [DeleteNodeSubtree].
  assert (GetChildrenForNode (root_id t) w =
    (match tree_map w !! root_id t with Some v => Ret v | None =>
       Fail "[Filesystem][GetChildrenForNode] can't find node  in Tree Bucket. Empty node" end, w)) as Ec.
  { unfold GetChildrenForNode. by rewrite view_lookup by apply Hr. }
  destruct (Hs _ _ _ (entries_root p t)) as [Hv|Hv]; rewrite Hv in Ec; last first.
  { erewrite bind_Fail by exact Ec. eexists _, w. split_and!; [done..|by apply eroded_refl|done]. }
  erewrite bind_Ret by exact Ec. rewrite pieces_of_value by done. cbn [tail].
  assert (forall l w1, (forall c, c ∈ l -> c ∈ kids t) -> tree_ready w1 -> half_stored p t w1 ->
    exists w2, for_each (root_id <$> l) (fun child => whole fs child
      (ignoring tt (DeleteNodeSubtree fs fuel child))) w1 = (Ret tt, w2) /\
      eroded (node_ids t) w1 w2) as Hloop.
  { intros l. induction l as [|c l IHl]; intros w1 Hl Hr1 Hs1.
    { exists w1. split; [done|by apply eroded_refl]. }
    assert (c ∈ kids t) as Hc by (apply Hl; by left).
    destruct (IH (root_id t) c w1 Hr1) as (o & w2 & E & Ho & He & _);
      [by apply wf_root_length|by eapply wf_kid|by eapply half_stored_kid|apply height_kid in Hc; lia|].
    apply (eroded_more _ (node_ids t)) in He; [|by apply node_ids_kid].
    destruct (IHl w2) as (w3 & E3 & He3); [intros d Hd; apply Hl; by right|apply He|by eapply half_stored_eroded|].
    exists w3. rewrite fmap_cons. cbn [for_each]. rewrite (bind_Ret _ _ _ tt w2).
    - split; [done|]. by eapply eroded_trans.
    - rewrite whole_run by (by apply wf_root_length, (wf_kid fs t)).
      destruct o as [[]|e| |]; try done; [by apply ignoring_Ret|by eapply ignoring_Fail]. }
  destruct (Hloop (kids t) w ltac:(done) Hr Hs) as (w2 & E2 & He2). erewrite bind_Ret by exact E2.
  destruct (delete_node_erodes (root_id t) (node_ids t) w2 (proj1 He2) (root_in_ids t)) as (o & w3 & E3 & Ho & He3 & Hgone).
  exists o, w3. split_and!; [exact E3|done|by eapply eroded_trans|exact Hgone].
Qed.
End Erode.
