(* ===== verification/TreeThms.v ===== *)
(** The properties of the hierarchy of folders. *)
From S2P Require Import Prelude GoStrings LogData Host Storage Logger CloudData FlatIndex Mstore Tree TreeSpec TreeUpdate TreeDelete Reference.
From Stdlib Require Import Ascii.

Section Tree.
Context `{Bolt, Disk, Env} `{!BoltLaws}.
Variable fs : FileSystem.
Implicit Types (w : world).

(** *** Starting *)

(** [if b.Get(k) == nil { b.Put(k, v) }] *)
Definition insert_if_missing (k v : string) (m : gmap string string) : gmap string string :=
  match m !! k with None => <[k := v]> m | Some _ => m end.

Lemma tx_touches_missing b k v g :
  tx_touches b (insert_if_missing k v)
    (x ← tx_get b k; match x with None => wrap_error g (tx_put b k v) | Some _ => mret tt end).
Proof.
  intros tx o tx' Hb. erewrite bind_Ret by (by apply tx_get_run).
  destruct (bkt_map tx b !! k) eqn:E; intros Hr.
  - injection Hr as <- <-. left. split; [done|]. split_and!; [done| |done].
    unfold insert_if_missing. by rewrite E.
  - destruct (tx_touches_put _ _ _ _ _ _ _ Hb Hr) as [[-> (? & Em & ?)]|[e ->]]; [|right; by eexists].
    left. split; [done|]. split_and!; [done| |done]. unfold insert_if_missing. by rewrite E.
Qed.

Lemma CreateHome_cases w o w' : tree_ready w -> CreateHome fs w = (o, w') ->
  (o = Ret tt /\ tree_ready w' /\
   tree_map w' = insert_if_missing (homeNode fs) (homeNode fs) (tree_map w) /\
   name_map w' = insert_if_missing (homeNode fs) "home" (name_map w)) \/
  (exists e, o = Fail e /\ same_db w' w).
Proof.
  intros Hr E. pose proof Hr as (Hb1 & Hb2 & Hb3).
  assert (db_update ((x ← tx_get Tree (homeNode fs);
      match x with None => wrap_error (fun e => "[Filesystem][CreateHome] " +:+ e)
        (tx_put Tree (homeNode fs) (homeNode fs)) | Some _ => mret tt end);;
    (x ← tx_get FolderNameMapping (homeNode fs);
      match x with None => wrap_error (fun e => "[Filesystem][CreateHome] " +:+ e)
        (tx_put FolderNameMapping (homeNode fs) "home") | Some _ => mret tt end)) w = (o, w')) as E'.
  { rewrite <-E. unfold CreateHome, db_update. by rewrite bind_assoc. }
  destruct (db_update_two Tree FolderNameMapping _ _ _ _ _ _ _ ltac:(done) Hb1 Hb2
    (tx_touches_missing _ _ _ _) (tx_touches_missing _ _ _ _) E') as [(-> & Hh & Et & En & _)|?]; [|by right].
  left. split_and!; [done| |done|done]. unfold tree_ready. by rewrite !Hh.
Qed.

Lemma bucket_kept b w w' : (forall b, has_bucket w b = true -> has_bucket w' b = true /\ bucket_of w' b = bucket_of w b) ->
  has_bucket w b = true -> bucket_of w' b = bucket_of w b.
Proof. intros Hk Hb. by destruct (Hk b Hb). Qed.

(** The three buckets are created when they are missing. *)
Lemma create_buckets w o w' : (CreateBucket Tree;; CreateBucket FolderNameMapping;; CreateBucket SatelliteMapping) w = (o, w') ->
  is_result o /\ (o = Ret tt -> tree_ready w') /\
  (forall b, has_bucket w b = true -> has_bucket w' b = true /\ bucket_of w' b = bucket_of w b) /\
  (o = Ret tt -> has_bucket w Tree = false -> has_bucket w FolderNameMapping = false ->
   tree_map w' = ∅ /\ name_map w' = ∅).
Proof.
  destruct (CreateBucket Tree w) as [o1 w1] eqn:E1.
  destruct (CreateBucket_cases _ _ _ _ E1) as (Ho1 & Hk1 & Hn1 & Hb'1).
  destruct o1 as [[]|e| |]; try done; last first.
  { erewrite bind_Fail by exact E1. by intros [= <- <-]. }
  erewrite bind_Ret by exact E1. destruct (Hn1 eq_refl) as [Hb1 Hm1].
  destruct (CreateBucket FolderNameMapping w1) as [o2 w2] eqn:E2.
  destruct (CreateBucket_cases _ _ _ _ E2) as (Ho2 & Hk2 & Hn2 & Hb'2).
  assert (forall b, has_bucket w b = true -> has_bucket w2 b = true /\ bucket_of w2 b = bucket_of w b) as Hk12.
  { intros b [Hb Eb]%Hk1. destruct (Hk2 b Hb). split; congruence. }
  destruct o2 as [[]|e| |]; try done; last first.
  { erewrite bind_Fail by exact E2. by intros [= <- <-]. }
  erewrite bind_Ret by exact E2. destruct (Hn2 eq_refl) as [Hb2 Hm2]. intros E3.
  destruct (CreateBucket_cases _ _ _ _ E3) as (Ho3 & Hk3 & Hn3 & Hb'3).
  split_and!; [done|..].
  - intros ->. destruct (Hn3 eq_refl) as [? _]. split_and!; [by apply Hk3, Hk2|by apply Hk3|done].
  - intros b [Hb Eb]%Hk12. destruct (Hk3 b Hb). split; congruence.
  - intros -> Hf1 Hf2. unfold tree_map, name_map. split.
    + rewrite (bucket_kept Tree w2 w'), (bucket_kept Tree w1 w2) by (done || by apply Hk2). by apply Hm1.
    + rewrite (bucket_kept FolderNameMapping w2 w') by done. apply Hm2. by rewrite Hb'1.
Qed.

Lemma Old_InitFileSystem_run w o w' : Old_InitFileSystem fs w = (o, w') -> o = Ret tt ->
  exists w1, (CreateBucket Tree;; CreateBucket FolderNameMapping;; CreateBucket SatelliteMapping) w = (Ret tt, w1) /\
    tree_ready w' /\
    tree_map w' = insert_if_missing (homeNode fs) (homeNode fs) (tree_map w1) /\
    name_map w' = insert_if_missing (homeNode fs) "home" (name_map w1).
Proof.
  intros E ->.
  assert (((CreateBucket Tree;; CreateBucket FolderNameMapping;; CreateBucket SatelliteMapping);;
    CreateHome fs;; CreateHomeFolder fs) w = (Ret tt, w')) as E'.
  { rewrite <-E. unfold Old_InitFileSystem. rewrite bind_assoc. apply bind_ext. intros [] w2. by rewrite bind_assoc. }
  clear E. destruct ((CreateBucket Tree;; CreateBucket FolderNameMapping;; CreateBucket SatelliteMapping) w)
    as [o1 w1] eqn:E1. destruct (create_buckets _ _ _ E1) as (Ho & Hr & _).
  destruct o1 as [[]|e| |]; try done; [|by erewrite bind_Fail in E' by exact E1].
  erewrite bind_Ret in E' by exact E1. specialize (Hr eq_refl). exists w1. split; [done|].
  destruct (CreateHome fs w1) as [o2 w2] eqn:E2.
  destruct (CreateHome_cases _ _ _ Hr E2) as [(-> & Hr2 & Et & En)|(e & -> & _)];
    [|by erewrite bind_Fail in E' by exact E2].
  erewrite bind_Ret in E' by exact E2. unfold CreateHomeFolder in E'.
  destruct (quiet_disk (os_mkdir_all (GetHomeFolder fs)) w2) as [Hs _]. rewrite E' in Hs. simpl in Hs.
  by rewrite Hs.
Qed.

(** Starting the hierarchy on a database without it leaves a database that
    represents the empty home folder; starting it again, on a database that
    represents some tree, keeps that tree. *)
Lemma old_init_represents w w' :
  0 < nodeLength fs -> String.length (homeNode fs) = nodeLength fs ->
  Old_InitFileSystem fs w = (Ret tt, w') ->
  (has_bucket w Tree = false -> has_bucket w FolderNameMapping = false ->
     represents fs (Node (homeNode fs) "home" []) w') /\
  (forall t, represents fs t w -> represents fs t w').
Proof.
  intros Hn Hl E. destruct (Old_InitFileSystem_run _ _ _ E eq_refl) as (w1 & E1 & Hr & Et & En).
  destruct (create_buckets _ _ _ E1) as (_ & _ & Hk & Hfresh). split.
  - intros Hf1 Hf2. destruct (Hfresh eq_refl Hf1 Hf2) as [Et1 En1]. split_and!; [done| |done|].
    + split_and!; simpl; [apply NoDup_singleton|by constructor|done].
    + intros i v n [He|He%elem_of_nil]%elem_of_cons; [|done]. simpl in He. injection He as -> -> ->.
      rewrite Et, En, Et1, En1. unfold insert_if_missing. rewrite !lookup_empty, !lookup_insert_eq.
      by rewrite s_app_nil_r.
  - intros t (Hrt & Hwf & Hroot & Hs). split_and!; [done|done|done|].
    assert (tree_map w1 = tree_map w /\ name_map w1 = name_map w) as [Et1 En1].
    { split; [apply (Hk Tree)|apply (Hk FolderNameMapping)]; apply Hrt. }
    intros i v n He. destruct (Hs i v n He) as [Hi Hm]. rewrite Et, En, Et1, En1.
    destruct (Hs _ _ _ (entries_root (homeNode fs) t)) as [Hi' Hm']. rewrite Hroot in Hi', Hm'.
    unfold insert_if_missing. by rewrite Hi', Hm'.
Qed.

(** C23: on a database that represents a tree, [getNodeForPath] walks the tree:
    it returns the node of the folder at the path, or the error that names the
    first folder that is missing; nothing changes. *)
Theorem path_lookup_is_tree_lookup t h w :
  represents fs t w ->
  getNodeForPath fs h w =
  (match find_path t h with inr t' => Ret (root_id t') | inl e => Fail e end, w).
Proof. apply getNodeForPath_run. Qed.

(** With fuel for the height of the tree, [GetLeavesList] returns the paths of
    the folders without children, in order: of the whole tree, without the home
    folder's own name, for a path of slashes only, and of the folder at the path
    otherwise, starting with that folder's name. *)
Theorem leaves_are_tree_leaves fuel path t w :
  represents fs t w -> height t <= fuel ->
  GetLeavesList fs fuel path w =
  (if decide (trim_char "/"%char path = EmptyString) then Ret (home_leaves t)
   else match find_path t (hierarchy_of path) with
        | inr t' => Ret (leaves EmptyString t')
        | inl e => Fail e
        end, w).
Proof.
  intros Hrep Hf. case_decide; [by apply GetLeavesList_all|by apply GetLeavesList_path].
Qed.

(** The location of the folder at a path: where the satellite put it when its
    node is marked, and the node's own directory otherwise. *)
Lemma location_of_folder path t w :
  represents fs t w ->
  GetActualPathForAbstractedPath fs path w =
  (match find_path t (hierarchy_of path) with
   | inr t' => Ret (default (node_folder fs (root_id t')) (satellite_map w !! root_id t'))
   | inl e => Fail e
   end, w).
Proof.
  intros Hrep. pose proof (getNodeForPath_run fs t (hierarchy_of path) w Hrep) as En.
  unfold GetActualPathForAbstractedPath.
  destruct (find_path t (hierarchy_of path)) as [e|t']; [by erewrite bind_Fail by exact En|].
  erewrite bind_Ret by exact En. erewrite bind_Ret by (by apply IsSatelliteFolder_run, Hrep).
  destruct (satellite_map w !! root_id t') eqn:E.
  - rewrite bool_decide_eq_true_2 by done. unfold GetSatelliteFolderPath.
    rewrite view_lookup by apply Hrep. fold (satellite_map w). by rewrite E.
  - rewrite bool_decide_eq_false_2 by by intros [? ?]. done.
Qed.

(** The checks before a folder is created. *)
Lemma stringInSlice_spec l a : stringInSlice l a = bool_decide (a ∈ l).
Proof.
  apply Bool.eq_true_iff_eq. unfold stringInSlice. rewrite existsb_exists, bool_decide_eq_true, list_elem_of_In.
  split; [intros (b & Hb & ->%bool_decide_eq_true)|exists a]; [done|by rewrite bool_decide_eq_true_2].
Qed.

Lemma but_last_app (h : list string) f : but_last (h ++ [f]) = h.
Proof. unfold but_last. rewrite length_app. simpl. rewrite Nat.add_sub. by rewrite take_app_length. Qed.

(** The name is free at the folder that is to be the parent. *)
Definition target (t : tree) (hierarchy : list string) (name : string) : error + tree :=
  match find_path t (but_last hierarchy) with
  | inl e => inl e
  | inr tp => if decide (name ∈ (root_name <$> kids tp)) then inl folder_exists_error else inr tp
  end.

Lemma new_folder_parent_run t h name w : represents fs t w ->
  new_folder_parent fs h name w =
  (match target t h name with inr tp => Ret (root_id tp) | inl e => Fail e end, w).
Proof.
  intros Hrep. unfold new_folder_parent, target.
  pose proof (getNodeForPath_run fs t (but_last h) w Hrep) as En.
  destruct (find_path t (but_last h)) as [e|tp] eqn:E; [by erewrite bind_Fail by exact En|].
  erewrite bind_Ret by exact En.
  apply (find_at_path (homeNode fs)) in E as [p E].
  destruct (find_at_stored fs _ _ _ _ _ Hrep E) as (Hp & Hwf & Hs).
  erewrite bind_Ret by (by eapply getChildrenNamesForNode_run; try apply Hrep).
  rewrite stringInSlice_spec. case_bool_decide; by case_decide.
Qed.

Lemma CreateFolder_refines fuel h name t w o w' node :
  represents fs t w -> last h = Some name -> env_uuid (w_trace w) = node -> fresh_node fs node t ->
  CreateFolder fs (S fuel) h w = (o, w') ->
  match target t h name with
  | inl e => o = Fail e /\ represents fs t w'
  | inr _ =>
      ((o = Ret node \/ exists e, o = Fail e) /\
       represents fs (modify_at (add_kid (Node node name [])) (but_last h) t) w') \/
      ((exists e, o = Fail e) /\ represents fs t w')
  end.
Proof.
  intros Hrep Hlast Hu Hfresh. unfold CreateFolder, last_of. rewrite Hlast. erewrite bind_Ret by done.
  cbn [RandStringBytes].
  assert (node <> homeNode fs) as Hne.
  { intros ->. destruct Hrep as (_ & _ & Hroot & _). apply Hfresh. rewrite <-Hroot. apply root_in_ids. }
  erewrite bind_Ret by (erewrite bind_Ret by done; by rewrite Hu, decide_False).
  assert (represents fs t (log_event EvUuid w)) as Hrep1 by done.
  pose proof (new_folder_parent_run t h name _ Hrep1) as Ep.
  destruct (target t h name) as [e|tp] eqn:Et.
  { erewrite bind_Fail by exact Ep. by intros [= <- <-]. }
  erewrite bind_Ret by exact Ep. unfold target in Et.
  destruct (find_path t (but_last h)) as [e|tp'] eqn:E; [done|].
  case_decide; [done|]. injection Et as ->. apply (find_at_path (homeNode fs)) in E as [p E].
  intros Hrun. destruct ((put_folder_name node name;; InsertNode node (root_id tp)) (log_event EvUuid w))
    as [o1 w1] eqn:Ea.
  assert (((put_folder_name node name;; InsertNode node (root_id tp));;
    disk_op (os_mkdir_all (node_folder fs node));; mret node) (log_event EvUuid w) = (o, w')) as Hrun'.
  { rewrite <-Hrun, bind_assoc. by apply bind_ext. }
  destruct (attach_cases fs _ _ _ _ _ _ _ _ _ Hrep1 Hfresh E Ea) as [[-> Hrep2]|(e & -> & Hrep2)].
  - erewrite bind_Ret in Hrun' by exact Ea. left.
    destruct (quiet_disk (os_mkdir_all (node_folder fs node)) w1) as [Hs Hres].
    destruct (disk_op _ w1) as [[[]|e| |] w2] eqn:Ed; try done.
    + erewrite bind_Ret in Hrun' by exact Ed. injection Hrun' as <- <-. simpl in Hs. rewrite Hs. auto.
    + erewrite bind_Fail in Hrun' by exact Ed. injection Hrun' as <- <-. simpl in Hs. rewrite Hs. eauto.
  - erewrite bind_Fail in Hrun' by exact Ea. injection Hrun' as <- <-. right. eauto.
Qed.

(** C16: [CreateFolder] refuses a path whose parent is missing and a name that is
    taken, without a change; otherwise it adds an empty folder with the fresh node
    at the end of the parent's children, or fails and the database represents the
    same tree as before.  When the disk fails at the end the folder is in the
    tree although an error is returned. *)
Theorem create_folder_refines fuel h name t w o w' node :
  represents fs t w -> last h = Some name -> env_uuid (w_trace w) = node -> fresh_node fs node t ->
  CreateFolder fs (S fuel) h w = (o, w') ->
  match target t h name with
  | inl e => o = Fail e /\ represents fs t w'
  | inr _ =>
      ((o = Ret node \/ exists e, o = Fail e) /\
       represents fs (modify_at (add_kid (Node node name [])) (but_last h) t) w') \/
      ((exists e, o = Fail e) /\ represents fs t w')
  end.
Proof. apply CreateFolder_refines. Qed.

(** C20: sibling folders keep distinct names, and the folder that [CreateFolder]
    returned is the one found at its path afterwards. *)
Theorem created_folder_is_found fuel h name t w node w' :
  represents fs t w -> unique_names t -> last h = Some name -> fresh_node fs (env_uuid (w_trace w)) t ->
  CreateFolder fs (S fuel) h w = (Ret node, w') ->
  getNodeForPath fs h w' = (Ret node, w') /\ exists t', represents fs t' w' /\ unique_names t'.
Proof.
  intros Hrep Hu Hlast Hfresh Hrun.
  pose proof (CreateFolder_refines _ _ _ _ _ _ _ _ Hrep Hlast eq_refl Hfresh Hrun) as Hc.
  unfold target in Hc. destruct (find_path t (but_last h)) as [e|tp] eqn:E; [by destruct Hc|].
  case_decide as Hn; [by destruct Hc|].
  destruct Hc as [[[[= ->]|[e [=]]] Hrep']|[[e [=]] _]].
  set (c := Node (env_uuid (w_trace w)) name []) in *.
  assert (forall x, root_name (add_kid c x) = root_name x) as Hg by (by intros []).
  split.
  - rewrite (getNodeForPath_run fs _ h w' Hrep').
    destruct (last_Some h name) as [Hl _]. destruct (Hl Hlast) as [h' ->]. rewrite but_last_app in *.
    rewrite (find_path_modify _ h' t tp) by done. simpl. destruct tp as [i n l]. simpl in *.
    rewrite child_named_app by done. unfold child_named. simpl. by rewrite decide_True.
  - eexists. split; [exact Hrep'|]. eapply modify_unique; [done|done|exact E|].
    apply add_kid_unique; [by eapply find_path_unique| |done].
    constructor; [constructor|done].
Qed.

(** *** Downloads into a new folder *)

Lemma MarkFolderSatellite_cases node path w o w' : tree_ready w ->
  MarkFolderSatellite node path w = (o, w') ->
  (o = Ret tt /\ db_updated SatelliteMapping <[node := path]> w w') \/
  (exists e, o = Fail e /\ same_db w' w).
Proof. intros (_ & _ & Hb) E. by destruct (touches_update _ _ _ (tx_touches_put _ _ _ _) _ _ _ Hb E) as (_ & _ & ?). Qed.

Lemma satellite_represents f t w w' : db_updated SatelliteMapping f w w' -> represents fs t w -> represents fs t w'.
Proof.
  intros U (Hr & Hwf & Hroot & Hs). destruct (satellite_updated _ _ _ U) as (Et & En & _).
  split_and!; [by eapply tree_ready_updated|done|done|]. by rewrite Et, En.
Qed.

(** The database steps at the end of [CreateDownloadNewFolder]. *)
Definition record_folder (node name parent : string) (isSatellite : bool) (path : string) : Hub unit :=
  put_folder_name node name;;
  InsertNode node parent;;
  when isSatellite (MarkFolderSatellite node path).

Lemma record_folder_cases node name h t p tp isSatellite path w o w' :
  represents fs t w -> fresh_node fs node t -> find_at (homeNode fs) t h = Some (p, tp) ->
  record_folder node name (root_id tp) isSatellite path w = (o, w') ->
  (represents fs (modify_at (add_kid (Node node name [])) h t) w' /\
   (o = Ret tt /\ (isSatellite = true -> satellite_map w' !! node = Some path) \/ exists e, o = Fail e)) \/
  (exists e, o = Fail e) /\ represents fs t w'.
Proof.
  intros Hrep Hfresh Hat Hrun.
  destruct ((put_folder_name node name;; InsertNode node (root_id tp)) w) as [o1 w1] eqn:Ea.
  assert (((put_folder_name node name;; InsertNode node (root_id tp));;
    when isSatellite (MarkFolderSatellite node path)) w = (o, w')) as Hrun'.
  { rewrite <-Hrun. unfold record_folder. by rewrite bind_assoc. }
  destruct (attach_cases fs _ _ _ _ _ _ _ _ _ Hrep Hfresh Hat Ea) as [[-> Hrep2]|(e & -> & Hrep2)].
  - erewrite bind_Ret in Hrun' by exact Ea. left. destruct isSatellite; simpl in Hrun'.
    + destruct (MarkFolderSatellite_cases _ _ _ _ _ (proj1 Hrep2) Hrun') as [[-> U]|(e & -> & Hs)].
      * split; [by eapply satellite_represents|]. left. split; [done|]. intros _.
        destruct (satellite_updated _ _ _ U) as (_ & _ & ->). apply lookup_insert_eq.
      * split; [by rewrite Hs|]. right. by eexists.
    + injection Hrun' as <- <-. split; [done|]. by left.
  - erewrite bind_Fail in Hrun' by exact Ea. injection Hrun' as <- <-. right. split; [by eexists|done].
Qed.

(** C19: [CreateDownloadNewFolder], with a download that leaves the database alone:
    a missing parent and a taken name are refused; a failed download leaves the
    tree as it was; when the folder is in the tree the download into its
    directory had succeeded, and when no error is returned a satellite folder is
    marked with its location. *)
Theorem download_folder_refines fuel h name dfunc params isSatellite path t w o w' node :
  represents fs t w -> last h = Some name -> env_uuid (w_trace w) = node -> fresh_node fs node t ->
  (forall p w1, same_db (dfunc p params w1).2 w1 /\ is_result (dfunc p params w1).1) ->
  CreateDownloadNewFolder fs (S fuel) h dfunc params isSatellite path w = (o, w') ->
  match target t h name with
  | inl e => o = Fail e /\ represents fs t w'
  | inr _ =>
      (represents fs (modify_at (add_kid (Node node name [])) (but_last h) t) w' /\
       (exists w1, (dfunc (node_folder fs node) params w1).1 = Ret tt) /\
       (o = Ret tt /\ (isSatellite = true -> satellite_map w' !! node = Some path) \/ exists e, o = Fail e)) \/
      (exists e, o = Fail e) /\ represents fs t w'
  end.
Proof.
  intros Hrep Hlast Hu Hfresh Hd. unfold CreateDownloadNewFolder, last_of. rewrite Hlast. erewrite bind_Ret by done.
  cbn [RandStringBytes].
  assert (node <> homeNode fs) as Hne.
  { intros ->. destruct Hrep as (_ & _ & Hroot & _). apply Hfresh. rewrite <-Hroot. apply root_in_ids. }
  erewrite bind_Ret by (erewrite bind_Ret by done; by rewrite Hu, decide_False).
  assert (represents fs t (log_event EvUuid w)) as Hrep1 by done.
  pose proof (new_folder_parent_run t h name _ Hrep1) as Ep.
  destruct (target t h name) as [e|tp] eqn:Et.
  { erewrite bind_Fail by exact Ep. by intros [= <- <-]. }
  erewrite bind_Ret by exact Ep. unfold target in Et.
  destruct (find_path t (but_last h)) as [e|tp'] eqn:E; [done|].
  case_decide; [done|]. injection Et as ->. apply (find_at_path (homeNode fs)) in E as [p E]. cbv zeta.
  destruct (quiet_disk (os_mkdir_all (node_folder fs node)) (log_event EvUuid w)) as [Hs1 Hr1].
  destruct (disk_op _ (log_event EvUuid w)) as [[[]|e| |] w1] eqn:Ed1; try done; last first.
  { erewrite bind_Fail by exact Ed1. intros [= <- <-]. right. simpl in Hs1. rewrite Hs1. eauto. }
  erewrite bind_Ret by exact Ed1. simpl in Hs1.
  destruct (Hd (node_folder fs node) w1) as [Hs2 Hr2].
  destruct (dfunc (node_folder fs node) params w1) as [[[]|e| |] w2] eqn:Ed2; try done; simpl in Hs2.
  - erewrite bind_Ret by (by apply attempt_Ret). intros Hrun.
    assert (represents fs t w2) as Hrep2 by (by rewrite Hs2, Hs1).
    destruct (record_folder_cases _ _ _ _ _ _ _ _ _ _ _ Hrep2 Hfresh E Hrun) as [[Hrep3 Ho]|?]; [|by right].
    left. split_and!; [done|exists w1; by rewrite Ed2|done].
  - erewrite bind_Ret by (by apply attempt_Fail).
    destruct (quiet_disk (os_remove_all (node_folder fs node)) w2) as [Hs3 Hr3].
    intros Hrun. right.
    destruct (disk_op _ w2) as [[[]|e'| |] w3] eqn:Ed3; try done; simpl in Hs3.
    + erewrite bind_Ret in Hrun by exact Ed3. injection Hrun as <- <-. rewrite Hs3, Hs2, Hs1. eauto.
    + erewrite bind_Fail in Hrun by exact Ed3. injection Hrun as <- <-. rewrite Hs3, Hs2, Hs1. eauto.
Qed.

(** *** Deletion *)

Definition remove_at (h : list string) (t : tree) : tree :=
  match find_path t h with
  | inr sub => modify_at (drop_kid (root_id sub)) (but_last h) t
  | inl _ => t
  end.


(** What [DeleteFolder] does after the update of the parent. *)
Definition delete_below (fuel : nat) (node : string) (r : error + unit) : Hub unit :=
  satellite ← IsSatelliteFolder node;
  when satellite (
    satelliteFolderPath ← ignoring EmptyString (GetSatelliteFolderPath node);
    match r with
    | inl err => fail err
    | inr _ => disk_op (os_remove_all satelliteFolderPath)
    end);;
  disk_op (os_remove_all (node_folder fs node));;
  DeleteNodeSubtree fs fuel node.

(** Quiet steps before the deletion of the subtree. *)
Lemma quiet_then (m k : Hub unit) w : same_db (m w).2 w -> is_result (m w).1 ->
  exists w1, same_db w1 w /\
    ((m;; k) w = k w1 \/ exists e : error, (m;; k) w = (Fail e, w1)).
Proof.
  intros Hs Hr. destruct (m w) as [[[]|e| |] w1] eqn:E; try done; exists w1; (split; [exact Hs|]).
  - left. by erewrite bind_Ret by exact E.
  - right. exists e. by erewrite bind_Fail by exact E.
Qed.

Lemma delete_below_run fuel p t w : reliable ->
  tree_ready w -> String.length p = nodeLength fs -> tree_wf fs t ->
  stored p t (tree_map w) (name_map w) -> height t <= fuel ->
  exists o w', delete_below fuel (root_id t) (inr tt) w = (o, w') /\ is_result o /\
    (erased (node_ids t) w w' \/ (exists e, o = Fail e) /\ same_db w' w).
Proof.
  intros Hrel Hr Hp Hwf Hs Hf. unfold delete_below.
  erewrite bind_Ret by (by apply IsSatelliteFolder_run).
  set (m := when _ _ : Hub unit).
  assert (same_db (m w).2 w /\ is_result (m w).1) as [Hs1 Hr1].
  { unfold m. case_bool_decide; simpl; [|done].
    erewrite bind_Ret by (apply ignoring_view_lookup, Hr). apply quiet_disk. }
  destruct (quiet_then m (disk_op (os_remove_all (node_folder fs (root_id t)));;
    DeleteNodeSubtree fs fuel (root_id t)) w Hs1 Hr1) as (w1 & Hs2 & [->|[e ->]]);
    [|exists (Fail e), w1; split_and!; [done..|right; split; [by eexists|done]]].
  destruct (quiet_disk (os_remove_all (node_folder fs (root_id t))) w1) as [Hs3 Hr3].
  destruct (quiet_then _ (DeleteNodeSubtree fs fuel (root_id t)) w1 Hs3 Hr3) as (w2 & Hs4 & [->|[e ->]]);
    [|exists (Fail e), w2; split_and!; [done..|right; split; [by eexists|by etrans]]].
  assert (same_db w2 w) as Hs5 by (by etrans).
  destruct (DeleteNodeSubtree_run fs Hrel fuel p t w2) as (o & w3 & E & Ho & He); [by rewrite Hs5|done|done| |done|].
  { by rewrite (tree_map_proper _ _ Hs5), (name_map_proper _ _ Hs5). }
  exists o, w3. split_and!; [done..|]. left. destruct He as [Hr4 He]. split; [done|].
  intros i. specialize (He i). by rewrite (tree_map_proper _ _ Hs5), (name_map_proper _ _ Hs5),
    (satellite_map_proper _ _ Hs5) in He.
Qed.

(** The value of every folder fits in the database. *)
Definition tree_fits (t : tree) : Prop :=
  (Z.of_nat (nodeLength fs) <= 32768)%Z /\
  (Z.of_nat (nodeLength fs * length (node_ids t)) <= 2147483646)%Z.

Lemma length_kids t : S (length (kids t)) <= length (node_ids t).
Proof.
  destruct t as [i n l]. simpl. apply le_n_S. induction l as [|[j m k] l IH]; [done|].
  simpl. rewrite length_app. lia.
Qed.

Lemma node_ids_in_kids l c i : c ∈ l -> i ∈ node_ids c -> i ∈ flat_map node_ids l.
Proof. intros Hc Hi. apply list_elem_of_In, in_flat_map. exists c. by split; apply list_elem_of_In. Qed.

Lemma unlink_node_ok p t c w : reliable ->
  tree_ready w -> String.length p = nodeLength fs -> tree_wf fs t -> tree_fits t ->
  p ∉ flat_map node_ids (kids t) -> stored p t (tree_map w) (name_map w) -> c ∈ kids t ->
  exists w', unlink_node fs (root_id c) w = (Ret tt, w') /\
    db_updated Tree <[root_id t := tree_value p (drop_kid (root_id c) t)]> w w'.
Proof.
  intros Hrel Hr Hp Hwf [Hk Hv] Hpn Hs Hc. rewrite (unlink_node_run fs p t c) by done.
  destruct (put_reliable Tree (root_id t) (tree_value p (drop_kid (root_id c) t))
    (fun e => "[Filesystem][DeleteNodeSubtree] " +:+ e) w Hrel) as (w' & E & U & _); [apply Hr|..|by exists w'].
  - split; rewrite (wf_root_length fs t Hwf); [apply Hwf|lia].
  - unfold value_ok, tree_value. rewrite s_length_app, Hp, (s_length_concat _ (nodeLength fs)).
    + pose proof (length_kids t). rewrite length_fmap.
      assert (length (kids (drop_kid (root_id c) t)) <= length (kids t)); [|nia].
      destruct t as [i n l]. simpl. apply length_filter.
    + apply Forall_fmap, Forall_forall. intros d Hd. apply wf_root_length, (wf_kid fs t); [|done].
      destruct t as [i n l]. simpl in *. by apply list_elem_of_filter in Hd as [_ ?].
Qed.

(** The pieces of the tree on a path to a folder below the home folder. *)
Lemma find_below h f t sub w : represents fs t w -> tree_fits t -> find_path t (h ++ [f]) = inr sub ->
  exists p tp, find_at (homeNode fs) t h = Some (p, tp) /\ sub ∈ kids tp /\
    p ∉ flat_map node_ids (kids tp) /\ tree_fits tp.
Proof.
  intros Hrep [Hk Hv] (tp & Ht & Hc%child_named_elem)%find_path_app.
  apply (find_at_path (homeNode fs)) in Ht as [p Ht]. exists p, tp.
  split; [done|]. split; [by apply Hc|]. destruct (find_at_parent _ _ _ _ _ (proj1 (proj1 (proj2 Hrep))) (home_not_below fs _ _ Hrep) Ht) as [Hnd Hp].
  split; [done|]. split; [done|].
  assert (length (node_ids tp) <= length (node_ids t)); [|nia].
  apply submseteq_length, NoDup_submseteq; [done|]. by eapply find_at_ids.
Qed.

Lemma DeleteFolder_refines fuel h t w o w' :
  reliable -> represents fs t w -> tree_fits t -> h <> [] -> height t <= fuel ->
  DeleteFolder fs fuel h w = (o, w') ->
  match find_path t h with
  | inl e => o = Fail e /\ w' = w
  | inr sub =>
      is_result o /\ represents fs (remove_at h t) w' /\
      (o = Ret tt -> forall i, i ∈ node_ids sub ->
         tree_map w' !! i = None /\ name_map w' !! i = None /\ satellite_map w' !! i = None)
  end.
Proof.
  intros Hrel Hrep Hfit Hne Hf. unfold DeleteFolder, remove_at.
  pose proof (getNodeForPath_run fs t h w Hrep) as En.
  destruct (find_path t h) as [e|sub] eqn:E.
  { erewrite bind_Fail by exact En. by intros [= <- <-]. }
  erewrite bind_Ret by exact En.
  pose proof (find_path_height _ _ _ _ E Hf) as Hfs.
  destruct (exists_last Hne) as (h' & f & ->). rewrite but_last_app.
  destruct (find_below _ _ _ _ _ Hrep Hfit E) as (p & tp & Hat & Hc & Hp & Hfitp).
  destruct (find_at_stored fs _ _ _ _ _ Hrep Hat) as (Hpl & Hwfp & Hsp).
  destruct (unlink_node_ok p tp sub w Hrel (proj1 Hrep) Hpl Hwfp Hfitp Hp Hsp Hc) as (w1 & E1 & U1).
  pose proof (unlinked_represents fs _ _ _ _ _ _ _ Hrep Hat Hc U1) as Hrep1.
  erewrite bind_Ret by (by apply attempt_Ret). change (delete_below fuel (root_id sub) (inr tt) w1 = (o, w') -> 
    is_result o /\ represents fs (modify_at (drop_kid (root_id sub)) h' t) w' /\
    (o = Ret tt -> forall i, i ∈ node_ids sub ->
       tree_map w' !! i = None /\ name_map w' !! i = None /\ satellite_map w' !! i = None)).
  assert (tree_wf fs sub) as Hwfs by (by eapply wf_kid).
  assert (NoDup (node_ids (modify_at (drop_kid (root_id sub)) h' t) ++ node_ids sub)) as Hnd.
  { rewrite (removed_ids _ _ _ _ _ _ (proj1 Hwfp) Hat Hc). apply Hrep. }
  apply NoDup_app in Hnd as (_ & Hdis & Hnds).
  destruct (tree_updated _ _ _ U1) as (Et & En1 & _).
  destruct (delete_below_run fuel (root_id tp) sub w1 Hrel) as (o' & w2 & E2 & Ho & Hout);
    [apply Hrep1|by apply wf_root_length|done| |done|].
  { eapply stored_more; [by eapply (stored_kid p tp)|]. intros i Hi. rewrite Et, En1. split; [|done].
    apply lookup_insert_ne. intros <-. destruct Hwfp as (Hndp & _ & _). destruct tp as [j m l]. simpl in *.
    apply NoDup_cons in Hndp as [Hj _]. by apply Hj, (node_ids_in_kids l sub). }
  rewrite E2. intros [= <- <-]. split; [done|]. destruct Hout as [He|[[e ->] Hs]].
  - split.
    + pose proof Hrep1 as (_ & Hwf1 & Hroot1 & Hs1). split_and!; [apply He|done|done|].
      eapply erased_kept; [exact He|apply Hdis|exact Hs1].
    + intros _ i Hi. destruct He as [_ He]. specialize (He i). by rewrite decide_True in He.
  - split; [by rewrite Hs|done].
Qed.
(** C17: [DeleteFolder] on a database whose commits succeed: a path that leads to no
    folder is refused without a change; otherwise the folder is gone from the
    tree, whatever the disk answers, and when no error is returned the nodes of
    all folders below it are gone from the three buckets. *)
Theorem delete_folder_refines fuel h t w o w' :
  reliable -> represents fs t w -> tree_fits t -> h <> [] -> height t <= fuel ->
  DeleteFolder fs fuel h w = (o, w') ->
  match find_path t h with
  | inl e => o = Fail e /\ w' = w
  | inr sub =>
      is_result o /\ represents fs (remove_at h t) w' /\
      (o = Ret tt -> forall i, i ∈ node_ids sub ->
         tree_map w' !! i = None /\ name_map w' !! i = None /\ satellite_map w' !! i = None)
  end.
Proof. apply DeleteFolder_refines. Qed.


(** *** Deletion when commits fail *)

(** The update of the parent was done or it was not. *)
Lemma unlink_cases p t c w o w' :
  tree_ready w -> String.length p = nodeLength fs -> tree_wf fs t ->
  p ∉ flat_map node_ids (kids t) -> stored p t (tree_map w) (name_map w) -> c ∈ kids t ->
  unlink_node fs (root_id c) w = (o, w') ->
  (o = Ret tt /\ db_updated Tree <[root_id t := tree_value p (drop_kid (root_id c) t)]> w w') \/
  (exists e, o = Fail e) /\ same_db w' w.
Proof.
  intros Hr Hp Hwf Hpn Hs Hc. rewrite (unlink_node_run fs p t c) by done. intros E.
  destruct (touches_update _ _ _ (tx_touches_put Tree _ _ _) _ _ _ (proj1 Hr) E) as (_ & _ & [?|(e & -> & ?)]); eauto.
Qed.

Lemma delete_below_erodes fuel p t r w :
  tree_ready w -> String.length p = nodeLength fs -> tree_wf fs t ->
  stored p t (tree_map w) (name_map w) -> height t <= fuel ->
  exists o w', delete_below fuel (root_id t) r w = (o, w') /\ is_result o /\ eroded (node_ids t) w w' /\
    (o = Ret tt -> tree_map w' !! root_id t = None /\ name_map w' !! root_id t = None).
Proof.
  intros Hr Hp Hwf Hs Hf. unfold delete_below.
  erewrite bind_Ret by (by apply IsSatelliteFolder_run).
  set (m := when _ _ : Hub unit).
  assert (same_db (m w).2 w /\ is_result (m w).1) as [Hs1 Hr1].
  { unfold m. case_bool_decide; simpl; [|done].
    erewrite bind_Ret by (apply ignoring_view_lookup, Hr). destruct r; [done|apply quiet_disk]. }
  destruct (quiet_then m (disk_op (os_remove_all (node_folder fs (root_id t)));;
    DeleteNodeSubtree fs fuel (root_id t)) w Hs1 Hr1) as (w1 & Hs2 & [->|[e ->]]);
    [|exists (Fail e), w1; split_and!; [done..|by apply eroded_refl|done]].
  destruct (quiet_disk (os_remove_all (node_folder fs (root_id t))) w1) as [Hs3 Hr3].
  destruct (quiet_then _ (DeleteNodeSubtree fs fuel (root_id t)) w1 Hs3 Hr3) as (w2 & Hs4 & [->|[e ->]]);
    [|exists (Fail e), w2; split_and!; [done..|apply eroded_refl; [done|by etrans]|done]].
  assert (same_db w2 w) as Hs5 by (by etrans).
  destruct (DeleteNodeSubtree_erodes fs fuel p t w2) as (o & w3 & E & Ho & He & Hgone); [by rewrite Hs5|done|done| |done|].
  { intros i v n Hi. left. rewrite (tree_map_proper _ _ Hs5). by eapply Hs. }
  exists o, w3. split_and!; [done..| |done]. eapply eroded_trans; [|exact He]. by apply eroded_refl.
Qed.

Lemma deleted_child h sub p tp t w : represents fs t w -> h <> [] -> find_path t h = inr sub ->
  find_at (homeNode fs) t (but_last h) = Some (p, tp) ->
  sub ∈ kids tp /\ p ∉ flat_map node_ids (kids tp) /\ root_id tp ∉ node_ids sub.
Proof.
  intros Hrep Hne E Hat. destruct (exists_last Hne) as (h' & f & ->). rewrite but_last_app in Hat.
  destruct (find_path_app _ _ _ _ E) as (tp' & Et & [Hc _]%child_named_elem).
  apply (find_at_path (homeNode fs)) in Et as [p' Et]. rewrite Hat in Et. injection Et as <- <-.
  destruct (find_at_parent _ _ _ _ _ (proj1 (proj1 (proj2 Hrep))) (home_not_below fs _ _ Hrep) Hat) as [Hnd Hp].
  split_and!; [done..|]. destruct tp as [j n l]. simpl in *. apply NoDup_cons in Hnd as [Hj _].
  intros Hin. by apply Hj, (node_ids_in_kids l sub).
Qed.

(** Names cannot be read when one is missing. *)
Lemma names_of_nodes_missing l c w : has_bucket w FolderNameMapping = true ->
  Forall (fun i => String.length i = nodeLength fs) (root_id <$> l) -> c ∈ l ->
  name_map w !! root_id c = None -> exists e, names_of_nodes fs (root_id <$> l) w = (Fail e, w).
Proof.
  intros Hb Hl Hc Hn. revert Hl. induction l as [|d l IH]; intros Hl; [by apply elem_of_nil in Hc|].
  rewrite fmap_cons in Hl |- *. apply Forall_cons in Hl as [Hd Hl]. cbn [names_of_nodes].
  rewrite whole_run by done.
  assert (GetFolderNameForNode (root_id d) w =
    (match name_map w !! root_id d with Some v => Ret v | None =>
       Fail "[Filesystem][GetFolderNameForNode] can't find node  in FolderNameMapping Bucket" end, w)) as Ed.
  { unfold GetFolderNameForNode. by rewrite view_lookup. }
  destruct (name_map w !! root_id d) eqn:Em; [|by erewrite bind_Fail by exact Ed; eexists].
  erewrite bind_Ret by exact Ed. apply elem_of_cons in Hc as [->|Hc]; [congruence|].
  destruct (IH Hc Hl) as [e Ee]. erewrite bind_Fail by exact Ee. by eexists.
Qed.

(** The deletion of a folder is the update of its parent and a deletion below. *)
Lemma DeleteFolder_erodes fuel h sub p tp t w o w' :
  represents fs t w -> h <> [] -> height t <= fuel -> find_path t h = inr sub ->
  find_at (homeNode fs) t (but_last h) = Some (p, tp) ->
  DeleteFolder fs fuel h w = (o, w') ->
  is_result o /\ exists o1 w1, unlink_node fs (root_id sub) w = (o1, w1) /\
    (o1 = Ret tt /\ db_updated Tree <[root_id tp := tree_value p (drop_kid (root_id sub) tp)]> w w1 \/
     (exists e, o1 = Fail e) /\ same_db w1 w) /\
    eroded (node_ids sub) w1 w' /\
    (o = Ret tt -> tree_map w' !! root_id sub = None /\ name_map w' !! root_id sub = None).
Proof.
  intros Hrep Hne Hf E Hat. destruct (deleted_child _ _ _ _ _ _ Hrep Hne E Hat) as (Hc & Hp & Hroot).
  destruct (find_at_stored fs _ _ _ _ _ Hrep Hat) as (Hpl & Hwfp & Hsp).
  unfold DeleteFolder. pose proof (getNodeForPath_run fs t h w Hrep) as En. rewrite E in En.
  erewrite bind_Ret by exact En. destruct (unlink_node fs (root_id sub) w) as [o1 w1] eqn:Eu.
  pose proof (unlink_cases p tp sub w o1 w1 (proj1 Hrep) Hpl Hwfp Hp Hsp Hc Eu) as Hu.
  assert (tree_ready w1 /\ stored (root_id tp) sub (tree_map w1) (name_map w1)) as [Hr1 Hs1].
  { destruct Hu as [[_ U]|[_ Hs]].
    - split; [eapply tree_ready_updated; [exact U|apply Hrep]|]. destruct (tree_updated _ _ _ U) as (Et & En1 & _).
      eapply stored_more; [by eapply (stored_kid p tp)|]. intros i Hi. rewrite Et, En1. split; [|done].
      apply lookup_insert_ne. by intros <-.
    - rewrite Hs. split; [apply Hrep|by eapply (stored_kid p tp)]. }
  assert (tree_wf fs sub) as Hwfs by (by eapply wf_kid).
  pose proof (find_path_height _ _ _ _ E Hf) as Hfs.
  assert (forall r, exists o' w2, delete_below fuel (root_id sub) r w1 = (o', w2) /\ is_result o' /\
    eroded (node_ids sub) w1 w2 /\
    (o' = Ret tt -> tree_map w2 !! root_id sub = None /\ name_map w2 !! root_id sub = None)) as Hbelow.
  { intros r. apply (delete_below_erodes fuel (root_id tp)); [done|by apply wf_root_length|done..]. }
  intros Hrun. destruct Hu as [[-> U]|[[e ->] Hs]].
  - destruct (Hbelow (inr tt)) as (o' & w2 & E2 & Ho & He & Hg).
    erewrite bind_Ret in Hrun by (by apply attempt_Ret). change (delete_below fuel (root_id sub) (inr tt) w1 = (o, w')) in Hrun. rewrite E2 in Hrun.
    injection Hrun as <- <-. split; [done|]. exists (Ret tt), w1. eauto 10.
  - destruct (Hbelow (inl e)) as (o' & w2 & E2 & Ho & He & Hg).
    erewrite bind_Ret in Hrun by (by apply attempt_Fail). change (delete_below fuel (root_id sub) (inl e) w1 = (o, w')) in Hrun. rewrite E2 in Hrun.
    injection Hrun as <- <-. split; [done|]. exists (Fail e), w1. eauto 10.
Qed.

(** C21: whatever the commits and the disk do, [DeleteFolder] of a folder returns,
    and changes nothing but the list of children of its parent and the entries
    of the nodes below the folder. *)
Theorem deletion_is_confined fuel h sub p tp t w o w' :
  represents fs t w -> h <> [] -> height t <= fuel -> find_path t h = inr sub ->
  find_at (homeNode fs) t (but_last h) = Some (p, tp) ->
  DeleteFolder fs fuel h w = (o, w') ->
  is_result o /\ tree_ready w' /\ forall i, i ∉ node_ids sub ->
    name_map w' !! i = name_map w !! i /\ satellite_map w' !! i = satellite_map w !! i /\
    (tree_map w' !! i = tree_map w !! i \/
     i = root_id tp /\ tree_map w' !! i = Some (tree_value p (drop_kid (root_id sub) tp))).
Proof.
  intros Hrep Hne Hf E Hat Hrun.
  destruct (DeleteFolder_erodes _ _ _ _ _ _ _ _ _ Hrep Hne Hf E Hat Hrun)
    as (Ho & o1 & w1 & _ & Hu & (Hr & Ht & Hn & Hs) & _).
  split_and!; [done..|]. intros i Hi.
  destruct (Ht i) as [Et|[? _]]; [|done]. destruct (Hn i) as [En|[? _]]; [|done].
  destruct (Hs i) as [Es|[? _]]; [|done]. destruct Hu as [[_ U]|[_ Hsame]].
  - destruct (tree_updated _ _ _ U) as (Et1 & En1 & Es1). rewrite Et, En, Es, Et1, En1, Es1.
    split_and!; [done..|]. destruct (decide (root_id tp = i)) as [<-|Hne'].
    + right. by rewrite lookup_insert_eq.
    + left. by apply lookup_insert_ne.
  - rewrite Et, En, Es. rewrite (tree_map_proper _ _ Hsame), (name_map_proper _ _ Hsame),
      (satellite_map_proper _ _ Hsame). auto.
Qed.

(** C22: the error of the update of the parent is lost for a folder that is not
    marked as a satellite folder: when that update fails and [DeleteFolder]
    returns no error, the folder has no name any more and its parent still lists
    it, so that the names of the parent's children cannot be read. *)
Theorem failed_unlink_dangles fuel h sub p tp t e w w' :
  represents fs t w -> h <> [] -> height t <= fuel -> find_path t h = inr sub ->
  find_at (homeNode fs) t (but_last h) = Some (p, tp) ->
  (unlink_node fs (root_id sub) w).1 = Fail e ->
  DeleteFolder fs fuel h w = (Ret tt, w') ->
  tree_map w' !! root_id tp = Some (tree_value p tp) /\ name_map w' !! root_id sub = None /\
  exists e', getChildrenNamesForNode fs (root_id tp) w' = (Fail e', w').
Proof.
  intros Hrep Hne Hf E Hat Hfail Hrun.
  destruct (deleted_child _ _ _ _ _ _ Hrep Hne E Hat) as (Hc & _ & Hroot).
  destruct (find_at_stored fs _ _ _ _ _ Hrep Hat) as (Hpl & Hwfp & Hsp).
  destruct (DeleteFolder_erodes _ _ _ _ _ _ _ _ _ Hrep Hne Hf E Hat Hrun)
    as (_ & o1 & w1 & Eu & Hu & (Hr & Ht & Hn & Hs) & Hg).
  rewrite Eu in Hfail. simpl in Hfail. subst o1.
  destruct Hu as [[? _]|[_ Hsame]]; [done|]. destruct (Hg eq_refl) as [_ Hname].
  assert (tree_map w' !! root_id tp = Some (tree_value p tp)) as Hv.
  { destruct (Ht (root_id tp)) as [->|[? _]]; [|done]. rewrite (tree_map_proper _ _ Hsame).
    apply (Hsp _ _ _ (entries_root p tp)). }
  split_and!; [done..|]. unfold getChildrenNamesForNode.
  erewrite bind_Ret; [|unfold GetChildrenForNode; rewrite view_lookup by apply Hr; fold (tree_map w'); by rewrite Hv].
  rewrite pieces_of_value by done. cbn [tail]. eapply names_of_nodes_missing; [apply Hr| |exact Hc|exact Hname].
  apply wf_kids_length; done.
Qed.

(** After [DeleteFolder] the path leads to no folder, with or without an error
    of the disk. *)
Theorem deleted_folder_is_not_found fuel h sub t w o w' :
  reliable -> represents fs t w -> tree_fits t -> unique_names t -> h <> [] -> height t <= fuel ->
  find_path t h = inr sub -> DeleteFolder fs fuel h w = (o, w') ->
  exists e, getNodeForPath fs h w' = (Fail e, w').
Proof.
  intros Hrel Hrep Hfit Hu Hne Hf E Hrun.
  pose proof (DeleteFolder_refines _ _ _ _ _ _ Hrel Hrep Hfit Hne Hf Hrun) as Hd. rewrite E in Hd.
  destruct Hd as (_ & Hrep' & _). rewrite (getNodeForPath_run fs _ h w' Hrep').
  unfold remove_at. rewrite E. destruct (exists_last Hne) as (h' & f & ->). rewrite but_last_app.
  destruct (find_path_app _ _ _ _ E) as (tp & Et & Ec).
  rewrite (find_path_modify _ h' t tp) by (done || by intros []). simpl.
  apply child_named_elem in Ec as [Hc <-].
  rewrite drop_kid_lookup by (done || by eapply find_path_unique). by eexists.
Qed.

(** *** Deletion of empty ancestors *)

(** Remove the folders at the prefixes of the path from below while they are empty. *)
Fixpoint prune (h : list string) (i : nat) (t : tree) : tree :=
  match i with
  | 0 => t
  | S i' =>
      match find_path t (take i h) with
      | inr (Node _ _ []) => prune h i' (remove_at (take i h) t)
      | _ => t
      end
  end.

Lemma heights_insert l k c c' : l !! k = Some c -> height c' <= height c ->
  foldr Nat.max 0 (height <$> <[k := c']> l) <= foldr Nat.max 0 (height <$> l).
Proof.
  revert k. induction l as [|d l IH]; intros [|k]; [done..| |].
  - intros [= ->] Hc. simpl. change (fmap height l) with (height <$> l). lia.
  - intros Hl Hc. specialize (IH k Hl Hc). simpl. unfold fmap, insert in *. lia.
Qed.
Lemma modify_height g h t : (forall x, height (g x) <= height x) -> height (modify_at g h t) <= height t.
Proof.
  intros Hg. revert t. induction h as [|f h IH]; intros [i n l]; simpl; [apply (Hg (Node i n l))|].
  destruct (list_find _ l) as [[k c]|] eqn:E; simpl; [|done].
  apply le_n_S, (heights_insert _ _ c); [by apply list_find_Some in E as [? _]|apply IH].
Qed.
Lemma drop_kid_height i t : height (drop_kid i t) <= height t.
Proof.
  destruct t as [j n l]. simpl. apply le_n_S. induction l as [|d l IH]; [done|].
  rewrite filter_cons. case_decide; rewrite ?fmap_cons; simpl; lia.
Qed.
Lemma remove_height h t : height (remove_at h t) <= height t.
Proof.
  unfold remove_at. destruct (find_path t h); [done|]. apply modify_height. intros. apply drop_kid_height.
Qed.

Lemma remove_fits h t w : represents fs t w -> tree_fits t -> h <> [] -> tree_fits (remove_at h t).
Proof.
  intros Hrep Hfit Hne. unfold remove_at. destruct (find_path t h) as [e|sub] eqn:E; [done|].
  destruct (exists_last Hne) as (h' & f & ->). rewrite but_last_app.
  destruct (find_below _ _ _ _ _ Hrep Hfit E) as (p & tp & Hat & Hc & _).
  destruct (find_at_stored fs _ _ _ _ _ Hrep Hat) as (_ & Hwfp & _).
  pose proof (Permutation_length (removed_ids _ _ _ _ _ _ (proj1 Hwfp) Hat Hc)) as Hl.
  rewrite length_app in Hl. destruct Hfit. split; [done|].
  etrans; [|eassumption]. apply inj_le, Nat.mul_le_mono_l. lia.
Qed.

Lemma take_nonempty {A} i (h : list A) : i < length h -> take (S i) h <> [].
Proof. destruct h; simpl; [lia|done]. Qed.

Lemma delete_empty_refines fuel h i t w o w' :
  reliable -> represents fs t w -> tree_fits t -> i <= length h -> height t <= fuel ->
  delete_empty fs fuel h i w = (o, w') ->
  is_result o /\ (o = Ret tt -> represents fs (prune h i t) w').
Proof.
  intros Hrel. revert t w. induction i as [|i IH]; intros t w Hrep Hfit Hi Hf; cbn [delete_empty prune].
  { by intros [= <- <-]. }
  pose proof (getNodeForPath_run fs t (take (S i) h) w Hrep) as En.
  destruct (find_path t (take (S i) h)) as [e|sub] eqn:E.
  { erewrite bind_Fail by exact En. by intros [= <- <-]. }
  erewrite bind_Ret by exact En. pose proof E as E'. apply (find_at_path (homeNode fs)) in E' as [p Hat].
  destruct (find_at_stored fs _ _ _ _ _ Hrep Hat) as (Hp & Hwf & Hs).
  erewrite bind_Ret by (by eapply GetChildrenForNode_run; first apply Hrep).
  pose proof (value_is_leaf fs p sub Hp Hwf) as Hleaf. case_decide as Hl.
  - apply Hleaf in Hl. destruct sub as [j n l]. simpl in Hl. subst l.
    destruct (DeleteFolder fs fuel (take (S i) h) w) as [o1 w1] eqn:Ed.
    pose proof (DeleteFolder_refines _ _ _ _ _ _ Hrel Hrep Hfit (take_nonempty i h Hi) Hf Ed) as Hd.
    rewrite E in Hd. destruct Hd as (Ho & Hrep1 & _).
    destruct o1 as [[]|e| |]; try done; [|by erewrite bind_Fail by exact Ed; intros [= <- <-]].
    erewrite bind_Ret by exact Ed. apply IH; [done| |lia|].
    + eapply remove_fits; [done..|by apply take_nonempty].
    + pose proof (remove_height (take (S i) h) t). lia.
  - intros [= <- <-]. split; [done|]. intros _. destruct sub as [j n [|]]; [|done]. by destruct (Hl (proj2 Hleaf eq_refl)).
Qed.

Lemma RecursiveDeleteFolder_refines fuel h t w o w' :
  reliable -> represents fs t w -> tree_fits t -> h <> [] -> height t <= fuel ->
  RecursiveDeleteFolder fs fuel h w = (o, w') ->
  is_result o /\ (o = Ret tt -> represents fs (prune h (length h - 1) (remove_at h t)) w').
Proof.
  intros Hrel Hrep Hfit Hne Hf. unfold RecursiveDeleteFolder.
  destruct (DeleteFolder fs fuel h w) as [o1 w1] eqn:Ed.
  pose proof (DeleteFolder_refines _ _ _ _ _ _ Hrel Hrep Hfit Hne Hf Ed) as Hd.
  destruct (find_path t h) as [e|sub] eqn:E.
  { destruct Hd as [-> _]. erewrite bind_Fail by exact Ed. by intros [= <- <-]. }
  destruct Hd as (Ho & Hrep1 & _).
  destruct o1 as [[]|e| |]; try done; [|by erewrite bind_Fail by exact Ed; intros [= <- <-]].
  erewrite bind_Ret by exact Ed. apply delete_empty_refines; [done|done| |lia|].
  - by eapply remove_fits.
  - pose proof (remove_height h t). lia.
Qed.

(** C18: [RecursiveDeleteFolder] on a database whose commits succeed returns, and when
    it returns no error the folder at the path is gone together with the folders
    above it that were left without children, up to the first one that still
    has some. *)
Theorem recursive_delete_prunes fuel h t w o w' :
  reliable -> represents fs t w -> tree_fits t -> h <> [] -> height t <= fuel ->
  RecursiveDeleteFolder fs fuel h w = (o, w') ->
  is_result o /\ (o = Ret tt -> represents fs (prune h (length h - 1) (remove_at h t)) w').
Proof. apply RecursiveDeleteFolder_refines. Qed.

(** *** What deletions leave behind, whatever errors they meet *)

(** A folder below the home folder goes, with everything in it. *)
Definition removal (t t' : tree) : Prop := exists h, h <> [] /\ t' = remove_at h t.
(** The database represents what some removals left of [t0]. *)
Definition thinned fuel (t0 : tree) w : Prop :=
  exists t, rtc removal t0 t /\ represents fs t w /\ tree_fits t /\ height t <= fuel.
#[export] Instance thinned_proper fuel t0 : DbInv (thinned fuel t0).
Proof. intros w w' E. unfold thinned. by setoid_rewrite E. Qed.

Lemma thins_DeleteFolder fuel t0 h : reliable -> h <> [] -> preserves (thinned fuel t0) (DeleteFolder fs fuel h).
Proof.
  intros Hrel Hne w (t & Hs & Hrep & Hfit & Hf). destruct (DeleteFolder fs fuel h w) as [o w'] eqn:E.
  pose proof (DeleteFolder_refines _ _ _ _ _ _ Hrel Hrep Hfit Hne Hf E) as Hd. cbn [snd].
  destruct (find_path t h) as [e|sub]; [destruct Hd as [_ ->]; by exists t|]. destruct Hd as (_ & Hrep' & _).
  exists (remove_at h t). split; [eapply rtc_r; [exact Hs|by exists h]|]. split; [done|].
  split; [by eapply remove_fits|]. pose proof (remove_height h t). lia.
Qed.
Lemma thins_getNodeForPath fuel t0 h : preserves (thinned fuel t0) (getNodeForPath fs h).
Proof. intros w Hw. pose proof Hw as (t & _ & Hrep & _). by rewrite (getNodeForPath_run fs t h w Hrep). Qed.
Lemma thins_delete_empty fuel t0 h i : reliable -> i <= length h ->
  preserves (thinned fuel t0) (delete_empty fs fuel h i).
Proof.
  intros Hrel. induction i as [|i IH]; intros Hi; cbn [delete_empty]; [apply preserves_ret|]. cbv zeta.
  apply preserves_bind; [apply thins_getNodeForPath|intros node].
  apply preserves_bind; [apply preserves_db_view|intros children]. case_decide; [|apply preserves_ret].
  apply preserves_bind; [by apply thins_DeleteFolder, take_nonempty|intros _]. apply IH. lia.
Qed.
Lemma thins_RecursiveDeleteFolder fuel t0 h : reliable -> h <> [] ->
  preserves (thinned fuel t0) (RecursiveDeleteFolder fs fuel h).
Proof.
  intros Hrel Hne. apply preserves_bind; [by apply thins_DeleteFolder|intros _]. apply thins_delete_empty; [done|lia].
Qed.
End Tree.

(** ** A hierarchy on the reference device *)
Section Device.
Variable faulty : bool.
#[local] Hint Extern 0 Bolt => exact (mem_bolt faulty) : typeclass_instances.

Definition tree_world (faults : list bool) (t : tree) (sats : list (string * string)) : world :=
  World (MemDB (list_to_map [
      (Tree, list_to_map ((fun e => (e.1, e.2.1)) <$> entries (root_id t) t));
      (FolderNameMapping, list_to_map ((fun e => (e.1, e.2.2)) <$> entries (root_id t) t));
      (SatelliteMapping, list_to_map sats)]) faults)
    (MemDisk [] [] []) [].

Lemma tree_world_represents fs faults t sats :
  tree_wf fs t -> root_id t = homeNode fs -> represents fs t (tree_world faults t sats).
Proof.
  intros Hwf Hroot. pose proof (entries_ids (root_id t) t) as Hids.
  assert (forall (f : string * (string * string) -> string) e, e ∈ entries (root_id t) t ->
    (list_to_map ((fun e => (e.1, f e)) <$> entries (root_id t) t) : gmap string string) !! e.1 = Some (f e)) as Hmap.
  { intros f e He. apply elem_of_list_to_map_1.
    - rewrite <-list_fmap_compose. change (NoDup (entries (root_id t) t).*1). rewrite Hids. apply Hwf.
    - by apply (list_elem_of_fmap_2 (fun e => (e.1, f e))). }
  split_and!; [by vm_compute|done|done|]. rewrite <-Hroot. intros i v n He.
  unfold tree_map, name_map, bucket_of. rewrite !mem_bkt_map.
  split; [exact (Hmap (fun e => e.2.1) _ He)|exact (Hmap (fun e => e.2.2) _ He)].
Qed.
End Device.

Definition ex_fs : FileSystem :=
  {| nodeLength := 36; homeNode := repeat_string "z" 36; homeDirLocation := "/home" |}.
Definition ex_tree : tree :=
  Node (homeNode ex_fs) "home"
    [Node (numbered_name 101) "movies" [Node (numbered_name 103) "hindi" []];
     Node (numbered_name 102) "tv" []].
Lemma ex_tree_wf : tree_wf ex_fs ex_tree.
Proof. split_and!; [| |simpl; lia]; apply (bool_decide_unpack _); by vm_compute. Qed.
Lemma ex_tree_unique : unique_names ex_tree.
Proof. repeat first [constructor | apply (bool_decide_unpack _); by vm_compute]. Qed.
Lemma ex_tree_fits : tree_fits ex_fs ex_tree.
Proof. split; by vm_compute. Qed.

Module Sound.
#[local] Hint Extern 0 Bolt => exact (mem_bolt false) : typeclass_instances.
#[local] Instance ex_env : Env := scripted (Script [] []).

Definition ex_world : world := tree_world false [] ex_tree [(numbered_name 102, "/satellite/tv")].
Lemma ex_represents : represents ex_fs ex_tree ex_world.
Proof. apply (tree_world_represents false); [apply ex_tree_wf|done]. Qed.
Lemma ex_fresh : fresh_node ex_fs (numbered_name 0) ex_tree.
Proof. split; [apply (bool_decide_unpack _); by vm_compute|done]. Qed.
Lemma ex_uuid : env_uuid (w_trace ex_world) = numbered_name 0.
Proof. reflexivity. Qed.
Definition ex_download : string -> list (list string) -> Hub unit := fun path _ =>
  disk_op (os_mkdir_all (path_join [path; "segments"])).
Lemma ex_download_quiet params p w :
  same_db (ex_download p params w).2 w /\ is_result (ex_download p params w).1.
Proof. apply quiet_disk. Qed.

(** A database without buckets. *)
Definition ex_blank : world := World (MemDB ∅ []) (MemDisk [] [] []) [].
Lemma old_init_represents_witness :
  represents ex_fs (Node (homeNode ex_fs) "home" []) (Old_InitFileSystem ex_fs ex_blank).2 /\
  represents ex_fs ex_tree (Old_InitFileSystem ex_fs ex_world).2.
Proof.
  split.
  - refine (proj1 (old_init_represents ex_fs ex_blank _ ltac:(simpl; lia) eq_refl _) _ _);
      [apply run_pair|..]; evaluate.
  - refine (proj2 (old_init_represents ex_fs ex_world _ ltac:(simpl; lia) eq_refl _) _ ex_represents);
      apply run_pair; evaluate.
Defined.

Lemma path_lookup_is_tree_lookup_witness :
  getNodeForPath ex_fs ["movies"; "hindi"] ex_world = (Ret (numbered_name 103), ex_world).
Proof. rewrite (path_lookup_is_tree_lookup ex_fs ex_tree _ _ ex_represents). reflexivity. Defined.

Lemma leaves_are_tree_leaves_witness :
  GetLeavesList ex_fs 3 "/" ex_world = (Ret ["/movies/hindi"; "/tv"], ex_world).
Proof.
  rewrite (leaves_are_tree_leaves ex_fs 3 "/" ex_tree _ ex_represents ltac:(simpl; lia)). reflexivity.
Defined.

Lemma location_of_folder_witness :
  GetActualPathForAbstractedPath ex_fs "/tv/" ex_world = (Ret "/satellite/tv", ex_world).
Proof.
  rewrite (location_of_folder ex_fs "/tv/" ex_tree _ ex_represents).
  apply (f_equal (fun r => (r, ex_world))). evaluate.
Defined.

Lemma create_folder_refines_witness :
  represents ex_fs
    (Node (homeNode ex_fs) "home"
      [Node (numbered_name 101) "movies" [Node (numbered_name 103) "hindi" []; Node (numbered_name 0) "tamil" []];
       Node (numbered_name 102) "tv" []])
    (CreateFolder ex_fs 1 ["movies"; "tamil"] ex_world).2.
Proof.
  assert ((CreateFolder ex_fs 1 ["movies"; "tamil"] ex_world).1 = Ret (numbered_name 0)) as E by evaluate.
  destruct (create_folder_refines ex_fs 0 ["movies"; "tamil"] "tamil" ex_tree ex_world _ _ (numbered_name 0)
    ex_represents eq_refl ex_uuid ex_fresh (surjective_pairing _)) as [[_ H]|[[e He] _]].
  - exact H.
  - exfalso. congruence.
Defined.

Lemma created_folder_is_found_witness :
  getNodeForPath ex_fs ["movies"; "tamil"] (CreateFolder ex_fs 1 ["movies"; "tamil"] ex_world).2 =
  (Ret (numbered_name 0), (CreateFolder ex_fs 1 ["movies"; "tamil"] ex_world).2).
Proof.
  apply (created_folder_is_found ex_fs 0 ["movies"; "tamil"] "tamil" ex_tree ex_world).
  - apply ex_represents.
  - apply ex_tree_unique.
  - done.
  - apply ex_fresh.
  - apply run_pair. evaluate.
Defined.

Lemma download_folder_refines_witness :
  satellite_map (CreateDownloadNewFolder ex_fs 1 ["tv"; "news"] ex_download [] true "/satellite/news" ex_world).2
    !! numbered_name 0 = Some "/satellite/news".
Proof.
  assert ((CreateDownloadNewFolder ex_fs 1 ["tv"; "news"] ex_download [] true "/satellite/news" ex_world).1 = Ret tt)
    as E by evaluate.
  destruct (download_folder_refines ex_fs 0 ["tv"; "news"] "news" ex_download [] true "/satellite/news"
    ex_tree ex_world _ _ (numbered_name 0) ex_represents eq_refl ex_uuid ex_fresh (ex_download_quiet [])
    (surjective_pairing _)) as [(_ & _ & [[_ H]|[e He]])|[[e He] _]].
  - exact (H eq_refl).
  - exfalso. congruence.
  - exfalso. congruence.
Defined.

Lemma delete_folder_refines_witness :
  represents ex_fs (Node (homeNode ex_fs) "home" [Node (numbered_name 102) "tv" []])
    (DeleteFolder ex_fs 3 ["movies"] ex_world).2 /\
  tree_map (DeleteFolder ex_fs 3 ["movies"] ex_world).2 !! numbered_name 103 = None.
Proof.
  destruct (delete_folder_refines ex_fs 3 ["movies"] ex_tree ex_world _ _ sure_reliable ex_represents
    ex_tree_fits ltac:(done) ltac:(simpl; lia) (surjective_pairing _)) as (_ & Hr & Hg).
  split; [exact Hr|]. refine (proj1 (Hg _ (numbered_name 103) _)); [evaluate|].
  apply (bool_decide_unpack _). by vm_compute.
Defined.

Lemma deleted_folder_is_not_found_witness :
  exists e, getNodeForPath ex_fs ["tv"] (DeleteFolder ex_fs 3 ["tv"] ex_world).2 =
    (Fail e, (DeleteFolder ex_fs 3 ["tv"] ex_world).2).
Proof.
  exact (deleted_folder_is_not_found ex_fs 3 ["tv"] (Node (numbered_name 102) "tv" []) ex_tree ex_world _ _
    sure_reliable ex_represents ex_tree_fits ex_tree_unique ltac:(done) ltac:(simpl; lia) eq_refl (surjective_pairing _)).
Defined.

(** Deleting the only child deletes its parent too. *)
Lemma recursive_delete_prunes_witness :
  represents ex_fs (Node (homeNode ex_fs) "home" [Node (numbered_name 102) "tv" []])
    (RecursiveDeleteFolder ex_fs 3 ["movies"; "hindi"] ex_world).2.
Proof.
  refine (proj2 (recursive_delete_prunes ex_fs 3 ["movies"; "hindi"] ex_tree ex_world _ _
    sure_reliable ex_represents ex_tree_fits ltac:(done) ltac:(simpl; lia) (surjective_pairing _)) _).
  evaluate.
Defined.
End Sound.

Module Torn.
#[local] Hint Extern 0 Bolt => exact (mem_bolt true) : typeclass_instances.
#[local] Instance ex_env : Env := scripted (Script [] []).
(** The first commit fails. *)
Definition torn_world : world := tree_world true [true] ex_tree [].
Definition ex_after : outcome unit * world := DeleteFolder ex_fs 3 ["movies"] torn_world.
Definition ex_sub : tree := Node (numbered_name 101) "movies" [Node (numbered_name 103) "hindi" []].
Lemma torn_represents : represents ex_fs ex_tree torn_world.
Proof. apply (tree_world_represents true); [apply ex_tree_wf|done]. Qed.

Lemma deletion_is_confined_witness :
  name_map ex_after.2 !! numbered_name 102 = name_map torn_world !! numbered_name 102.
Proof.
  refine (proj1 (proj2 (proj2 (deletion_is_confined ex_fs 3 ["movies"] ex_sub _ _ ex_tree torn_world _ _
    torn_represents ltac:(done) ltac:(simpl; lia) eq_refl eq_refl (surjective_pairing _))) _ _)).
  apply (bool_decide_unpack _). by vm_compute.
Defined.

(** Another folder than the deleted one can no longer be found. *)
Lemma failed_unlink_dangles_witness :
  name_map ex_after.2 !! numbered_name 101 = None /\
  (getNodeForPath ex_fs ["tv"] ex_after.2).1 =
    Fail "[Filesystem][GetFolderNameForNode] can't find node  in FolderNameMapping Bucket".
Proof.
  split; [|evaluate].
  refine (proj1 (proj2 (failed_unlink_dangles ex_fs 3 ["movies"] ex_sub _ _ ex_tree
    "commit failed" torn_world _ torn_represents ltac:(done) ltac:(simpl; lia) eq_refl eq_refl _ _))).
  - evaluate.
  - apply run_pair. evaluate.
Defined.
End Torn.
