(* ===== verification/ContentThms.v ===== *)
(** The properties of the folders' files, their expiry and their check. *)
From S2P Require Import Prelude GoStrings GoNumbers LogData Host Storage Logger CloudData FlatIndex Sha256 Files FilesSpec Mstore Tree Content Expiry TreeSpec TreeUpdate TreeDelete Reference FilesRef TreeThms.
From Stdlib Require Import Ascii.

(** ** Checksums of a satellite folder *)
Section Integrity.
Context `{Bolt, Disk, Env, Json TelemetryMessage} `{!Files} `{!FilesLaws}.
Implicit Types (w : world) (d : disk).

(** A row for the file [e.1] of [dir] with the checksum [e.2]. *)
Definition row_for (dir : string) (row : list string) (e : string * string) : Prop :=
  row !! 1 = Some (path_join [dir; e.1]) /\ row !! 2 = Some e.2.
(** A name that a line of [hashsum.txt] can hold, of a file that is neither of the
    two the hub writes. *)
Definition content_name (x : string) : Prop :=
  plain x /\ line_name x /\ x <> "hashsum.txt" /\ x <> "deadline.txt".
Definition verified d (dir : string) (e : string * string) : Prop :=
  exists c, os_read_file (path_join [dir; e.1]) d = inr c /\ sha256_hex c = e.2.

Lemma plain_hashsum : plain "hashsum.txt".
Proof. by vm_compute. Qed.
Lemma plain_deadline : plain "deadline.txt".
Proof. by vm_compute. Qed.

Lemma verified_kept d d' dir e : rooted dir -> content_name e.1 ->
  (forall q, rooted q -> ~ ends_in "hashsum.txt" (path_clean q) -> ~ ends_in "deadline.txt" (path_clean q) ->
    same_text q d d') ->
  verified d dir e -> verified d' dir e.
Proof.
  intros Hdir (Hp & _ & Hne1 & Hne2) Hk (c & Hc & Hh). exists c. split; [|done]. apply Hk; [by apply rooted_join|..|done];
    intros He; pose proof (path_clean_ends e.1 (path_join [dir; e.1]) Hp (path_join_ends [dir] e.1 Hp)) as Hx.
  - apply Hne1. eapply ends_in_unique; [apply Hp|apply plain_hashsum|exact Hx|exact He].
  - apply Hne2. eapply ends_in_unique; [apply Hp|apply plain_deadline|exact Hx|exact He].
Qed.

(** The files that none of the writing functions touches. *)
Definition untouched q : Prop :=
  rooted q /\ ~ ends_in "hashsum.txt" (path_clean q) /\ ~ ends_in "deadline.txt" (path_clean q).
Lemma untouched_apart folder x q : rooted folder -> x = "hashsum.txt" \/ x = "deadline.txt" ->
  untouched q -> apart (path_join [folder; x]) q.
Proof.
  intros Hf Hx (Hq & H1' & H2'). split_and!; [by apply rooted_join|done|]. intros E. rewrite E in H1', H2'.
  assert (plain x) as Hp by (by destruct Hx as [->| ->]; [apply plain_hashsum|apply plain_deadline]).
  pose proof (path_clean_ends x (path_join [folder; x]) Hp (path_join_ends [folder] x Hp)).
  by destruct Hx as [->| ->].
Qed.

Lemma check_satellite_file_run folder dir row e w w' : rooted folder -> plain e.1 -> row_for dir row e ->
  check_satellite_file folder row w = (Ret tt, w') ->
  verified (w_disk w) dir e /\ storeHashsum folder e.1 e.2 w = (Ret tt, w').
Proof.
  intros Hf Hp [H1' H2']. unfold check_satellite_file, cell. rewrite H1', H2'.
  erewrite bind_Ret by done. erewrite bind_Ret by done.
  destruct (matchSHA256_run (path_join [dir; e.1]) e.2 w) as (o & Eo & Ho & Hres).
  destruct o as [[]|err| |]; [|by erewrite bind_Fail by (unfold wrap_error; by rewrite Eo)|done|done].
  erewrite bind_Ret by (by eapply wrap_error_Ret). rewrite path_base_join by done.
  intros E. split; [by apply Ho|]. by apply wrap_error_inv in E as [E|(? & ? & [=])].
Qed.

Lemma check_satellite_files_run folder dir rows infos acc row0 w w' : rooted folder -> rooted dir ->
  Forall2 (row_for dir) rows infos -> Forall (fun e => content_name e.1) infos ->
  text_at (path_join [folder; "hashsum.txt"]) (hash_text acc) (w_disk w) ->
  each_file (rows ++ [row0]) (check_satellite_file folder) w = (Ret tt, w') ->
  text_at (path_join [folder; "hashsum.txt"]) (hash_text (acc ++ infos)) (w_disk w') /\
  kept untouched (w_disk w) (w_disk w') /\ w_db w' = w_db w /\
  Forall (verified (w_disk w) dir) infos.
Proof.
  intros Hf Hdir Hrows. revert acc w. induction Hrows as [|row e rows infos Hrow _ IH]; intros acc w Hnames Htext.
  { intros [= <-]. rewrite app_nil_r. done. }
  apply Forall_cons in Hnames as [Hname Hnames].
  change ((row :: rows) ++ [row0]) with (row :: (rows ++ [row0])).
  assert (each_file (row :: (rows ++ [row0])) (check_satellite_file folder) w =
    (check_satellite_file folder row;; each_file (rows ++ [row0]) (check_satellite_file folder)) w) as ->
    by (by destruct rows).
  destruct (check_satellite_file folder row w) as [o w1] eqn:E1.
  destruct o as [[]|err|s|]; [|by erewrite bind_Fail by exact E1|by erewrite bind_Panic by exact E1|
    by (unfold mbind, M_bind; rewrite E1)].
  erewrite bind_Ret by exact E1.
  destruct (check_satellite_file_run _ _ _ _ _ _ Hf (proj1 Hname) Hrow E1) as [Hv Es].
  destruct (storeHashsum_run folder e.1 e.2 w (Ret tt) w1 Hf Es) as (Hdb & _ & _ & Hk & Htext1).
  specialize (Htext1 eq_refl _ Htext). intros Erest.
  assert (kept untouched (w_disk w) (w_disk w1)) as Hku.
  { intros q Hq. apply Hk. apply untouched_apart; [done|by left|done]. }
  destruct (IH (acc ++ [e]) w1 Hnames) as (Ht & Hk2 & Hdb2 & Hall); [|exact Erest|].
  { left. rewrite Htext1. unfold hash_text. rewrite fmap_app, s_concat_app. simpl. by rewrite s_app_nil_r. }
  rewrite <-app_assoc in Ht. split_and!; [exact Ht| |congruence|].
  - intros q Hq. etrans; [by apply Hku|by apply Hk2].
  - constructor; [done|]. rewrite Forall_forall in Hall |- *. rewrite Forall_forall in Hnames. intros x Hx.
    apply (verified_kept (w_disk w1)); [done|by apply Hnames| |by apply Hall].
    intros q Hq1 Hq2 Hq3. symmetry. by apply Hku.
Qed.

Lemma generate_run folder rows deadline w w' :
  generateSatelliteFolderIntegrity folder (rows ++ [last_row deadline]) w = (Ret tt, w') ->
  exists w1 dl, each_file (rows ++ [last_row deadline]) (check_satellite_file folder) w = (Ret tt, w1) /\
    storeDeadline folder dl w1 = (Ret tt, w').
Proof.
  unfold generateSatelliteFolderIntegrity. destruct (rows ++ [last_row deadline]) as [|row0 rows0] eqn:E; [done|].
  destruct (each_file _ _ w) as [[[]|err|s|] w1] eqn:E1; try (by unfold mbind, M_bind; rewrite E1).
  erewrite bind_Ret by exact E1. destruct (first_deadline (row0 :: rows0) w1) as [[dl|err|s|] w2] eqn:E2;
    try (by unfold mbind, M_bind; rewrite E2).
  erewrite bind_Ret by exact E2. intros [E3|(? & ? & [=])]%wrap_error_inv. exists w1, dl. split; [done|].
  assert (w2 = w1) as ->; [|done]. revert E2. unfold first_deadline, cell. by destruct (row0 !! 4); intros [= _ <-].
Qed.

(** C24: A satellite folder passes its own check.  When
    [generateSatelliteFolderIntegrity] returns nil on a folder without [hashsum.txt],
    for files of a directory, every one of them has the announced checksum, and the
    check of [telemetry_events.go] then reads the checksums back and finds none of
    the files of the directory corrupted; it counts exactly those that were
    announced.  The database is not touched. *)
Theorem satellite_folder_passes_its_check folder dir rows infos deadline w w' :
  rooted folder -> rooted dir -> infos <> [] ->
  Forall2 (row_for dir) rows infos -> Forall (fun e => content_name e.1) infos ->
  os_exists (path_join [folder; "hashsum.txt"]) (w_disk w) = false ->
  generateSatelliteFolderIntegrity folder (rows ++ [last_row deadline]) w = (Ret tt, w') ->
  w_db w' = w_db w /\ Forall (verified (w_disk w') dir) infos /\
  exists files, ignoring [] (read_dir dir) w' = (Ret files, w') /\
    check_with (path_join [folder; "hashsum.txt"]) dir w' =
    (Ret (inr (0, Z.of_nat (length (filter (fun f => fi_name f ∈ infos.*1) files)))%Z), w').
Proof.
  intros Hf Hdir Hne Hrows Hnames Hno (w1 & dl & E1 & E2)%generate_run.
  destruct (check_satellite_files_run folder dir rows infos [] _ _ _ Hf Hdir Hrows Hnames (or_intror (conj Hno eq_refl)) E1)
    as (Htext & Hk & Hdb & Hall). cbn [app] in Htext.
  destruct (storeDeadline_run folder dl w1 _ _ E2) as (Hdb2 & _ & _ & Hk2 & _).
  assert (kept untouched (w_disk w) (w_disk w')) as Hk'.
  { intros q Hq. etrans; [by apply Hk|apply Hk2]. apply untouched_apart; [done|by right|done]. }
  assert (Forall (verified (w_disk w') dir) infos) as Hv.
  { apply Forall_forall. intros e He. rewrite Forall_forall in Hall, Hnames.
    apply (verified_kept (w_disk w)); [done|by apply Hnames| |by apply Hall]. intros q Hq1 Hq2 Hq3. by apply Hk'. }
  assert (Forall entry_ok infos) as Hok.
  { apply Forall_forall. intros e He. rewrite Forall_forall in Hv, Hnames. destruct (Hv e He) as (c & _ & Hc).
    split; [apply Hnames, He|]. rewrite <-Hc. split; [apply hex_text_sha256|apply length_sha256_hex]. }
  assert (os_read_file (path_join [folder; "hashsum.txt"]) (w_disk w') = inr (hash_text infos)) as Hread.
  { apply Hk2; [apply (apart_names folder folder); by (done || apply plain_hashsum || apply plain_deadline)|].
    destruct Htext as [?|[_ Ht]]; [done|]. exfalso. destruct infos as [|[x h] infos]; [done|].
    unfold hash_text in Ht. rewrite fmap_cons in Ht. simpl in Ht. unfold hash_line in Ht.
    apply (f_equal String.length) in Ht. rewrite !s_length_app in Ht. simpl in Ht. lia. }
  split_and!; [congruence|done|].
  set (m := foldl (fun m e => <[e.1 := e.2]> m) (∅ : gmap string string) infos).
  destruct (checkfiles_all_match dir m w') as (files & Hfiles & Hc).
  { intros n h [Hin|Hin]%lookup_entries; [|by rewrite lookup_empty in Hin]. rewrite Forall_forall in Hv. by apply (Hv (n, h)). }
  exists files. split; [done|]. unfold check_with.
  erewrite bind_Ret by (apply attempt_Ret; by apply gethashsum_run). cbv beta iota. fold m.
  erewrite bind_Ret by exact Hc. unfold mret, M_ret. do 4 f_equal.
  assert (forall f : file_info, is_Some (m !! fi_name f) <-> fi_name f ∈ infos.*1) as Hiff.
  { intros f. unfold m. rewrite entries_listed, lookup_empty. split; [by intros [?|[? [=]]]|by left]. }
  by rewrite (list_filter_iff _ _ files Hiff).
Qed.
End Integrity.

(** ** Expiry *)
Section Expiry.
Context `{Bolt, Disk, Env, Json TelemetryMessage} `{!BoltLaws} `{!Files} `{!FilesLaws}.
Variable logger : Logger.
Variable fs : FileSystem.
Implicit Types (w : world) (d : disk).

Lemma hierarchy_nonempty p : hierarchy_of p <> [].
Proof. apply split_on_nonempty. Qed.

Lemma getDeadline_run path w :
  getDeadline path w =
  (match os_read_file (deadline_file path) (w_disk w) with
   | inl e => Fail e
   | inr text => Ret (parse_int 64 (s_take 64 text)).1
   end, w).
Proof. unfold getDeadline, read_file, mbind, M_bind. by destruct (os_read_file _ _). Qed.

Lemma s_take_short n s : String.length s <= n -> s_take n s = s.
Proof. intros Hn. rewrite <-(s_app_nil_r (s_take n s)), <-(s_drop_ge n s Hn). apply s_take_drop. Qed.

(** What happens once the deadline was read. *)
Lemma checkDeadlineAndDelete_run fuel path prefix dl w : (0 <= dl)%Z ->
  getDeadline path w = (Ret dl, w) ->
  checkDeadlineAndDelete fs fuel path prefix w =
  if decide (dl < unix (env_now (w_trace w)))%Z
  then RecursiveDeleteFolder fs fuel (hierarchy_of prefix) (log_event EvClock w)
  else (Ret tt, log_event EvClock w).
Proof.
  intros Hdl Hg. unfold checkDeadlineAndDelete. erewrite bind_Ret by (by apply attempt_Ret). cbv beta iota.
  rewrite decide_False by lia. erewrite bind_Ret by done. by case_decide.
Qed.

(** C25: A folder is deleted after its deadline and not before.  When [storeDeadline]
    wrote a deadline where there was none, and the file was not changed since,
    [checkDeadlineAndDelete] reads exactly that number back.  Up to that second it
    returns nil and leaves database and disk alone; later it removes the folder from
    the tree that the database represents, with the ancestors that are left empty,
    when it returns nil. *)
Theorem folder_expires_after_its_deadline fuel path prefix dl w0 w1 t w o w' :
  (0 <= dl < 2 ^ 63)%Z ->
  os_exists (deadline_file path) (w_disk w0) = false ->
  storeDeadline path (format_int dl) w0 = (Ret tt, w1) ->
  os_read_file (deadline_file path) (w_disk w) = os_read_file (deadline_file path) (w_disk w1) ->
  reliable -> represents fs t w -> tree_fits fs t -> height t <= fuel ->
  checkDeadlineAndDelete fs fuel path prefix w = (o, w') ->
  let h := hierarchy_of prefix in
  getDeadline path w = (Ret dl, w) /\ is_result o /\
  ((unix (env_now (w_trace w)) <= dl)%Z -> o = Ret tt /\ same_db w' w /\ w_disk w' = w_disk w) /\
  ((dl < unix (env_now (w_trace w)))%Z -> o = Ret tt -> represents fs (prune h (length h - 1) (remove_at h t)) w').
Proof.
  intros Hdl Hno Hstore Hsame Hrel Hrep Hfit Hf E h.
  destruct (storeDeadline_run _ _ _ _ _ Hstore) as (_ & _ & _ & _ & Hread & _).
  assert (getDeadline path w = (Ret dl, w)) as Hg.
  { rewrite getDeadline_run, Hsame, Hread by done. rewrite s_take_short.
    - by rewrite parse_format by lia.
    - pose proof (length_format dl). lia. }
  rewrite (checkDeadlineAndDelete_run _ _ _ dl) in E by (done || lia).
  split; [done|]. case_decide as Hlt.
  - destruct (RecursiveDeleteFolder_refines fs fuel h t _ o w' Hrel (Hrep : represents fs t (log_event EvClock w)) Hfit
      (hierarchy_nonempty prefix) Hf E) as [Ho Hp].
    split_and!; [done|lia|done].
  - injection E as <- <-. split_and!; [done|done|lia].
Qed.

(** *** A whole round *)

Lemma preserves_whole (P : world -> Prop) {A} piece (m : Hub A) : preserves P m -> preserves P (whole fs piece m).
Proof. intros Hm. unfold whole. case_decide; [done|apply preserves_panic]. Qed.

Section Round.
Context (P : world -> Prop) (fuel : nat).
Hypothesis log_keeps : forall e, preserves P (log_expiry_error logger e).
Hypothesis check_keeps : forall path prefix, preserves P (checkDeadlineAndDelete fs fuel path prefix).

Lemma keeps_traverse_children visit nodes prefix :
  (forall node p, preserves P (visit node p)) -> preserves P (traverse_children logger fs visit fuel nodes prefix).
Proof.
  intros Hv. revert prefix. induction nodes as [|node nodes IH]; intros prefix; [apply preserves_ret|].
  cbn [traverse_children]. apply preserves_whole.
  apply preserves_bind; [apply preserves_ignoring, preserves_db_view|intros name]. cbv zeta.
  apply preserves_bind; [apply preserves_attempt, check_keeps|intros [e|[]]].
  - apply preserves_bind; [apply log_keeps|intros _; apply preserves_ret].
  - apply preserves_bind; [apply Hv|intros _; apply IH].
Qed.
Lemma keeps_traverse depth node prefix : preserves P (traverse logger fs depth fuel node prefix).
Proof.
  revert node prefix. induction depth as [|depth IH]; intros node prefix; [apply preserves_out_of_fuel|].
  cbn [traverse]. apply preserves_bind; [apply preserves_attempt, preserves_db_view|intros r].
  apply preserves_bind.
  { destruct r; [|apply preserves_ret]. apply preserves_bind; [apply log_keeps|intros _; apply preserves_ret]. }
  intros children. cbv zeta. case_decide; [|by apply keeps_traverse_children].
  destruct (before_last_slash prefix); [apply preserves_ret|by apply keeps_traverse_children].
Qed.
Lemma keeps_round depth : preserves P (deleteContent_round logger fs depth fuel).
Proof. apply preserves_bind; [apply keeps_traverse|intros _; apply preserves_ret]. Qed.
End Round.

(** The database and the disk of [w0]. *)
Definition still w0 w : Prop := same_db w w0 /\ w_disk w = w_disk w0.

Lemma still_log w0 e : preserves (still w0) (log_expiry_error logger e).
Proof.
  unfold log_expiry_error. apply preserves_ignoring. intros w [Hs Hd].
  set (m := Log logger Error (sm_string ("DeleteContentOnExpiry: " +:+ e))).
  assert (w_db (m w).2 = w_db w) as Hdb by apply Log_db. assert (w_disk (m w).2 = w_disk w) as Hdisk by apply Log_disk.
  split; [unfold same_db; rewrite Hdb; exact Hs|by rewrite Hdisk].
Qed.
Lemma thinned_log fuel t e : preserves (thinned fs fuel t) (log_expiry_error logger e).
Proof. unfold log_expiry_error. preserve. Qed.

Lemma thinned_check fuel t path prefix : reliable ->
  preserves (thinned fs fuel t) (checkDeadlineAndDelete fs fuel path prefix).
Proof.
  intros Hrel. unfold checkDeadlineAndDelete. apply preserves_bind.
  { apply preserves_attempt. intros w Hw. by rewrite getDeadline_run. }
  intros [e|dl]; [apply preserves_fail|]. case_decide; [apply preserves_fail|].
  apply preserves_bind; [apply preserves_time_now, _|intros now]. case_decide; [|apply preserves_ret].
  apply thins_RecursiveDeleteFolder; [done|apply hierarchy_nonempty].
Qed.
Lemma still_check fuel w0 path prefix :
  (forall p text tr, os_read_file (deadline_file p) (w_disk w0) = inr text ->
    (unix (env_now tr) <= (parse_int 64 (s_take 64 text)).1)%Z) ->
  preserves (still w0) (checkDeadlineAndDelete fs fuel path prefix).
Proof.
  intros Hfuture w Hw. unfold checkDeadlineAndDelete. pose proof (getDeadline_run path w) as Hg.
  destruct (os_read_file _ _) as [e|text] eqn:E.
  { by erewrite bind_Ret by (by eapply attempt_Fail). }
  erewrite bind_Ret by (by apply attempt_Ret). cbv beta iota. case_decide; [done|].
  erewrite bind_Ret by done. rewrite decide_False; [done|]. destruct Hw as [_ Hd]. rewrite Hd in E.
  specialize (Hfuture _ _ (w_trace w) E). lia.
Qed.

(** C26: A round of the expiry only removes folders.  On a database whose commits
    succeed, whatever the files, the clock and the disk answer, and whatever happens
    to the slices of nodes that are visited after their folders are gone, the
    database afterwards represents what some removals of folders left of the tree;
    and as long as no deadline on the disk has passed, a round changes nothing. *)
Theorem expiry_only_removes depth fuel t w :
  reliable -> represents fs t w -> tree_fits fs t -> height t <= fuel ->
  let w' := (deleteContent_round logger fs depth fuel w).2 in
  (exists t', rtc removal t t' /\ represents fs t' w') /\
  ((forall p text tr, os_read_file (deadline_file p) (w_disk w) = inr text ->
      (unix (env_now tr) <= (parse_int 64 (s_take 64 text)).1)%Z) ->
   same_db w' w /\ w_disk w' = w_disk w).
Proof.
  intros Hrel Hrep Hfit Hf w'. split.
  - assert (thinned fs fuel t w') as (t' & Hs & Hrep' & _); [|by exists t'].
    apply keeps_round; [apply thinned_log|intros; by apply thinned_check|]. by exists t.
  - intros Hfuture. apply (keeps_round (still w) fuel); [apply still_log|intros; by apply still_check|done].
Qed.
End Expiry.

(** ** The NOOVO receiver *)
Section Noovo.
Context `{Bolt, Disk, Env, Json TelemetryMessage} `{!BoltLaws} `{!Files}.
Variable fs : FileSystem.
Variables METADATA_FOLDER BULKFILE_FOLDER : string.
Implicit Types (w : world).

Lemma trim_right_end c x : trim_right c (x +:+ String c EmptyString) = trim_right c x.
Proof.
  induction x as [|a x IH]; [simpl; by rewrite decide_True|]. rewrite s_app_cons. simpl. by rewrite IH.
Qed.
Lemma hierarchy_of_folder f : plain f -> hierarchy_of (EmptyString +:+ f +:+ "/") = [f].
Proof.
  intros (Hf & Hne & _). rewrite s_app_nil_l. unfold hierarchy_of, trim_char.
  assert (trim_left "/"%char (f +:+ "/") = f +:+ "/") as ->.
  { destruct f as [|a f]; [done|]. rewrite s_app_cons. simpl in *. apply andb_true_iff in Hf as [Ha _].
    apply bool_decide_eq_true in Ha. by rewrite decide_False. }
  rewrite trim_right_end, trim_right_id by done. by apply split_on_no_char.
Qed.

Lemma noovo_rows_no_bulk {W} metadata url d (w : W) : exists rows, noovo_rows metadata [] url d w = (Ret rows, w).
Proof. unfold noovo_rows. cbn [imap for_fold]. eexists. by erewrite bind_Ret by done. Qed.

Lemma noovo_rows_no_metadata {W} bulk url d (w : W) : exists rows, noovo_rows [] bulk url d w = (Ret rows, w).
Proof.
  unfold noovo_rows. cbn [imap foldl length]. cbv zeta. rewrite Nat.add_0_l.
  match goal with |- exists _, (for_fold ?l ?r0 ?b ≫= _) w = _ =>
    enough (exists rows, for_fold l r0 b w = (Ret rows, w)) as [rows E] by (eexists; by erewrite bind_Ret by exact E);
    assert (Forall (fun ix => ix.1 < length r0) l) as Hl;
      [|revert Hl; generalize r0; generalize l] end.
  - apply Forall_forall. intros [i x] Hin%list_elem_of_In. apply list_elem_of_In, elem_of_lookup_imap in Hin as (j & y & [= -> ->] & Hj).
    apply lookup_lt_Some in Hj. rewrite length_replicate. simpl. lia.
  - intros l. induction l as [|[i x] l IH]; intros rows Hl; [by eexists|].
    apply Forall_cons in Hl as [Hi Hl]. simpl in Hi. cbn [for_fold fst snd]. cbv zeta.
    rewrite Nat.add_0_l, list_lookup_insert_eq by done. cbn [replicate].
    erewrite bind_Ret by done. apply IH. rewrite !length_insert. done.
Qed.

Lemma rows_below (l : list (nat * FileInfo)) (g : nat * FileInfo -> list string) (rows : list (list string)) i :
  Forall (fun ix => ix.1 < i) l -> foldl (fun rows ix => <[ix.1 := g ix]> rows) rows l !! i = rows !! i.
Proof.
  revert rows. induction l as [|ix l IH]; intros rows Hl; [done|]. apply Forall_cons in Hl as [Hi Hl].
  cbn [foldl]. rewrite IH by done. apply list_lookup_insert_ne. lia.
Qed.
Lemma noovo_rows_panic {W} metadata bulk url d (w : W) : metadata <> [] -> bulk <> [] ->
  exists s, noovo_rows metadata bulk url d w = (Panic s, w).
Proof.
  intros Hm Hb. destruct bulk as [|y bulk]; [done|]. unfold noovo_rows. cbv zeta. cbn [imap for_fold fst snd].
  rewrite Nat.add_0_r. assert (0 < length metadata) by (destruct metadata; [done|simpl; lia]).
  rewrite list_lookup_insert_ne by lia. rewrite rows_below.
  - rewrite lookup_replicate_2 by (simpl; lia). eexists. by erewrite bind_Panic by (by erewrite bind_Panic).
  - apply Forall_forall. intros [i x] Hin. apply elem_of_lookup_imap in Hin as (j & z & [= -> ->] & Hj).
    by apply lookup_lt_Some in Hj.
Qed.

(** The NOOVO download serves a media house once and never mixed contents.  When
    the first folder of the path has both metadata files and bulk files,
    [downloadContent] panics; otherwise, when that folder is already in the tree, it
    returns the error that the name is taken, because it compares the text of the
    error with one that has a space less, and nothing is downloaded. *)
Theorem noovo_downloads_once fuel vod path folder rest t w :
  represents fs t w -> hierarchy_of path = folder :: rest -> plain folder ->
  let metadata := files_of (by_folder (no_MetadataFiles vod)) folder in
  let bulk := files_of (by_folder (no_BulkFiles vod)) folder in
  let run := downloadContent fs METADATA_FOLDER BULKFILE_FOLDER (S fuel) vod path w in
  (metadata <> [] -> bulk <> [] -> exists s, run = (Panic s, w)) /\
  (metadata = [] \/ bulk = [] -> folder ∈ (root_name <$> kids t) -> env_uuid (w_trace w) <> homeNode fs ->
   run.1 = Fail folder_exists_error /\ same_db run.2 w /\ w_disk run.2 = w_disk w).
Proof.
  intros Hrep Hpath Hplain metadata bulk run. unfold run, downloadContent. rewrite Hpath. cbv zeta.
  cbn [subpaths for_each]. fold metadata bulk.
  match goal with |- context [noovo_rows _ _ ?u ?d] => set (url := u); set (dl := d) end. split.
  - intros Hm Hb. destruct (noovo_rows_panic metadata bulk url dl w Hm Hb) as [s Es]. exists s.
    by erewrite bind_Panic by (by erewrite bind_Panic by exact Es).
  - intros Hrows Htaken Hfresh.
    assert (exists rows, noovo_rows metadata bulk url dl w = (Ret rows, w)) as [rows Er]
      by (destruct Hrows as [-> | ->]; [apply noovo_rows_no_metadata|apply noovo_rows_no_bulk]).
    assert (CreateDownloadNewFolder fs (S fuel) [folder] (DownloadFiles METADATA_FOLDER BULKFILE_FOLDER) rows false
      EmptyString w = (Fail folder_exists_error, log_event EvUuid w)) as Ec.
    { unfold CreateDownloadNewFolder, last_of. cbn [last]. erewrite bind_Ret by done. cbn [RandStringBytes].
      erewrite bind_Ret by (erewrite bind_Ret by done; by rewrite decide_False).
      assert (represents fs t (log_event EvUuid w)) as Hrep1 by done.
      pose proof (new_folder_parent_run fs t [folder] folder _ Hrep1) as Ep. unfold target in Ep.
      change (but_last [folder]) with (@nil string) in Ep. cbn [find_path] in Ep. rewrite decide_True in Ep by done.
      by erewrite bind_Fail by exact Ep. }
    rewrite (bind_Fail _ _ w folder_exists_error (log_event EvUuid w)); [done|].
    erewrite bind_Ret by exact Er. rewrite hierarchy_of_folder by done.
    erewrite bind_Ret by (by eapply attempt_Fail). cbv beta iota. by rewrite decide_False.
Qed.
End Noovo.

(** ** Witnesses *)

Module Kept.
#[local] Hint Extern 0 Bolt => exact (mem_bolt false) : typeclass_instances.
#[local] Instance ex_env : Env := scripted (Script [] []).

(** A film on the satellite receiver's disk. *)
Definition film_dir : string := "/mstore/film".
Definition film_sum : string := "ba7816bf8f01cfea414140de5dae2223b00361a396177a9cb410ff61f20015ad".
Definition film_infos : list (string * string) := [("film.mp4", film_sum)].
Definition film_rows : list (list string) :=
  [["film.mp4"; "/mstore/film/film.mp4"; film_sum; "bulkfile"; "1500000000"]].
Definition film_world : world :=
  World (MemDB ∅ []) (MemDisk ["/home/n"] [("/mstore/film/film.mp4", "abc"); ("/mstore/film/cover.jpg", "x")] []) [].
Definition film_checked : outcome unit * world :=
  generateSatelliteFolderIntegrity "/home/n" (film_rows ++ [last_row "1500000000"]) film_world.

Lemma film_names : Forall (fun e => content_name e.1) film_infos.
Proof.
  apply Forall_cons. split; [|apply Forall_nil_2]. split; [by vm_compute|split; [|split; by vm_compute]].
  split; [repeat (apply Forall_cons; split; [evaluate|]); apply Forall_nil_2|by vm_compute].
Qed.
Lemma satellite_folder_passes_its_check_witness :
  check_with "/home/n/hashsum.txt" "/mstore/film" film_checked.2 = (Ret (inr (0, 1)%Z), film_checked.2).
Proof.
  assert (film_checked.1 = Ret tt) as E by evaluate.
  destruct (satellite_folder_passes_its_check "/home/n" film_dir film_rows film_infos "1500000000" film_world
    film_checked.2 eq_refl eq_refl ltac:(done)) as (_ & _ & files & Hf & Hc).
  - apply Forall2_cons_2; [split; evaluate|apply Forall2_nil_2].
  - exact film_names.
  - evaluate.
  - apply run_pair. exact E.
  - etransitivity; [exact Hc|]. do 5 f_equal.
    assert (ignoring [] (read_dir film_dir) film_checked.2 = (Ret
      [{| fi_name := "film.mp4"; fi_is_dir := false; fi_size := 3 |};
       {| fi_name := "cover.jpg"; fi_is_dir := false; fi_size := 1 |}], film_checked.2)) as E2.
    { apply (f_equal (fun r => (r, film_checked.2))). evaluate. }
    rewrite E2 in Hf. apply (f_equal fst) in Hf. cbn [fst] in Hf. injection Hf as <-. evaluate.
Defined.

(** A folder of the tree whose deadline has passed: the clock stands at 1600000000. *)
Definition hindi_dir : string := node_folder ex_fs (numbered_name 103).
Definition dated : outcome unit * world := storeDeadline hindi_dir (format_int 1500000000) Sound.ex_world.
Definition dated_world : world := dated.2.
Lemma dated_ok : storeDeadline hindi_dir (format_int 1500000000) Sound.ex_world = (Ret tt, dated_world).
Proof. apply run_pair. evaluate. Qed.
Lemma dated_represents : represents ex_fs ex_tree dated_world.
Proof.
  destruct (storeDeadline_run _ _ _ _ _ dated_ok) as (Hdb & _). pose proof Sound.ex_represents as Hr.
  assert (same_db dated_world Sound.ex_world) as E by (unfold same_db; by rewrite Hdb). by rewrite E.
Qed.

Lemma folder_expires_after_its_deadline_witness :
  represents ex_fs (Node (homeNode ex_fs) "home" [Node (numbered_name 102) "tv" []])
    (checkDeadlineAndDelete ex_fs 3 hindi_dir "/movies/hindi" dated_world).2.
Proof.
  destruct (folder_expires_after_its_deadline ex_fs 3 hindi_dir "/movies/hindi" 1500000000 Sound.ex_world dated_world
    ex_tree dated_world _ _ ltac:(lia) ltac:(evaluate) dated_ok eq_refl sure_reliable dated_represents ex_tree_fits
    ltac:(simpl; lia) (surjective_pairing _)) as (_ & _ & _ & Hp).
  apply Hp; [by vm_compute|evaluate].
Defined.

Lemma expiry_only_removes_witness :
  exists t', rtc removal ex_tree t' /\
    represents ex_fs t' (deleteContent_round ref_logger ex_fs 3 3 dated_world).2.
Proof.
  exact (proj1 (expiry_only_removes ref_logger ex_fs 3 3 ex_tree dated_world sure_reliable dated_represents
    ex_tree_fits ltac:(simpl; lia))).
Defined.

Definition noovo_vod : VodObj :=
  {| no_Source := EmptyString; no_MovieID := "BINE1"; no_ValidityEndDate := 0; no_MediaHouse := "movies"; no_AncestorIds := EmptyString;
     no_MediaId := "new"; no_PushId := 7; no_MetadataFiles := []; no_BulkFiles := []; no_Thumbnail := "t.jpg";
     no_Cover := "c.jpg"; no_Movie := "m.mp4"; no_DataFiles := [] |}.
Lemma noovo_downloads_once_witness :
  (downloadContent ex_fs "metadatafiles" "bulkfiles" 1 noovo_vod "movies/new" Sound.ex_world).1 =
  Fail folder_exists_error.
Proof.
  refine (proj1 (proj2 (noovo_downloads_once ex_fs "metadatafiles" "bulkfiles" 0 noovo_vod "movies/new" "movies" ["new"]
    ex_tree Sound.ex_world Sound.ex_represents eq_refl ltac:(by vm_compute)) (or_introl eq_refl) _ _)).
  - by left.
  - by vm_compute.
Defined.
End Kept.
