(* ===== verification/Routes.v ===== *)
(** [route_handler.go] and the part of [repository.go] it uses: the HTTP routes that
    serve the hierarchy of folders and the flat index, and the binary format in
    which the metadata of the children of a folder is sent.  The web framework
    ([gin]) is the writer of the response and the query parameters. *)
From S2P Require Import Prelude GoStrings LogData Host Storage Logger CloudData FlatIndex Tree.
From Stdlib Require Import Ascii.

(** ** The response

    [context.Writer.Write]: how many bytes are taken, and whether an error is
    returned, which may depend on what was sent before. *)
Class Client := { take_bytes : string -> string -> nat * bool }.
(** The contract of [io.Writer]: no more than the bytes given, all of them when no
    error is returned. *)
Class ClientLaws `{Client} : Prop :=
  taken_bytes sent data n failed : take_bytes sent data = (n, failed) ->
    n <= String.length data /\ (failed = false -> n = String.length data).

(** The fields of [FolderStructureEntry] that are used. *)
Record FolderStructureEntry := {
  ID : string;
  HasChildren : bool;
  InfoMetadataFileName : string;
  Size : Z;
  MetadataFiles : list string;
}.
Record FolderPathInfo := { fpi_Id : string; Folderpath : string }.

(** The values of the [interface{}] slices that [GetChildrenInfo] collects. *)
Inductive any := AnyBool (b : bool) | AnyInt (z : Z) | AnyStrings (l : list string).

(** The big-endian bytes of an unsigned integer: [binary.BigEndian.PutUint32] and
    [PutUint64]; the conversion to an unsigned type wraps around. *)
Definition byte_of (z : Z) : ascii := ascii_of_N (Z.to_N (Z.land z 255)).
Fixpoint big_endian (n : nat) (z : Z) : string :=
  match n with
  | 0 => EmptyString
  | S n' => String (byte_of (Z.shiftr z (8 * Z.of_nat n'))) (big_endian n' z)
  end.
Definition put_uint32 (z : Z) : string := big_endian 4 z.
Definition put_uint64 (z : Z) : string := big_endian 8 z.

Section Routes.
Context `{Bolt, Disk, Env, Client, Json ContentInfoOnDevice, Json TelemetryMessage}.
Variable logger : Logger.
Variable fs : FileSystem.

(** ** [repository.go] *)

(** [size += file.Size()] wraps at 64 bits. *)
Definition getFolderSizeParser (actualPath : string) : Hub Z :=
  r ← try! (read_dir (actualPath +:+ "/bulkfiles"));
  match r with
  | inl _ => mret 0%Z
  | inr files =>
      mret (foldl (fun size file => if fi_is_dir file then size else wrap64 (size + fi_size file)) 0%Z files)
  end.

Definition getMetdataFileParser (actualPath : string) : Hub (list string) :=
  let parentDirectory := actualPath +:+ "/metadatafiles" in
  r ← try! (read_dir parentDirectory);
  match r with
  | inl _ => mret []
  | inr files =>
      mret (omap (fun file => if fi_is_dir file then None else Some (parentDirectory +:+ "/" +:+ fi_name file)) files)
  end.

Definition getChildrenParser (actualPath : string) : Hub (list any) :=
  r ← try! (IsLeaf fs actualPath);
  match r with
  | inl _ => mret []
  | inr isLeaf =>
      size ← getFolderSizeParser actualPath;
      metadataFiles ← getMetdataFileParser actualPath;
      mret [AnyBool (negb isLeaf); AnyInt size; AnyStrings metadataFiles]
  end.

Definition getBineFsPath (mediaHouse path : string) : string :=
  replace_all "//" "/" ("/" +:+ mediaHouse +:+ "/" +:+ path).

(** A type assertion on another value, or on a missing one, is a panic. *)
Definition entry_of {W} (child : string * list any) : M W (option FolderStructureEntry) :=
  match child with
  | (_, []) => mret None
  | (name, [AnyBool b; AnyInt size; AnyStrings files]) =>
      mret (Some {| ID := name; HasChildren := b; InfoMetadataFileName := EmptyString; Size := size; MetadataFiles := files |})
  | _ => panic "interface conversion"
  end.
Definition getChildren (mediaHouse parent : string) : Hub (list FolderStructureEntry) :=
  r ← try! (GetChildrenInfo fs (getBineFsPath mediaHouse parent) getChildrenParser);
  match r with
  | inl _ => mret []
  | inr response =>
      for_fold response [] (fun result child =>
        e ← entry_of child;
        mret (match e with Some e => result ++ [e] | None => result end))
  end.

(** The folder at the path, whose entry carries no name; nil is [None]. *)
Definition getFolderInfo (mediaHouse contentPath : string) : Hub (option FolderStructureEntry) :=
  r ← try! (GetActualPathForAbstractedPath fs (mediaHouse +:+ "/" +:+ contentPath));
  match r with
  | inl _ => mret None
  | inr actualPath =>
      size ← getFolderSizeParser actualPath;
      metadataFiles ← getMetdataFileParser actualPath;
      l ← try! (IsLeaf fs actualPath);
      mret (match l with
            | inl _ => None
            | inr isLeaf => Some {| ID := EmptyString; HasChildren := negb isLeaf;
                                    InfoMetadataFileName := EmptyString; Size := size;
                                    MetadataFiles := metadataFiles |}
            end)
  end.

(** The error of [json.Unmarshal] is dropped. *)
Definition getAssetFolderPath (assetId : string) : Hub FolderPathInfo :=
  info ← GetAssetFolderPathFromDB assetId;
  mret {| fpi_Id := assetId; Folderpath := FolderPath (json_unmarshal info).1 |}.

(** ** Writing the response *)

(** The process and what was sent of the response. *)
Definition session : Type := world * string.
Definition lift {A} (m : Hub A) : M session A := fun s =>
  let '(o, w) := m s.1 in (o, (w, s.2)).
Definition response_write (data : string) : M session (nat * bool) := fun s =>
  let '(n, failed) := take_bytes s.2 data in (Ret (n, failed), (s.1, s.2 +:+ s_take n data)).

(** The results of the writing functions count bytes; -1 is a failure.  The loops
    end when the writer keeps its contract. *)
Fixpoint write_bytes_loop (fuel : nat) (value : string) (written : nat) : M session Z :=
  match fuel with
  | 0 => out_of_fuel
  | S fuel' =>
      if decide (written < String.length value) then
        '(tempWritten, failed) ← response_write (s_drop written value);
        if (failed : bool) then mret (-1)%Z else write_bytes_loop fuel' value (written + tempWritten)
      else mret (Z.of_nat written)
  end.
Definition writeBytes (value : string) : M session Z :=
  write_bytes_loop (S (String.length value)) value 0.

Definition writeString (value : string) : M session Z :=
  n ← writeBytes (put_uint32 (Z.of_nat (String.length value)));
  if decide (n < 0)%Z then mret (-1)%Z
  else
    n ← writeBytes value;
    if decide (n < 0)%Z then mret (-1)%Z else mret (Z.of_nat (String.length value)).
Definition writeInt32 (value : Z) : M session Z := writeBytes (put_uint32 value).
Definition writeInt64 (value : Z) : M session Z := writeBytes (put_uint64 value).

Definition buffer_size : Z := 524288.
(** The open file is its contents from the current position on. *)
Fixpoint write_file_loop (fuel : nat) (contents : string) (fileSize written : Z) : M session Z :=
  match fuel with
  | 0 => out_of_fuel
  | S fuel' =>
      if decide (written < fileSize)%Z then
        match contents with
        | EmptyString => mret written  (* [io.EOF] *)
        | _ =>
            let chunk := s_take (Z.to_nat buffer_size) contents in
            n ← writeBytes chunk;
            if decide (n < 0)%Z then mret written
            else write_file_loop fuel' (s_drop (Z.to_nat buffer_size) contents) fileSize
                   (written + Z.of_nat (String.length chunk))
        end
      else mret written
  end.
Definition writeFile (contents : string) (fileSize : Z) : M session Z :=
  write_file_loop (S (String.length contents)) contents fileSize 0.

(** [if w < 0 { return -1 }] *)
Definition or_fail (m rest : M session Z) : M session Z :=
  n ← m; if decide (n < 0)%Z then mret (-1)%Z else rest.

(** The number of bytes [writeFile] wrote is only printed. *)
Definition write_metadata_file (file : string) (rest : M session Z) : M session Z :=
  or_fail (writeString (path_base file)) (
    size ← gets (fun s : session => os_stat_size file (w_disk s.1));
    match size with
    | inl _ => mret (-1)%Z
    | inr fileSize =>
        or_fail (writeInt64 fileSize) (
          contents ← gets (fun s : session => os_read_file file (w_disk s.1));
          match contents with
          | inl _ => mret (-1)%Z
          | inr contents => writeFile contents fileSize;; rest
          end)
    end).
Definition writeMetadataFiles (metadataFiles : list string) : M session Z :=
  or_fail (writeInt32 (Z.of_nat (length metadataFiles)))
    (foldr write_metadata_file (mret (Z.of_nat (length metadataFiles))) metadataFiles).

(** ** The handlers *)

(** [if strings.HasPrefix(s, "/") { s = s[1:] }] *)
Definition without_slash (s : string) : string := if has_prefix "/" s then s_drop 1 s else s.

(** A failure of [writeMetadataFiles] is only printed: the loop goes on. *)
Definition write_child (child : FolderStructureEntry) (rest : M session Z) : M session Z :=
  or_fail (writeString (ID child)) (
    or_fail (writeInt32 (if HasChildren child then 1 else 0)) (
      or_fail (writeInt64 (Size child)) (
        writeMetadataFiles (MetadataFiles child);; rest))).
(** The result tells whether the handler came to its end. *)
Definition serveMetadata (mediaHouse path : string) : M session Z :=
  children ← lift (getChildren mediaHouse (without_slash path));
  or_fail (writeInt32 (Z.of_nat (length children))) (foldr write_child (mret 0%Z) children).

(** What the other handlers answer: a status, the header [hubId] and a body. *)
Inductive answer :=
  | Body (status : Z) (hubId : option string) (body : string)
  | Redirect (location : string).  (* [http.StatusTemporaryRedirect] *)

(** The arguments of [context.String] do not belong to its empty format: the body
    is the complaint of [fmt]. *)
Definition errorResponse (response : string) : answer :=
  Body 400 None ("%!(EXTRA []interface {}=[" +:+ response +:+ "])").

Definition serveSingleMetadata (mediaHouse path : string) : M session (option answer) :=
  let path := without_slash path in
  n ← writeInt64 0;  (* [getFolderSize] *)
  if decide (n < 0)%Z then mret None
  else
    folderInfo ← lift (getFolderInfo mediaHouse path);
    match folderInfo with
    | None => mret (Some (errorResponse ("Folder info for  " +:+ path +:+ "  was nil")))
    | Some folderInfo => writeMetadataFiles (MetadataFiles folderInfo);; mret None
    end.

(** The encoder does not escape HTML, and puts a newline at the end. *)
Definition vanillaJSON {A} `{Json A} (input : A) : Hub string :=
  match json_marshal input with
  | inl err =>
      ignore! tt of (Log logger Error
        (sm_string ("RouteHandler: vanillaJSON: error while encoding " +:+ err)));;
      fail err
  | inr val => mret (val +:+ String "010"%char EmptyString)
  end.
Definition serveFolderPath `{Json FolderPathInfo} (deviceId assetId : string) : Hub answer :=
  r ← try! (path ← getAssetFolderPath assetId;
            vanillaJSON {| fpi_Id := fpi_Id path; Folderpath := "/static" +:+ Folderpath path |});
  mret (match r with
        | inl _ => errorResponse "Folderpath for the AssetID not found"
        | inr val => Body 200 (Some deviceId) val
        end).

Definition serveDeviceId (deviceId : string) : answer := Body 200 (Some deviceId) EmptyString.
End Routes.
