(* ===== verification/Leaves.v ===== *)
(** The other routes of [route_handler.go]: [/list/leaves/], which describes every
    folder without children, and [/download/files], which redirects to a file; and
    the part of [repository.go] they use. *)
From S2P Require Import Prelude GoStrings LogData Host Storage Logger FlatIndex Tree Routes.
From Stdlib Require Import Ascii.

Record FolderMetadata := {
  fm_Title : string;
  fm_Description : string;
  fm_VideoFiles : list string;
  fm_AudioFiles : list string;
  fm_Thumbnail : string;
  fm_Thumbnail2X : string;
  fm_Language : string;
  fm_Size : Z;
  fm_Duration : string;
  fm_Keywords : list string;
  fm_CastInfo : list string;
  fm_YearOfRelease : Z;
  fm_Path : string;
  fm_MPDFile : string;
  fm_FolderUrl : string;
}.
Record AvailableFolder := { af_ID : string; af_Metadata : FolderMetadata }.

(** ** Text *)

(** [url.QueryUnescape]: a percent sign that two hexadecimal digits do not follow is
    an error, and the result is then empty. *)
Definition hex_value (a : ascii) : option N :=
  let n := N_of_ascii a in
  if decide (48 <= n <= 57)%N then Some (n - 48)%N
  else if decide (97 <= n <= 102)%N then Some (n - 87)%N
  else if decide (65 <= n <= 70)%N then Some (n - 55)%N
  else None.
Fixpoint query_unescape (s : string) : option string :=
  match s with
  | EmptyString => Some EmptyString
  | String "%" s' =>
      match s' with
      | String a (String b s'') =>
          x ← hex_value a; y ← hex_value b; t ← query_unescape s'';
          Some (String (ascii_of_N (16 * x + y)) t)
      | _ => None
      end
  | String "+" s' => String " "%char <$> query_unescape s'
  | String a s' => String a <$> query_unescape s'
  end.

(** The seconds of [hh:mm:ss] are left out; other texts are minutes. *)
Definition getDurationInSeconds (duration : string) : num_error + string :=
  match split_on ":"%char duration with
  | [hours; minutes; _] =>
      match parse_int 32 hours with
      | (_, Some err) => inl err
      | (h, None) =>
          match parse_int 32 minutes with
          | (_, Some err) => inl err
          | (m, None) => inr (format_int ((h * 60 + m) * 60))
          end
      end
  | _ =>
      match parse_int 32 duration with
      | (_, Some err) => inl err
      | (m, None) => inr (format_int (m * 60))
      end
  end.

Definition getDownloadableURL (osFolderPath abstractFilePath : string) : string :=
  "http://{HUB_IP}:5000/static/" +:+ osFolderPath +:+ replace_all "-" "_" abstractFilePath.

(** What a folder adds to its own description; [satellite] folders have no
    subfolders. *)
Definition complete_metadata (satellite : bool) (osFsPath : string) (size : Z) (m : FolderMetadata) : FolderMetadata :=
  let osFsPath := if decide (1 < String.length osFsPath) then without_slash osFsPath else osFsPath in
  let prefix := if satellite then "/" else "/metadatafiles/" in
  {| fm_Title := fm_Title m; fm_Description := fm_Description m;
     fm_VideoFiles := fm_VideoFiles m; fm_AudioFiles := fm_AudioFiles m;
     fm_Thumbnail := getDownloadableURL osFsPath (prefix +:+ fm_Thumbnail m);
     fm_Thumbnail2X := getDownloadableURL osFsPath (prefix +:+ fm_Thumbnail2X m);
     fm_Language := fm_Language m; fm_Size := size;
     fm_Duration := match getDurationInSeconds (fm_Duration m) with inr s => s | inl _ => fm_Duration m end;
     fm_Keywords := fm_Keywords m; fm_CastInfo := fm_CastInfo m; fm_YearOfRelease := fm_YearOfRelease m;
     fm_Path := osFsPath; fm_MPDFile := fm_MPDFile m;
     fm_FolderUrl := "http://{HUB_IP}:5000/static/" +:+ osFsPath +:+ (if satellite then EmptyString else "/bulkfiles") |}.

Section Leaves.
Context `{Bolt, Disk, Env, Client, Json TelemetryMessage, Json FolderMetadata, Json (list AvailableFolder)}.
Variable logger : Logger.
Variable fs : FileSystem.

(** ** The folders without children *)

Definition getMetadataStruct (filePath : string) : Hub FolderMetadata :=
  file ← read_file filePath;
  match json_unmarshal file with
  | (data, None) => mret data
  | (_, Some err) => fail err
  end.

(** The entry of a leaf, if it has one; the errors are written to the local log. *)
Definition available_folder (leaf : string) : Hub (option AvailableFolder) :=
  r ← try! (GetActualPathForAbstractedPath fs leaf);
  isSatellite ← IsSatelliteLeaf fs leaf;
  let leaf := replace_first "//" "/" (replace_first "MSR" EmptyString leaf) in
  match r with
  | inl _ => mret None
  | inr osFsPath =>
      let folderId := List.last (split_on slash leaf) EmptyString in
      let metadataJSONFilePath :=
        if (isSatellite : bool) then path_join [osFsPath; folderId +:+ "_bine_metadata.json"]
        else path_join [path_join [osFsPath; "metadatafiles"]; "bine_metadata.json"] in
      there ← path_exists metadataJSONFilePath;
      if negb there then mret None
      else
        m ← try! (getMetadataStruct metadataJSONFilePath);
        match m with
        | inl _ => mret None
        | inr folderMetadata =>
            folderSize ← getFolderSizeParser osFsPath;
            mret (Some {| af_ID := folderId;
                          af_Metadata := complete_metadata isSatellite osFsPath folderSize folderMetadata |})
        end
  end.
(** No folders are a nil slice. *)
Definition getAvailableFolders (fuel : nat) : Hub (list AvailableFolder) :=
  leaves ← ignore! [] of (GetLeavesList fs fuel EmptyString);
  for_fold leaves [] (fun result leaf =>
    a ← available_folder leaf;
    mret (match a with Some a => result ++ [a] | None => result end)).

Definition serveLeaves (fuel : nat) (deviceId : string) : Hub answer :=
  r ← try! (folders ← getAvailableFolders fuel; vanillaJSON logger folders);
  mret (match r with
        | inl _ => errorResponse "Leaves not found"
        | inr val => Body 200 (Some deviceId) val
        end).

(** ** Files *)

(** A query parameter after a second decoding: [""] when it cannot be decoded. *)
Definition decoded (parameter : string) : string := without_slash (default EmptyString (query_unescape parameter)).

Definition serveFile (mediaHouse path file : string) : Hub answer :=
  let path := decoded path in
  let fileName := decoded file in
  r ← try! (GetActualPathForAbstractedPath fs (mediaHouse +:+ "/" +:+ path));
  match r with
  | inl _ =>
      ignore! tt of (Log logger Error (sm_string ("RouteHandler: Could not get actual path for abstract path " +:+ path)));;
      mret (errorResponse "Invalid path")
  | inr actualPath =>
      ignore! tt of (Log logger Info_
        (sm_string ("RouteHandler: Redirecting: " +:+ path +:+ " to actual: " +:+ actualPath +:+ "/" +:+ fileName)));;
      mret (Redirect ("/static/" +:+ without_slash actualPath +:+ "/" +:+ fileName))
  end.
End Leaves.
