(* ===== verification/Wire.v ===== *)
(** The format in which [route_handler.go] sends the children of a folder: a
    specification as an encoding of values, a decoder, and their round trip. *)
From S2P Require Import Prelude GoStrings Host CloudData Tree Routes.
From Stdlib Require Import Ascii.

(** ** Values and their encoding *)

(** A metadata file, by its name and contents; a child of the folder. *)
Record child_data := {
  cd_name : string;
  cd_has_children : bool;
  cd_size : Z;
  cd_files : list (string * string);
}.

Definition enc_string (s : string) : string := put_uint32 (Z.of_nat (String.length s)) +:+ s.
Definition enc_file (f : string * string) : string :=
  enc_string f.1 +:+ put_uint64 (Z.of_nat (String.length f.2)) +:+ f.2.
Definition enc_list {A} (enc : A -> string) (l : list A) : string :=
  put_uint32 (Z.of_nat (length l)) +:+ s_concat (enc <$> l).
Definition enc_child (c : child_data) : string :=
  enc_string (cd_name c) +:+ put_uint32 (if cd_has_children c then 1 else 0) +:+
  put_uint64 (cd_size c) +:+ enc_list enc_file (cd_files c).
Definition enc_children : list child_data -> string := enc_list enc_child.

(** ** A decoder *)

Definition parser (A : Type) : Type := string -> option (A * string).
#[local] Instance parser_ret : MRet parser := fun A a s => Some (a, s).
#[local] Instance parser_bind : MBind parser := fun A B f p s =>
  match p s with Some (a, s') => f a s' | None => None end.

Fixpoint get_uint (n : nat) (acc : Z) : parser Z := fun s =>
  match n with
  | 0 => Some (acc, s)
  | S n' =>
      match s with
      | EmptyString => None
      | String a s' => get_uint n' (acc * 256 + Z.of_N (N_of_ascii a)) s'
      end
  end.
Definition get_uint32 : parser Z := get_uint 4 0.
Definition get_int64 : parser Z := z ← get_uint 8 0; mret (wrap64 z).
Definition get_bytes (n : Z) : parser string := fun s =>
  if decide (0 <= n <= Z.of_nat (String.length s))%Z
  then Some (s_take (Z.to_nat n) s, s_drop (Z.to_nat n) s) else None.
Definition get_string : parser string := n ← get_uint32; get_bytes n.
Fixpoint get_many {A} (get : parser A) (n : nat) : parser (list A) :=
  match n with
  | 0 => mret []
  | S n' => a ← get; l ← get_many get n'; mret (a :: l)
  end.
Definition get_list {A} (get : parser A) : parser (list A) := n ← get_uint32; get_many get (Z.to_nat n).
Definition get_file : parser (string * string) :=
  name ← get_string; n ← get_int64; contents ← get_bytes n; mret (name, contents).
Definition get_child : parser child_data :=
  name ← get_string; b ← get_uint32; size ← get_int64; files ← get_list get_file;
  mret {| cd_name := name; cd_has_children := bool_decide (b = 1%Z); cd_size := size; cd_files := files |}.
Definition get_children : parser (list child_data) := get_list get_child.

(** ** What fits in the format *)

Definition fits32 (n : nat) : Prop := (Z.of_nat n < 2 ^ 32)%Z.
Definition file_fits (f : string * string) : Prop :=
  fits32 (String.length f.1) /\ (Z.of_nat (String.length f.2) < 2 ^ 63)%Z.
Definition child_fits (c : child_data) : Prop :=
  fits32 (String.length (cd_name c)) /\ (- 2 ^ 63 <= cd_size c < 2 ^ 63)%Z /\
  fits32 (length (cd_files c)) /\ Forall file_fits (cd_files c).

(** ** Round trip *)

(** [p] reads the value [a] from the text [t] and leaves what follows. *)
Definition reads {A} (p : parser A) (t : string) (a : A) : Prop := forall s, p (t +:+ s) = Some (a, s).

Lemma reads_bind {A B} (p : parser A) (f : A -> parser B) t1 t2 a b :
  reads p t1 a -> reads (f a) t2 b -> reads (p ≫= f) (t1 +:+ t2) b.
Proof. intros Hp Hf s. unfold mbind, parser_bind. by rewrite s_app_assoc, Hp, Hf. Qed.
Lemma reads_ret {A} (a : A) : reads (mret a) EmptyString a.
Proof. by intros s. Qed.
Lemma reads_map {A B} (p : parser A) (f : A -> B) t a : reads p t a -> reads (x ← p; mret (f x)) t (f a).
Proof. intros Hp s. unfold mbind, parser_bind. by rewrite Hp. Qed.

Lemma byte_of_value z : Z.of_N (N_of_ascii (byte_of z)) = (z mod 256)%Z.
Proof.
  unfold byte_of. change 255%Z with (Z.ones 8). rewrite Z.land_ones by lia. change (2 ^ 8)%Z with 256%Z.
  pose proof (Z.mod_pos_bound z 256 ltac:(lia)). rewrite N_ascii_embedding by lia. by rewrite Z2N.id by lia.
Qed.

Lemma get_uint_reads n acc z :
  reads (get_uint n acc) (big_endian n z) (acc * 2 ^ (8 * Z.of_nat n) + z mod 2 ^ (8 * Z.of_nat n))%Z.
Proof.
  revert acc. induction n as [|n IH]; intros acc s.
  { simpl. rewrite Z.mod_1_r. by rewrite Z.mul_1_r, Z.add_0_r. }
  cbn [big_endian]. rewrite s_app_cons. cbn [get_uint]. rewrite IH, byte_of_value. do 2 f_equal.
  rewrite Z.shiftr_div_pow2 by lia.
  replace (8 * Z.of_nat (S n))%Z with (8 * Z.of_nat n + 8)%Z by lia. rewrite Z.pow_add_r by lia.
  change (2 ^ 8)%Z with 256%Z. rewrite Z.rem_mul_r by lia. nia.
Qed.

Lemma get_uint32_reads z : (0 <= z < 2 ^ 32)%Z -> reads get_uint32 (put_uint32 z) z.
Proof. intros Hz s. unfold get_uint32, put_uint32. rewrite get_uint_reads. by rewrite Z.mod_small. Qed.
Lemma get_int64_reads z : (- 2 ^ 63 <= z < 2 ^ 63)%Z -> reads get_int64 (put_uint64 z) z.
Proof.
  intros Hz s. unfold get_int64, put_uint64, mbind, parser_bind. rewrite get_uint_reads.
  unfold mret, parser_ret. do 2 f_equal. unfold wrap64. change (2 ^ (8 * Z.of_nat 8))%Z with (2 ^ 64)%Z.
  rewrite Z.mul_0_l, Z.add_0_l, Z.add_mod_idemp_l by lia. rewrite Z.mod_small by lia. lia.
Qed.
Lemma get_bytes_reads t : reads (get_bytes (Z.of_nat (String.length t))) t t.
Proof.
  intros s. unfold get_bytes. rewrite decide_True by (rewrite s_length_app; lia).
  by rewrite Nat2Z.id, s_take_app, s_drop_app.
Qed.
Lemma get_string_reads t : fits32 (String.length t) -> reads get_string (enc_string t) t.
Proof. intros Ht. eapply reads_bind; [apply get_uint32_reads; unfold fits32 in Ht; lia|apply get_bytes_reads]. Qed.

Lemma get_many_reads {A} (get : parser A) enc l :
  Forall (fun a => reads get (enc a) a) l -> reads (get_many get (length l)) (s_concat (enc <$> l)) l.
Proof.
  induction 1 as [|a l Ha _ IH]; [apply reads_ret|]. rewrite fmap_cons. simpl.
  eapply reads_bind; [exact Ha|]. by apply (reads_map _ (cons a)).
Qed.
Lemma get_list_reads {A} (get : parser A) enc l :
  fits32 (length l) -> Forall (fun a => reads get (enc a) a) l -> reads (get_list get) (enc_list enc l) l.
Proof.
  intros Hl Ha. eapply reads_bind; [apply get_uint32_reads; unfold fits32 in Hl; lia|].
  rewrite Nat2Z.id. by apply get_many_reads.
Qed.

Lemma get_file_reads f : file_fits f -> reads get_file (enc_file f) f.
Proof.
  intros [H1 H2]. destruct f as [name contents]. cbn [fst snd] in *. unfold enc_file, get_file. cbn [fst snd].
  eapply reads_bind; [by apply get_string_reads|]. eapply reads_bind; [apply get_int64_reads; lia|].
  apply (reads_map _ (pair name)), get_bytes_reads.
Qed.

Lemma get_child_reads c : child_fits c -> reads get_child (enc_child c) c.
Proof.
  intros (Hn & Hs & Hl & Hf). destruct c as [name b size files].
  cbn [cd_name cd_size cd_files] in *. unfold enc_child, get_child. cbn [cd_name cd_size cd_files cd_has_children].
  eapply reads_bind; [by apply get_string_reads|].
  eapply (reads_bind _ _ _ _ (if b then 1 else 0)%Z); [apply get_uint32_reads; by destruct b|].
  eapply reads_bind; [by apply get_int64_reads|].
  assert (bool_decide ((if b then 1 else 0)%Z = 1%Z) = b) as -> by by destruct b.
  apply (reads_map _ (fun files => {| cd_name := name; cd_has_children := b; cd_size := size; cd_files := files |})).
  apply get_list_reads; [done|]. eapply Forall_impl; [exact Hf|]. apply get_file_reads.
Qed.

Lemma get_children_reads l : fits32 (length l) -> Forall child_fits l -> reads get_children (enc_children l) l.
Proof.
  intros Hl Hc. apply get_list_reads; [done|]. eapply Forall_impl; [exact Hc|]. apply get_child_reads.
Qed.
