(* ===== verification/RoutesThms.v ===== *)
(** The properties of the routes: what a client receives and decodes. *)
From S2P Require Import Prelude GoStrings LogData Host Storage Logger CloudData FlatIndex Mstore Index MstoreSpec Tree TreeSpec TreeUpdate TreeDelete Routes Leaves Wire Reference TreeThms.
From Stdlib Require Import Ascii.

(** ** Writers *)
Section Writers.
Context `{Bolt, Disk, Env, Client} `{!ClientLaws}.
Implicit Types (w : world) (sent : string).

(** Whatever the client does, the writer [m] returns, leaves the process alone and
    appends to the response. *)
Definition writer (m : M session Z) : Prop := forall w sent, exists r t,
  m (w, sent) = (Ret r, (w, sent +:+ t)).
(** When the client takes everything, [m] writes [t] and returns [r]. *)
Definition writes (m : M session Z) (w : world) (t : string) (r : Z) : Prop := forall sent,
  m (w, sent) = (Ret r, (w, sent +:+ t)).
(** The client takes everything. *)
Definition patient : Prop := forall sent data, (take_bytes sent data).2 = false.

Lemma write_bytes_loop_run fuel v n w sent :
  n <= String.length v -> 2 <= fuel -> exists r t,
  write_bytes_loop fuel v n (w, sent) = (Ret r, (w, sent +:+ t)) /\
  (patient -> t = s_drop n v /\ r = Z.of_nat (String.length v)).
Proof.
  intros Hn Hf. destruct fuel as [|[|fuel]]; [lia|lia|]. simpl.
  case_decide as Hlt.
  - unfold mbind, M_bind, response_write. simpl.
    destruct (take_bytes sent (s_drop n v)) as [k failed] eqn:E.
    destruct (taken_bytes _ _ _ _ E) as [Hk Hfull]. destruct failed.
    + eexists _, _. split; [done|]. intros Hp. specialize (Hp sent (s_drop n v)). by rewrite E in Hp.
    + specialize (Hfull eq_refl). pose proof (s_length_drop n v). 
      rewrite decide_False by lia. eexists _, _. split; [done|]. intros _. subst k. split; [apply s_take_all|]. f_equal. lia.
  - eexists _, EmptyString. rewrite s_app_nil_r. split; [done|]. intros _. split; [|f_equal; lia].
    symmetry. apply s_drop_ge. lia.
Qed.

Lemma writer_bytes v : writer (writeBytes v).
Proof.
  intros w sent. unfold writeBytes. destruct v as [|a v]; [by exists 0%Z, EmptyString; rewrite s_app_nil_r|].
  destruct (write_bytes_loop_run (S (String.length (String a v))) (String a v) 0 w sent) as (r & t & E & _);
    [simpl; lia..|by exists r, t].
Qed.
Lemma writes_bytes v w : patient -> writes (writeBytes v) w v (Z.of_nat (String.length v)).
Proof.
  intros Hp sent. unfold writeBytes. destruct v as [|a v]; [by rewrite s_app_nil_r|].
  destruct (write_bytes_loop_run (S (String.length (String a v))) (String a v) 0 w sent) as (r & t & E & Hr);
    [simpl; lia..|]. by destruct (Hr Hp) as [-> ->].
Qed.

(** *** Composition *)

Lemma writer_ret r : writer (mret r).
Proof. intros w sent. exists r, EmptyString. by rewrite s_app_nil_r. Qed.
Lemma writer_bind (m : M session Z) (f : Z -> M session Z) : writer m -> (forall r, writer (f r)) -> writer (m ≫= f).
Proof.
  intros Hm Hf w sent. destruct (Hm w sent) as (r & t & E). destruct (Hf r w (sent +:+ t)) as (r' & t' & E').
  exists r', (t +:+ t'). erewrite bind_Ret by exact E. by rewrite E', s_app_assoc.
Qed.
Lemma writer_or_fail m rest : writer m -> writer rest -> writer (or_fail m rest).
Proof. intros Hm Hr. apply writer_bind; [done|]. intros r. case_decide; [apply writer_ret|done]. Qed.
Lemma writer_gets {A} (f : session -> A) (k : A -> M session Z) :
  (forall a, writer (k a)) -> writer (gets f ≫= k).
Proof. intros Hk w sent. erewrite bind_Ret by done. apply Hk. Qed.
Lemma writer_string v : writer (writeString v).
Proof.
  apply writer_bind; [apply writer_bytes|]. intros r. case_decide; [apply writer_ret|].
  apply writer_bind; [apply writer_bytes|]. intros n. case_decide; apply writer_ret.
Qed.

Lemma writes_ret r w : writes (mret r) w EmptyString r.
Proof. intros sent. by rewrite s_app_nil_r. Qed.
Lemma writes_bind (m : M session Z) (f : Z -> M session Z) w t1 t2 r1 r2 :
  writes m w t1 r1 -> writes (f r1) w t2 r2 -> writes (m ≫= f) w (t1 +:+ t2) r2.
Proof. intros Hm Hf sent. erewrite bind_Ret by apply Hm. by rewrite Hf, s_app_assoc. Qed.
Lemma writes_or_fail m rest w t1 t2 r1 r2 :
  writes m w t1 r1 -> (0 <= r1)%Z -> writes rest w t2 r2 -> writes (or_fail m rest) w (t1 +:+ t2) r2.
Proof. intros Hm Hr Hrest. eapply writes_bind; [exact Hm|]. by rewrite decide_False by lia. Qed.
Lemma writes_string v w : patient -> writes (writeString v) w (enc_string v) (Z.of_nat (String.length v)).
Proof.
  intros Hp. unfold writeString, enc_string. eapply writes_bind; [by apply writes_bytes|].
  rewrite decide_False by lia. rewrite <-(s_app_nil_r v) at 2.
  eapply writes_bind; [by apply writes_bytes|]. rewrite decide_False by lia. apply writes_ret.
Qed.

(** *** Files *)

Lemma drop_shorter n (s : string) : 0 < n -> s <> EmptyString -> String.length (s_drop n s) < String.length s.
Proof. intros Hn Hs. rewrite s_length_drop. destruct s; [done|simpl; lia]. Qed.
Lemma buffer_positive : 0 < Z.to_nat buffer_size.
Proof. unfold buffer_size. lia. Qed.

#[local] Opaque buffer_size.

Lemma writer_file_loop fuel contents size written :
  String.length contents < fuel -> writer (write_file_loop fuel contents size written).
Proof.
  revert contents written. induction fuel as [|fuel IH]; intros contents written Hf; [lia|]. simpl.
  case_decide; [|apply writer_ret]. destruct contents as [|a contents]; [apply writer_ret|].
  apply writer_bind; [apply writer_bytes|]. intros n. case_decide; [apply writer_ret|]. apply IH.
  pose proof (drop_shorter _ (String a contents) buffer_positive ltac:(done)). lia.
Qed.
Lemma writer_file contents size : writer (writeFile contents size).
Proof. apply writer_file_loop. lia. Qed.

Lemma write_file_step fuel c size written : c <> EmptyString -> (written < size)%Z ->
  write_file_loop (S fuel) c size written =
  (n ← writeBytes (s_take (Z.to_nat buffer_size) c);
   if decide (n < 0)%Z then mret written
   else write_file_loop fuel (s_drop (Z.to_nat buffer_size) c) size
          (written + Z.of_nat (String.length (s_take (Z.to_nat buffer_size) c)))).
Proof. intros Hc Hw. cbn [write_file_loop]. rewrite decide_True by done. by destruct c. Qed.

Lemma writes_file_loop fuel c size written w : patient ->
  String.length c < fuel -> (written + Z.of_nat (String.length c) = size)%Z ->
  writes (write_file_loop fuel c size written) w c size.
Proof.
  intros Hp. revert c written. induction fuel as [|fuel IH]; intros c written Hf Hw; [lia|].
  destruct (decide (c = EmptyString)) as [->|Hne].
  { simpl in *. rewrite decide_False by lia. replace written with size by lia. apply writes_ret. }
  rewrite write_file_step by (done || (destruct c; [done|simpl in Hw; lia])).
  match goal with |- writes ?m _ _ _ =>
    enough (writes m w (s_take (Z.to_nat buffer_size) c +:+ s_drop (Z.to_nat buffer_size) c) size) as Hx
      by (by rewrite s_take_drop in Hx) end.
  eapply writes_bind; [by apply writes_bytes|]. rewrite decide_False by lia.
  pose proof (drop_shorter _ c buffer_positive Hne). apply IH; [lia|].
  rewrite <-(s_take_drop (Z.to_nat buffer_size) c), s_length_app in Hw. lia.
Qed.
Lemma writes_file contents w : patient ->
  writes (writeFile contents (Z.of_nat (String.length contents))) w contents (Z.of_nat (String.length contents)).
Proof. intros Hp. apply writes_file_loop; [done|lia|lia]. Qed.

(** The disk holds a file with these contents. *)
Definition file_on_disk (d : disk) (p c : string) : Prop :=
  os_stat_size p d = inr (Z.of_nat (String.length c)) /\ os_read_file p d = inr c.

Lemma writer_metadata_file p rest : writer rest -> writer (write_metadata_file p rest).
Proof.
  intros Hr. apply writer_or_fail; [apply writer_string|]. apply writer_gets. intros [e|size]; [apply writer_ret|].
  apply writer_or_fail; [apply writer_bytes|]. apply writer_gets. intros [e|c]; [apply writer_ret|].
  apply writer_bind; [apply writer_file|done].
Qed.
Lemma writer_metadata_files files : writer (writeMetadataFiles files).
Proof.
  apply writer_or_fail; [apply writer_bytes|]. generalize (Z.of_nat (length files)) at 1. intros n.
  induction files; simpl; [apply writer_ret|by apply writer_metadata_file].
Qed.

Lemma writes_metadata_file p c rest w t r : patient -> file_on_disk (w_disk w) p c ->
  writes rest w t r -> writes (write_metadata_file p rest) w (enc_file (path_base p, c) +:+ t) r.
Proof.
  intros Hp [Hsize Hread] Hrest. unfold enc_file, write_metadata_file. cbn [fst snd]. rewrite !s_app_assoc.
  eapply writes_or_fail; [by apply writes_string|lia|]. intros sent. erewrite bind_Ret by done. cbn [fst].
  rewrite Hsize. revert sent. eapply writes_or_fail; [by apply writes_bytes|lia|]. intros sent.
  erewrite bind_Ret by done. cbn [fst]. rewrite Hread. revert sent.
  eapply writes_bind; [by apply writes_file|exact Hrest].
Qed.
Lemma writes_metadata_files files contents w : patient ->
  Forall2 (file_on_disk (w_disk w)) files contents ->
  writes (writeMetadataFiles files) w (enc_list enc_file (zip (path_base <$> files) contents)) (Z.of_nat (length files)).
Proof.
  intros Hp Hf. unfold writeMetadataFiles, enc_list.
  rewrite length_zip_with_l_eq by (rewrite length_fmap; by eapply Forall2_length). rewrite length_fmap.
  eapply writes_or_fail; [by apply writes_bytes|lia|]. generalize (Z.of_nat (length files)). intros n.
  induction Hf as [|p c files contents Hpc _ IH]; [apply writes_ret|]. simpl.
  by apply writes_metadata_file.
Qed.

(** *** Children *)

(** A child with the contents of its files. *)
Definition data_of (child : FolderStructureEntry) (contents : list string) : child_data :=
  {| cd_name := ID child; cd_has_children := HasChildren child; cd_size := Size child;
     cd_files := zip (path_base <$> MetadataFiles child) contents |}.

Lemma writer_child child rest : writer rest -> writer (write_child child rest).
Proof.
  intros Hr. do 3 (apply writer_or_fail; [apply writer_string || apply writer_bytes|]).
  apply writer_bind; [apply writer_metadata_files|done].
Qed.
Lemma writes_child child contents rest w t r : patient ->
  Forall2 (file_on_disk (w_disk w)) (MetadataFiles child) contents ->
  writes rest w t r -> writes (write_child child rest) w (enc_child (data_of child contents) +:+ t) r.
Proof.
  intros Hp Hf Hrest. unfold enc_child, write_child. cbn [cd_name cd_has_children cd_size cd_files data_of].
  rewrite !s_app_assoc. eapply writes_or_fail; [by apply writes_string|lia|].
  eapply writes_or_fail; [by apply writes_bytes|lia|]. eapply writes_or_fail; [by apply writes_bytes|lia|].
  eapply writes_bind; [by apply writes_metadata_files|exact Hrest].
Qed.
Lemma writes_children children contents w : patient ->
  Forall2 (fun child => Forall2 (file_on_disk (w_disk w)) (MetadataFiles child)) children contents ->
  writes (or_fail (writeInt32 (Z.of_nat (length children))) (foldr write_child (mret 0%Z) children)) w
    (enc_children (zip_with data_of children contents)) 0.
Proof.
  intros Hp Hf. unfold enc_children, enc_list. rewrite length_zip_with_l_eq by by eapply Forall2_length.
  eapply writes_or_fail; [by apply writes_bytes|lia|].
  induction Hf as [|child c children contents Hc _ IH]; [apply writes_ret|]. simpl. by apply writes_child.
Qed.
End Writers.

(** ** The children of a folder of the tree *)
Section Children.
Context `{Bolt, Disk, Env, Client, Json ContentInfoOnDevice, Json TelemetryMessage} `{!BoltLaws} `{!ClientLaws}.
Variable fs : FileSystem.
Implicit Types (w : world) (d : disk).

Definition folder_size (actualPath : string) d : Z :=
  match os_read_dir (actualPath +:+ "/bulkfiles") d with
  | inl _ => 0%Z
  | inr files => foldl (fun size file => if fi_is_dir file then size else wrap64 (size + fi_size file)) 0%Z files
  end.
Definition metadata_paths (actualPath : string) d : list string :=
  match os_read_dir (actualPath +:+ "/metadatafiles") d with
  | inl _ => []
  | inr files => omap (fun file => if fi_is_dir file then None
                                   else Some ((actualPath +:+ "/metadatafiles") +:+ "/" +:+ fi_name file)) files
  end.

Lemma getFolderSizeParser_run p w : getFolderSizeParser p w = (Ret (folder_size p (w_disk w)), w).
Proof.
  unfold getFolderSizeParser, folder_size, read_dir, attempt, mbind, M_bind. by destruct (os_read_dir _ _).
Qed.
Lemma getMetdataFileParser_run p w : getMetdataFileParser p w = (Ret (metadata_paths p (w_disk w)), w).
Proof.
  unfold getMetdataFileParser, metadata_paths, read_dir, attempt, mbind, M_bind. by destruct (os_read_dir _ _).
Qed.

(** The names of the nodes are plain file names. *)
Definition plain_nodes (t : tree) : Prop := Forall plain (node_ids t).

Lemma plain_kid t c : plain_nodes t -> c ∈ kids t -> plain (root_id c).
Proof.
  intros Hp Hc. apply (proj1 (Forall_forall _ _) Hp). eapply node_ids_kid; [exact Hc|apply root_in_ids].
Qed.

(** The last part of a node's directory is the node. *)
Lemma node_folder_last i : plain i -> last (hierarchy_of (node_folder fs i)) = Some i.
Proof.
  intros Hi. unfold hierarchy_of, node_folder. apply ends_in_last; [apply Hi|].
  apply trim_ends; [apply Hi|apply Hi|]. by apply (path_join_ends [homeDirLocation fs; homeNode fs]).
Qed.

Lemma IsLeaf_run p c w : tree_ready w -> String.length p = nodeLength fs -> tree_wf fs c ->
  stored p c (tree_map w) (name_map w) -> plain (root_id c) ->
  if os_exists (node_folder fs (root_id c)) (w_disk w)
  then IsLeaf fs (node_folder fs (root_id c)) w = (Ret (bool_decide (kids c = [])), w)
  else exists e, IsLeaf fs (node_folder fs (root_id c)) w = (Fail e, w).
Proof.
  intros Hr Hp Hwf Hs Hplain. unfold IsLeaf, path_exists. destruct (os_exists _ _) eqn:E.
  - erewrite bind_Ret by done. rewrite E. unfold last_of. rewrite node_folder_last by done.
    erewrite bind_Ret by done. erewrite bind_Ret by (by eapply GetChildrenForNode_run).
    by rewrite (bool_decide_ext _ _ (value_is_leaf fs p c Hp Hwf)).
  - erewrite bind_Ret by done. rewrite E. by eexists.
Qed.

(** What a child is reported as, when its directory exists. *)
Definition child_values w (c : tree) : list any :=
  let dir := node_folder fs (root_id c) in
  if os_exists dir (w_disk w)
  then [AnyBool (negb (bool_decide (kids c = []))); AnyInt (folder_size dir (w_disk w));
        AnyStrings (metadata_paths dir (w_disk w))]
  else [].
Definition child_entry w (c : tree) : FolderStructureEntry :=
  let dir := node_folder fs (root_id c) in
  {| ID := root_name c; HasChildren := negb (bool_decide (kids c = [])); InfoMetadataFileName := EmptyString;
     Size := folder_size dir (w_disk w); MetadataFiles := metadata_paths dir (w_disk w) |}.
Definition shown w (l : list tree) : list tree :=
  filter (fun c => os_exists (node_folder fs (root_id c)) (w_disk w) = true) l.

Lemma getChildrenParser_run p c w : tree_ready w -> String.length p = nodeLength fs -> tree_wf fs c ->
  stored p c (tree_map w) (name_map w) -> plain (root_id c) ->
  getChildrenParser fs (node_folder fs (root_id c)) w = (Ret (child_values w c), w).
Proof.
  intros Hr Hp Hwf Hs Hplain. pose proof (IsLeaf_run p c w Hr Hp Hwf Hs Hplain) as Hl.
  unfold getChildrenParser, child_values. cbv zeta. destruct (os_exists _ _).
  - erewrite bind_Ret by (by apply attempt_Ret). cbv beta iota.
    erewrite bind_Ret by apply getFolderSizeParser_run. by erewrite bind_Ret by apply getMetdataFileParser_run.
  - destruct Hl as [e Hl]. by erewrite bind_Ret by (by eapply attempt_Fail).
Qed.

Lemma children_info_run p l w : tree_ready w -> String.length p = nodeLength fs ->
  kids_stored fs p l w -> Forall plain (root_id <$> l) ->
  children_info fs (root_id <$> l) (getChildrenParser fs) w =
  (Ret ((fun c => (root_name c, child_values w c)) <$> l), w).
Proof.
  intros Hr Hp. induction l as [|c l IH]; intros Hl Hplain; [done|].
  rewrite fmap_cons in Hplain. apply Forall_cons in Hplain as [Hc Hplain]. rewrite !fmap_cons. cbn [children_info].
  destruct (Hl c) as [Hwf Hs]; [by left|].
  erewrite bind_Ret by (apply ignoring_Ret; by eapply GetFolderNameForNode_run).
  erewrite bind_Ret by (by eapply getChildrenParser_run).
  by erewrite bind_Ret by (apply IH; [intros d Hd; apply Hl; by right|done]).
Qed.

Lemma entries_of_values w l result :
  for_fold ((fun c => (root_name c, child_values w c)) <$> l) result (fun result child =>
    e ← entry_of child; mret (match e with Some e => result ++ [e] | None => result end)) w =
  (Ret (result ++ (child_entry w <$> shown w l)), w).
Proof.
  revert result. induction l as [|c l IH]; intros result; [by rewrite app_nil_r|].
  rewrite fmap_cons. cbn [for_fold]. unfold shown. rewrite filter_cons. fold (shown w l).
  destruct (os_exists (node_folder fs (root_id c)) (w_disk w)) eqn:E.
  - rewrite decide_True by done. rewrite (bind_Ret _ _ _ (result ++ [child_entry w c]) w).
    + by rewrite IH, fmap_cons, <-app_assoc.
    + unfold child_values. rewrite E. done.
  - rewrite decide_False by done. rewrite (bind_Ret _ _ _ result w); [apply IH|].
    unfold child_values. by rewrite E.
Qed.

Lemma getChildren_run t mediaHouse parent w : represents fs t w -> plain_nodes t ->
  getChildren fs mediaHouse parent w =
  (Ret (match find_path t (hierarchy_of (getBineFsPath mediaHouse parent)) with
        | inr t' => child_entry w <$> shown w (kids t')
        | inl _ => []
        end), w).
Proof.
  intros Hrep Hplain. unfold getChildren, GetChildrenInfo.
  pose proof (getNodeForPath_run fs t (hierarchy_of (getBineFsPath mediaHouse parent)) w Hrep) as En.
  destruct (find_path t _) as [e|t'] eqn:E.
  { by erewrite bind_Ret by (eapply attempt_Fail; by erewrite bind_Fail by exact En). }
  apply (find_at_path (homeNode fs)) in E as [p E]. pose proof (find_at_ids _ _ _ _ _ E) as Hsub.
  destruct (find_at_stored fs _ _ _ _ _ Hrep E) as (Hp & Hwf & Hs).
  pose proof Hrep as (Hr & _). erewrite bind_Ret.
  2: { eapply attempt_Ret. erewrite bind_Ret by exact En.
    erewrite bind_Ret by (by eapply GetChildrenForNode_run). cbv zeta.
    rewrite (length_value fs), pieces_of_value by done. destruct Hwf as (Hnd & Hlen & Hn).
    rewrite Nat.mul_comm, Nat.div_mul by lia. rewrite decide_False by lia. cbn [tail].
    rewrite take_ge by (rewrite length_fmap; lia).
    apply (children_info_run (root_id t')); [done|by apply wf_root_length|by eapply kids_of_stored|].
    apply Forall_fmap, Forall_forall. intros c Hc. apply (plain_kid t'); [|done].
    apply Forall_forall. intros i Hi. apply (proj1 (Forall_forall _ _) Hplain). by apply Hsub. }
  cbv beta iota. rewrite entries_of_values. done.
Qed.
End Children.

(** ** What the routes answer *)
Section Answers.
Context `{Bolt, Disk, Env, Client, Json ContentInfoOnDevice, Json TelemetryMessage} `{!BoltLaws} `{!ClientLaws}.
Variable fs : FileSystem.
Implicit Types (w : world) (d : disk).

(** *** Sizes *)

Definition total_size (files : list file_info) : Z :=
  foldr Z.add 0%Z (fi_size <$> filter (fun file => fi_is_dir file = false) files).

Lemma sum_wraps files size :
  foldl (fun size file => if fi_is_dir file then size else wrap64 (size + fi_size file)) (wrap64 size) files =
  wrap64 (size + total_size files).
Proof.
  revert size. induction files as [|file files IH]; intros size; [by rewrite Z.add_0_r|].
  unfold total_size. rewrite filter_cons. simpl. destruct (fi_is_dir file).
  - rewrite decide_False by done. apply IH.
  - rewrite decide_True, fmap_cons by done. simpl. rewrite wrap64_add_l, IH. f_equal.
    unfold total_size. lia.
Qed.

Lemma folder_size_wraps p d :
  folder_size p d =
  wrap64 (match os_read_dir (p +:+ "/bulkfiles") d with inl _ => 0 | inr files => total_size files end).
Proof.
  unfold folder_size. destruct (os_read_dir _ _) as [e|files]; [done|]. apply (sum_wraps files 0).
Qed.
Lemma folder_size_range p d : (- 2 ^ 63 <= folder_size p d < 2 ^ 63)%Z.
Proof. rewrite folder_size_wraps. apply wrap64_bounds. Qed.

(** *** The response *)

Lemma lift_Ret {A} (m : Hub A) w a w' sent : m w = (Ret a, w') -> lift m (w, sent) = (Ret a, (w', sent)).
Proof. intros E. unfold lift. cbn [fst snd]. by rewrite E. Qed.

Lemma serveMetadata_run t mediaHouse path w sent : represents fs t w -> plain_nodes t ->
  serveMetadata fs mediaHouse path (w, sent) =
  (let children := match find_path t (hierarchy_of (getBineFsPath mediaHouse (without_slash path))) with
                   | inr t' => child_entry fs w <$> shown fs w (kids t')
                   | inl _ => []
                   end in
   or_fail (writeInt32 (Z.of_nat (length children))) (foldr write_child (mret 0%Z) children)) (w, sent).
Proof.
  intros Hrep Hplain. unfold serveMetadata. by erewrite bind_Ret by (by eapply lift_Ret, getChildren_run).
Qed.

(** What a client reads for a child: the entry with the contents of its files. *)
Definition child_served w (c : tree) (contents : list string) : child_data :=
  data_of (child_entry fs w c) contents.
(** The names, the numbers of files and the files of a child fit in the format. *)
Definition served_fits (c : child_data) : Prop :=
  fits32 (String.length (cd_name c)) /\ fits32 (length (cd_files c)) /\ Forall file_fits (cd_files c).

Lemma served_child_fits w c contents : served_fits (child_served w c contents) ->
  child_fits (child_served w c contents).
Proof. intros (Hn & Hl & Hf). split_and!; [done|apply folder_size_range..|done|done]. Qed.

(** C27: The format of [/list/files/] loses nothing.  When the database represents a
    tree of plain names, the path leads to the folder [t'], the client takes every
    byte, and the metadata files of the children are on the disk, the response that
    [serveMetadata] writes decodes to exactly the children of [t'] that have a
    directory, in their order: name, whether it has children, size, and the name and
    contents of every metadata file; nothing follows, and the process is unchanged. *)
Theorem client_decodes_served_children t t' mediaHouse path w sent contents rest :
  represents fs t w -> plain_nodes t -> patient ->
  find_path t (hierarchy_of (getBineFsPath mediaHouse (without_slash path))) = inr t' ->
  let children := shown fs w (kids t') in
  Forall2 (fun c => Forall2 (file_on_disk (w_disk w)) (metadata_paths (node_folder fs (root_id c)) (w_disk w)))
    children contents ->
  let served := zip_with (child_served w) children contents in
  fits32 (length children) -> Forall served_fits served ->
  exists body, serveMetadata fs mediaHouse path (w, sent) = (Ret 0%Z, (w, sent +:+ body)) /\
    get_children (body +:+ rest) = Some (served, rest).
Proof.
  intros Hrep Hplain Hp Ht children Hc served Hl Hfits.
  exists (enc_children served). split.
  - rewrite (serveMetadata_run t) by done. rewrite Ht. cbv zeta. fold children. unfold served, child_served.
    rewrite <-zip_with_fmap_l. apply writes_children; [done|]. by apply Forall2_fmap_l.
  - apply get_children_reads.
    + unfold served. by rewrite length_zip_with_l_eq by (by eapply Forall2_length).
    + apply Forall_forall. intros d Hd. apply (proj1 (Forall_forall _ _) Hfits) in Hd as Hf.
      apply elem_of_lookup_zip_with in Hd as (i & c & x & -> & _ & _). by apply served_child_fits.
Qed.

(** C28: A request is always answered.  Whatever the client takes of the response and
    whenever it fails, on a database that represents a tree of plain names
    [serveMetadata] comes to its end without a panic, for every path, whether or not
    it leads to a folder and whatever files are missing; it only appends to the
    response. *)
Theorem request_is_answered t mediaHouse path w sent : represents fs t w -> plain_nodes t ->
  exists r body, serveMetadata fs mediaHouse path (w, sent) = (Ret r, (w, sent +:+ body)).
Proof.
  intros Hrep Hplain. rewrite (serveMetadata_run t) by done. cbv zeta.
  apply writer_or_fail; [apply writer_bytes|]. induction (match find_path _ _ with inl _ => _ | inr _ => _ end) as [|c l IH];
    [apply writer_ret|]. by apply writer_child.
Qed.

(** C31: The size of a folder is a 64-bit sum.  [getFolderSizeParser] returns the total
    size of the files of [bulkfiles] wrapped around at 64 bits, so it is the total
    exactly when the total is below 2^63, and it is negative for a total from 2^63 to
    2^64 - 1; it is 0 when the directory cannot be read. *)
Theorem folder_size_is_a_64_bit_sum p w :
  let total := match os_read_dir (p +:+ "/bulkfiles") (w_disk w) with inl _ => 0%Z | inr files => total_size files end in
  exists size, getFolderSizeParser p w = (Ret size, w) /\
    (- 2 ^ 63 <= size < 2 ^ 63)%Z /\ (size mod 2 ^ 64 = total mod 2 ^ 64)%Z /\
    (size = total <-> (- 2 ^ 63 <= total < 2 ^ 63)%Z) /\
    ((2 ^ 63 <= total < 2 ^ 64)%Z -> size = total - 2 ^ 64)%Z.
Proof.
  intros total. exists (folder_size p (w_disk w)). split; [apply getFolderSizeParser_run|].
  pose proof (folder_size_range p (w_disk w)) as Hr. rewrite folder_size_wraps in *. fold total in Hr |- *.
  split_and!; [lia|lia|..].
  - unfold wrap64. rewrite Zminus_mod_idemp_l. f_equal. lia.
  - split; [by intros <-|apply wrap64_id].
  - intros Ht. unfold wrap64. replace (total + 2 ^ 63)%Z with (total - 2 ^ 63 + 1 * 2 ^ 64)%Z by lia.
    rewrite Z.mod_add by lia. rewrite Z.mod_small by lia. lia.
Qed.

(** *** Files *)

(** C30: A file is looked for where its folder is.  [/download/files] answers a path
    that leads to a folder of the tree with a redirection to the file below that
    folder's location on the disk, the place where the satellite put it when the
    folder is marked and the node's own directory otherwise; it answers 400 for any
    other path.  The database is unchanged. *)
Theorem file_request_leads_to_the_folder logger mediaHouse path file t w : represents fs t w ->
  exists w', same_db w' w /\ serveFile logger fs mediaHouse path file w =
  (Ret (match find_path t (hierarchy_of (mediaHouse +:+ "/" +:+ decoded path)) with
        | inr t' =>
            let location := default (node_folder fs (root_id t')) (satellite_map w !! root_id t') in
            Redirect ("/static/" +:+ without_slash location +:+ "/" +:+ decoded file)
        | inl _ => errorResponse "Invalid path"
        end), w').
Proof.
  intros Hrep. unfold serveFile. cbv zeta.
  pose proof (location_of_folder fs (mediaHouse +:+ "/" +:+ decoded path) t w Hrep) as El.
  assert (forall e sm (a : answer), exists w', same_db w' w /\
    (ignore! tt of (Log logger e sm);; mret a) w = (Ret a, w')) as Hlog.
  { intros e sm a. pose proof (Log_db logger e sm w) as Hdb.
    destruct (Log_outcome logger e sm w) as [[w1 E]|(err & w1 & E)]; rewrite E in Hdb; exists w1;
      (split; [unfold same_db; simpl in Hdb; by rewrite Hdb|]).
    - by erewrite bind_Ret by (by apply ignoring_Ret).
    - by erewrite bind_Ret by (by eapply ignoring_Fail). }
  destruct (find_path t _) as [e|t'].
  - erewrite bind_Ret by (by eapply attempt_Fail). apply Hlog.
  - erewrite bind_Ret by (by apply attempt_Ret). apply Hlog.
Qed.

(** *** The folder of a content *)

Section FolderPaths.
Context `{!JsonLaws ContentInfoOnDevice} `{Json FolderPathInfo} `{!JsonLaws FolderPathInfo}.
Variable logger : Logger.

Lemma getAssetFolderPath_run id w : ready w ->
  getAssetFolderPath id w =
  (match assets w !! id with
   | Some txt => Ret {| fpi_Id := id; Folderpath := FolderPath (json_unmarshal txt).1 |}
   | None => Fail ("folder info for " +:+ id +:+ " does not exist")
   end, w).
Proof.
  intros (_ & Hb & _). unfold getAssetFolderPath, GetAssetFolderPathFromDB.
  pose proof (view_lookup AssetPathMapping id ("folder info for " +:+ id +:+ " does not exist") w Hb) as Hv.
  fold (assets w) in Hv. destruct (assets w !! id); [by erewrite bind_Ret by exact Hv|by erewrite bind_Fail by exact Hv].
Qed.

(** C29: The folder of a content is what synchronisation stored.  After
    [CreateSatelliteIndexing] returned nil for a content and its information,
    [/folderpath/] answers 200 with the hub's id and a text that decodes to the id
    and the stored path below [/static]; for a content without entry it answers 400.
    The process is unchanged. *)
Theorem stored_folder_path_is_served cid id info txt dev w w' :
  ready w -> json_wf info -> json_marshal info = inr txt ->
  CreateSatelliteIndexing cid id txt w = (Ret tt, w') ->
  let reply := {| fpi_Id := id; Folderpath := "/static" +:+ FolderPath info |} in
  json_wf reply ->
  (exists val, serveFolderPath logger dev id w' = (Ret (Body 200 (Some dev) (val +:+ String "010"%char EmptyString)), w') /\
    json_unmarshal val = (reply, None)) /\
  (forall other, assets w !! other = None -> other <> id ->
    serveFolderPath logger dev other w' = (Ret (errorResponse "Folderpath for the AssetID not found"), w')).
Proof.
  intros Hr Hwf Hm Hi reply Hreply.
  destruct (CreateSatelliteIndexing_cases _ _ _ _ _ _ Hr Hi) as [Hr' [(_ & _ & Ha & _)|(e & [=] & _)]].
  split.
  - destruct (json_total reply Hreply) as [val Hval]. exists val. split; [|by eapply json_roundtrip].
    assert (getAssetFolderPath id w' = (Ret {| fpi_Id := id; Folderpath := FolderPath info |}, w')) as Eg.
    { rewrite getAssetFolderPath_run, Ha, lookup_insert_eq by done. by rewrite (json_roundtrip info txt Hwf Hm). }
    unfold serveFolderPath.
    erewrite bind_Ret by (apply attempt_Ret; erewrite bind_Ret by exact Eg; unfold vanillaJSON;
      cbn [fpi_Id Folderpath]; fold reply; by rewrite Hval). done.
  - intros other Ho Hne.
    assert (exists e, getAssetFolderPath other w' = (Fail e, w')) as [e Eg].
    { eexists. by rewrite getAssetFolderPath_run, Ha, lookup_insert_ne, Ho by done. }
    unfold serveFolderPath. erewrite bind_Ret by (eapply attempt_Fail; by erewrite bind_Fail by exact Eg). done.
Qed.
End FolderPaths.
End Answers.

(** ** Two children on the reference device *)

#[export] Instance FolderPathInfo_eq_dec : EqDecision FolderPathInfo.
Proof. solve_decision. Defined.
#[export] Instance FolderPathInfo_countable : Countable FolderPathInfo.
Proof.
  refine (inj_countable' (fun p => (fpi_Id p, Folderpath p)) (fun '(a, b) => {| fpi_Id := a; Folderpath := b |}) _).
  by intros [].
Defined.

Module Served.
#[local] Hint Extern 0 Bolt => exact (mem_bolt false) : typeclass_instances.
#[local] Instance ex_env : Env := scripted (Script [] []).
(** A client that takes everything. *)
#[local] Instance eager : Client := {| take_bytes _ data := (String.length data, false) |}.
#[local] Instance eager_laws : ClientLaws.
Proof. by intros sent data n failed [= <- <-]. Qed.
Lemma eager_patient : patient.
Proof. done. Qed.
#[local] Instance path_codec : Json FolderPathInfo := bit_codec {| fpi_Id := EmptyString; Folderpath := EmptyString |}.
#[local] Instance path_codec_laws : JsonLaws FolderPathInfo := bit_codec_laws _.

(** "archive" has no directory and is left out. *)
Definition msr_folder : tree :=
  Node (numbered_name 101) "msr"
    [Node (numbered_name 102) "movies" [Node (numbered_name 103) "hindi" []];
     Node (numbered_name 104) "archive" [];
     Node (numbered_name 105) "news" []].
Definition shelf_tree : tree := Node (homeNode ex_fs) "home" [msr_folder].
Definition movies_dir : string := node_folder ex_fs (numbered_name 102).
Definition shelf : mem_disk :=
  MemDisk [movies_dir; node_folder ex_fs (numbered_name 105)]
    [(movies_dir +:+ "/metadatafiles/about.xml", "<about/>"); (movies_dir +:+ "/bulkfiles/a.mp4", "0123456789")] [].
Definition shelf_world : world := set_disk shelf (tree_world false [] shelf_tree []).
Lemma shelf_represents : represents ex_fs shelf_tree shelf_world.
Proof.
  apply (tree_world_represents false ex_fs [] shelf_tree []); [|done].
  split_and!; [| |simpl; lia]; apply (bool_decide_unpack _); by vm_compute.
Qed.
Lemma shelf_plain : plain_nodes shelf_tree.
Proof. repeat constructor; by vm_compute. Qed.

Definition shelf_children : list child_data :=
  [{| cd_name := "movies"; cd_has_children := true; cd_size := 10; cd_files := [("about.xml", "<about/>")] |};
   {| cd_name := "news"; cd_has_children := false; cd_size := 0; cd_files := [] |}].

Lemma client_decodes_served_children_witness :
  exists body, serveMetadata ex_fs "msr" "/" (shelf_world, EmptyString) = (Ret 0%Z, (shelf_world, body)) /\
    get_children body = Some (shelf_children, EmptyString).
Proof.
  destruct (client_decodes_served_children ex_fs shelf_tree
    msr_folder "msr" "/" shelf_world EmptyString
    [["<about/>"]; []] EmptyString shelf_represents shelf_plain eager_patient eq_refl) as (body & E & Hb).
  - apply Forall2_cons_2; [|apply Forall2_cons_2; [|apply Forall2_nil_2]].
    + apply Forall2_cons_2; [split; evaluate|apply Forall2_nil_2].
    + apply Forall2_nil_2.
  - by vm_compute.
  - repeat constructor; by vm_compute.
  - exists body. split; [exact E|]. rewrite s_app_nil_r in Hb. rewrite Hb. evaluate.
Defined.

Lemma file_request_leads_to_the_folder_witness :
  exists w', serveFile ref_logger ex_fs "msr" "movies%2fhindi" "a.mp4" shelf_world =
  (Ret (Redirect ("/static" +:+ node_folder ex_fs (numbered_name 103) +:+ "/a.mp4")), w').
Proof.
  destruct (file_request_leads_to_the_folder ex_fs ref_logger "msr" "movies%2fhindi" "a.mp4" shelf_tree shelf_world
    shelf_represents) as (w' & _ & E). exists w'. rewrite E. apply (f_equal (fun r => (r, w'))). evaluate.
Defined.

Definition film : ContentInfoOnDevice :=
  {| DownloadTime := 1600000000; FolderPath := "/mstore/film"; CommandId := EmptyString |}.
Definition film_text : string := bits_of (encode film).
Definition film_indexed : outcome unit * world :=
  CreateSatelliteIndexing "7" "film" film_text (ref_world false [] [] [] []).

Lemma stored_folder_path_is_served_witness :
  exists val, serveFolderPath ref_logger "hub-1" "film" film_indexed.2 =
    (Ret (Body 200 (Some "hub-1") (val +:+ String "010"%char EmptyString)), film_indexed.2) /\
  json_unmarshal val = ({| fpi_Id := "film"; Folderpath := "/static/mstore/film" |}, None).
Proof.
  assert (film_indexed.1 = Ret tt) as E by evaluate.
  refine (proj1 (stored_folder_path_is_served ref_logger "7" "film" film film_text "hub-1" (ref_world false [] [] [] [])
    film_indexed.2 (ref_world_ready false [] [] [] []) I eq_refl _ I)).
  exact (run_pair _ _ _ E).
Defined.
End Served.

Module Hasty.
#[local] Hint Extern 0 Bolt => exact (mem_bolt false) : typeclass_instances.
#[local] Instance ex_env : Env := scripted (Script [] []).
(** A client that goes away after twenty bytes. *)
#[local] Instance hasty : Client := {|
  take_bytes sent data :=
    let left := 20 - String.length sent in
    if decide (left < String.length data) then (left, true) else (String.length data, false) |}.
#[local] Instance hasty_laws : ClientLaws.
Proof.
  intros sent data n failed. simpl. case_decide; intros [= <- <-]; (split; [lia|done]).
Qed.

Lemma request_is_answered_witness :
  exists r body, serveMetadata ex_fs "msr" "movies" (Served.shelf_world, EmptyString) = (Ret r, (Served.shelf_world, body)).
Proof.
  exact (request_is_answered ex_fs Served.shelf_tree "msr" "movies" Served.shelf_world EmptyString
    Served.shelf_represents Served.shelf_plain).
Defined.
End Hasty.
