(* ===== verification/Database.v ===== *)
(** [database.go]: the database of an earlier version of the hub, which nothing
    starts any more.  Four root buckets hold a bucket per media house; the one of
    [folderStructure] holds a bucket per folder with its children. *)
From S2P Require Import Prelude GoStrings Host Routes.

(** ** Nested buckets

    bolt's buckets inside buckets; a bucket is named by its path from the root, the
    root being the empty path.  [View] and [Update] begin from what was committed
    last. *)
Class Nested := {
  NDB : Type;
  NTx : Type;
  ntx_begin : NDB -> NTx;
  ntx_commit : NDB -> NTx -> option error * NDB;
  nb_exists : NTx -> list string -> bool;
  (** [CreateBucketIfNotExists] *)
  nb_create : NTx -> list string -> string -> error + NTx;
  nb_delete_bucket : NTx -> list string -> string -> error + NTx;
  nb_get : NTx -> list string -> string -> option string;
  nb_put : NTx -> list string -> string -> string -> error + NTx;
  nb_delete : NTx -> list string -> string -> error + NTx;
  (** a cursor's First, Next, ...; a bucket inside has a nil value *)
  nb_list : NTx -> list string -> list (string * option string);
}.

Definition folderStructureBucketName : string := "folderStructure".
Definition metadataFilesBucketName : string := "metadataFiles".
Definition bulkFilesBucketName : string := "bulkFiles".
Definition childToParentBucketName : string := "childToParent".

(** [FileEntry] *)
Record HashedFile := { hf_Name : string; HashSum : string }.

Section Database.
Context `{Nested, Json FolderStructureEntry, Json (list HashedFile)}.

(** ** Buckets

    A bucket is nil or its path.  In a [View] nothing can be created. *)
Definition bucket : Type := option (list string).

Definition tx_op (f : NTx -> error + NTx) : M NTx unit := fun tx =>
  match f tx with inr tx' => (Ret tt, tx') | inl e => (Fail e, tx) end.

Definition safeCreateIfNotExistsInBucket (writable : bool) (b : bucket) (name : string) : M NTx unit :=
  match b with
  | Some p => if writable then ignore! tt of (tx_op (fun tx => nb_create tx p name)) else mret tt
  | None => mret tt
  end.
(** [bucket.Bucket(name)] on a bucket that is not nil *)
Definition sub_bucket (p : list string) (name : string) : M NTx bucket :=
  gets (fun tx => if nb_exists tx (p ++ [name]) then Some (p ++ [name]) else None).
Definition nil_bucket {A} : M NTx A := panic "nil bucket".

Definition getMediaHouseBucket (writable : bool) (rootBucketName mediaHouse : string) : M NTx bucket :=
  safeCreateIfNotExistsInBucket writable (Some []) rootBucketName;;
  b ← sub_bucket [] rootBucketName;
  match b with
  | None => mret None
  | Some p =>
      safeCreateIfNotExistsInBucket writable (Some p) mediaHouse;;
      sub_bucket p mediaHouse
  end.

Definition putEncodedJSON {A} `{Json A} (b : bucket) (v : A) (key : string) : M NTx unit :=
  match json_marshal v with
  | inl _ => fail "Could not encode into json"
  | inr encoded =>
      match b with
      | None => nil_bucket
      | Some p =>
          r ← try! (tx_op (fun tx => nb_put tx p key encoded));
          match r with
          | inl _ => fail ("Could not add encoded entry: " +:+ encoded)
          | inr _ => mret tt
          end
      end
  end.

(** ** Adding *)

Definition missing_bucket (mediaHouse root : string) : error :=
  "Media house bucket associated with mediahouse value: " +:+ mediaHouse +:+ " in parent bucket: " +:+ root +:+ " was nil".

Definition putFileEntries (bucketName mediaHouse id : string) (fileEntries : list HashedFile) : M NTx unit :=
  b ← getMediaHouseBucket true bucketName mediaHouse;
  match b with
  | None => fail ("Media house bucket was null while adding file entries to " +:+ bucketName)
  | Some _ => putEncodedJSON b fileEntries id
  end.

Definition add_folder (mediaHouse parent : string) (folderStructureEntry : FolderStructureEntry) : M NTx unit :=
  b ← getMediaHouseBucket true folderStructureBucketName mediaHouse;
  match b with
  | None => fail (missing_bucket mediaHouse folderStructureBucketName)
  | Some p =>
      safeCreateIfNotExistsInBucket true b parent;;
      parentBucket ← sub_bucket p parent;
      putEncodedJSON parentBucket folderStructureEntry (ID folderStructureEntry);;
      c ← getMediaHouseBucket true childToParentBucketName mediaHouse;
      match c with
      | None => fail (missing_bucket mediaHouse childToParentBucketName)
      | Some q => ignore! tt of (tx_op (fun tx => nb_put tx q (ID folderStructureEntry) parent))
      end
  end.

(** ** Reading *)

(** An error of [Unmarshal] is dropped; a nil value decodes to nothing. *)
Definition decode_value {A} `{Json A} (v : option string) : A :=
  (json_unmarshal (match v with Some s => s | None => EmptyString end)).1.

Definition children_entries (mediaHouse parent : string) : M NTx (list FolderStructureEntry) :=
  b ← getMediaHouseBucket false folderStructureBucketName mediaHouse;
  match b with
  | None => mret []
  | Some p =>
      parentBucket ← sub_bucket p parent;
      match parentBucket with
      | None => mret []
      | Some q => gets (fun tx => (fun kv => decode_value kv.2) <$> nb_list tx q)
      end
  end.

(** An error is printed and the list is empty. *)
Definition file_entries (mediaHouse id bucketName : string) : M NTx (list HashedFile) :=
  b ← getMediaHouseBucket false bucketName mediaHouse;
  match b with
  | None => mret []
  | Some p =>
      files ← gets (fun tx => nb_get tx p id);
      mret (match files with Some s => (json_unmarshal s).1 | None => [] end)
  end.

Definition key_exists (mediaHouse parent id : string) : M NTx bool :=
  b ← getMediaHouseBucket false folderStructureBucketName mediaHouse;
  match b with
  | None => mret false
  | Some p =>
      parentBucket ← sub_bucket p parent;
      match parentBucket with
      | None => mret false
      | Some q => gets (fun tx => match nb_get tx q id with Some _ => true | None => false end)
      end
  end.

(** ** Erasing *)

Definition eraseKey (bucketName mediaHouse id : string) : M NTx unit :=
  b ← getMediaHouseBucket true bucketName mediaHouse;
  match b with
  | None => nil_bucket
  | Some p => tx_op (fun tx => nb_delete tx p id)
  end.

(** The children are read in a [View] of their own, which sees what was committed
    before the [Update] began.  The fuel counts levels of folders. *)
Fixpoint doErase (fuel : nat) (committed : NTx) (id mediaHouse : string) : M NTx unit :=
  match fuel with
  | 0 => out_of_fuel
  | S fuel' =>
      eraseKey metadataFilesBucketName mediaHouse id;;
      eraseKey bulkFilesBucketName mediaHouse id;;
      b ← getMediaHouseBucket true childToParentBucketName mediaHouse;
      match b with
      | None => fail "Media house bucket as null while trying to get parent of child"
      | Some p =>
          parentBytes ← gets (fun tx => nb_get tx p id);
          match parentBytes with
          | None => fail "Parent was nil for the passed ID"
          | Some parent =>
              m ← getMediaHouseBucket true folderStructureBucketName mediaHouse;
              match m with
              | None => nil_bucket
              | Some q =>
                  parentBucket ← sub_bucket q parent;
                  match parentBucket with
                  | None => nil_bucket
                  | Some r =>
                      tx_op (fun tx => nb_delete tx r id);;
                      match (children_entries mediaHouse id committed).1 with
                      | Ret folderChildren =>
                          for_each folderChildren (fun child => doErase fuel' committed (ID child) mediaHouse);;
                          ignore! tt of (tx_op (fun tx => nb_delete_bucket tx q id))
                      | _ => nil_bucket
                      end
                  end
              end
          end
      end
  end.

(** ** The operations of the database *)

Definition update {A} (body : M NTx A) : M NDB A := fun d =>
  match body (ntx_begin d) with
  | (Ret a, tx) =>
      match ntx_commit d tx with
      | (None, d') => (Ret a, d')
      | (Some e, d') => (Fail e, d')
      end
  | (Fail e, _) => (Fail e, d)
  | (Panic s, _) => (Panic s, d)
  | (OutOfFuel, _) => (OutOfFuel, d)
  end.
Definition view {A} (body : M NTx A) : M NDB A := fun d => ((body (ntx_begin d)).1, d).

Definition addFolder (mediaHouse parent : string) (entry : FolderStructureEntry) : M NDB unit :=
  update (add_folder mediaHouse parent entry).
Definition addMetadataFiles (mediaHouse id : string) (fileEntries : list HashedFile) : M NDB unit :=
  update (putFileEntries metadataFilesBucketName mediaHouse id fileEntries).
Definition addBulkFiles (mediaHouse id : string) (fileEntries : list HashedFile) : M NDB unit :=
  update (putFileEntries bulkFilesBucketName mediaHouse id fileEntries).
Definition getChildrenEntries (mediaHouse parent : string) : M NDB (list FolderStructureEntry) :=
  view (children_entries mediaHouse parent).
Definition getFileEntries (mediaHouse id bucketName : string) : M NDB (list HashedFile) :=
  view (file_entries mediaHouse id bucketName).
Definition getMetadataFileEntries (mediaHouse id : string) : M NDB (list HashedFile) :=
  getFileEntries mediaHouse id metadataFilesBucketName.
Definition getBulkFileEntries (mediaHouse id : string) : M NDB (list HashedFile) :=
  getFileEntries mediaHouse id bulkFilesBucketName.
Definition KeyExistsInDb (mediaHouse parent id : string) : M NDB bool :=
  view (key_exists mediaHouse parent id).
Definition eraseFolder (fuel : nat) (id mediaHouse : string) : M NDB unit := fun d =>
  update (doErase fuel (ntx_begin d) id mediaHouse) d.

Definition setupDbForTesting : M NDB unit :=
  let xml := {| hf_Name := "metadata.xml"; HashSum := "7b4bb8b01c333e7fa8145bcec20244197c7763786ef47c9de962effb017d01de" |} in
  let vod := {| hf_Name := "vod.mp4"; HashSum := "e754ddcf735de06ac797915b814c933771276831b1d802022036036e0edd4294" |} in
  for_each
    [("FRIENDS", {| hf_Name := "cover.jpg"; HashSum := "7440c1695f713cfc40e02c1f7f246cad718a0377d759fd298f7aed351edd4b3a" |});
     ("FS01", {| hf_Name := "cover.jpg"; HashSum := "e6ad15ad2d6fc3bd26024111656b06c438faa90015c55a9a1709419ab4711c43" |});
     ("FS02", {| hf_Name := "cover.jpg"; HashSum := "87aaf4791fb76c812bca62caebcf66568150541b2c323e173b3a49be3c4cb857" |});
     ("FS01E01", {| hf_Name := "cover.png"; HashSum := "e02d7821816870ee0e58918e35d7f8916144d5359c4b9c02ca5e1b756f87899f" |});
     ("FS02E01", {| hf_Name := "cover.jpg"; HashSum := "b1f2a066e355ba7be9c01a3afe1843148f50c1868e650ac5290664a580c344cd" |})]
    (fun f => ignore! tt of (addMetadataFiles "MSR" f.1 [f.2; xml]));;
  for_each ["FS01E01"; "FS02E01"] (fun id => ignore! tt of (addBulkFiles "MSR" id [vod])).
End Database.
