(* ===== verification/DatabaseThms.v ===== *)
(** The laws of nested buckets, and the properties of [database.go]. *)
From stdpp Require Import relations.
From S2P Require Import Prelude GoStrings Host Reference Routes Database.

Section Laws.
Context `{Nested}.
Implicit Types (tx : NTx) (p q : list string).

(** The values of a bucket, if it exists. *)
Definition nb_at tx q : option (gmap string string) :=
  if nb_exists tx q then Some (list_to_map (omap (fun kv => pair kv.1 <$> kv.2) (nb_list tx q))) else None.
(** A missing bucket counts as empty. *)
Definition values tx q : gmap string string := default ∅ (nb_at tx q).

Lemma nb_exists_at tx q : nb_exists tx q = bool_decide (is_Some (nb_at tx q)).
Proof. unfold nb_at. destruct (nb_exists tx q); symmetry; [apply bool_decide_eq_true; eauto|]. apply bool_decide_eq_false. by intros []. Qed.
Lemma nb_at_exists tx q m : nb_at tx q = Some m -> nb_exists tx q = true.
Proof. rewrite nb_exists_at. intros ->. by apply bool_decide_eq_true. Qed.
Lemma nb_at_missing tx q : nb_at tx q = None -> nb_exists tx q = false.
Proof. rewrite nb_exists_at. intros ->. apply bool_decide_eq_false. by intros []. Qed.

(** [f] was applied to the values of the bucket at [p]. *)
Definition altered p (f : gmap string string -> gmap string string) tx tx' : Prop :=
  forall q, nb_at tx' q = if decide (q = p) then f <$> nb_at tx q else nb_at tx q.
Definition same_buckets tx tx' : Prop := forall q, nb_at tx' q = nb_at tx q.

(** What bolt's documentation says of buckets inside buckets.  The root holds buckets
    only; a name is either a value or a bucket.  The bolt that [go.mod] names, v1.3.1,
    creates a bucket of any name that is not blank: it checks no length there. *)
Class NestedLaws : Prop := {
  nb_root tx : nb_at tx [] = Some ∅;
  nb_parent tx p n : nb_exists tx (p ++ [n]) = true -> nb_exists tx p = true;
  nb_get_spec tx p k m : nb_at tx p = Some m -> nb_get tx p k = m !! k;
  nb_list_spec tx p m : nb_at tx p = Some m -> (forall k, nb_exists tx (p ++ [k]) = false) ->
    nb_list tx p = (fun kv => (kv.1, Some kv.2)) <$> sorted_items m;
  nb_create_spec tx p n tx' : nb_create tx p n = inr tx' ->
    forall q, nb_at tx' q = if decide (q = p ++ [n]) then Some (values tx q) else nb_at tx q;
  nb_create_total tx p n m : nb_at tx p = Some m -> n <> EmptyString -> m !! n = None ->
    exists tx', nb_create tx p n = inr tx';
  nb_put_spec tx p k v tx' : nb_put tx p k v = inr tx' -> altered p <[k := v]> tx tx';
  nb_put_total tx p k v m : p <> [] -> nb_at tx p = Some m -> key_ok k -> value_ok v -> nb_exists tx (p ++ [k]) = false ->
    exists tx', nb_put tx p k v = inr tx';
  nb_delete_spec tx p k tx' : nb_delete tx p k = inr tx' -> altered p (delete k) tx tx';
  nb_delete_total tx p k m : nb_at tx p = Some m -> nb_exists tx (p ++ [k]) = false ->
    exists tx', nb_delete tx p k = inr tx';
  nb_delete_bucket_spec tx p n tx' : nb_delete_bucket tx p n = inr tx' ->
    forall q, nb_at tx' q = if decide ((p ++ [n]) `prefix_of` q) then None else nb_at tx q;
  nb_delete_bucket_total tx p n : nb_exists tx (p ++ [n]) = true ->
    exists tx', nb_delete_bucket tx p n = inr tx';
  ntx_commit_ok d tx d' : ntx_commit d tx = (None, d') -> same_buckets tx (ntx_begin d');
  ntx_commit_err d tx e d' : ntx_commit d tx = (Some e, d') -> same_buckets (ntx_begin d) (ntx_begin d');
}.
End Laws.

(** The map without the given keys. *)
Definition without {V} (ks : gset string) (m : gmap string V) : gmap string V := filter (fun kv => kv.1 ∉ ks) m.
Lemma lookup_without {V} ks (m : gmap string V) k : without ks m !! k = if decide (k ∈ ks) then None else m !! k.
Proof.
  unfold without. apply option_eq. intros v. rewrite map_lookup_filter_Some. case_decide; naive_solver.
Qed.
Lemma without_union {V} ks k (m : gmap string V) : without (ks ∪ {[k]}) m = delete k (without ks m).
Proof.
  apply map_eq. intros i. rewrite lookup_delete, !lookup_without. repeat case_decide; set_solver.
Qed.

(** ** A media house

    Its folders with their children, and its values in the other three roots. *)
Record legacy := { lg_folders : gmap string (gmap string string); lg_values : string -> gmap string string }.
Definition value_roots : list string := [metadataFilesBucketName; bulkFilesBucketName; childToParentBucketName].
Definition roots : list string := folderStructureBucketName :: value_roots.

Section Database.
Context `{Nested, Json FolderStructureEntry, Json (list HashedFile)} `{!NestedLaws}.
Implicit Types (tx : NTx) (L : legacy).
Variable mh : string.
Hypothesis Hmh : mh <> EmptyString.

(** No name is used both for a value and for a bucket. *)
Definition tidy tx : Prop :=
  (forall r, r ∈ roots -> values tx [r] = ∅) /\ values tx [folderStructureBucketName; mh] = ∅ /\
  (forall p k, nb_at tx [folderStructureBucketName; mh; p; k] = None) /\
  (forall r k, r ∈ value_roots -> nb_at tx [r; mh; k] = None).

Definition shows tx L : Prop :=
  tidy tx /\ (forall p, nb_at tx [folderStructureBucketName; mh; p] = lg_folders L !! p) /\
  (forall r, r ∈ value_roots -> values tx [r; mh] = lg_values L r).

Definition set_values (r : string) (f : gmap string string -> gmap string string) L : legacy :=
  {| lg_folders := lg_folders L; lg_values r' := if decide (r' = r) then f (lg_values L r) else lg_values L r' |}.
Definition set_folder (p : string) (f : gmap string string -> gmap string string) L : legacy :=
  {| lg_folders := alter f p (lg_folders L); lg_values := lg_values L |}.

Lemma root_cases r : r ∈ value_roots -> r <> folderStructureBucketName /\ r <> EmptyString.
Proof. unfold value_roots. rewrite !elem_of_cons, elem_of_nil. by intros [->|[->|[->|[]]]]. Qed.

(** *** Buckets that come into being *)

(** Missing buckets of the upper two levels were created. *)
Definition grown tx tx' : Prop :=
  (forall q, length q <= 2 -> values tx' q = values tx q /\ (is_Some (nb_at tx q) -> is_Some (nb_at tx' q))) /\
  (forall q, 2 < length q -> nb_at tx' q = nb_at tx q).
#[local] Instance grown_preorder : PreOrder grown.
Proof.
  split; [by intros tx; split|]. intros tx1 tx2 tx3 [G1 D1] [G2 D2]. split.
  - intros q Hq. destruct (G2 q Hq) as [-> ?], (G1 q Hq) as [-> ?]. auto.
  - intros q Hq. by rewrite D2, D1.
Qed.

Lemma shows_grown tx tx' L : grown tx tx' -> shows tx L -> shows tx' L.
Proof.
  intros [G D] ((T1 & T2 & T3 & T4) & Hf & Hv). unfold shows, tidy. split_and!.
  - intros r Hr. rewrite (proj1 (G [r] ltac:(simpl; lia))). by apply T1.
  - by rewrite (proj1 (G [_; _] ltac:(simpl; lia))).
  - intros p k. rewrite D by (simpl; lia). apply T3.
  - intros r k Hr. rewrite D by (simpl; lia). by apply T4.
  - intros p. rewrite D by (simpl; lia). apply Hf.
  - intros r Hr. rewrite (proj1 (G [_; _] ltac:(simpl; lia))). by apply Hv.
Qed.

Lemma create_grows p n m tx : length p <= 1 -> n <> EmptyString -> nb_at tx p = Some m -> m !! n = None ->
  exists tx', safeCreateIfNotExistsInBucket true (Some p) n tx = (Ret tt, tx') /\
    grown tx tx' /\ is_Some (nb_at tx' (p ++ [n])).
Proof.
  intros Hp Hn Hm Hnone. destruct (nb_create_total tx p n m Hm Hn Hnone) as [tx' E].
  pose proof (nb_create_spec _ _ _ _ E) as Hs. exists tx'. split_and!.
  - unfold safeCreateIfNotExistsInBucket. apply ignoring_Ret. unfold tx_op. by rewrite E.
  - split; intros q Hq; [|rewrite Hs, decide_False; [done|]].
    + unfold values. rewrite Hs. case_decide; [|done]. simpl. split; [done|]. by eexists.
    + intros ->. rewrite length_app in Hq. simpl in Hq. lia.
  - rewrite Hs, decide_True by done. by eexists.
Qed.

Lemma media_house_bucket r tx L : r ∈ roots -> shows tx L ->
  exists tx', getMediaHouseBucket true r mh tx = (Ret (Some [r; mh]), tx') /\ grown tx tx' /\ is_Some (nb_at tx' [r; mh]).
Proof.
  intros Hr Hs. assert (r <> EmptyString) as Hne.
  { apply elem_of_cons in Hr as [->|Hr]; [done|by apply root_cases]. }
  destruct (create_grows [] r ∅ tx) as (tx1 & E1 & G1 & [m1 Hm1]); [simpl; lia|done|apply nb_root|done|].
  pose proof (shows_grown _ _ _ G1 Hs) as [(Hroots & _) _].
  assert (m1 = ∅) as ->. { specialize (Hroots r Hr). unfold values in Hroots. simpl in Hm1. by rewrite Hm1 in Hroots. }
  destruct (create_grows [r] mh ∅ tx1) as (tx2 & E2 & G2 & Hm2); [simpl; lia|done..|].
  exists tx2. split_and!; [|by etrans|done].
  unfold getMediaHouseBucket. erewrite bind_Ret by exact E1. unfold sub_bucket.
  erewrite bind_Ret by done. rewrite (nb_at_exists _ _ _ Hm1). erewrite bind_Ret by exact E2.
  destruct Hm2 as [m2 Hm2]. unfold gets. simpl in *. by rewrite (nb_at_exists _ _ _ Hm2).
Qed.

(** *** Changes of one bucket *)

#[local] Instance legacy_equiv : Equiv legacy := fun L L' =>
  lg_folders L = lg_folders L' /\ forall r, r ∈ value_roots -> lg_values L r = lg_values L' r.
#[local] Instance legacy_equivalence : Equivalence (≡@{legacy}).
Proof.
  split; [by split|intros ?? []; split; [done|intros; symmetry; auto]|].
  intros ??? [E1 V1] [E2 V2]. split; [congruence|]. intros r Hr. by rewrite V1, V2.
Qed.
#[local] Instance shows_proper tx : Proper ((≡) ==> iff) (shows tx).
Proof.
  assert (forall L L', L ≡ L' -> shows tx L -> shows tx L') as Hp.
  { intros L L' [Ef Ev] (Ht & Hf & Hv). split_and!; [done|by rewrite <-Ef|]. intros r Hr. by rewrite <-Ev, Hv. }
  intros L L' E. split; apply Hp; [done|by symmetry].
Qed.

Lemma shows_same tx tx' L : same_buckets tx tx' -> shows tx L -> shows tx' L.
Proof.
  intros E. apply shows_grown. split; intros q _; [|apply E]. unfold values. by rewrite E.
Qed.

Lemma altered_ne p f tx tx' q : altered p f tx tx' -> q <> p -> nb_at tx' q = nb_at tx q.
Proof. intros Ha Hq. by rewrite Ha, decide_False. Qed.
Lemma altered_values p f tx tx' q : altered p f tx tx' -> q <> p -> values tx' q = values tx q.
Proof. intros Ha Hq. unfold values. by rewrite (altered_ne p f tx tx'). Qed.
(** A bucket of the third level or lower does not matter for the tidiness above. *)
Lemma altered_tidy p f tx tx' : altered p f tx tx' -> (forall r, p <> [r]) -> p <> [folderStructureBucketName; mh] ->
  tidy tx -> tidy tx'.
Proof.
  intros Ha Hp1 Hp2 (T1 & T2 & T3 & T4). split_and!.
  - intros r Hr. rewrite (altered_values p f tx tx'); auto.
  - rewrite (altered_values p f tx tx'); auto.
  - intros p' k. rewrite Ha. case_decide; [|done]. by rewrite T3.
  - intros r k Hr. rewrite Ha. case_decide; [|by apply T4]. by rewrite T4.
Qed.

Lemma altered_value r f tx tx' L : r ∈ value_roots -> is_Some (nb_at tx [r; mh]) -> altered [r; mh] f tx tx' ->
  shows tx L -> shows tx' (set_values r f L).
Proof.
  intros Hr [m Hm] Ha (Ht & Hf & Hv). destruct (root_cases r Hr) as [Hne _]. split_and!; simpl.
  - apply (altered_tidy _ f tx tx' Ha); [done|congruence|done].
  - intros p. by rewrite (altered_ne _ f tx tx' _ Ha).
  - intros r' Hr'. case_decide as Hd.
    + subst. rewrite <-(Hv r Hr). unfold values. by rewrite Ha, decide_True, Hm.
    + rewrite (altered_values _ f tx tx' _ Ha) by congruence. by apply Hv.
Qed.

Lemma altered_folder p f tx tx' L : altered [folderStructureBucketName; mh; p] f tx tx' ->
  shows tx L -> shows tx' (set_folder p f L).
Proof.
  intros Ha (Ht & Hf & Hv). split_and!; simpl.
  - by apply (altered_tidy _ f tx tx' Ha).
  - intros p'. rewrite Ha. destruct (decide (p' = p)) as [->|Hne].
    + by rewrite decide_True, lookup_alter_eq, Hf.
    + rewrite decide_False by congruence. by rewrite lookup_alter_ne, Hf.
  - intros r Hr. by rewrite (altered_values _ f tx tx' _ Ha), Hv.
Qed.

Lemma shows_value r tx L k : r ∈ value_roots -> shows tx L -> is_Some (nb_at tx [r; mh]) ->
  nb_get tx [r; mh] k = lg_values L r !! k.
Proof.
  intros Hr (_ & _ & Hv) [m Hm]. rewrite (nb_get_spec _ _ _ _ Hm), <-(Hv r Hr). unfold values. by rewrite Hm.
Qed.

Lemma eraseKey_run r id tx L : r ∈ value_roots -> shows tx L ->
  exists tx', eraseKey r mh id tx = (Ret tt, tx') /\ shows tx' (set_values r (delete id) L).
Proof.
  intros Hr Hs. destruct (media_house_bucket r tx L) as (tx1 & E1 & G1 & [m Hm]); [by right|done|].
  pose proof (shows_grown _ _ _ G1 Hs) as Hs1. pose proof Hs1 as ((_ & _ & _ & Ht) & _).
  destruct (nb_delete_total tx1 [r; mh] id m Hm (nb_at_missing _ _ (Ht r id Hr))) as [tx2 E2].
  exists tx2. split.
  - unfold eraseKey. erewrite bind_Ret by exact E1. unfold tx_op. by rewrite E2.
  - apply (altered_value r _ tx1); [done| |by apply nb_delete_spec|done]. by eexists.
Qed.

(** *** Reading *)

(** The bucket of a folder, as a [View] finds it. *)
Lemma folder_bucket {A} (k : bucket -> M NTx A) (none : M NTx A) id tx L : shows tx L ->
  (b ← getMediaHouseBucket false folderStructureBucketName mh;
   match b with None => none | Some p => sub_bucket p id ≫= k end) tx =
  match lg_folders L !! id with
  | Some _ => k (Some [folderStructureBucketName; mh; id]) tx
  | None => (if nb_exists tx [folderStructureBucketName; mh] then k None else none) tx
  end.
Proof.
  intros (_ & Hf & _). specialize (Hf id).
  unfold getMediaHouseBucket, safeCreateIfNotExistsInBucket, sub_bucket, gets, mbind, M_bind, mret, M_ret.
  cbn -[nb_exists]. rewrite <-Hf.
  pose proof (nb_parent tx [folderStructureBucketName; mh] id) as E2. cbn [app] in E2.
  pose proof (nb_parent tx [folderStructureBucketName] mh) as E1. cbn [app] in E1.
  destruct (nb_at tx [folderStructureBucketName; mh; id]) as [m|] eqn:Em.
  - assert (nb_exists tx [folderStructureBucketName; mh; id] = true) as E3 by (by eapply nb_at_exists).
    rewrite (E1 (E2 E3)). cbn -[nb_exists]. rewrite (E2 E3). cbn -[nb_exists]. by rewrite E3.
  - pose proof (nb_at_missing _ _ Em) as E3.
    destruct (nb_exists tx [folderStructureBucketName]); cbn -[nb_exists].
    + destruct (nb_exists tx [folderStructureBucketName; mh]); cbn -[nb_exists]; [by rewrite E3|done].
    + destruct (nb_exists tx [folderStructureBucketName; mh]); [by specialize (E1 eq_refl)|done].
Qed.

Lemma children_entries_run id tx L : shows tx L ->
  children_entries mh id tx =
    (Ret ((fun kv => (json_unmarshal kv.2).1) <$> sorted_items (default ∅ (lg_folders L !! id))), tx).
Proof.
  intros Hs. unfold children_entries. rewrite (folder_bucket _ _ id tx L Hs).
  destruct Hs as ((_ & _ & T3 & _) & Hf & _). specialize (Hf id).
  destruct (lg_folders L !! id) as [m|]; [|by destruct (nb_exists _ _)].
  unfold gets. rewrite (nb_list_spec _ _ _ Hf), <-list_fmap_compose; [done|]. intros k. apply nb_at_missing, T3.
Qed.

Lemma key_exists_run parent id tx L : shows tx L ->
  key_exists mh parent id tx = (Ret (bool_decide (is_Some (lg_folders L !! parent ≫= fun m => m !! id))), tx).
Proof.
  intros Hs. unfold key_exists. rewrite (folder_bucket _ _ parent tx L Hs).
  destruct Hs as (_ & Hf & _). specialize (Hf parent).
  destruct (lg_folders L !! parent) as [m|]; simpl; [|by destruct (nb_exists _ _)].
  unfold gets. rewrite (nb_get_spec _ _ _ _ Hf). f_equal. f_equal. by destruct (m !! id).
Qed.

(** ** The tree of folders *)

(** [c] is listed among the children of [p]. *)
Definition child L (p c : string) : Prop := exists m, lg_folders L !! p = Some m /\ is_Some (m !! c).
Definition below L : relation string := rtc (child L).

(** Every listed folder points back to the one folder that lists it, its entry holds
    its own id, and folders do not contain themselves. *)
Record tree_like (rank : string -> nat) L : Prop := {
  tl_parent p c : child L p c -> lg_values L childToParentBucketName !! c = Some p;
  tl_id p m c s : lg_folders L !! p = Some m -> m !! c = Some s -> ID (json_unmarshal s).1 = c;
  tl_rank p c : child L p c -> rank c < rank p;
}.

Definition children_of L (id : string) : list string := (sorted_items (default ∅ (lg_folders L !! id))).*1.
Lemma elem_of_children L id c : c ∈ children_of L id <-> child L id c.
Proof.
  unfold children_of, child. rewrite list_elem_of_fmap. split.
  - intros ([k s] & -> & Hin%elem_of_sorted_items). destruct (lg_folders L !! id); simpl in Hin; [eauto|by apply lookup_empty_Some in Hin].
  - intros (m & -> & [s Hs]). exists (c, s). split; [done|]. by apply elem_of_sorted_items.
Qed.
Lemma NoDup_children L id : NoDup (children_of L id).
Proof. unfold children_of. rewrite (fmap_Permutation fst _ _ (sorted_items_perm _)). apply NoDup_fst_map_to_list. Qed.

(** The folders of a subtree, level by level of the recursion of [doErase]. *)
Fixpoint subtree (fuel : nat) L (id : string) : gset string :=
  match fuel with
  | 0 => ∅
  | S fuel' => {[id]} ∪ ⋃ (subtree fuel' L <$> children_of L id)
  end.

Section Tree.
Context (rank : string -> nat) (L : legacy) (HL : tree_like rank L).

Lemma below_rank p x : below L p x -> p = x \/ rank x < rank p.
Proof.
  induction 1 as [|a b c Hab _ [->|IH]]; [by left|right..]; pose proof (tl_rank _ _ HL _ _ Hab); [done|lia].
Qed.
Lemma elem_of_subtree fuel id x : rank id < fuel -> x ∈ subtree fuel L id <-> below L id x.
Proof.
  revert id. induction fuel as [|fuel IH]; intros id Hf; [lia|]. simpl.
  rewrite elem_of_union, elem_of_singleton, elem_of_union_list. split.
  - intros [->|(X & (c & -> & Hc%elem_of_children)%list_elem_of_fmap & Hx)]; [apply rtc_refl|].
    pose proof (tl_rank _ _ HL _ _ Hc). apply IH in Hx; [|lia]. by eapply rtc_l.
  - intros Hb. apply rtc_inv in Hb as [->|(c & Hc & Hb)]; [by left|right].
    pose proof (tl_rank _ _ HL _ _ Hc). exists (subtree fuel L c). split; [|apply IH; [lia|exact Hb]].
    apply list_elem_of_fmap_2. by apply elem_of_children.
Qed.

(** Two folders above the same one are above each other. *)
Lemma below_chain a b x : below L a x -> below L b x -> below L a b \/ below L b a.
Proof.
  intros Hax. revert b. apply (rtc_ind_r (R := child L) (fun x => forall b, below L b x -> below L a b \/ below L b a) a); [| |exact Hax].
  { intros b Hb. by right. }
  clear x Hax. intros y x Ha Hyx IH b Hb.
  apply rtc_inv_r in Hb as [->|(z & Hb & Hzx)]; [left; by eapply rtc_r|].
  assert (z = y) as ->; [|by apply IH].
  pose proof (tl_parent _ _ HL _ _ Hyx). pose proof (tl_parent _ _ HL _ _ Hzx). congruence.
Qed.
Lemma siblings_apart p a b x : child L p a -> child L p b -> below L a x -> below L b x -> a = b.
Proof.
  assert (forall a b, child L p a -> child L p b -> below L a b -> a = b) as Hab.
  { intros a' b' Ha Hb [->|(q & Haq & Hqb)]%rtc_inv_r; [done|].
    pose proof (tl_parent _ _ HL _ _ Hqb) as Eq. rewrite (tl_parent _ _ HL _ _ Hb) in Eq. injection Eq as <-.
    pose proof (tl_rank _ _ HL _ _ Ha). destruct (below_rank _ _ Haq) as [->|]; lia. }
  intros Ha Hb Hax Hbx. destruct (below_chain _ _ _ Hax Hbx); [|symmetry]; by apply Hab.
Qed.

(** ** Erasing *)

(** [L] without the values of the given folders in the roots of files, their entries in
    lists of children, and their own lists. *)
Definition erased (metas bulks entries lists : gset string) : legacy :=
  {| lg_folders := without entries <$> without lists (lg_folders L);
     lg_values r := if decide (r = metadataFilesBucketName) then without metas (lg_values L r)
                    else if decide (r = bulkFilesBucketName) then without bulks (lg_values L r) else lg_values L r |}.

Lemma erase_meta metas bulks entries lists id :
  set_values metadataFilesBucketName (delete id) (erased metas bulks entries lists) ≡
  erased (metas ∪ {[id]}) bulks entries lists.
Proof. split; [done|]. intros r _. simpl. repeat case_decide; subst; try done. by rewrite without_union. Qed.
Lemma erase_bulk metas bulks entries lists id :
  set_values bulkFilesBucketName (delete id) (erased metas bulks entries lists) ≡
  erased metas (bulks ∪ {[id]}) entries lists.
Proof. split; [done|]. intros r _. simpl. repeat case_decide; subst; try done. by rewrite without_union. Qed.
(** The entry of a folder is in one list only. *)
Lemma erase_entry metas bulks entries lists p id : child L p id ->
  set_folder p (delete id) (erased metas bulks entries lists) ≡ erased metas bulks (entries ∪ {[id]}) lists.
Proof.
  intros Hc. split; [|done]. simpl. apply map_eq. intros q. rewrite !lookup_fmap, lookup_without.
  destruct (decide (q = p)) as [->|Hq].
  - rewrite lookup_alter_eq, lookup_fmap, lookup_without. case_decide; [done|].
    destruct (lg_folders L !! p); simpl; [|done]. by rewrite without_union.
  - rewrite lookup_alter_ne, lookup_fmap, lookup_without by done. case_decide; [done|].
    destruct (lg_folders L !! q) as [m|] eqn:E; simpl; [|done]. f_equal. rewrite without_union, delete_id; [done|].
    rewrite lookup_without. case_decide; [done|]. apply eq_None_not_Some. intros Hm. apply Hq.
    assert (child L q id) as Hc' by (by exists m).
    pose proof (tl_parent _ _ HL _ _ Hc). pose proof (tl_parent _ _ HL _ _ Hc'). congruence.
Qed.

(** Removing the list of a folder, whether there is one or not. *)
Lemma delete_list_run metas bulks entries lists id tx : shows tx (erased metas bulks entries lists) ->
  exists tx', ignoring tt (tx_op (fun tx => nb_delete_bucket tx [folderStructureBucketName; mh] id)) tx = (Ret tt, tx') /\
    shows tx' (erased metas bulks entries (lists ∪ {[id]})).
Proof.
  intros Hs. pose proof Hs as (Ht & Hf & Hv). unfold ignoring, attempt, tx_op, mbind, M_bind.
  destruct (nb_delete_bucket tx [folderStructureBucketName; mh] id) as [e|tx'] eqn:E.
  - exists tx. split; [done|]. apply (shows_proper tx (erased metas bulks entries lists)); [|done].
    split; [|done]. simpl. f_equal. rewrite without_union, delete_id; [done|].
    destruct (nb_at tx [folderStructureBucketName; mh; id]) as [m|] eqn:Em.
    + destruct (nb_delete_bucket_total tx [folderStructureBucketName; mh] id) as [? ?]; [by eapply nb_at_exists|congruence].
    + specialize (Hf id). rewrite Em in Hf. simpl in Hf. rewrite lookup_fmap in Hf.
      by destruct (without lists (lg_folders L) !! id).
  - exists tx'. split; [done|]. pose proof (nb_delete_bucket_spec _ _ _ _ E) as Hd.
    assert (forall q, (forall k, q <> folderStructureBucketName :: mh :: id :: k) -> nb_at tx' q = nb_at tx q) as Hkeep.
    { intros q Hq. rewrite Hd. case_decide as Hp; [|done]. destruct Hp as [k ->]. by destruct (Hq k). }
    destruct Ht as (T1 & T2 & T3 & T4). unfold shows, tidy, values in *. split_and!; simpl.
    + intros r Hr. rewrite Hkeep by done. by apply T1.
    + by rewrite Hkeep.
    + intros p k. rewrite Hd. case_decide; [done|apply T3].
    + intros r k Hr. rewrite Hkeep; [by apply T4|]. intros k' [= -> _ _]. by destruct (root_cases _ Hr).
    + intros p. rewrite lookup_fmap, without_union. destruct (decide (p = id)) as [->|Hne].
      * rewrite lookup_delete_eq, Hd, decide_True; [done|]. by exists [].
      * rewrite lookup_delete_ne, <-lookup_fmap by done. rewrite Hkeep; [apply Hf|]. intros k. congruence.
    + intros r Hr. rewrite Hkeep by done. by apply Hv.
Qed.

(** The children that the [View] sees. *)
Lemma children_entries_ids id tx : shows tx L ->
  exists l, (children_entries mh id tx).1 = Ret l /\ ID <$> l = children_of L id.
Proof.
  intros Hs. rewrite (children_entries_run id tx L Hs). eexists. split; [done|]. unfold children_of.
  rewrite <-list_fmap_compose. apply list_fmap_ext. intros i [c s] Hc. simpl.
  apply list_elem_of_lookup_2, elem_of_sorted_items in Hc.
  destruct (lg_folders L !! id) as [m|] eqn:Em; simpl in Hc; [by apply (tl_id _ _ HL id m)|by apply lookup_empty_Some in Hc].
Qed.

(** What [doErase] does to a folder before it turns to the children. *)
Definition unlink (id : string) : M NTx (list string * list string) :=
  eraseKey metadataFilesBucketName mh id;;
  eraseKey bulkFilesBucketName mh id;;
  b ← getMediaHouseBucket true childToParentBucketName mh;
  match b with
  | None => fail "Media house bucket as null while trying to get parent of child"
  | Some p =>
      parentBytes ← gets (fun tx => nb_get tx p id);
      match parentBytes with
      | None => fail "Parent was nil for the passed ID"
      | Some parent =>
          m ← getMediaHouseBucket true folderStructureBucketName mh;
          match m with
          | None => nil_bucket
          | Some q =>
              parentBucket ← sub_bucket q parent;
              match parentBucket with
              | None => nil_bucket
              | Some r => mret (q, r)
              end
          end
      end
  end.
Lemma doErase_unlink fuel tx0 id tx :
  doErase (S fuel) tx0 id mh tx =
  (unlink id ≫= fun '(q, r) =>
     tx_op (fun tx => nb_delete tx r id);;
     match (children_entries mh id tx0).1 with
     | Ret folderChildren =>
         for_each folderChildren (fun c => doErase fuel tx0 (ID c) mh);;
         ignore! tt of (tx_op (fun tx => nb_delete_bucket tx q id))
     | _ => nil_bucket
     end) tx.
Proof.
  unfold unlink. simpl. do 3 (rewrite bind_assoc; apply bind_ext; intros ? ?).
  case_match; [|done]. rewrite bind_assoc. apply bind_ext. intros [parent|] ?; [|done].
  rewrite bind_assoc. apply bind_ext. intros [q|] ?; [|done].
  rewrite bind_assoc. apply bind_ext. by intros [r|] ?.
Qed.

(** The two outcomes: the parent has a list, or its bucket is gone. *)
Lemma unlink_run id p E D tx : shows tx (erased E E E D) ->
  lg_values L childToParentBucketName !! id = Some p ->
  exists tx', shows tx' (erased (E ∪ {[id]}) (E ∪ {[id]}) E D) /\
    unlink id tx = (match without D (lg_folders L) !! p with
                    | Some _ => Ret ([folderStructureBucketName; mh], [folderStructureBucketName; mh; p])
                    | None => Panic "nil bucket"
                    end, tx').
Proof.
  intros Hs Hp.
  destruct (eraseKey_run metadataFilesBucketName id tx _ ltac:(by left) Hs) as (tx1 & E1 & H1').
  rewrite erase_meta in H1'.
  destruct (eraseKey_run bulkFilesBucketName id tx1 _ ltac:(by right; left) H1') as (tx2 & E2 & H2').
  rewrite erase_bulk in H2'.
  destruct (media_house_bucket childToParentBucketName tx2 _ ltac:(by right; right; right; left) H2') as (tx3 & E3 & G3 & X3).
  pose proof (shows_grown _ _ _ G3 H2') as H3'.
  destruct (media_house_bucket folderStructureBucketName tx3 _ ltac:(by left) H3') as (tx4 & E4 & G4 & _).
  pose proof (shows_grown _ _ _ G4 H3') as H4'. exists tx4. split; [done|].
  unfold unlink. erewrite bind_Ret by exact E1. erewrite bind_Ret by exact E2. erewrite bind_Ret by exact E3.
  cbn beta iota. erewrite bind_Ret by done. rewrite (shows_value _ _ _ id ltac:(by right; right; left) H3' X3).
  cbn [lg_values erased]. rewrite !decide_False by done. rewrite Hp. cbn beta iota.
  erewrite bind_Ret by exact E4. cbn beta iota. erewrite bind_Ret by done. cbn [app].
  destruct H4' as (_ & Hf & _). specialize (Hf p). cbn [lg_folders erased] in Hf. rewrite lookup_fmap in Hf.
  destruct (without D (lg_folders L) !! p) as [m|]; simpl in Hf.
  - by rewrite (nb_at_exists _ _ _ Hf).
  - by rewrite (nb_at_missing _ _ Hf).
Qed.

(** What is promised of a folder whose rank the fuel exceeds. *)
Definition erases tx0 fuel : Prop := forall id p E D tx,
  rank id < fuel -> child L p id -> p ∉ D -> (forall x, below L id x -> x ∉ D) -> shows tx (erased E E E D) ->
  exists tx', doErase fuel tx0 id mh tx = (Ret tt, tx') /\
    let S := subtree fuel L id in shows tx' (erased (E ∪ S) (E ∪ S) (E ∪ S) (D ∪ S)).

Lemma erase_children tx0 fuel id l : erases tx0 fuel -> rank id <= fuel ->
  (forall c, c ∈ ID <$> l -> child L id c) -> NoDup (ID <$> l) -> forall E D tx,
  id ∉ D -> (forall c x, c ∈ ID <$> l -> below L c x -> x ∉ D) -> shows tx (erased E E E D) ->
  exists tx', for_each l (fun c => doErase fuel tx0 (ID c) mh) tx = (Ret tt, tx') /\
    let S := ⋃ (subtree fuel L <$> (ID <$> l)) in shows tx' (erased (E ∪ S) (E ∪ S) (E ∪ S) (D ∪ S)).
Proof.
  intros IH Hid. induction l as [|c l IHl]; intros Hl Hnd E D tx Hi HD Hs.
  { exists tx. split; [done|]. simpl. by rewrite !union_empty_r_L. }
  apply NoDup_cons in Hnd as [Hn Hnd].
  assert (child L id (ID c)) as Hc by (apply Hl; by left). pose proof (tl_rank _ _ HL _ _ Hc) as Hrc.
  destruct (IH (ID c) id E D tx) as (tx1 & E1 & Hs1); [lia|done|done|intros x; apply HD; by left|done|].
  destruct (IHl (fun c' Hc' => Hl c' ltac:(by right)) Hnd (E ∪ subtree fuel L (ID c)) (D ∪ subtree fuel L (ID c)) tx1)
    as (tx2 & E2 & Hs2); [| |done|].
  - rewrite not_elem_of_union. split; [done|]. rewrite elem_of_subtree by lia.
    intros [|]%below_rank; [|lia]. subst. lia.
  - intros c' x Hc' Hx. rewrite not_elem_of_union. split; [by apply (HD c'); [right|]|].
    rewrite elem_of_subtree by lia. intros Hx'. apply Hn.
    rewrite (siblings_apart id (ID c) c' x); [done|done|apply Hl; by right|done|done].
  - exists tx2. simpl. erewrite bind_Ret by exact E1. split; [done|]. simpl in Hs2. by rewrite !union_assoc_L.
Qed.

Lemma doErase_run tx0 fuel : shows tx0 L -> erases tx0 fuel.
Proof.
  intros Hs0. induction fuel as [|fuel IH]; intros id p E D tx Hfuel Hc Hp HD Hs; [lia|].
  pose proof Hc as (m & Hm & _).
  destruct (unlink_run id p E D tx Hs (tl_parent _ _ HL _ _ Hc)) as (tx1 & Hs1 & E1).
  rewrite lookup_without, decide_False, Hm in E1 by done.
  rewrite doErase_unlink. erewrite bind_Ret by exact E1.
  pose proof Hs1 as ((_ & _ & T3 & _) & Hf & _). specialize (Hf p). cbn [lg_folders erased] in Hf.
  rewrite lookup_fmap, lookup_without, decide_False, Hm in Hf by done. simpl in Hf.
  destruct (nb_delete_total tx1 [folderStructureBucketName; mh; p] id _ Hf (nb_at_missing _ _ (T3 p id))) as [tx2 E2].
  pose proof (altered_folder _ _ _ _ _ (nb_delete_spec _ _ _ _ E2) Hs1) as Hs2. rewrite (erase_entry _ _ _ _ p id Hc) in Hs2.
  erewrite bind_Ret by (unfold tx_op; by rewrite E2).
  destruct (children_entries_ids id tx0 Hs0) as (l & -> & Hl).
  destruct (erase_children tx0 fuel id l IH) with (E := E ∪ {[id]}) (D := D) (tx := tx2) as (tx3 & E3 & Hs3).
  - lia.
  - intros c. rewrite Hl. apply elem_of_children.
  - rewrite Hl. apply NoDup_children.
  - apply HD, rtc_refl.
  - intros c x Hcl Hx. apply HD. rewrite Hl, elem_of_children in Hcl. by eapply rtc_l.
  - done.
  - erewrite bind_Ret by exact E3. destruct (delete_list_run _ _ _ _ id tx3 Hs3) as (tx4 & E4 & Hs4).
    exists tx4. split; [exact E4|]. simpl. rewrite Hl in Hs4. simpl in Hs4.
    set (U := ⋃ (subtree fuel L <$> children_of L id)) in *.
    replace (E ∪ ({[id]} ∪ U)) with (E ∪ {[id]} ∪ U) by set_solver.
    by replace (D ∪ ({[id]} ∪ U)) with (D ∪ U ∪ {[id]}) by set_solver.
Qed.
End Tree.

(** ** The properties *)

Lemma tree_shape L : erased L ∅ ∅ ∅ ∅ ≡ L.
Proof.
  assert (forall V (m : gmap string V), without ∅ m = m) as Hw.
  { intros V m. apply map_eq. intros k. by rewrite lookup_without, decide_False by set_solver. }
  split; simpl.
  - rewrite Hw. rewrite (map_fmap_ext _ id); [apply map_fmap_id|]. intros i x _. apply Hw.
  - intros r _. by rewrite !Hw; repeat case_decide.
Qed.

(** An update publishes what its body did or changes nothing. *)
Lemma update_run (body : M NTx unit) d tx L L' : body (ntx_begin d) = (Ret tt, tx) ->
  shows (ntx_begin d) L -> shows tx L' ->
  exists o d', update body d = (o, d') /\
    ((o = Ret tt /\ shows (ntx_begin d') L') \/ ((exists e, o = Fail e) /\ shows (ntx_begin d') L)).
Proof.
  intros E Hs Hs'. unfold update. rewrite E. destruct (ntx_commit d tx) as [[e|] d'] eqn:Ec; eexists _, _; split; try done.
  - right. split; [by eexists|]. by eapply shows_same, Hs; eapply ntx_commit_err.
  - left. split; [done|]. by eapply shows_same, Hs'; eapply ntx_commit_ok.
Qed.

Lemma eraseFolder_run rank L fuel id p d :
  shows (ntx_begin d) L -> tree_like rank L -> child L p id -> rank id < fuel ->
  exists tx, doErase fuel (ntx_begin d) id mh (ntx_begin d) = (Ret tt, tx) /\
    let S := subtree fuel L id in shows tx (erased L S S S S).
Proof.
  intros Hs HL Hc Hf.
  destruct (doErase_run rank L HL (ntx_begin d) fuel Hs id p ∅ ∅ (ntx_begin d) Hf Hc) as (tx & E & Htx);
    [set_solver|set_solver|by rewrite (tree_shape L)|].
  exists tx. split; [done|]. cbv zeta in *. by rewrite !union_empty_l_L in Htx.
Qed.

(** C38: erasing a folder of a database that is a tree removes, when the commit
    succeeds, exactly that folder and the folders below it: their file entries,
    their entries in the lists of children and their own lists; nothing else
    changes, nor anything when the commit fails.  The folders keep their links to their
    parents, which a comment of the code says are deleted. *)
Theorem erase_removes_the_subtree rank L fuel id p d :
  shows (ntx_begin d) L -> tree_like rank L -> child L p id -> rank id < fuel ->
  exists S : gset string, (forall x, x ∈ S <-> below L id x) /\
    exists o d', eraseFolder fuel id mh d = (o, d') /\
      ((o = Ret tt /\ shows (ntx_begin d') (erased L S S S S)) \/
       ((exists e, o = Fail e) /\ shows (ntx_begin d') L)).
Proof.
  intros Hs HL Hc Hf. exists (subtree fuel L id). split; [intros x; by apply (elem_of_subtree rank L HL)|].
  destruct (eraseFolder_run rank L fuel id p d Hs HL Hc Hf) as (tx & E & Htx). by eapply update_run.
Qed.

(** C40: since the links to the parents stay, a folder below an erased one can be asked
    for again, and erasing it panics. *)
Theorem erasing_below_an_erased_folder_panics rank L fuel fuel' id p d d' x :
  shows (ntx_begin d) L -> tree_like rank L -> child L p id -> rank id < fuel ->
  eraseFolder fuel id mh d = (Ret tt, d') -> below L id x -> x <> id ->
  eraseFolder (S fuel') x mh d' = (Panic "nil bucket", d').
Proof.
  intros Hs HL Hc Hf E Hx Hne. destruct (eraseFolder_run rank L fuel id p d Hs HL Hc Hf) as (tx & Er & Htx).
  destruct (update_run _ d tx L _ Er Hs Htx) as (o & d1 & E1 & [[-> Hs1]|[[e ->] _]]); unfold eraseFolder in E.
  2: { rewrite E1 in E. discriminate E. }
  rewrite E1 in E. injection E as ->. apply rtc_inv_r in Hx as [|(q & Hq & Hqx)]; [done|].
  destruct (unlink_run L x q (subtree fuel L id) (subtree fuel L id) (ntx_begin d') Hs1 (tl_parent _ _ HL _ _ Hqx))
    as (tx1 & _ & Eu).
  rewrite lookup_without, decide_True in Eu by (by apply (elem_of_subtree rank L HL)).
  unfold eraseFolder, update. rewrite doErase_unlink. by erewrite bind_Panic by exact Eu.
Qed.

(** ** Adding *)

(** [e] was put, as [s], into the list of [parent]. *)
Definition listed (parent : string) (e : FolderStructureEntry) (s : string) L L' : Prop :=
  lg_folders L' = <[parent := <[ID e := s]> (default ∅ (lg_folders L !! parent))]> (lg_folders L) /\
  (forall r, r ∈ [metadataFilesBucketName; bulkFilesBucketName] -> lg_values L' r = lg_values L r) /\
  (key_ok (ID e) -> value_ok parent ->
   lg_values L' childToParentBucketName = <[ID e := parent]> (lg_values L childToParentBucketName)).

(** A list of children comes into being. *)
Lemma create_list_run parent tx L : parent <> EmptyString -> is_Some (nb_at tx [folderStructureBucketName; mh]) -> shows tx L ->
  exists tx', safeCreateIfNotExistsInBucket true (Some [folderStructureBucketName; mh]) parent tx = (Ret tt, tx') /\
    shows tx' {| lg_folders := <[parent := default ∅ (lg_folders L !! parent)]> (lg_folders L); lg_values := lg_values L |}.
Proof.
  intros Hp [m Hm] ((T1 & T2 & T3 & T4) & Hf & Hv).
  assert (m = ∅) as ->. { unfold values in T2. by rewrite Hm in T2. }
  destruct (nb_create_total tx _ parent _ Hm Hp (lookup_empty _)) as [tx' E].
  pose proof (nb_create_spec _ _ _ _ E) as Hs. cbn [app] in Hs. exists tx'. split.
  { unfold safeCreateIfNotExistsInBucket. apply ignoring_Ret. unfold tx_op. by rewrite E. }
  unfold shows, tidy, values in *. split_and!; simpl.
  - intros r Hr. rewrite Hs, decide_False by done. by apply T1.
  - by rewrite Hs, decide_False.
  - intros p k. by rewrite Hs, decide_False.
  - intros r k Hr. rewrite Hs, decide_False; [by apply T4|]. intros [= -> _]. by destruct (root_cases _ Hr).
  - intros p. rewrite Hs. destruct (decide (p = parent)) as [->|Hne].
    + by rewrite decide_True, lookup_insert_eq, Hf.
    + rewrite decide_False by congruence. by rewrite lookup_insert_ne.
  - intros r Hr. rewrite Hs, decide_False by done. by apply Hv.
Qed.

Lemma putEncodedJSON_run {A} `{Json A} p (v : A) key tx :
  putEncodedJSON (Some p) v key tx =
  match json_marshal v with
  | inl _ => (Fail "Could not encode into json", tx)
  | inr s => match nb_put tx p key s with
             | inl _ => (Fail ("Could not add encoded entry: " +:+ s), tx)
             | inr tx' => (Ret tt, tx')
             end
  end.
Proof.
  unfold putEncodedJSON, attempt, tx_op, mbind, M_bind. destruct (json_marshal v) as [|s]; [done|].
  by destruct (nb_put tx p key s).
Qed.

Lemma add_folder_run parent e tx L : parent <> EmptyString -> shows tx L ->
  (exists err, (add_folder mh parent e tx).1 = Fail err) \/
  exists s tx' L', json_marshal e = inr s /\ add_folder mh parent e tx = (Ret tt, tx') /\ shows tx' L' /\ listed parent e s L L'.
Proof.
  intros Hp Hs. unfold add_folder.
  destruct (media_house_bucket folderStructureBucketName tx L ltac:(by left) Hs) as (tx1 & E1 & G1 & X1).
  pose proof (shows_grown _ _ _ G1 Hs) as Hs1. erewrite bind_Ret by exact E1.
  destruct (create_list_run parent tx1 L Hp X1 Hs1) as (tx2 & E2 & Hs2). cbn beta iota. erewrite bind_Ret by exact E2.
  pose proof Hs2 as ((_ & _ & T3 & _) & Hf & _). specialize (Hf parent). simpl in Hf. rewrite lookup_insert_eq in Hf.
  erewrite bind_Ret by done. cbn [app]. rewrite (nb_at_exists _ _ _ Hf).
  pose proof (putEncodedJSON_run [folderStructureBucketName; mh; parent] e (ID e) tx2) as E3.
  destruct (json_marshal e) as [err|s] eqn:Ee; [left; erewrite bind_Fail by exact E3; by eexists|].
  destruct (nb_put tx2 [folderStructureBucketName; mh; parent] (ID e) s) as [err|tx3] eqn:Eput;
    [left; erewrite bind_Fail by exact E3; by eexists|].
  right. pose proof (altered_folder _ _ _ _ _ (nb_put_spec _ _ _ _ _ Eput) Hs2) as Hs3. erewrite bind_Ret by exact E3.
  destruct (media_house_bucket childToParentBucketName tx3 _ ltac:(by right; right; right; left) Hs3) as (tx4 & E4 & G4 & X4).
  pose proof (shows_grown _ _ _ G4 Hs3) as Hs4. erewrite bind_Ret by exact E4.
  unfold ignoring, attempt, tx_op, mbind, M_bind.
  assert (forall L0, lg_folders L0 = lg_folders (set_folder parent <[ID e := s]>
      {| lg_folders := <[parent := default ∅ (lg_folders L !! parent)]> (lg_folders L); lg_values := lg_values L |}) ->
    lg_folders L0 = <[parent := <[ID e := s]> (default ∅ (lg_folders L !! parent))]> (lg_folders L)) as Hfold.
  { intros L0 ->. simpl. apply alter_insert_eq. }
  destruct (nb_put tx4 [childToParentBucketName; mh] (ID e) parent) as [err|tx5] eqn:E5.
  - eexists s, tx4, _. split_and!; [done..|exact Hs4|]. split_and!; [by apply Hfold|done|].
    intros Hk Hv. exfalso. destruct X4 as [m Hm]. pose proof Hs4 as ((_ & _ & _ & T4) & _).
    destruct (nb_put_total tx4 [childToParentBucketName; mh] (ID e) parent m ltac:(done) Hm Hk Hv) as [? ?]; [|congruence].
    apply nb_at_missing, T4. by right; right; left.
  - eexists s, tx5, _. split_and!; [done..| |].
    + apply (altered_value childToParentBucketName <[ID e := parent]> tx4); [by right; right; left|done| |exact Hs4].
      by apply nb_put_spec.
    + split_and!; [by apply Hfold| |by intros _ _].
      intros r Hr. simpl. rewrite decide_False; [done|].
      intros ->. by repeat (apply elem_of_cons in Hr as [Hr|Hr]; [discriminate Hr|]); apply elem_of_nil in Hr.
Qed.

Lemma listed_child parent e s L L' p c : listed parent e s L L' ->
  child L' p c <-> child L p c \/ p = parent /\ c = ID e.
Proof.
  intros (Ef & _). unfold child. rewrite Ef. destruct (decide (p = parent)) as [->|Hne].
  - rewrite lookup_insert_eq. split.
    + intros (m & [= <-] & Hm). destruct (decide (c = ID e)) as [->|]; [by right|left].
      rewrite lookup_insert_ne in Hm by done. destruct (lg_folders L !! parent) as [m|]; simpl in Hm; [by exists m|].
      by rewrite lookup_empty in Hm; destruct Hm.
    + intros H'. eexists. split; [done|]. apply lookup_insert_is_Some'.
      destruct H' as [(m & -> & Hm)|[_ ->]]; [by right|by left].
  - rewrite lookup_insert_ne by done. naive_solver.
Qed.

(** A folder that is listed nowhere else and not above its parent may be added. *)
Lemma listed_tree_like rank parent e s L L' : tree_like rank L -> listed parent e s L L' ->
  key_ok (ID e) -> value_ok parent -> json_unmarshal s = (e, None) ->
  (forall q, child L q (ID e) -> q = parent) -> ~ below L (ID e) parent ->
  exists rank', tree_like rank' L'.
Proof.
  intros HL Hl Hk Hv Hs Hone Hcycle.
  exists (fun x => if decide (parent ∈ subtree (S (rank x)) L x) then rank x + rank (ID e) + 1 else rank x).
  pose proof Hl as (Ef & _ & Ec). specialize (Ec Hk Hv). split.
  - intros p c Hc. apply (listed_child parent e s L L' p c Hl) in Hc. rewrite Ec.
    destruct (decide (c = ID e)) as [->|Hne].
    + rewrite lookup_insert_eq. destruct Hc as [Hc|[-> _]]; [|done]. by rewrite (Hone p Hc).
    + rewrite lookup_insert_ne by done. destruct Hc as [Hc|[_ ?]]; [by apply (tl_parent _ _ HL)|done].
  - intros p m c s' Hp Hm. rewrite Ef in Hp. destruct (decide (p = parent)) as [->|Hne].
    + rewrite lookup_insert_eq in Hp. injection Hp as <-. destruct (decide (c = ID e)) as [->|Hce].
      * rewrite lookup_insert_eq in Hm. injection Hm as <-. by rewrite Hs.
      * rewrite lookup_insert_ne in Hm by done. destruct (lg_folders L !! parent) as [m|] eqn:Em; simpl in Hm.
        { by apply (tl_id _ _ HL parent m). } by apply lookup_empty_Some in Hm.
    + rewrite lookup_insert_ne in Hp by done. by apply (tl_id _ _ HL p m).
  - intros p c Hc. apply (listed_child parent e s L L' p c Hl) in Hc.
    assert (forall x, parent ∈ subtree (S (rank x)) L x <-> below L x parent) as Hsub.
    { intros x. apply (elem_of_subtree rank L HL). lia. }
    destruct Hc as [Hc|[-> ->]].
    + pose proof (tl_rank _ _ HL _ _ Hc). destruct (decide (parent ∈ subtree (S (rank c)) L c)) as [Hcp|].
      * rewrite decide_True; [lia|]. apply Hsub. apply Hsub in Hcp. by eapply rtc_l.
      * case_decide; lia.
    + rewrite decide_False by (by rewrite Hsub). rewrite decide_True; [lia|]. apply Hsub, rtc_refl.
Qed.

(** C39: a folder that was added exists and is read back among the children of its
    parent, next to those that were there; and a database that is a tree stays one,
    if the folder is listed nowhere else and is not above its parent. *)
Theorem added_folder_is_listed `{!JsonLaws FolderStructureEntry} rank L parent e d d' :
  shows (ntx_begin d) L -> tree_like rank L -> parent <> EmptyString -> json_wf e ->
  addFolder mh parent e d = (Ret tt, d') ->
  KeyExistsInDb mh parent (ID e) d' = (Ret true, d') /\
  (exists l l', getChildrenEntries mh parent d = (Ret l, d) /\ getChildrenEntries mh parent d' = (Ret l', d') /\
    e ∈ l' /\ forall x, x ∈ l' -> x = e \/ x ∈ l) /\
  exists L', shows (ntx_begin d') L' /\
    (key_ok (ID e) -> value_ok parent -> (forall q, child L q (ID e) -> q = parent) -> ~ below L (ID e) parent ->
     exists rank', tree_like rank' L').
Proof.
  intros Hs HL Hp Hwf E.
  destruct (add_folder_run parent e (ntx_begin d) L Hp Hs) as [[err Ee]|(s & tx & L' & Es & Er & Hs' & Hl)].
  { unfold addFolder, update in E. destruct (add_folder mh parent e (ntx_begin d)) as [o tx]. simpl in Ee. subst o. discriminate E. }
  destruct (update_run (add_folder mh parent e) d tx L L' Er Hs Hs') as (o & d1 & E1 & [[-> Hs1]|[[err ->] _]]);
    unfold addFolder in E; rewrite E1 in E; [|discriminate E].
  injection E as ->. pose proof (json_roundtrip e s Hwf Es) as Hdec. pose proof Hl as (Ef & _). split_and!.
  - unfold KeyExistsInDb, view. rewrite (key_exists_run _ _ _ L' Hs1), Ef, lookup_insert_eq. simpl. rewrite lookup_insert_eq.
    by rewrite bool_decide_true by eauto.
  - unfold getChildrenEntries, view.
    rewrite (children_entries_run _ _ L Hs), (children_entries_run _ _ L' Hs1), Ef, lookup_insert_eq.
    eexists _, _. split_and!; [done..| |].
    + simpl. apply list_elem_of_fmap. exists (ID e, s). rewrite elem_of_sorted_items, lookup_insert_eq. simpl. by rewrite Hdec.
    + intros x ([c s'] & -> & Hin)%list_elem_of_fmap. simpl in *. apply elem_of_sorted_items in Hin.
      destruct (decide (c = ID e)) as [->|Hne].
      * rewrite lookup_insert_eq in Hin. injection Hin as <-. left. by rewrite Hdec.
      * rewrite lookup_insert_ne in Hin by done. right. apply list_elem_of_fmap. exists (c, s'). split; [done|].
        by apply elem_of_sorted_items.
  - exists L'. split; [done|]. intros Hk Hv Hone Hcycle. by eapply listed_tree_like.
Qed.
End Database.

(** ** Buckets in memory *)

Inductive node := Node { vals : gmap string string; subs : gmap string node }.
Definition empty_node : node := Node ∅ ∅.
Fixpoint get_node (p : list string) (n : node) : option node :=
  match p with [] => Some n | k :: p' => subs n !! k ≫= get_node p' end.
Fixpoint alter_node (f : node -> node) (p : list string) (n : node) : node :=
  match p with [] => f n | k :: p' => Node (vals n) (alter (alter_node f p') k (subs n)) end.
Definition vals_at (p : list string) (n : node) : option (gmap string string) := vals <$> get_node p n.

Lemma vals_at_cons k p n : vals_at (k :: p) n = subs n !! k ≫= vals_at p.
Proof. unfold vals_at. simpl. by destruct (subs n !! k). Qed.

Lemma vals_at_app p q n : vals_at (p ++ q) n = get_node p n ≫= vals_at q.
Proof. revert n. induction p as [|k p IH]; intros n; [done|]. simpl. rewrite vals_at_cons. destruct (subs n !! k); [apply IH|done]. Qed.

(** What the subtree at [p] becomes is all that matters. *)
Lemma vals_at_alter f p q n :
  vals_at q (alter_node f p n) =
  if decide (p `prefix_of` q) then get_node p n ≫= fun n' => vals_at (drop (length p) q) (f n')
  else vals_at q n.
Proof.
  revert q n. induction p as [|k p IH]; intros q n.
  { by rewrite decide_True by apply prefix_nil. }
  destruct q as [|k' q].
  { rewrite decide_False; [done|]. by intros ?%prefix_nil_inv. }
  simpl. rewrite !vals_at_cons. simpl. destruct (decide (k = k')) as [->|Hne].
  - rewrite lookup_alter_eq. destruct (subs n !! k') as [n'|]; simpl; [|by case_decide].
    rewrite IH. destruct (decide (p `prefix_of` q)) as [Hpq|Hpq].
    + by rewrite decide_True by by apply prefix_cons.
    + rewrite decide_False; [done|]. by intros ?%prefix_cons_inv_2.
  - rewrite lookup_alter_ne by done. rewrite decide_False; [done|]. by intros ?%prefix_cons_inv_1.
Qed.

Definition root (tx : gmap string node) : node := Node ∅ tx.
Definition is_bucket (p : list string) (tx : gmap string node) : bool := bool_decide (is_Some (vals_at p (root tx))).
Definition on_vals (f : gmap string string -> gmap string string) (n : node) : node := Node (f (vals n)) (subs n).
Definition on_subs (f : gmap string node -> gmap string node) (n : node) : node := Node (vals n) (f (subs n)).
Definition changed (f : node -> node) (p : list string) (tx : gmap string node) : gmap string node :=
  subs (alter_node f p (root tx)).

Definition mem_nested : Nested := {|
  NDB := gmap string node;
  NTx := gmap string node;
  ntx_begin d := d;
  ntx_commit d tx := (None, tx);
  nb_exists tx p := is_bucket p tx;
  nb_create tx p n :=
    if decide (n = EmptyString) then inl "bucket name required"
    else match vals_at p (root tx) with
         | None => inl "no such bucket"
         | Some m => match m !! n with
                     | Some _ => inl "incompatible value"
                     | None => inr (changed (on_subs (partial_alter (fun b => Some (default empty_node b)) n)) p tx)
                     end
         end;
  nb_delete_bucket tx p n :=
    if is_bucket (p ++ [n]) tx then inr (changed (on_subs (delete n)) p tx) else inl "bucket not found";
  nb_get tx p k := vals_at p (root tx) ≫= fun m => m !! k;
  nb_put tx p k v :=
    if decide (p = []) then inl "no values here"
    else if is_bucket (p ++ [k]) tx then inl "incompatible value"
    else if decide (key_ok k /\ value_ok v) then inr (changed (on_vals <[k := v]>) p tx) else inl "key or value too large";
  nb_delete tx p k :=
    if is_bucket (p ++ [k]) tx then inl "incompatible value" else inr (changed (on_vals (delete k)) p tx);
  nb_list tx p :=
    match get_node p (root tx) with
    | Some n => ((fun kv => (kv.1, Some kv.2)) <$> sorted_items (vals n)) ++ ((fun kv => (kv.1, None)) <$> map_to_list (subs n))
    | None => []
    end;
|}.

Section Memory.
#[local] Hint Extern 0 Nested => exact mem_nested : typeclass_instances.
Implicit Types (tx : NTx).

Lemma mem_at tx q : nb_at tx q = vals_at q (root tx).
Proof.
  unfold nb_at. simpl. unfold is_bucket, vals_at. destruct (get_node q (root tx)) as [n|]; simpl; [|done].
  f_equal. rewrite omap_app.
  assert (forall l : list (string * string), omap (fun kv : string * option string => pair kv.1 <$> kv.2)
    ((fun kv => (kv.1, Some kv.2)) <$> l) = l) as ->.
  { induction l as [|[k v] l IH]; [done|]. cbn. f_equal. exact IH. }
  assert (forall l : list (string * node), omap (fun kv : string * option string => pair kv.1 <$> kv.2)
    ((fun kv => (kv.1, None)) <$> l) = []) as ->.
  { induction l as [|[k v] l IH]; [done|exact IH]. }
  rewrite app_nil_r. apply list_to_map_sorted_items.
Qed.

Lemma root_changed f p tx : (p = [] -> vals (f (root tx)) = ∅) ->
  root (changed f p tx) = alter_node f p (root tx).
Proof.
  intros Hf. unfold changed, root at 1. destruct p as [|k p]; simpl; [|done].
  specialize (Hf eq_refl). destruct (f (root tx)). simpl in *. by subst.
Qed.

(** Changing values. *)
Lemma changed_vals g p tx : (p = [] -> g ∅ = ∅) -> altered p g tx (changed (on_vals g) p tx : NTx).
Proof.
  intros Hg q. rewrite !mem_at, root_changed by (intros ->; by apply Hg). rewrite vals_at_alter.
  case_decide as Hp; [|by rewrite decide_False by (by intros ->)]. destruct Hp as [r ->].
  rewrite drop_app_length, vals_at_app. destruct (get_node p (root tx)) as [n|]; simpl; [|by case_decide].
  destruct r as [|k r].
  - by rewrite app_nil_r, decide_True.
  - rewrite decide_False; [done|]. intros E%(f_equal length). rewrite length_app in E. simpl in E. lia.
Qed.

(** Changing the buckets inside one. *)
Lemma changed_subs h p n tx q : (forall m k, k <> n -> h m !! k = m !! k) ->
  nb_at (changed (on_subs h) p tx : NTx) q =
  if decide ((p ++ [n]) `prefix_of` q) then
    get_node p (root tx) ≫= fun nd => h (subs nd) !! n ≫= vals_at (drop (S (length p)) q)
  else nb_at tx q.
Proof.
  intros Hh. rewrite !mem_at, root_changed, vals_at_alter by done.
  destruct (decide (p `prefix_of` q)) as [[r ->]|Hp].
  - rewrite drop_app_length, vals_at_app.
    assert (drop (S (length p)) (p ++ r) = drop 1 r) as -> by (clear; by induction p).
    destruct r as [|k r].
    + rewrite decide_False; [by destruct (get_node p (root tx))|].
      intros [r E%(f_equal length)]. rewrite !length_app in E. simpl in E. lia.
    + destruct (decide (k = n)) as [->|Hne].
      * rewrite decide_True by (exists r; by rewrite <-app_assoc). destruct (get_node p (root tx)) as [nd|]; simpl; [|done].
        by rewrite vals_at_cons, drop_0.
      * rewrite decide_False.
        -- destruct (get_node p (root tx)) as [nd|]; simpl; [|done]. rewrite !vals_at_cons. simpl. by rewrite Hh.
        -- intros [r' E]. rewrite <-app_assoc in E. apply app_inv_head in E. by injection E.
  - rewrite decide_False; [done|]. intros [r ->]. apply Hp. rewrite <-app_assoc. by eexists.
Qed.

Lemma mem_create_at p n tx tx' : nb_create tx p n = inr tx' ->
  forall q, nb_at tx' q = if decide (q = p ++ [n]) then Some (values tx q) else nb_at tx q.
Proof.
  simpl. case_decide; [done|]. destruct (vals_at p (root tx)) as [m|] eqn:Em; [|done]. destruct (m !! n); [done|].
  intros [= <-] q. rewrite (changed_subs _ p n) by (intros; by apply lookup_partial_alter_ne).
  case_decide as Hp; [|by rewrite decide_False by (by intros ->)]. destruct Hp as [r ->].
  assert (drop (S (length p)) ((p ++ [n]) ++ r) = r) as -> by (clear; by induction p).
  unfold values. rewrite mem_at, <-app_assoc, vals_at_app. unfold vals_at in Em.
  destruct (get_node p (root tx)) as [nd|]; [|done]. simpl. rewrite lookup_partial_alter_eq, vals_at_cons. simpl.
  destruct r as [|k r].
  - rewrite decide_True by done. by destruct (subs nd !! n).
  - rewrite decide_False; [by destruct (subs nd !! n)|].
    intros E%(f_equal length). rewrite !length_app in E. simpl in E. lia.
Qed.

Lemma mem_is_bucket tx p m : nb_at tx p = Some m -> is_Some (get_node p (root tx)).
Proof. rewrite mem_at. unfold vals_at. destruct (get_node p (root tx)); [by eexists|done]. Qed.

Lemma mem_list tx p m : nb_at tx p = Some m -> (forall k, nb_exists tx (p ++ [k]) = false) ->
  nb_list tx p = (fun kv => (kv.1, Some kv.2)) <$> sorted_items m.
Proof.
  rewrite mem_at. simpl. unfold vals_at at 1, is_bucket. destruct (get_node p (root tx)) as [n|] eqn:En; [|done].
  intros [= <-] Hsub. assert (subs n = ∅) as ->.
  { apply map_empty. intros k. specialize (Hsub k). rewrite vals_at_app, En in Hsub. simpl in Hsub.
    rewrite vals_at_cons in Hsub. by destruct (subs n !! k). }
  by rewrite map_to_list_empty, app_nil_r.
Qed.

Lemma mem_nested_laws : NestedLaws.
Proof.
  split.
  - intros tx. by rewrite mem_at.
  - intros tx p n. simpl. unfold is_bucket. rewrite vals_at_app, !bool_decide_eq_true. unfold vals_at.
    by destruct (get_node p (root tx)); intros [? ?].
  - intros tx p k m. rewrite mem_at. simpl. by intros ->.
  - apply mem_list.
  - intros. by apply mem_create_at.
  - intros tx p n m Hm Hn Hnone. rewrite mem_at in Hm. simpl. rewrite decide_False, Hm, Hnone by done. by eexists.
  - intros tx p k v tx'. simpl. case_decide; [done|]. destruct (is_bucket (p ++ [k]) tx); [done|]. case_decide; [|done].
    intros [= <-]. by apply changed_vals.
  - intros tx p k v m Hp Hm Hk Hv Hb. simpl in *. rewrite Hb, decide_False, decide_True by done. by eexists.
  - intros tx p k tx'. simpl. destruct (is_bucket (p ++ [k]) tx); [done|]. intros [= <-]. by apply changed_vals.
  - intros tx p k m Hm Hb. simpl in *. rewrite Hb. by eexists.
  - intros tx p n tx'. simpl. destruct (is_bucket (p ++ [n]) tx); [|done]. intros [= <-] q.
    rewrite (changed_subs _ p n) by (intros; by apply lookup_delete_ne). case_decide; [|done].
    destruct (get_node p (root tx)); simpl; [|done]. by rewrite lookup_delete_eq.
  - intros tx p n Hb. simpl in *. rewrite Hb. by eexists.
  - by intros d tx d' [= <-].
  - done.
Qed.
End Memory.

(** ** Witnesses: a media house with a series and its episode *)

#[local] Hint Extern 0 Nested => exact mem_nested : typeclass_instances.
#[local] Existing Instance mem_nested_laws.
#[export] Instance FolderStructureEntry_eq_dec : EqDecision FolderStructureEntry.
Proof. solve_decision. Defined.
#[export] Instance FolderStructureEntry_countable : Countable FolderStructureEntry.
Proof.
  refine (inj_countable' (fun e => (ID e, HasChildren e, InfoMetadataFileName e, Size e, MetadataFiles e))
    (fun '(a, b, c, d, e) => {| ID := a; HasChildren := b; InfoMetadataFileName := c; Size := d; MetadataFiles := e |}) _).
  by intros [].
Defined.
Definition make_folder (id : string) (b : bool) : FolderStructureEntry :=
  {| ID := id; HasChildren := b; InfoMetadataFileName := "metadata.xml"; Size := 0; MetadataFiles := [] |}.
#[local] Instance folder_codec : Json FolderStructureEntry := bit_codec (make_folder EmptyString false).
#[local] Instance folder_codec_laws : JsonLaws FolderStructureEntry := bit_codec_laws _.

Definition ex_entry (id : string) (b : bool) : string := bits_of (encode (make_folder id b)).
Definition ex_folders : gmap string node :=
  <["root" := Node {["FRIENDS" := ex_entry "FRIENDS" true]} ∅]> {["FRIENDS" := Node {["FS01" := ex_entry "FS01" false]} ∅]}.
Definition ex_db : gmap string node :=
  <[folderStructureBucketName := Node ∅ {["MSR" := Node ∅ ex_folders]}]>
    (<[metadataFilesBucketName := Node ∅ {["MSR" := Node {["FS01" := "cover.png"]} ∅]}]>
      {[childToParentBucketName := Node ∅ {["MSR" := Node (<["FS01" := "FRIENDS"]> {["FRIENDS" := "root"]}) ∅]}]}).
Definition ex_tree : legacy := {| lg_folders := vals <$> ex_folders; lg_values r := values (ex_db : NTx) [r; "MSR"] |}.

Lemma ex_shows : shows "MSR" (ntx_begin (ex_db : NDB)) ex_tree.
Proof.
  assert (forall p q, vals_at (folderStructureBucketName :: "MSR" :: p :: q) (root ex_db) = ex_folders !! p ≫= vals_at q) as Hf.
  { intros p q. rewrite (vals_at_app [folderStructureBucketName; "MSR"] (p :: q)).
    assert (get_node [folderStructureBucketName; "MSR"] (root ex_db) = Some (Node ∅ ex_folders)) as -> by reflexivity.
    apply vals_at_cons. }
  split_and!; [split_and!| |].
  - intros r Hr. unfold values. rewrite mem_at. revert r Hr. apply Forall_forall. by repeat constructor.
  - unfold values. by rewrite mem_at.
  - intros p k. rewrite mem_at, Hf. unfold ex_folders.
    destruct (decide (p = "root")) as [->|]; [done|]. rewrite lookup_insert_ne by done.
    destruct (decide (p = "FRIENDS")) as [->|]; [done|]. by rewrite lookup_singleton_ne.
  - intros r k Hr. rewrite mem_at. revert r Hr.
    apply (Forall_forall (fun r => vals_at [r; "MSR"; k] (root ex_db) = None)). by repeat constructor.
  - intros p. rewrite mem_at, Hf. simpl. rewrite lookup_fmap. by destruct (ex_folders !! p).
  - done.
Qed.

Lemma ex_listed p m c s : lg_folders ex_tree !! p = Some m -> m !! c = Some s ->
  exists b, s = ex_entry c b /\ (p = "root" /\ c = "FRIENDS" \/ p = "FRIENDS" /\ c = "FS01").
Proof.
  unfold ex_tree, ex_folders. simpl. rewrite fmap_insert, map_fmap_singleton. simpl.
  intros [[<- <-]|[_ [<- <-]%lookup_singleton_Some]]%lookup_insert_Some [<- <-]%lookup_singleton_Some; eauto.
Qed.
Lemma ex_child p c : child ex_tree p c -> p = "root" /\ c = "FRIENDS" \/ p = "FRIENDS" /\ c = "FS01".
Proof. intros (m & Hm & [s Hs]). by destruct (ex_listed p m c s Hm Hs) as (_ & _ & ?). Qed.
Lemma ex_entry_id id b : ID (json_unmarshal (ex_entry id b)).1 = id.
Proof. by rewrite (json_roundtrip (make_folder id b) (ex_entry id b)). Qed.
Definition ex_rank (x : string) : nat := if decide (x = "root") then 2 else if decide (x = "FRIENDS") then 1 else 0.
Lemma ex_tree_like : tree_like ex_rank ex_tree.
Proof.
  split.
  - by intros p c [[-> ->]|[-> ->]]%ex_child.
  - intros p m c s Hm Hs. destruct (ex_listed p m c s Hm Hs) as (b & -> & _). apply ex_entry_id.
  - by intros p c [[-> ->]|[-> ->]]%ex_child; vm_compute; lia.
Qed.

Definition ex_store : @NDB mem_nested := ex_db.
Lemma erase_removes_the_subtree_witness :
  let '(o, d') := eraseFolder 2 "FRIENDS" "MSR" ex_store in
  o = Ret tt /\ values (ntx_begin d') [metadataFilesBucketName; "MSR"] = ∅.
Proof.
  destruct (erase_removes_the_subtree "MSR" ltac:(done) ex_rank ex_tree 2 "FRIENDS" "root" ex_store ex_shows
    ex_tree_like) as (S & HS & o & d' & E & Hcases); [eexists; split; [reflexivity|by eexists]|vm_compute; lia|].
  rewrite E. assert ((eraseFolder 2 "FRIENDS" "MSR" ex_store).1 = Ret tt) as Eo by evaluate.
  rewrite E in Eo. simpl in Eo. subst o. destruct Hcases as [[_ (_ & _ & Hv)]|[[e He] _]]; [|discriminate He].
  split; [reflexivity|]. rewrite (Hv metadataFilesBucketName ltac:(by left)). simpl.
  apply map_empty. intros k. rewrite lookup_without. case_decide as Hk; [reflexivity|].
  destruct (decide (k = "FS01")) as [->|Hne]; [|unfold values; rewrite mem_at; by apply lookup_singleton_ne].
  destruct Hk. apply HS. apply rtc_once. eexists. split; [reflexivity|by eexists].
Defined.

Definition ex_erased : NDB := (eraseFolder 2 "FRIENDS" "MSR" ex_store).2.
Lemma erasing_below_an_erased_folder_panics_witness :
  eraseFolder 1 "FS01" "MSR" ex_erased = (Panic "nil bucket", ex_erased).
Proof.
  apply (erasing_below_an_erased_folder_panics "MSR" ltac:(done) ex_rank ex_tree 2 0 "FRIENDS" "root" ex_store
    ex_erased "FS01" ex_shows ex_tree_like).
  - eexists. split; [reflexivity|by eexists].
  - vm_compute. lia.
  - apply run_pair. evaluate.
  - apply rtc_once. eexists. split; [reflexivity|by eexists].
  - discriminate.
Defined.

Lemma added_folder_is_listed_witness :
  let d := (addFolder "MSR" "FRIENDS" (make_folder "FS02" false) ex_store).2 in
  exists l, getChildrenEntries "MSR" "FRIENDS" d = (Ret l, d) /\ make_folder "FS02" false ∈ l.
Proof.
  intros d. destruct (added_folder_is_listed "MSR" ltac:(done) ex_rank ex_tree "FRIENDS" (make_folder "FS02" false)
    ex_store d ex_shows ex_tree_like) as (_ & (l & l' & _ & E & Hin & _) & _).
  - discriminate.
  - exact I.
  - apply run_pair. evaluate.
  - exists l'. split; [exact E|exact Hin].
Defined.
