(* ===== verification/CloudBatch.v ===== *)
(** A reference definition of sending in batches: a list of jobs computed from
    the requests before anything is sent.  The loop of the code is equal to
    running the jobs, and the jobs cut the requests of each flag into chunks. *)
From S2P Require Import Prelude GoStrings LogData Host Storage Logger CloudData FlatIndex Cloud CloudSpec.

(** ** Jobs *)

(** A message with the contents of the given requests. *)
Inductive job := CloudJob (ptrs : list nat) | IotJob (ptrs : list nat).

(** [l] cut into pieces of [n], the last one possibly shorter. *)
Definition cut_into {A} (n : nat) (pieces : list (list A)) (l : list A) : Prop :=
  concat pieces = l /\ Forall (fun p => 0 < length p <= n) pieces /\
  forall i p, pieces !! i = Some p -> S i < length pieces -> length p = n.

Definition cloud_jobs (js : list job) : list (list nat) :=
  omap (fun j => match j with CloudJob p => Some p | IotJob _ => None end) js.
Definition iot_jobs (js : list job) : list (list nat) :=
  omap (fun j => match j with IotJob p => Some p | CloudJob _ => None end) js.

(** The indices of the requests that ask for a message of each kind. *)
Definition flagged (f : ApiData -> bool) (items : list ApiData) (ix : list nat) : list nat :=
  filter (fun i => (f <$> items !! i) = Some true) ix.

Definition full_job (n : nat) (mk : list nat -> job) (ptrs : list nat) : list job * list nat :=
  if decide (length ptrs = n) then ([mk ptrs], []) else ([], ptrs).
Definition rest_job (mk : list nat -> job) (ptrs : list nat) : list job :=
  match ptrs with [] => [] | _ => [mk ptrs] end.

(** The jobs of the requests [ix], when [cb] and [pb] wait already. *)
Fixpoint schedule_from (n : nat) (items : list ApiData) (ix cb pb : list nat) : list job :=
  match ix with
  | [] => rest_job CloudJob cb ++ rest_job IotJob pb
  | i :: ix' =>
      let c := full_job n CloudJob (cb ++ flagged SendCloudTelemetry items [i]) in
      let p := full_job n IotJob (pb ++ flagged SendIOTCentralTelemetry items [i]) in
      c.1 ++ p.1 ++ schedule_from n items ix' c.2 p.2
  end.
Definition schedule (n : nat) (items : list ApiData) : list job :=
  schedule_from n items (seq 0 (length items)) [] [].

(** ** The jobs are chunks *)

Lemma cut_into_cons {A} n (p : list A) ps l :
  0 < n -> length p = n -> cut_into n ps l -> cut_into n (p :: ps) (p ++ l).
Proof.
  intros Hn Hp (<- & Hf & Hl). split_and!; [done|by constructor; [lia|]|].
  intros [|i] q; simpl; [by intros [= <-]|]. intros Hi Hlt. apply (Hl i); [done|lia].
Qed.
Lemma cut_into_rest {A} n (p : list A) :
  length p < n -> cut_into n (match p with [] => [] | _ => [p] end) p.
Proof.
  intros Hp. destruct p as [|x p]; split_and!; simpl in *; rewrite ?app_nil_r; try done.
  - constructor; [simpl; lia|constructor].
  - intros i q Hi ?. lia.
Qed.

(** One of the two lists of waiting requests, alone. *)
Fixpoint pieces (n : nat) (f : ApiData -> bool) (items : list ApiData) (ix b : list nat)
    : list (list nat) :=
  match ix with
  | [] => match b with [] => [] | _ => [b] end
  | i :: ix' =>
      if decide (length (b ++ flagged f items [i]) = n)
      then (b ++ flagged f items [i]) :: pieces n f items ix' []
      else pieces n f items ix' (b ++ flagged f items [i])
  end.
Lemma pieces_cut n f items ix b :
  0 < n -> length b < n -> cut_into n (pieces n f items ix b) (b ++ flagged f items ix).
Proof.
  intros Hn. revert b. induction ix as [|i ix IH]; intros b Hb.
  { unfold flagged. simpl. rewrite filter_nil, app_nil_r. by apply cut_into_rest. }
  assert (flagged f items (i :: ix) = flagged f items [i] ++ flagged f items ix) as ->.
  { unfold flagged. rewrite <-filter_app. done. }
  rewrite app_assoc. simpl pieces. assert (length (flagged f items [i]) <= 1) as H1.
  { unfold flagged. by apply length_filter. }
  assert (length (b ++ flagged f items [i]) <= n) as Hle by (rewrite length_app; lia).
  case_decide as Hd.
  - apply cut_into_cons; [done|done|]. by apply (IH []).
  - apply IH. lia.
Qed.

Lemma cloud_jobs_app l1 l2 : cloud_jobs (l1 ++ l2) = cloud_jobs l1 ++ cloud_jobs l2.
Proof. apply omap_app. Qed.
Lemma iot_jobs_app l1 l2 : iot_jobs (l1 ++ l2) = iot_jobs l1 ++ iot_jobs l2.
Proof. apply omap_app. Qed.

Lemma schedule_cloud n items ix cb pb : 0 < n -> length cb < n ->
  cut_into n (cloud_jobs (schedule_from n items ix cb pb)) (cb ++ flagged SendCloudTelemetry items ix).
Proof.
  intros Hn Hc. assert (cloud_jobs (schedule_from n items ix cb pb) = pieces n SendCloudTelemetry items ix cb) as ->;
    [|by apply pieces_cut].
  clear Hc. revert cb pb. induction ix as [|i ix IH]; intros cb pb; simpl.
  - rewrite cloud_jobs_app. by destruct cb, pb.
  - rewrite !cloud_jobs_app, IH. unfold full_job. by repeat case_decide.
Qed.
Lemma schedule_iot n items ix cb pb : 0 < n -> length pb < n ->
  cut_into n (iot_jobs (schedule_from n items ix cb pb)) (pb ++ flagged SendIOTCentralTelemetry items ix).
Proof.
  intros Hn Hc. assert (iot_jobs (schedule_from n items ix cb pb) = pieces n SendIOTCentralTelemetry items ix pb) as ->;
    [|by apply pieces_cut].
  clear Hc. revert cb pb. induction ix as [|i ix IH]; intros cb pb; simpl.
  - rewrite iot_jobs_app. by destruct cb, pb.
  - rewrite !iot_jobs_app, IH. unfold full_job. by repeat case_decide.
Qed.

(** ** The loop runs the jobs *)
Section Run.
Context `{Bolt, Disk, Env, Json ApiData}.
Variable deviceId : string.
Variable k : Kind.
Variable items : list ApiData.

Definition run_job (a : list ApiData) (j : job) : Hub (list ApiData) :=
  match j with
  | CloudJob ptrs =>
      r ← try! (k_send_cloud k {| ur_DeviceId := deviceId; ur_Contents := k_content k <$> deref items ptrs |});
      AddApiDataBackToPendingAPIBucketOrDelete (error_of r) a ptrs flag_cloud
  | IotJob ptrs =>
      r ← try! (k_send_iot k (k_properties k <$> deref items ptrs));
      AddApiDataBackToPendingAPIBucketOrDelete (error_of r) a ptrs flag_iot
  end.
Definition run_jobs (js : list job) : Hub unit := for_fold js items run_job;; mret tt.

(** A job changes the requests of its message only. *)
Definition job_ptrs (j : job) : list nat := match j with CloudJob p | IotJob p => p end.

Lemma foldl_alter_other (f : ApiData -> ApiData) (ptrs : list nat) (a : list ApiData) i :
  i ∉ ptrs -> foldl (fun h i => alter f i h) a ptrs !! i = a !! i.
Proof.
  revert a. induction ptrs as [|j ptrs IH]; intros a Hi; simpl; [done|].
  apply not_elem_of_cons in Hi as [? ?]. rewrite IH by done. by rewrite list_lookup_alter_ne.
Qed.
Lemma AddBack_other err a ptrs flag w a' w' i :
  AddApiDataBackToPendingAPIBucketOrDelete err a ptrs flag w = (Ret a', w') -> i ∉ ptrs ->
  a' !! i = a !! i.
Proof.
  intros E Hi. assert (a' = match err with None => setTelemetryFlag flag false ptrs a
    | Some _ => IncrementRetryCount ptrs a end) as ->.
  { revert E. unfold AddApiDataBackToPendingAPIBucketOrDelete, mbind, M_bind. destruct err;
      [destruct (ignoring tt (AddContents _ _) w) as [[] ?]
      |destruct (ignoring tt (DeletePendingAPIRequestEntries _) w) as [[] ?]]; by intros [= <- <-]. }
  destruct err; [by apply foldl_alter_other|]. unfold setTelemetryFlag.
  repeat case_decide; by rewrite ?foldl_alter_other.
Qed.
Lemma run_job_other a j w a' w' i :
  run_job a j w = (Ret a', w') -> i ∉ job_ptrs j -> a' !! i = a !! i.
Proof.
  destruct j as [p|p]; unfold run_job, mbind, M_bind; simpl;
    (destruct (attempt _ w) as [[r| | |] w1]; [|done..]); apply AddBack_other.
Qed.
Lemma run_some_other js a w a' w' i :
  for_fold js a run_job w = (Ret a', w') -> (forall j, j ∈ js -> i ∉ job_ptrs j) -> a' !! i = a !! i.
Proof.
  revert a w. induction js as [|j js IH]; intros a w; simpl; [by intros [= <- <-]|].
  unfold mbind, M_bind. destruct (run_job a j w) as [[a1| | |] w1] eqn:E; try done.
  intros E2 Hj. rewrite (IH _ _ E2) by (intros; apply Hj; by right).
  eapply run_job_other; [exact E|]. apply Hj. by left.
Qed.

(** The locals of the loop, from the waiting pointers. *)
Definition locals (a : list ApiData) (cb pb : list nat) : Batches :=
  MkBatches a (k_content k <$> deref items cb) cb (k_properties k <$> deref items pb) pb.
Definition in_range (ptrs : list nat) : Prop := forall i, i ∈ ptrs -> i < length items.

Lemma length_deref ptrs : in_range ptrs -> length (deref items ptrs) = length ptrs.
Proof.
  intros Hr. induction ptrs as [|i ptrs IH]; [done|]. unfold deref. simpl.
  destruct (lookup_lt_is_Some_2 items i) as [d ->]; [apply Hr; by left|].
  simpl. f_equal. apply IH. intros j ?. apply Hr. by right.
Qed.

Lemma flush_contents_job a cb pb w :
  flush_contents deviceId k (locals a cb pb) w =
  (a' ← run_job a (CloudJob cb); mret (locals a' [] pb)) w.
Proof. unfold flush_contents, run_job. by rewrite bind_assoc. Qed.
Lemma flush_properties_job a cb pb w :
  flush_properties k (locals a cb pb) w =
  (a' ← run_job a (IotJob pb); mret (locals a' cb [])) w.
Proof. unfold flush_properties, run_job. by rewrite bind_assoc. Qed.

Lemma add_locals a cb pb i d :
  items !! i = Some d ->
  add_properties k i d (add_content k i d (locals a cb pb)) =
  locals a (cb ++ flagged SendCloudTelemetry items [i]) (pb ++ flagged SendIOTCentralTelemetry items [i]).
Proof.
  intros Hi. unfold flagged. rewrite !filter_cons, !filter_nil, !Hi. simpl.
  unfold add_properties, add_content, locals. destruct (SendCloudTelemetry d), (SendIOTCentralTelemetry d); simpl;
    rewrite ?(deref_snoc _ _ _ _ Hi), ?fmap_app, ?app_nil_r; done.
Qed.

Lemma match_nonempty {A B} (l : list A) (x y : B) :
  0 < length l -> match l with [] => x | _ => y end = y.
Proof. destruct l; simpl; [lia|done]. Qed.

Lemma flush_full_contents n a cb pb w : 0 < n -> in_range cb ->
  flush_full (Z.of_nat n) (contentDataBatch (locals a cb pb))
    (flush_contents deviceId k (locals a cb pb)) (locals a cb pb) w =
  (a' ← for_fold (full_job n CloudJob cb).1 a run_job; mret (locals a' (full_job n CloudJob cb).2 pb)) w.
Proof.
  intros Hn Hr. unfold flush_full, full_job. simpl. rewrite length_fmap, length_deref by done.
  destruct (decide (length cb = n)) as [Hl|Hl]; simpl; [|by rewrite decide_False by lia].
  rewrite decide_True by lia. rewrite match_nonempty by (rewrite length_fmap, length_deref; [lia|done]).
  rewrite flush_contents_job, bind_assoc. apply bind_ext. by intros.
Qed.
Lemma flush_full_properties n a cb pb w : 0 < n -> in_range pb ->
  flush_full (Z.of_nat n) (contentPropertiesBatch (locals a cb pb))
    (flush_properties k (locals a cb pb)) (locals a cb pb) w =
  (a' ← for_fold (full_job n IotJob pb).1 a run_job; mret (locals a' cb (full_job n IotJob pb).2)) w.
Proof.
  intros Hn Hr. unfold flush_full, full_job. simpl. rewrite length_fmap, length_deref by done.
  destruct (decide (length pb = n)) as [Hl|Hl]; simpl; [|by rewrite decide_False by lia].
  rewrite decide_True by lia. rewrite match_nonempty by (rewrite length_fmap, length_deref; [lia|done]).
  rewrite flush_properties_job, bind_assoc. apply bind_ext. by intros.
Qed.

Lemma step_jobs n a cb pb i w : 0 < n -> in_range cb -> in_range pb -> i < length items ->
  a !! i = items !! i ->
  let c := full_job n CloudJob (cb ++ flagged SendCloudTelemetry items [i]) in
  let p := full_job n IotJob (pb ++ flagged SendIOTCentralTelemetry items [i]) in
  batch_step deviceId k (Z.of_nat n) (locals a cb pb) i w =
  (a' ← for_fold (c.1 ++ p.1) a run_job; mret (locals a' c.2 p.2)) w.
Proof.
  intros Hn Hc Hp Hi Ha c p. destruct (lookup_lt_is_Some_2 items i Hi) as [d Hd].
  assert (forall f l, in_range l -> in_range (l ++ flagged f items [i])) as Hr.
  { intros f l Hl j [?|[_ ->%list_elem_of_singleton]%list_elem_of_filter]%elem_of_app; auto. }
  unfold batch_step. change (apidata (locals a cb pb)) with a. rewrite Ha, Hd, (add_locals _ _ _ _ d) by done. cbv zeta.
  etransitivity; [apply bind_cong; [by apply flush_full_contents; auto|reflexivity]|].
  fold c. rewrite bind_assoc.
  etransitivity; [apply bind_ext; intros a1 w1; simpl;
    exact (flush_full_properties n a1 c.2 _ w1 Hn (Hr _ _ Hp))|].
  fold p. rewrite (bind_cong _ _ _ (fun a' => mret (locals a' c.2 p.2)) w (for_fold_app _ _ _ _ _));
    [|reflexivity]. by rewrite bind_assoc.
Qed.

Definition finish (b : Batches) : Hub unit :=
  b ← flush_rest (contentDataBatch b) (flush_contents deviceId k b) b;
  _ ← flush_rest (contentPropertiesBatch b) (flush_properties k b) b;
  mret tt.

Lemma flush_rest_nonempty {A} (l : list A) (ptrs : list nat) (m : Hub Batches) b :
  length l = length ptrs -> flush_rest l m b = match ptrs with [] => mret b | _ => m end.
Proof.
  intros Hl. unfold flush_rest. rewrite Hl. destruct ptrs; [done|].
  by rewrite decide_True by (simpl; lia).
Qed.

Lemma finish_jobs a cb pb w : in_range cb -> in_range pb ->
  finish (locals a cb pb) w = (for_fold (rest_job CloudJob cb ++ rest_job IotJob pb) a run_job;; mret tt) w.
Proof.
  intros Hc Hp. unfold finish.
  assert (forall a w, (_ ← flush_rest (contentPropertiesBatch (locals a [] pb))
      (flush_properties k (locals a [] pb)) (locals a [] pb); mret tt) w =
    (for_fold (rest_job IotJob pb) a run_job;; mret tt) w) as Hlast.
  { intros a1 w1. rewrite (flush_rest_nonempty _ pb) by (simpl; by rewrite length_fmap, length_deref).
    destruct pb as [|i pb]; [done|].
    etransitivity; [apply bind_cong; [apply flush_properties_job|reflexivity]|].
    rewrite bind_assoc. etransitivity; [|symmetry; apply bind_cong; [apply bind_mret|reflexivity]].
    by apply bind_ext. }
  rewrite (flush_rest_nonempty _ cb) by (simpl; by rewrite length_fmap, length_deref).
  destruct cb as [|i cb]; [exact (Hlast a w)|].
  etransitivity; [apply bind_cong; [apply flush_contents_job|reflexivity]|].
  rewrite bind_assoc. cbn [rest_job app for_fold]. rewrite bind_assoc.
  apply bind_ext. intros a1 w1. apply Hlast.
Qed.

Lemma loop_jobs n ix cb pb a w : 0 < n -> NoDup ix -> in_range ix -> in_range cb -> in_range pb ->
  (forall i, i ∈ ix -> a !! i = items !! i /\ (i ∉ cb) /\ (i ∉ pb)) ->
  (b ← for_fold ix (locals a cb pb) (batch_step deviceId k (Z.of_nat n)); finish b) w =
  (for_fold (schedule_from n items ix cb pb) a run_job;; mret tt) w.
Proof.
  intros Hn. revert cb pb a w. induction ix as [|i ix IH]; intros cb pb a w Hnd Hix Hc Hp Ha.
  { simpl. by apply finish_jobs. }
  apply NoDup_cons in Hnd as [Hni Hnd]. destruct (Ha i) as (Hai & Hic & Hip); [by left|].
  simpl. rewrite bind_assoc.
  etransitivity; [apply bind_cong; [apply step_jobs; try done; apply Hix; by left|reflexivity]|].
  set (c := full_job n CloudJob _). set (p := full_job n IotJob _).
  rewrite bind_assoc, app_assoc.
  etransitivity; [|symmetry; apply bind_cong; [apply for_fold_app|reflexivity]].
  rewrite bind_assoc. apply bind_cong; [done|]. intros a' w' E. simpl.
  assert (forall j, j ∈ ix -> j <> i /\ (j ∉ cb ++ flagged SendCloudTelemetry items [i]) /\
    (j ∉ pb ++ flagged SendIOTCentralTelemetry items [i])) as Hj.
  { intros j Hj. assert (j <> i) as Hne by congruence.
    destruct (Ha j) as (_ & ? & ?); [by right|]. split; [done|]. unfold flagged.
    rewrite !elem_of_app, !list_elem_of_filter, !list_elem_of_singleton. tauto. }
  apply IH; [done|intros j ?; apply Hix; by right|..].
  - unfold c, full_job. case_decide; simpl; [by intros j ?%elem_of_nil|].
    intros j [?|[_ ->%list_elem_of_singleton]%list_elem_of_filter]%elem_of_app; [auto|apply Hix; by left].
  - unfold p, full_job. case_decide; simpl; [by intros j ?%elem_of_nil|].
    intros j [?|[_ ->%list_elem_of_singleton]%list_elem_of_filter]%elem_of_app; [auto|apply Hix; by left].
  - intros j Hin. destruct (Hj j Hin) as (Hne & Hjc & Hjp). split_and!.
    + rewrite <-(proj1 (Ha j (list_elem_of_further _ _ _ Hin))). eapply run_some_other; [exact E|].
      intros jb. unfold c, p, full_job.
      repeat case_decide; simpl; rewrite ?elem_of_cons, ?elem_of_nil; naive_solver.
    + unfold c, full_job. by case_decide; simpl; [apply not_elem_of_nil|].
    + unfold p, full_job. by case_decide; simpl; [apply not_elem_of_nil|].
Qed.

Lemma send_in_batches_jobs n w : 0 < n ->
  send_in_batches deviceId k items (Z.of_nat n) w = run_jobs (schedule n items) w.
Proof.
  intros Hn. unfold send_in_batches. rewrite decide_False by lia.
  apply (loop_jobs n (seq 0 (length items)) [] [] items w); try done.
  - apply NoDup_seq.
  - intros i Hi%elem_of_seq. lia.
  - by intros i ?%elem_of_nil.
  - by intros i ?%elem_of_nil.
  - intros i _. by split_and!; [|apply not_elem_of_nil..].
Qed.
End Run.

(** ** What a job does to the slice

    When its message is acknowledged a job clears a flag of its items. *)
Definition clear_job (a : list ApiData) (j : job) : list ApiData :=
  setTelemetryFlag (match j with CloudJob _ => flag_cloud | IotJob _ => flag_iot end) false (job_ptrs j) a.
(** The assignment of job [j] to the items of its message. *)
Definition clear_flag (j : job) : ApiData -> ApiData :=
  match j with CloudJob _ => set_cloud_flag false | IotJob _ => set_iot_flag false end.

Lemma lookup_foldl_alter (f : ApiData -> ApiData) (ptrs : list nat) (a : list ApiData) i :
  (forall d, f (f d) = f d) ->
  foldl (fun h i => alter f i h) a ptrs !! i = if decide (i ∈ ptrs) then f <$> a !! i else a !! i.
Proof.
  intros Hf. revert a. induction ptrs as [|j ptrs IH]; intros a; cbn [foldl].
  { by rewrite decide_False by apply not_elem_of_nil. }
  rewrite IH. destruct (decide (i = j)) as [->|Hne].
  - rewrite list_lookup_alter_eq, (decide_True (P := j ∈ j :: ptrs)) by left.
    case_decide; [|done]. destruct (a !! j); simpl; [by rewrite Hf|done].
  - rewrite list_lookup_alter_ne by done. repeat case_decide; set_solver.
Qed.

Lemma clear_job_lookup a j i :
  clear_job a j !! i = if decide (i ∈ job_ptrs j) then clear_flag j <$> a !! i else a !! i.
Proof. unfold clear_job, setTelemetryFlag. destruct j; simpl; by apply lookup_foldl_alter. Qed.

(** The items of the jobs to come still have the flags the jobs are about, and are
    in one job of each kind. *)
Definition asks (a : list ApiData) (js : list job) : Prop :=
  NoDup (concat (cloud_jobs js)) /\ NoDup (concat (iot_jobs js)) /\
  forall i d, a !! i = Some d ->
    (i ∈ concat (cloud_jobs js) -> SendCloudTelemetry d = true) /\
    (i ∈ concat (iot_jobs js) -> SendIOTCentralTelemetry d = true).

Lemma asks_schedule n items : 0 < n -> asks items (schedule n items).
Proof.
  intros Hn. unfold asks, schedule.
  rewrite (proj1 (schedule_cloud n items _ [] [] Hn Hn)), (proj1 (schedule_iot n items _ [] [] Hn Hn)).
  simpl. unfold flagged. split_and!; [apply NoDup_filter, NoDup_seq..|].
  intros i d Hd. rewrite !list_elem_of_filter, Hd. simpl. split; by intros [[=] _].
Qed.

(** The head job of [asks] may store its items again, and what it leaves asks for
    the rest. *)
Lemma asks_head a j js i d : asks a (j :: js) -> i ∈ job_ptrs j -> a !! i = Some d ->
  SendCloudTelemetry d = true \/ SendIOTCentralTelemetry d = true.
Proof.
  intros (_ & _ & Hf) Hi Hd. destruct (Hf i d Hd) as [Hc Hp].
  destruct j as [p|p]; simpl in *; [left; apply Hc|right; apply Hp]; apply elem_of_app; by left.
Qed.
Lemma asks_retry a p js : asks a js -> asks (IncrementRetryCount p a) js.
Proof.
  intros (Hc & Hp & Hf). split_and!; [done..|]. intros i d Hd.
  destruct (foldl_alter_lookup (fun x => (i ∈ concat (cloud_jobs js) -> SendCloudTelemetry x = true) /\
    (i ∈ concat (iot_jobs js) -> SendIOTCentralTelemetry x = true)) incr_retry p a i d) as (d1 & Hd1 & HR & _);
    [done|exact Hd|]. by apply HR, Hf.
Qed.
Lemma asks_tail a j js : asks a (j :: js) -> asks a js.
Proof.
  intros (Hc & Hp & Hf). destruct j as [p|p]; simpl in Hc, Hp, Hf.
  - apply NoDup_app in Hc as (_ & _ & Hc). split_and!; [done..|]. intros i d [Hcl Hio]%Hf.
    split; [|done]. intros Hin. apply Hcl, elem_of_app. by right.
  - apply NoDup_app in Hp as (_ & _ & Hp). split_and!; [done..|]. intros i d [Hcl Hio]%Hf.
    split; [done|]. intros Hin. apply Hio, elem_of_app. by right.
Qed.
Lemma asks_clear a j js : asks a (j :: js) -> asks (clear_job a j) js.
Proof.
  intros Ha. destruct (asks_tail _ _ _ Ha) as (Hc' & Hp' & _). destruct Ha as (Hc & Hp & Hf).
  split_and!; [done..|]. intros i d. rewrite clear_job_lookup.
  intros Hd. assert (exists d0, a !! i = Some d0 /\
    ((i ∈ job_ptrs j) /\ d = clear_flag j d0 \/ (i ∉ job_ptrs j) /\ d = d0)) as (d0 & Hd0 & Hcase).
  { case_decide; [apply fmap_Some in Hd as (d0 & ? & ->)|]; eauto. }
  destruct (Hf i d0 Hd0) as [Hcl Hio]. destruct j as [p|p]; simpl in *.
  - apply NoDup_app in Hc as (_ & Hdis & _). destruct Hcase as [[Hi ->]|[_ ->]]; split; simpl; try tauto.
    + intros Hin. by destruct (Hdis i Hi).
    + intros Hin. apply Hcl, elem_of_app. by right.
  - apply NoDup_app in Hp as (_ & Hdis & _). destruct Hcase as [[Hi ->]|[_ ->]]; split; simpl; try tauto.
    + intros Hin. by destruct (Hdis i Hi).
    + intros Hin. apply Hio, elem_of_app. by right.
Qed.

(** ** Running jobs returns *)
Section Returns.
Context `{Bolt, Disk, Env, Json ContentInfoOnDevice, Json ApiData, Json UpdateRequest,
  Json (list ContentProperties_), Json CommandStatusRequest, Json ProvisionDeviceRequest,
  Json TelemetryMessage} `{!BoltLaws, !EnvLaws, !ApiJson}.
Variable logger : Logger.
Variable deviceId : string.
Implicit Types (w : world).

(** What is stored under [key] decodes to a request of that key which JSON can
    hold again and some handler takes. *)
Definition queue_good (key s : string) : Prop :=
  let d := (json_unmarshal (A := ApiData) s).1 in json_wf d /\ queue_key d = key /\ ~ idle d.

(** The index is that of [w0] and the queue is well formed. *)
Definition queue_ok w0 w : Prop :=
  ready w /\ sat w = sat w0 /\ assets w = assets w0 /\ map_Forall queue_good (pending w).

#[export] Instance queue_ok_proper w0 : DbInv (queue_ok w0).
Proof.
  intros w w' E. unfold queue_ok.
  by rewrite (ready_proper w w' E), (sat_proper w w' E), (assets_proper w w' E), (pending_proper w w' E).
Qed.

Lemma queue_ok_update w0 f w w' :
  queue_ok w0 w -> db_updated PendingAPIRequestMapping f w w' ->
  map_Forall queue_good (pending w') -> queue_ok w0 w'.
Proof.
  intros (Hr & Hs & Ha & _) U Hq. destruct (pending_updated _ _ _ U) as (Es & Ea & _).
  split_and!; [by eapply ready_updated|congruence|congruence|done].
Qed.

Lemma queue_good_marshal d s : json_wf d -> ~ idle d -> json_marshal d = inr s -> queue_good (queue_key d) s.
Proof. intros Hwf Hi E. unfold queue_good. by rewrite (json_roundtrip d s Hwf E). Qed.

(** A slice of requests about contents, which are stored under their [Id]. *)
Definition content_request (d : ApiData) : Prop := ApiType d = Downloaded \/ ApiType d = Deleted.
Lemma content_request_key d : content_request d -> queue_key d = Id d.
Proof. unfold queue_key. intros [E|E]; by rewrite decide_False by by rewrite E. Qed.
Definition heap_ok (a : list ApiData) : Prop := Forall (fun d => json_wf d /\ content_request d) a.

Lemma heap_ok_update (f : ApiData -> ApiData) (ptrs : list nat) a :
  (forall d, json_wf d -> json_wf (f d)) -> (forall d, ApiType (f d) = ApiType d) ->
  heap_ok a -> heap_ok (foldl (fun h i => alter f i h) a ptrs).
Proof.
  intros Hwf Hty. revert a. induction ptrs as [|i ptrs IH]; intros a Ha; simpl; [done|].
  apply IH, Forall_alter; [done|]. intros d Hd [? ?]. unfold content_request. rewrite Hty. auto.
Qed.

Lemma deref_ok a (ptrs : list nat) : heap_ok a -> Forall (fun d => json_wf d /\ content_request d) (deref a ptrs).
Proof.
  intros Ha. apply Forall_forall. intros d (i & _ & Hi)%deref_elem.
  exact (Forall_lookup_1 _ a i d Ha Hi).
Qed.

Lemma AddContents_good l w w0 : Forall (fun d => json_wf d /\ content_request d) l ->
  Forall (fun d => ~ idle d) l -> queue_ok w0 w ->
  exists o w', AddContents (Id <$> l) (omap (fun d => match json_marshal d with inr s => Some s | inl _ => None end) l) w = (o, w')
    /\ is_result o /\ queue_ok w0 w'.
Proof.
  intros Hl Hbusy Hq. set (data := omap _ l).
  assert (length data = length l /\ Forall (fun kv => queue_good kv.1 kv.2) (zip (Id <$> l) data)) as [Hlen Hgood].
  { unfold data. induction Hl as [|d l [Hwf Hkey] Hl IH]; simpl; [by split|].
    apply Forall_cons in Hbusy as [Hd Hbusy]. destruct (IH Hbusy) as [IHlen IHgood].
    destruct (json_total d Hwf) as [s Es]. rewrite Es. simpl. split; [by f_equal|].
    constructor; [|done]. simpl. rewrite <-(content_request_key d) by done. by apply queue_good_marshal. }
  destruct (AddContents (Id <$> l) data w) as [o w'] eqn:E. exists o, w'. split; [done|].
  destruct (AddContents_cases _ _ _ _ _ (proj2 (proj2 (proj1 Hq))) E)
    as (_ & _ & [(-> & [f U] & Hp)|[[[e ->] Hs]|(Hlt & _)]]).
  - split; [done|]. eapply queue_ok_update; [done|exact U|].
    clear U E Hlen. destruct Hq as (_ & _ & _ & Hq). revert Hq Hgood.
    induction Hp as [|? ? ? ? ? ? _ IH|k v l' m m' _ IH]; intros Hq Hg; decompose_Forall_hyps; [done|auto|].
    apply IH; [|done]. by apply map_Forall_insert_2.
  - split; [done|]. by rewrite Hs.
  - rewrite length_fmap in Hlt. lia.
Qed.

Lemma remove_keys_good ks w0 w w' :
  queue_ok w0 w -> db_updated PendingAPIRequestMapping (remove_keys ks) w w' -> queue_ok w0 w'.
Proof.
  intros Hq U. eapply queue_ok_update; [done|exact U|].
  destruct (pending_updated _ _ _ U) as (_ & _ & ->). intros key s [_ Hs]%remove_keys_Some.
  by apply Hq.
Qed.

Lemma safe_delete_pending ks w0 : safe (queue_ok w0) (DeletePendingAPIRequestEntries ks).
Proof.
  apply (safe_touches (queue_ok w0) _ _ _ (DeletePending_touches ks)); [by intros w [(_ & _ & ?) _]|].
  intros w w'. apply remove_keys_good.
Qed.

Lemma AddBack_returns err a j js w0 w : heap_ok a -> asks a (j :: js) -> queue_ok w0 w ->
  exists a' w', AddApiDataBackToPendingAPIBucketOrDelete err a (job_ptrs j)
      (match j with CloudJob _ => flag_cloud | IotJob _ => flag_iot end) w = (Ret a', w') /\
    heap_ok a' /\ asks a' js /\ queue_ok w0 w'.
Proof.
  intros Ha Hasks Hq. unfold AddApiDataBackToPendingAPIBucketOrDelete. set (ptrs := job_ptrs j). destruct err as [e|].
  - assert (heap_ok (IncrementRetryCount ptrs a)) as Ha'.
    { apply heap_ok_update; [apply wf_retry|done|done]. }
    assert (asks (IncrementRetryCount ptrs a) (j :: js)) as Hasks' by by apply asks_retry.
    assert (Forall (fun d => ~ idle d) (deref (IncrementRetryCount ptrs a) ptrs)) as Hbusy.
    { apply Forall_forall. intros d (i & Hi & Hd)%deref_elem. apply not_idle_flag; [|by eapply asks_head].
      by apply (Forall_lookup_1 _ _ i d Ha'). }
    destruct (AddContents_good _ w w0 (deref_ok _ ptrs Ha') Hbusy Hq) as (o & w' & E & Ho & Hq').
    pose proof (asks_tail _ _ _ Hasks') as Hrest.
    exists (IncrementRetryCount ptrs a), w'. split; [|done]. unfold GetIds, GetDataArray.
    destruct o as [[]|e'| |]; try done.
    + by erewrite bind_Ret by (by apply ignoring_Ret).
    + by erewrite bind_Ret by (by eapply ignoring_Fail).
  - assert (heap_ok (clear_job a j)) as Ha'.
    { unfold clear_job, setTelemetryFlag. repeat case_decide; [..|done];
        (apply heap_ok_update; [|done|done]); [apply wf_cloud|apply wf_iot]. }
    pose proof (asks_clear _ _ _ Hasks) as Hasks'. fold (clear_job a j).
    destruct (returns_ignoring (queue_ok w0) tt _ (safe_delete_pending
      (GetApiDataToBeRemovedFromPendingAPI (clear_job a j) ptrs) w0) w Hq) as ([] & w' & E & Hq').
    exists (clear_job a j), w'. by erewrite bind_Ret by exact E.
Qed.

(** [m] leaves the database alone and does not panic. *)
Definition quiet (m : Hub unit) : Prop := forall P, DbInv P -> safe P m.

Lemma run_jobs_returns k items js w0 w :
  (forall r, quiet (k_send_cloud k r)) -> (forall l, quiet (k_send_iot k l)) ->
  heap_ok items -> asks items js -> queue_ok w0 w ->
  exists w', run_jobs deviceId k items js w = (Ret tt, w') /\ queue_ok w0 w'.
Proof.
  intros Hc Hp. unfold run_jobs.
  assert (forall a w, heap_ok a -> asks a js -> queue_ok w0 w ->
    exists a' w', for_fold js a (run_job deviceId k items) w = (Ret a', w') /\ heap_ok a' /\ queue_ok w0 w')
    as Hrun.
  { induction js as [|j js IH]; intros a w1 Ha Hasks Hq; simpl; [by eauto|].
    assert (exists a' w', run_job deviceId k items a j w1 = (Ret a', w') /\ heap_ok a' /\ asks a' js /\ queue_ok w0 w')
      as (a2 & w2 & E & Ha2 & Hasks2 & Hq2); [|erewrite bind_Ret by exact E; by apply IH].
    destruct j as [ptrs|ptrs]; unfold run_job.
    - destruct (returns_attempt (queue_ok w0) _ (Hc {| ur_DeviceId := deviceId;
        ur_Contents := k_content k <$> deref items ptrs |} (queue_ok w0) _) w1 Hq) as (r & w2 & E & Hq2).
      erewrite bind_Ret by exact E. by apply (AddBack_returns _ a (CloudJob ptrs)).
    - destruct (returns_attempt (queue_ok w0) _ (Hp (k_properties k <$> deref items ptrs)
        (queue_ok w0) _) w1 Hq) as (r & w2 & E & Hq2).
      erewrite bind_Ret by exact E. by apply (AddBack_returns _ a (IotJob ptrs)). }
  intros Ha Hasks Hq. destruct (Hrun items w Ha Hasks Hq) as (a' & w' & E & _ & Hq').
  exists w'. by erewrite bind_Ret by exact E.
Qed.

(** ** The handlers return *)

Lemma quiet_Log ty sub : quiet (Log logger ty sub).
Proof. intros P HP. by apply safe_Log. Qed.
Lemma quiet_fail e : quiet (fail e).
Proof. intros P HP. apply safe_fail. Qed.
#[local] Hint Resolve quiet_Log quiet_fail : hub.

Lemma downloads_quiet : (forall r, quiet (k_send_cloud (downloads logger) r)) /\
  (forall l, quiet (k_send_iot (downloads logger) l)).
Proof.
  split; intros; simpl; unfold sendDownloadedTelemetryData,
    sendDownloadedTelemetryForIoTCentralGraph, send_properties, send_command;
    destruct (json_marshal _); auto with hub.
Qed.
Lemma deletes_quiet : (forall r, quiet (k_send_cloud (deletes logger) r)) /\
  (forall l, quiet (k_send_iot (deletes logger) l)).
Proof.
  split; intros; simpl; unfold sendDeleteTelemetryData,
    sendDeletedTelemetryForIoTCentralGraph, send_properties, send_command;
    destruct (json_marshal _); auto with hub.
Qed.

Lemma batches_return k items n w0 :
  (forall r, quiet (k_send_cloud k r)) -> (forall l, quiet (k_send_iot k l)) ->
  (1 <= n)%Z -> heap_ok items -> returns (queue_ok w0) (send_in_batches deviceId k items n).
Proof.
  intros Hc Hp Hn Ha w Hq. rewrite <-(Z2Nat.id n), send_in_batches_jobs by lia.
  destruct (run_jobs_returns k items (schedule (Z.to_nat n) items) w0 w Hc Hp Ha
    (asks_schedule (Z.to_nat n) items ltac:(lia)) Hq) as (w' & ? & ?).
  by exists tt, w'.
Qed.

Lemma safe_requeue (store : string -> Hub unit) key d byteData w0 :
  (forall v, touches PendingAPIRequestMapping <[key := v]> (store v)) ->
  json_wf d -> ~ idle d -> queue_key d = key -> json_marshal (incr_retry d) = inr byteData ->
  safe (queue_ok w0) (store byteData).
Proof.
  intros Ht Hwf Hi <- E. apply (safe_touches (queue_ok w0) _ _ _ (Ht byteData)); [by intros w [(_ & _ & ?) _]|].
  intros w w' Hq U. eapply queue_ok_update; [done|exact U|].
  destruct (pending_updated _ _ _ U) as (_ & _ & ->). apply map_Forall_insert_2; [|apply Hq].
  exact (queue_good_marshal (incr_retry d) byteData (wf_retry d Hwf) Hi E).
Qed.

Lemma send_or_requeue_returns name body key d store ids w0 :
  (forall v, touches PendingAPIRequestMapping <[key := v]> (store v)) ->
  json_wf d -> ~ idle d -> queue_key d = key ->
  returns (queue_ok w0) (send_or_requeue logger name body key d store ids).
Proof.
  intros Ht Hwf Hi Hkey. unfold send_or_requeue. apply returns_bind.
  { apply returns_attempt. unfold send_command. exact (quiet_Log _ _ (queue_ok w0) _). }
  intros [e|[]]; [|apply returns_ret]. destruct (json_marshal _) eqn:E; [apply returns_ret|].
  apply returns_bind; [|intros _; apply returns_ret]. apply returns_ignoring. by eapply safe_requeue.
Qed.

(** The requests of one type. *)
Definition group_ok (t : Z) (items : list ApiData) : Prop :=
  Forall (fun d => json_wf d /\ ApiType d = t) items.

Lemma group_heap_ok t items : t = Downloaded \/ t = Deleted -> group_ok t items -> heap_ok items.
Proof.
  intros Ht Hg. eapply Forall_impl; [exact Hg|]. intros d [? Hty]. split; [done|].
  unfold content_request. by rewrite Hty.
Qed.

Lemma filter_updated_returns items w0 : group_ok FilterUpdated items ->
  returns (queue_ok w0) (handleFilterUpdatedRequest logger items).
Proof.
  intros Hg. unfold handleFilterUpdatedRequest. apply returns_bind.
  - apply returns_for_fold. intros ids d Hd. cbv zeta.
    destruct (proj1 (Forall_forall _ _) Hg d Hd) as [Hwf Hty].
    destruct (json_marshal (command_status d)); [apply returns_ret|].
    apply send_or_requeue_returns; [intros; apply AddCommandStatus_touches|done|apply not_idle_type; auto|].
    unfold queue_key. by rewrite Hty.
  - intros ids. apply returns_ignoring, safe_delete_pending.
Qed.
Lemma provisioned_returns items w0 : group_ok Provisioned items ->
  returns (queue_ok w0) (handledProvisionedRequest logger items).
Proof.
  intros Hg. unfold handledProvisionedRequest. apply returns_bind.
  - apply returns_for_fold. intros ids d Hd.
    destruct (proj1 (Forall_forall _ _) Hg d Hd) as [Hwf Hty].
    destruct (json_marshal {| pr_DeviceId := Id d |}); [apply returns_ret|].
    apply send_or_requeue_returns; [intros; apply AddProvisionedStatus_touches|done|apply not_idle_type; auto|].
    unfold queue_key. by rewrite Hty.
  - intros ids. apply returns_ignoring, safe_delete_pending.
Qed.

Lemma ProcessRequests_returns l n1 n2 w0 : (1 <= n1)%Z -> (1 <= n2)%Z -> Forall json_wf l ->
  returns (queue_ok w0) (ProcessRequests logger deviceId (GetSegregatedItems l) n1 n2).
Proof.
  intros Hn1 Hn2 Hl w Hq. unfold ProcessRequests. erewrite bind_Ret by done. revert w Hq.
  intros w1 Hq. apply (returns_for_each (queue_ok w0)); [|done].
  intros [t items] Hin. rewrite env_range_int_perm, elem_of_map_to_list in Hin.
  destruct (segregated_elem _ _ _ Hin) as [Hty Hsub].
  assert (group_ok t items) as Hg.
  { apply Forall_forall. intros d Hd. split; [|by apply (proj1 (Forall_forall _ _) Hty)].
    apply (proj1 (Forall_forall _ _) Hl). by apply Hsub. }
  case_decide as H1'; [subst; apply batches_return; [apply downloads_quiet..|done|by apply (group_heap_ok Downloaded); [left|]]|].
  case_decide as H2'; [subst; apply batches_return; [apply deletes_quiet..|done|by apply (group_heap_ok Deleted); [right|]]|].
  case_decide; [subst; by apply filter_updated_returns|].
  case_decide; [subst; by apply provisioned_returns|]. apply returns_ret.
Qed.

Lemma HandleApiRequests_returns rounds n1 n2 w0 : (1 <= n1)%Z -> (1 <= n2)%Z ->
  returns (queue_ok w0) (HandleApiRequests logger deviceId rounds n1 n2).
Proof.
  intros Hn1 Hn2. induction rounds as [|r IH]; simpl; [apply returns_ret|].
  apply returns_bind; [|by intros _]. intros w Hq.
  rewrite HandleApiRequests_round_run by apply Hq. apply ProcessRequests_returns; [done|done| |done].
  apply Forall_forall. intros d (key & s & Hs & ->)%elem_of_queue_items.
  destruct Hq as (_ & _ & _ & Hq). by destruct (Hq key s Hs).
Qed.
End Returns.
