(* ===== verification/CloudRetry.v ===== *)
(** What a batch run leaves in the queue when the content message of a batch fails:
    the requests of the batch are stored with the flags they had, and a flag that a
    later message of the run clears is cleared in the slice only. *)
From S2P Require Import Prelude GoStrings LogData Host Storage Logger CloudData FlatIndex Cloud CloudSpec CloudBatch.

Section Retry.
Context `{Bolt, Disk, Env, Json ContentInfoOnDevice, Json ApiData, Json UpdateRequest,
  Json (list ContentProperties_), Json CommandStatusRequest, Json ProvisionDeviceRequest,
  Json TelemetryMessage} `{!BoltLaws, !ApiJson}.
Variable logger : Logger.
Variable deviceId : string.
Context (k : Kind) (name : TelemetryCommandName) (ty : EventType).
Hypothesis Hk : kind_spec logger deviceId k name ty.
Context (items : list ApiData).
Hypothesis Hids : NoDup (Id <$> items).
Implicit Types (w : world) (d : ApiData) (a : list ApiData).

(** ** The pairs of [AddContents] *)

(** An entry after the puts is an old one or one of the pairs, and the new one when
    bolt accepts it. *)
Lemma puts_some_lookup l (m m' : gmap string string) key : puts_some l m m' ->
  m' !! key = m !! key \/ exists v, (key, v) ∈ l /\ m' !! key = Some v.
Proof.
  induction 1 as [|k' v l m m' _ _ IH|k' v l m m' _ IH]; [by left|..].
  - destruct IH as [?|(v' & ? & ?)]; [by left|right]. exists v'. split; [by right|done].
  - destruct IH as [E|(v' & ? & ?)]; [|right; exists v'; split; [by right|done]].
    destruct (decide (k' = key)) as [->|Hne].
    + right. exists v. rewrite E, lookup_insert_eq. split; [by left|done].
    + left. by rewrite E, lookup_insert_ne.
Qed.
Lemma puts_some_stored l (m m' : gmap string string) key v : puts_some l m m' ->
  (key, v) ∈ l -> key_ok key -> value_ok v -> exists v', (key, v') ∈ l /\ m' !! key = Some v'.
Proof.
  induction 1 as [m|k' v' l m m' Hno _ IH|k' v' l m m' Hp IH]; intros Hin Hok Hv; [by apply elem_of_nil in Hin|..].
  - apply elem_of_cons in Hin as [[= <- <-]|Hin]; [by destruct Hno|].
    destruct (IH Hin Hok Hv) as (v1 & ? & ?). exists v1. split; [by right|done].
  - apply elem_of_cons in Hin as [[= <- <-]|Hin].
    + destruct (puts_some_lookup _ _ _ key Hp) as [E|(v1 & ? & ?)].
      * exists v. rewrite E, lookup_insert_eq. split; [by left|done].
      * exists v1. split; [by right|done].
    + destruct (IH Hin Hok Hv) as (v1 & ? & ?). exists v1. split; [by right|done].
Qed.

(** The pairs of a batch: each request under its [Id]. *)
Definition batch_pairs a (ptrs : list nat) : list (string * string) := zip (GetIds a ptrs) (GetDataArray a ptrs).
Lemma batch_pairs_elem a ptrs key v : Forall json_wf a ->
  (key, v) ∈ batch_pairs a ptrs <-> exists i d, i ∈ ptrs /\ a !! i = Some d /\ Id d = key /\ json_marshal d = inr v.
Proof.
  intros Ha. unfold batch_pairs, GetIds, GetDataArray.
  assert (forall d, d ∈ deref a ptrs -> json_wf d) as Hwf.
  { intros d (i & _ & Hi)%deref_elem. exact (Forall_lookup_1 _ a i d Ha Hi). }
  transitivity (exists d, d ∈ deref a ptrs /\ Id d = key /\ json_marshal d = inr v).
  2:{ split.
      - intros (d & (i & ? & ?)%deref_elem & ? & ?). by exists i, d.
      - intros (i & d & ? & ? & ? & ?). exists d. split; [|done]. apply deref_elem. by exists i. }
  induction (deref a ptrs) as [|d l IH]; simpl.
  { rewrite elem_of_nil. split; [done|]. by intros (d & ?%elem_of_nil & _). }
  destruct (json_total d) as [s Es]; [apply Hwf; by left|]. rewrite Es. simpl. rewrite elem_of_cons, IH by (intros; apply Hwf; by right).
  setoid_rewrite elem_of_cons. split.
  - intros [[= -> ->]|(d' & ? & ?)]; [exists d|exists d']; auto.
  - intros (d' & [->|?] & <- & E); [left; congruence|right; eauto].
Qed.
Lemma length_pairs a ptrs : Forall json_wf a -> length (GetDataArray a ptrs) = length (GetIds a ptrs).
Proof.
  intros Ha. unfold GetDataArray, GetIds. rewrite length_fmap.
  assert (Forall json_wf (deref a ptrs)) as Hwf.
  { apply Forall_forall. intros d (i & _ & Hi)%deref_elem. exact (Forall_lookup_1 _ a i d Ha Hi). }
  induction Hwf as [|d l Hd _ IH]; [done|]. simpl. destruct (json_total d Hd) as [s ->]. simpl. by f_equal.
Qed.
(** Commits that succeed store what bolt accepts. *)
Lemma AddContents_reliable ids data w : reliable -> has_bucket w PendingAPIRequestMapping = true ->
  length ids <= length data -> exists w', AddContents ids data w = (Ret tt, w') /\
    has_bucket w' PendingAPIRequestMapping = true /\ puts_some (zip ids data) (pending w) (pending w').
Proof.
  intros Hrel Hb Hl. unfold AddContents.
  destruct (put_contents ids data (tx_begin (w_db w))) as [o tx] eqn:E.
  destruct (put_contents_run _ _ _ _ _ Hb E) as [(-> & f & U & Hp)|[? _]]; [|lia].
  destruct (db_update_reliable _ _ _ _ _ Hrel E U) as (w' & E' & U' & _). exists w'. split_and!; [done|..].
  - by rewrite (db_updated_has _ _ _ _ _ U').
  - destruct (pending_updated _ _ _ U') as (_ & _ & ->). by rewrite (proj1 (proj2 U)) in Hp.
Qed.

(** ** The slice during a run *)

(** [a] holds the requests [items], which the jobs [js] are still to send. *)
Record running a (js : list job) w : Prop := {
  run_ids : Id <$> a = Id <$> items;
  run_wf : Forall json_wf a;
  run_asks : asks a js;
  run_bucket : has_bucket w PendingAPIRequestMapping = true;
}.

Lemma same_index a i j d d' : Id <$> a = Id <$> items ->
  a !! i = Some d -> a !! j = Some d' -> Id d = Id d' -> i = j.
Proof.
  intros E Hi Hj Hd. eapply (NoDup_lookup _ _ _ _ Hids); rewrite <-E, list_lookup_fmap; [by rewrite Hi|].
  rewrite Hj. simpl. by rewrite Hd.
Qed.

Lemma fmap_Id_alter (f : ApiData -> ApiData) (ptrs : list nat) a :
  (forall d, Id (f d) = Id d) -> Id <$> foldl (fun h i => alter f i h) a ptrs = Id <$> a.
Proof.
  intros Hf. revert a. induction ptrs as [|i ptrs IH]; intros a; simpl; [done|]. rewrite IH.
  apply list_eq. intros j. rewrite !list_lookup_fmap. destruct (decide (i = j)) as [->|Hne].
  - rewrite list_lookup_alter_eq. destruct (a !! j); simpl; [by rewrite Hf|done].
  - by rewrite list_lookup_alter_ne.
Qed.
Lemma foldl_alter_in (f : ApiData -> ApiData) (ptrs : list nat) a i d :
  NoDup ptrs -> i ∈ ptrs -> a !! i = Some d -> foldl (fun h i => alter f i h) a ptrs !! i = Some (f d).
Proof.
  intros Hnd. revert a d. induction Hnd as [|j ptrs Hj Hnd IH]; intros a d Hi Hd; [by apply elem_of_nil in Hi|].
  simpl. destruct (decide (i = j)) as [->|Hne].
  - rewrite foldl_alter_other by done. by rewrite list_lookup_alter_eq, Hd.
  - apply IH; [by apply elem_of_cons in Hi as [?|?]|]. by rewrite list_lookup_alter_ne.
Qed.
Lemma running_retry a j js w : running a (j :: js) w -> running (IncrementRetryCount (job_ptrs j) a) (j :: js) w.
Proof.
  intros []. split; [by rewrite <-run_ids0; apply fmap_Id_alter| |by apply asks_retry|done].
  clear run_asks0 run_ids0. unfold IncrementRetryCount. revert a run_wf0.
  induction (job_ptrs j) as [|i ptrs IH]; intros a Ha; simpl; [done|]. apply IH, Forall_alter; [done|].
  intros d _. apply wf_retry.
Qed.
Lemma running_clear a j js w : running a (j :: js) w -> running (clear_job a j) js w.
Proof.
  intros []. split; [|  |by apply asks_clear|done].
  - rewrite <-run_ids0. unfold clear_job, setTelemetryFlag. repeat case_decide; [by apply fmap_Id_alter..|done].
  - apply Forall_lookup. intros i d. rewrite clear_job_lookup. case_decide; [|by apply (Forall_lookup_1 _ a)].
    intros (d0 & Hd0 & ->)%fmap_Some. pose proof (Forall_lookup_1 _ a i d0 run_wf0 Hd0) as Hwf.
    destruct j; [by apply wf_cloud|by apply wf_iot].
Qed.
Lemma running_tail a j js w : running a (j :: js) w -> running a js w.
Proof. intros []. split; [done|done|by eapply asks_tail|done]. Qed.
Lemma running_frame a js w w' : has_bucket w' PendingAPIRequestMapping = true -> running a js w -> running a js w'.
Proof. intros ? []. by split. Qed.

(** What [AddApiDataBackToPendingAPIBucketOrDelete] does with the batch of job [j]. *)
Lemma AddBack_run err a j js w a' w' : running a (j :: js) w ->
  AddApiDataBackToPendingAPIBucketOrDelete err a (job_ptrs j)
    (match j with CloudJob _ => flag_cloud | IotJob _ => flag_iot end) w = (Ret a', w') ->
  running a' js w' /\
  match err with
  | Some _ => a' = IncrementRetryCount (job_ptrs j) a /\
      (pending w' = pending w \/ puts_some (batch_pairs a' (job_ptrs j)) (pending w) (pending w')) /\
      (reliable -> puts_some (batch_pairs a' (job_ptrs j)) (pending w) (pending w'))
  | None => a' = clear_job a j /\
      (pending w' = pending w \/
       pending w' = remove_keys (GetApiDataToBeRemovedFromPendingAPI a' (job_ptrs j)) (pending w))
  end.
Proof.
  intros Ha. unfold AddApiDataBackToPendingAPIBucketOrDelete. destruct err as [e|].
  - pose proof (running_retry _ _ _ _ Ha) as Hr. set (a1 := IncrementRetryCount (job_ptrs j) a) in *.
    pose proof (run_bucket _ _ _ Hr) as Hb.
    destruct (AddContents (GetIds a1 (job_ptrs j)) (GetDataArray a1 (job_ptrs j)) w) as [o w1] eqn:E.
    destruct (AddContents_cases _ _ _ _ _ Hb E) as (_ & _ & Hcases).
    assert (reliable -> o = Ret tt) as Hrel.
    { intros Hrel. destruct (AddContents_reliable _ _ w Hrel Hb (Nat.eq_le_incl _ _ (eq_sym (length_pairs a1 (job_ptrs j) (run_wf _ _ _ Hr)))))
        as (w2 & E2 & _). rewrite E2 in E. by simplify_eq. }
    destruct Hcases as [(-> & [f U] & Hp)|[[[e' ->] Hs]|(Hl & _)]]; [| |rewrite length_pairs in Hl by apply Hr; lia].
    + erewrite bind_Ret by (by apply ignoring_Ret). intros [= <- <-]. split; [|by split_and!; [|right|]].
      eapply running_frame; [by rewrite (db_updated_has _ _ _ _ _ U)|by eapply running_tail].
    + erewrite bind_Ret by (by eapply ignoring_Fail). intros [= <- <-].
      split; [eapply running_frame; [by rewrite Hs|by eapply running_tail]|].
      split_and!; [done|left; by rewrite Hs|intros H'; by specialize (Hrel H')].
  - pose proof (running_clear _ _ _ _ Ha) as Hr. cbv zeta. fold (clear_job a j).
    pose proof (run_bucket _ _ _ Hr) as Hb.
    set (ids := GetApiDataToBeRemovedFromPendingAPI (clear_job a j) (job_ptrs j)).
    destruct (DeletePendingAPIRequestEntries ids w) as [o w1] eqn:E.
    destruct (DeletePending_touches ids _ _ _ Hb E) as (_ & _ & [[-> U]|(e & -> & Hs)]).
    + erewrite bind_Ret by (by apply ignoring_Ret). intros [= <- <-]. destruct (pending_updated _ _ _ U) as (_ & _ & Ep).
      split; [eapply running_frame; [by rewrite (db_updated_has _ _ _ _ _ U)|done]|]. split; [done|by right].
    + erewrite bind_Ret by (by eapply ignoring_Fail). intros [= <- <-].
      split; [eapply running_frame; [by rewrite Hs|done]|]. split; [done|left; by rewrite Hs].
Qed.

(** A message leaves the database alone, so a job is the update after its message. *)
Lemma run_job_run a j js w a' w' : running a (j :: js) w -> run_job deviceId k items a j w = (Ret a', w') ->
  exists err w1, w_db w1 = w_db w /\ running a (j :: js) w1 /\
    AddApiDataBackToPendingAPIBucketOrDelete err a (job_ptrs j)
      (match j with CloudJob _ => flag_cloud | IotJob _ => flag_iot end) w1 = (Ret a', w').
Proof.
  intros Ha. assert (exists m Q, message m Q /\ run_job deviceId k items a j w =
    (r ← try! m; AddApiDataBackToPendingAPIBucketOrDelete (error_of r) a (job_ptrs j)
       (match j with CloudJob _ => flag_cloud | IotJob _ => flag_iot end)) w) as (m & Q & Hm & ->).
  { destruct j; unfold run_job; do 2 eexists; (split; [|done]); [apply (ks_cloud _ _ _ _ _ Hk)|apply (ks_iot _ _ _ _ _ Hk)]. }
  unfold attempt, mbind, M_bind. destruct (m w) as [o w1] eqn:E. destruct (Hm _ _ _ E) as (Hd & _ & _).
  assert (running a (j :: js) w1) as Hr1.
  { eapply running_frame; [|exact Ha]. unfold has_bucket. rewrite Hd. apply Ha. }
  destruct o as [[]|e| |]; intros Hrun; [|eexists _, w1; by split_and!..|done|done].
  eexists _, w1. by split_and!.
Qed.
Lemma job_in_concat js j i : j ∈ js -> i ∈ job_ptrs j ->
  match j with CloudJob _ => i ∈ concat (cloud_jobs js) | IotJob _ => i ∈ concat (iot_jobs js) end.
Proof.
  induction 1 as [j js|j j' js _ IH]; intros Hi.
  - destruct j; simpl in *; apply elem_of_app; by left.
  - specialize (IH Hi). destruct j, j'; simpl in *; rewrite ?elem_of_app; tauto.
Qed.
(** The jobs before the batch of an item do not change it, unless one of them sends
    its IoT message. *)
Lemma untouched_before js1 p js2 a i : asks a (js1 ++ CloudJob p :: js2) -> i ∈ p ->
  i ∉ concat (iot_jobs js1) -> forall j, j ∈ js1 -> i ∉ job_ptrs j.
Proof.
  intros (Hnd & _ & _) Hip Hio j Hj Hi. rewrite cloud_jobs_app, concat_app in Hnd.
  apply NoDup_app in Hnd as (_ & Hdis & _). pose proof (job_in_concat js1 j i Hj Hi) as Hin. destruct j as [q|q].
  - apply (Hdis i Hin). simpl. apply elem_of_app. by left.
  - by apply Hio.
Qed.
Lemma run_jobs_running js1 js2 a w a' w' : running a (js1 ++ js2) w ->
  for_fold js1 a (run_job deviceId k items) w = (Ret a', w') -> running a' js2 w'.
Proof.
  revert a w. induction js1 as [|j js1 IH]; intros a w Ha; simpl; [by intros [= <- <-]|].
  unfold mbind, M_bind. destruct (run_job deviceId k items a j w) as [[a1| | |] w1] eqn:E; try done.
  destruct (run_job_run _ _ _ _ _ _ Ha E) as (err & w2 & _ & Hr2 & E2).
  destruct (AddBack_run _ _ _ _ _ _ _ Hr2 E2) as [Hr1 _]. by apply IH.
Qed.

(** ** A request that keeps asking *)

(** The stored request still asks for the message of the IoT graph. *)
Definition still_asks key w : Prop := exists s, pending w !! key = Some s /\
  SendIOTCentralTelemetry (json_unmarshal (A := ApiData) s).1 = true.

Lemma stored_asks d s w : json_wf d -> SendIOTCentralTelemetry d = true -> json_marshal d = inr s ->
  pending w !! Id d = Some s -> still_asks (Id d) w.
Proof. intros Hwf Hi E Hs. exists s. split; [done|]. by rewrite (json_roundtrip _ _ Hwf E). Qed.

(** Item [i] is not acknowledged to the cloud, no batch of the jobs to come tries
    again, and its stored form asks for the other message. *)
Definition asking i a (js : list job) w : Prop :=
  running a js w /\ (i ∉ concat (cloud_jobs js)) /\
  exists d, a !! i = Some d /\ SendCloudTelemetry d = true /\ still_asks (Id d) w.

Lemma not_in_head i j js : i ∉ concat (cloud_jobs (j :: js)) ->
  (i ∉ concat (cloud_jobs js)) /\ forall p, j = CloudJob p -> i ∉ p.
Proof.
  destruct j as [p|p]; simpl; [rewrite elem_of_app|]; intros Hi; split; try tauto; [|by intros].
  intros ? [= <-]. tauto.
Qed.

(** What a batch stores under the key of item [i] is the item. *)
Lemma pair_of_item a ptrs i d key v : Forall json_wf a -> Id <$> a = Id <$> items ->
  a !! i = Some d -> key = Id d -> (key, v) ∈ batch_pairs a ptrs -> i ∈ ptrs /\ json_marshal d = inr v.
Proof.
  intros Ha Hi Hd -> (i' & d' & Hp & Hd' & E & Em)%batch_pairs_elem; [|done].
  assert (i' = i) as -> by by eapply same_index. by simplify_eq.
Qed.

Lemma run_job_asking i a j js w a' w' : asking i a (j :: js) w ->
  run_job deviceId k items a j w = (Ret a', w') -> asking i a' js w'.
Proof.
  intros (Ha & Hc & d & Hd & Hcloud & Hask) E. apply not_in_head in Hc as [Hc Hj].
  destruct (run_job_run _ _ _ _ _ _ Ha E) as (err & w1 & Hdb & Ha1 & E1).
  assert (still_asks (Id d) w1) as Hask1 by (unfold still_asks, pending, bucket_of; by rewrite Hdb).
  clear Hask E. destruct (AddBack_run _ _ _ _ _ _ _ Ha1 E1) as [Hr Hcase]. split; [done|]. split; [done|].
  destruct err as [e|].
  - destruct Hcase as (Ea' & Hp & _). pose proof (running_retry _ _ _ _ Ha1) as Hr1. rewrite <-Ea' in Hr1.
    assert (exists d', a' !! i = Some d' /\ Id d' = Id d /\ SendCloudTelemetry d' = true) as (d' & Hd' & Hid & Hcl').
    { assert (is_Some (a' !! i)) as [d' Hd'].
      { apply lookup_lt_is_Some. rewrite Ea'. unfold IncrementRetryCount. rewrite foldl_alter_length.
        by eapply lookup_lt_Some. }
      exists d'. split; [done|]. rewrite Ea' in Hd'.
      destruct (foldl_alter_lookup (fun x => Id x = Id d /\ SendCloudTelemetry x = true)
        incr_retry (job_ptrs j) a i d' ltac:(done) Hd') as (d1 & Hd1 & HR & _). apply HR. by simplify_eq. }
    exists d'. split_and!; [done..|]. rewrite Hid. destruct Hask1 as (s & Hs & Hi).
    destruct Hp as [Ep|[E'|(v & Hin & Hv)]%(puts_some_lookup _ _ _ (Id d))]; [exists s; by rewrite Ep|exists s; by rewrite E'|].
    rewrite <-Hid in *. destruct (pair_of_item a' (job_ptrs j) i d' (Id d') v) as [Hij Em]; [apply Hr1..|done|done|done|].
    eapply stored_asks; [exact (Forall_lookup_1 _ a' i d' (run_wf _ _ _ Hr1) Hd')| |exact Em|exact Hv].
    destruct j as [p|p]; [by destruct (Hj p eq_refl)|].
    apply (proj2 (proj2 (proj2 (run_asks _ _ _ Hr1)) i d' Hd')). simpl. apply elem_of_app. by left.
  - destruct Hcase as [Ea' Hp].
    assert (exists d', a' !! i = Some d' /\ Id d' = Id d /\ SendCloudTelemetry d' = true) as (d' & Hd' & Hid & Hcl').
    { rewrite Ea'. setoid_rewrite clear_job_lookup. rewrite Hd. case_decide as Hij; simpl; [|by exists d].
      destruct j as [p|p]; [by destruct (Hj p eq_refl)|]. by exists (set_iot_flag false d). }
    exists d'. split_and!; [done..|]. rewrite Hid. destruct Hask1 as (s & Hs & Hi). exists s. split; [|done].
    destruct Hp as [->|Ep]; [done|]. rewrite Ep, lookup_remove_keys, decide_False; [done|].
    intros (x & Ex & [[Hx _] (i' & _ & Hi')%deref_elem]%list_elem_of_filter)%list_elem_of_fmap.
    assert (i = i') as <- by (eapply same_index; [apply Hr|done|exact Hi'|congruence]). congruence.
Qed.
Lemma run_jobs_asking i js a w a' w' : asking i a js w ->
  for_fold js a (run_job deviceId k items) w = (Ret a', w') -> asking i a' [] w'.
Proof.
  revert a w. induction js as [|j js IH]; intros a w Ha; simpl; [by intros [= <- <-]|].
  unfold mbind, M_bind. destruct (run_job deviceId k items a j w) as [[a1| | |] w1] eqn:E; try done.
  apply IH. by eapply run_job_asking.
Qed.

(** The failed batch is stored with the flags of its items. *)
Lemma failed_batch_asks p js a i d e w a' w' : reliable -> running a (CloudJob p :: js) w ->
  i ∈ p -> a !! i = Some d -> SendIOTCentralTelemetry d = true -> storable (Id d) (incr_retry d) ->
  AddApiDataBackToPendingAPIBucketOrDelete (Some e) a p flag_cloud w = (Ret a', w') -> asking i a' js w'.
Proof.
  intros Hrel Ha Hip Hd Hiot (Hkey & s & Es & Hv) E.
  destruct (AddBack_run _ _ _ _ _ _ _ Ha E) as [Hr (Ea' & _ & Hp)]. specialize (Hp Hrel).
  destruct (run_asks _ _ _ Ha) as (Hnd & _ & Hf). simpl in Hnd, Hf, Ea', Hp.
  split; [done|]. split.
  { intros Hi. apply NoDup_app in Hnd as (_ & Hdis & _). by apply (Hdis i). }
  pose proof (running_retry _ _ _ _ Ha) as Hr1. simpl in Hr1. rewrite <-Ea' in Hr1.
  assert (a' !! i = Some (incr_retry d)) as Hd'.
  { apply NoDup_app in Hnd as (Hnd & _ & _). rewrite Ea'. by apply foldl_alter_in. }
  exists (incr_retry d). split_and!; [done| |].
  { apply (proj1 (Hf i d Hd)). apply elem_of_app. by left. }
  destruct (puts_some_stored _ _ _ (Id d) s Hp) as (v & Hin & Hl); [|done|done|].
  { apply batch_pairs_elem; [apply Hr1|]. by exists i, (incr_retry d). }
  destruct (pair_of_item a' p i (incr_retry d) (Id d) v) as [_ Em]; [apply Hr1..|done|done|done|].
  eapply (stored_asks (incr_retry d)); [exact (Forall_lookup_1 _ a' i _ (run_wf _ _ _ Hr1) Hd')|done|exact Em|exact Hl].
Qed.
End Retry.
