(* ===== verification/CloudDrain.v ===== *)
(** What a round of [HandleApiRequests] does once the network works: every request
    that some handler takes is delivered and leaves the queue, and nothing else
    changes. *)
From S2P Require Import Prelude GoStrings GoFloat LogData Host Storage Logger CloudData FlatIndex Cloud CloudSpec CloudBatch.

(** The keys of the requests among [items] that a handler takes. *)
Definition busy_keys (items : list ApiData) : list string :=
  queue_key <$> filter (fun d => ~ idle d) items.

Lemma elem_of_busy_keys items key :
  key ∈ busy_keys items <-> exists d, d ∈ items /\ ~ idle d /\ queue_key d = key.
Proof.
  unfold busy_keys. rewrite list_elem_of_fmap. split.
  - intros (d & -> & [? ?]%list_elem_of_filter). eauto.
  - intros (d & ? & ? & <-). exists d. split; [done|]. by apply list_elem_of_filter.
Qed.

(** The numbers JSON can hold: [json.Marshal] refuses infinities and NaN. *)
Definition is_finite (x : float64) : bool :=
  match x with S754_zero _ | S754_finite _ _ _ => true | S754_infinity _ | S754_nan => false end.
Definition sizes_finite (l : list ContentProperties_) : Prop :=
  Forall (fun p => is_finite (cp_Size p) = true) l.
(** The times in the bodies are ones JSON can hold. *)
Definition contents_timed (l : list ContentData) : Prop := Forall (fun c => json_time (cd_OperationTime c)) l.
Definition properties_timed (l : list ContentProperties_) : Prop := Forall (fun p => json_time (cp_OperationTime p)) l.

(** [json.Marshal] of the bodies of the messages fails on a number or a time that
    JSON cannot hold only; the message around them holds no floating-point number
    but zeros and no time. *)
Class JsonMessages `{Json UpdateRequest, Json (list ContentProperties_), Json CommandStatusRequest,
    Json ProvisionDeviceRequest, Json TelemetryMessage} (logger : Logger) : Prop := {
  marshal_update (r : UpdateRequest) : contents_timed (ur_Contents r) -> exists s, json_marshal r = inr s;
  marshal_properties (l : list ContentProperties_) : sizes_finite l -> properties_timed l ->
    exists s, json_marshal l = inr s;
  marshal_status (r : CommandStatusRequest) : exists s, json_marshal r = inr s;
  marshal_provision (r : ProvisionDeviceRequest) : exists s, json_marshal r = inr s;
  marshal_message ty sub now id :
    ty ∈ [TelemetryCommandMessage; AssetDownloadOnDeviceFromSES; AssetDeleteOnDeviceByScheduler] ->
    exists s, json_marshal (make_message logger ty sub now id) = inr s;
}.

(** ** Batches

    When every message is acknowledged the store after some jobs and the keys that
    leave the queue are functions of the jobs. *)
Fixpoint removed (a : list ApiData) (js : list job) : list string :=
  match js with
  | [] => []
  | j :: js' => GetApiDataToBeRemovedFromPendingAPI (clear_job a j) (job_ptrs j) ++ removed (clear_job a j) js'
  end.

(** Item [d] at index [i] after the jobs [js]. *)
Definition after (js : list job) (i : nat) (d : ApiData) : ApiData :=
  set_iot_flag (SendIOTCentralTelemetry d && bool_decide (i ∉ concat (iot_jobs js)))
    (set_cloud_flag (SendCloudTelemetry d && bool_decide (i ∉ concat (cloud_jobs js))) d).
Definition asked (js : list job) (i : nat) : Prop := i ∈ concat (cloud_jobs js) \/ i ∈ concat (iot_jobs js).
Lemma after_nil i d : after [] i d = d.
Proof.
  unfold after. rewrite !bool_decide_true by apply not_elem_of_nil.
  rewrite !andb_true_r. by destruct d.
Qed.
Lemma cloud_jobs_snoc js j i :
  i ∈ concat (cloud_jobs (js ++ [j])) <->
  i ∈ concat (cloud_jobs js) \/ match j with CloudJob p => i ∈ p | IotJob _ => False end.
Proof.
  rewrite cloud_jobs_app, concat_app, elem_of_app. destruct j; simpl; rewrite ?app_nil_r; [done|].
  by rewrite elem_of_nil.
Qed.
Lemma iot_jobs_snoc js j i :
  i ∈ concat (iot_jobs (js ++ [j])) <->
  i ∈ concat (iot_jobs js) \/ match j with IotJob p => i ∈ p | CloudJob _ => False end.
Proof.
  rewrite iot_jobs_app, concat_app, elem_of_app. destruct j; simpl; rewrite ?app_nil_r; [|done].
  by rewrite elem_of_nil.
Qed.
Lemma after_snoc js j i d :
  after (js ++ [j]) i d = if decide (i ∈ job_ptrs j) then clear_flag j (after js i d) else after js i d.
Proof.
  unfold after. pose proof (cloud_jobs_snoc js j i) as Hc. pose proof (iot_jobs_snoc js j i) as Hi.
  destruct j as [p|p]; simpl job_ptrs; case_decide as Hp.
  - rewrite (bool_decide_false (i ∉ concat (cloud_jobs _))), andb_false_r by tauto.
    by rewrite (bool_decide_ext (i ∉ concat (iot_jobs (js ++ [CloudJob p]))) (i ∉ concat (iot_jobs js))) by tauto.
  - rewrite (bool_decide_ext (i ∉ concat (cloud_jobs (js ++ [CloudJob p]))) (i ∉ concat (cloud_jobs js))) by tauto.
    by rewrite (bool_decide_ext (i ∉ concat (iot_jobs (js ++ [CloudJob p]))) (i ∉ concat (iot_jobs js))) by tauto.
  - rewrite (bool_decide_false (i ∉ concat (iot_jobs _))), andb_false_r by tauto.
    by rewrite (bool_decide_ext (i ∉ concat (cloud_jobs (js ++ [IotJob p]))) (i ∉ concat (cloud_jobs js))) by tauto.
  - rewrite (bool_decide_ext (i ∉ concat (cloud_jobs (js ++ [IotJob p]))) (i ∉ concat (cloud_jobs js))) by tauto.
    by rewrite (bool_decide_ext (i ∉ concat (iot_jobs (js ++ [IotJob p]))) (i ∉ concat (iot_jobs js))) by tauto.
Qed.
Lemma asked_snoc js j i : asked (js ++ [j]) i <-> asked js i \/ i ∈ job_ptrs j.
Proof. unfold asked. rewrite cloud_jobs_snoc, iot_jobs_snoc. destruct j; simpl; tauto. Qed.

(** The store after the jobs. *)
Lemma clear_jobs_lookup items js i : foldl clear_job items js !! i = after js i <$> items !! i.
Proof.
  induction js as [|j js IH] using rev_ind; simpl.
  { destruct (items !! i) as [d|]; simpl; [by rewrite after_nil|done]. }
  rewrite foldl_app. simpl. rewrite clear_job_lookup, IH.
  destruct (items !! i) as [d|]; simpl; [rewrite after_snoc|]; by case_decide.
Qed.

Lemma removed_snoc items js j :
  removed items (js ++ [j]) = removed items js ++
    GetApiDataToBeRemovedFromPendingAPI (foldl clear_job items (js ++ [j])) (job_ptrs j).
Proof.
  revert items. induction js as [|j' js IH]; intros items; simpl; [by rewrite app_nil_r|].
  by rewrite IH, app_assoc.
Qed.

Lemma elem_of_to_be_removed a ptrs key :
  key ∈ GetApiDataToBeRemovedFromPendingAPI a ptrs <->
  exists i d, i ∈ ptrs /\ a !! i = Some d /\ done_with d /\ Id d = key.
Proof.
  unfold GetApiDataToBeRemovedFromPendingAPI. rewrite list_elem_of_fmap. split.
  - intros (d & -> & [? (i & ? & ?)%deref_elem]%list_elem_of_filter). by exists i, d.
  - intros (i & d & ? & ? & ? & <-). exists d. split; [done|]. apply list_elem_of_filter.
    split; [done|]. apply deref_elem. eauto.
Qed.

Lemma done_after_snoc js j i d : done_with (after js i d) -> done_with (after (js ++ [j]) i d).
Proof. rewrite after_snoc. case_decide; [|done]. destruct j; intros []; split; done. Qed.

(** The keys that leave the queue. *)
Lemma elem_of_removed items js key :
  key ∈ removed items js <->
  exists i d, items !! i = Some d /\ asked js i /\ done_with (after js i d) /\ Id d = key.
Proof.
  induction js as [|j js IH] using rev_ind.
  { simpl. rewrite elem_of_nil. split; [done|]. by intros (i & d & _ & [?%elem_of_nil|?%elem_of_nil] & _). }
  rewrite removed_snoc, elem_of_app, IH, elem_of_to_be_removed. split.
  - intros [(i & d & ? & ? & ? & ?)|(i & d' & Hi & Hd' & Hdone & <-)].
    + exists i, d. split_and!; [done|apply asked_snoc; by left|by apply done_after_snoc|done].
    + rewrite clear_jobs_lookup in Hd'. apply fmap_Some in Hd' as (d & Hd & ->).
      exists i, d. split_and!; [done|apply asked_snoc; by right|done|done].
  - intros (i & d & Hd & Ha & Hdone & <-). destruct (decide (i ∈ job_ptrs j)) as [Hi|Hi].
    + right. exists i, (after (js ++ [j]) i d). split_and!; [done|by rewrite clear_jobs_lookup, Hd|done|done].
    + left. exists i, d. apply asked_snoc in Ha as [Ha|Ha]; [|done].
      rewrite after_snoc, decide_False in Hdone by done. done.
Qed.

(** The schedule of a batch run finishes the items with a flag. *)
Lemma elem_of_removed_schedule n items key : 0 < n ->
  key ∈ removed items (schedule n items) <-> exists d, d ∈ items /\ ~ done_with d /\ Id d = key.
Proof.
  intros Hn. rewrite elem_of_removed.
  assert (forall i, i ∈ concat (cloud_jobs (schedule n items)) <-> SendCloudTelemetry <$> items !! i = Some true) as Hc.
  { intros i. unfold schedule. rewrite (proj1 (schedule_cloud n items _ [] [] Hn Hn)). simpl.
    unfold flagged. rewrite list_elem_of_filter, elem_of_seq. split; [by intros []|]. intros Hi.
    split; [done|]. apply fmap_Some in Hi as (d & ?%lookup_lt_Some & _). lia. }
  assert (forall i, i ∈ concat (iot_jobs (schedule n items)) <-> SendIOTCentralTelemetry <$> items !! i = Some true) as Hp.
  { intros i. unfold schedule. rewrite (proj1 (schedule_iot n items _ [] [] Hn Hn)). simpl.
    unfold flagged. rewrite list_elem_of_filter, elem_of_seq. split; [by intros []|]. intros Hi.
    split; [done|]. apply fmap_Some in Hi as (d & ?%lookup_lt_Some & _). lia. }
  unfold asked. setoid_rewrite Hc. setoid_rewrite Hp. split.
  - intros (i & d & Hd & Ha & _ & <-). exists d. split; [by eapply list_elem_of_lookup_2|]. split; [|done].
    rewrite Hd in Ha. simpl in Ha. intros []. destruct Ha; congruence.
  - intros (d & [i Hd]%list_elem_of_lookup & Hnd & <-). exists i, d. rewrite Hd. simpl.
    split_and!; [done| | |done].
    + unfold done_with in Hnd. destruct (SendCloudTelemetry d), (SendIOTCentralTelemetry d); auto.
      by destruct Hnd.
    + unfold after, done_with. simpl. split; apply andb_false_iff.
      * destruct (SendCloudTelemetry d) eqn:E; [right|by left]. apply bool_decide_false.
        intros Hni. apply Hni, Hc. by rewrite Hd, <-E.
      * destruct (SendIOTCentralTelemetry d) eqn:E; [right|by left]. apply bool_decide_false.
        intros Hni. apply Hni, Hp. by rewrite Hd, <-E.
Qed.

Section Drain.
Context `{Bolt, Disk, Env, Json ContentInfoOnDevice, Json ApiData, Json UpdateRequest,
  Json (list ContentProperties_), Json CommandStatusRequest, Json ProvisionDeviceRequest,
  Json TelemetryMessage} `{!BoltLaws, !EnvLaws}.
Variable logger : Logger.
Variable deviceId : string.
Context `{!JsonMessages logger}.
Hypothesis Hrel : reliable.
Implicit Types (w : world) (d : ApiData).

(** From [w] on the proxy answers and acknowledges every message. *)
Definition connected w : Prop := forall tr, w_trace w `prefix_of` tr ->
  env_dial tr (upstreamAddress logger) = None /\
  forall name message, env_send tr name message = None.

Lemma connected_later w w' : later w w' -> connected w -> connected w'.
Proof. intros Hl Hc tr Htr. apply Hc. by etrans. Qed.

(** [m] returns nil and only talks to the proxy; what it says depends on the events
    before it only. *)
Definition delivers (m : Hub unit) : Prop := exists says : list event -> list event,
  forall w, connected w -> exists w', m w = (Ret tt, w') /\ w_db w' = w_db w /\
    w_trace w' = w_trace w ++ says (w_trace w).

Lemma delivers_Log ty sub :
  ty ∈ [TelemetryCommandMessage; AssetDownloadOnDeviceFromSES; AssetDeleteOnDeviceByScheduler] ->
  delivers (Log logger ty sub).
Proof.
  intros Hty. exists (fun tr => [EvClock; EvUuid;
    EvTelemetry (make_message logger ty sub (env_now tr) (env_uuid (tr ++ [EvClock]))) true]).
  intros w Hc. unfold Log, isValid. rewrite decide_True.
  2:{ unfold valid_types. revert Hty. rewrite !elem_of_cons. tauto. }
  unfold mbind, M_bind, time_now, new_uuid, log_event. simpl.
  set (tr := (w_trace w ++ _) ++ _).
  destruct (marshal_message ty sub (env_now (w_trace w)) (env_uuid (w_trace w ++ [EvClock])) Hty) as [s ->].
  unfold wrap_error, sendGrpcUpstream. simpl. fold tr.
  destruct (Hc tr) as [-> Hsend]; [unfold tr; rewrite <-app_assoc; by apply prefix_app_r|].
  rewrite Hsend. eexists. split_and!; [done..|]. simpl. unfold tr. by rewrite <-!app_assoc.
Qed.

Lemma delivers_command name m body : delivers (send_command logger name m body).
Proof. apply delivers_Log. set_solver. Qed.
Lemma delivers_downloads r : contents_timed (ur_Contents r) -> delivers (k_send_cloud (downloads logger) r).
Proof.
  intros Ht. simpl. unfold sendDownloadedTelemetryData. destruct (marshal_update r Ht) as [s ->]. apply delivers_command.
Qed.
Lemma delivers_deletes r : contents_timed (ur_Contents r) -> delivers (k_send_cloud (deletes logger) r).
Proof.
  intros Ht. simpl. unfold sendDeleteTelemetryData. destruct (marshal_update r Ht) as [s ->]. apply delivers_command.
Qed.
Lemma delivers_properties ty l :
  ty ∈ [TelemetryCommandMessage; AssetDownloadOnDeviceFromSES; AssetDeleteOnDeviceByScheduler] ->
  sizes_finite l -> properties_timed l -> delivers (send_properties logger ty l).
Proof.
  intros Hty Hl Ht. unfold send_properties. destruct (marshal_properties l Hl Ht) as [s ->]. by apply delivers_Log.
Qed.

(** [m] returns [a] and removes exactly the requests under [ks] from the queue. *)
Definition drains {A} (ks : list string) (m : Hub A) (a : A) : Prop :=
  exists says : list event -> list event, forall w, ready w -> connected w ->
  exists w', m w = (Ret a, w') /\ ready w' /\ w_trace w' = w_trace w ++ says (w_trace w) /\
    sat w' = sat w /\ assets w' = assets w /\ pending w' = remove_keys ks (pending w).

Lemma drains_bind {A B} ks1 ks2 (m : Hub A) (f : A -> Hub B) a b :
  drains ks1 m a -> drains ks2 (f a) b -> drains (ks1 ++ ks2) (m ≫= f) b.
Proof.
  intros [says1 Hm] [says2 Hf]. exists (fun tr => says1 tr ++ says2 (tr ++ says1 tr)). intros w Hr Hc.
  destruct (Hm w Hr Hc) as (w1 & E1 & Hr1 & Ht1 & Hs1 & Ha1 & Hp1).
  assert (later w w1) as Hl1 by (unfold later; rewrite Ht1; by apply prefix_app_r).
  destruct (Hf w1 Hr1 (connected_later _ _ Hl1 Hc)) as (w2 & E2 & Hr2 & Ht2 & Hs2 & Ha2 & Hp2).
  exists w2. erewrite bind_Ret by exact E1.
  split_and!; [done|done|by rewrite Ht2, Ht1, app_assoc|congruence..|].
  rewrite Hp2, Hp1. unfold remove_keys. by rewrite foldl_app.
Qed.
Lemma drains_ret {A} (a : A) : drains [] (mret a) a.
Proof. exists (fun _ => []). intros w Hr Hc. exists w. by rewrite app_nil_r. Qed.
Lemma drains_bind_ret {A B} ks (m : Hub A) a (b : B) : drains ks m a -> drains ks (m ≫= fun _ => mret b) b.
Proof. intros Hm. rewrite <-(app_nil_r ks). by eapply drains_bind; [|apply drains_ret]. Qed.
Lemma drains_attempt m : delivers m -> drains [] (attempt m) (inr tt).
Proof.
  intros [says Hm]. exists says. intros w Hr Hc. destruct (Hm w Hc) as (w' & E & Hd & Ht). exists w'.
  rewrite (attempt_Ret _ _ _ _ E). unfold ready, has_bucket, sat, assets, pending, bucket_of. by rewrite Hd.
Qed.
Lemma drains_ext {A} ks1 ks2 (m : Hub A) a :
  (forall key, key ∈ ks1 <-> key ∈ ks2) -> drains ks1 m a -> drains ks2 m a.
Proof.
  intros Hks [says Hm]. exists says. intros w Hr Hc.
  destruct (Hm w Hr Hc) as (w' & E & Hr' & Hl & Hs & Ha & Hp).
  exists w'. split_and!; try done. rewrite Hp. apply map_eq. intros key. rewrite !lookup_remove_keys.
  by rewrite (decide_ext _ _ _ _ (Hks key)).
Qed.

(** A loop that leaves the queue alone and maintains [s]. *)
Lemma drains_for_fold {A S} (next : S -> A -> S) (xs : list A) (s : S) (body : S -> A -> Hub S) :
  (forall s x, x ∈ xs -> drains [] (body s x) (next s x)) ->
  drains [] (for_fold xs s body) (foldl next s xs).
Proof.
  revert s. induction xs as [|x xs IH]; intros s Hx; cbn [for_fold foldl]; [apply drains_ret|].
  eapply (drains_bind [] []); [apply Hx; by left|]. apply IH. intros s' y Hy. apply Hx. by right.
Qed.
Lemma drains_for_each {A} (keys : A -> list string) (xs : list A) (body : A -> Hub unit) :
  (forall x, x ∈ xs -> drains (keys x) (body x) tt) -> drains (xs ≫= keys) (for_each xs body) tt.
Proof.
  induction xs as [|x xs IH]; intros Hx; simpl; [apply drains_ret|].
  eapply drains_bind; [apply Hx; by left|]. apply IH. intros y Hy. apply Hx. by right.
Qed.

Lemma drains_delete ks : drains ks (ignore! tt of (DeletePendingAPIRequestEntries ks)) tt.
Proof.
  exists (fun _ => []). intros w Hr _. unfold DeletePendingAPIRequestEntries.
  destruct (deletes_reliable PendingAPIRequestMapping ks
    (fun e => "[PendingAPIRequestMapping][DeleteRequest] " +:+ e) w Hrel (proj2 (proj2 Hr))) as (w' & E & U & _ & Ht).
  exists w'. split; [by apply ignoring_Ret|]. destruct (pending_updated _ _ _ U) as (? & ? & ?).
  split_and!; [by eapply ready_updated|by rewrite Ht, app_nil_r|done..].
Qed.

(** *** The handlers *)

Section Handlers.
Variable items : list ApiData.

(** Every batch of the messages of kind [k] about [items] is delivered. *)
Definition batches_deliver (k : Kind) : Prop := forall ptrs,
  (delivers (k_send_cloud k {| ur_DeviceId := deviceId; ur_Contents := k_content k <$> deref items ptrs |}) /\
   delivers (k_send_iot k (k_properties k <$> deref items ptrs)))%type.

Lemma drains_run_job k a j :
  batches_deliver k ->
  drains (GetApiDataToBeRemovedFromPendingAPI (clear_job a j) (job_ptrs j))
    (run_job deviceId k items a j) (clear_job a j).
Proof.
  intros Hk. destruct j as [p|p]; unfold run_job; eapply (drains_bind []);
    [apply drains_attempt, Hk|apply drains_bind_ret with (a := tt), drains_delete
    |apply drains_attempt, Hk|apply drains_bind_ret with (a := tt), drains_delete].
Qed.
Lemma drains_run_jobs k js :
  batches_deliver k ->
  drains (removed items js) (run_jobs deviceId k items js) tt.
Proof.
  intros Hk. unfold run_jobs. apply drains_bind_ret with (a := foldl clear_job items js).
  assert (forall a, drains (removed a js) (for_fold js a (run_job deviceId k items)) (foldl clear_job a js))
    as Hgen; [|apply Hgen].
  induction js as [|j js IH]; intros a; [apply drains_ret|].
  eapply drains_bind; [by apply drains_run_job|apply IH].
Qed.

Lemma drains_batches k t n :
  batches_deliver k ->
  t = Downloaded \/ t = Deleted -> Forall (fun d => ApiType d = t) items -> (1 <= n)%Z ->
  drains (busy_keys items) (send_in_batches deviceId k items n) tt.
Proof.
  intros Hk Ht Hty Hn. rewrite Forall_forall in Hty.
  eapply (drains_ext (removed items (schedule (Z.to_nat n) items))).
  - intros key. rewrite elem_of_removed_schedule, elem_of_busy_keys by lia. unfold idle, queue_key, done_with.
    split; intros (d & Hd & Hi & <-); exists d; (split; [done|]); pose proof (Hty d Hd) as Ed; revert Hi;
      rewrite decide_True by (by rewrite Ed); rewrite decide_False by (rewrite Ed; by destruct Ht; subst); done.
  - destruct (drains_run_jobs k (schedule (Z.to_nat n) items) Hk) as [says Hd].
    exists says. intros w. rewrite <-(Z2Nat.id n), send_in_batches_jobs by lia. rewrite Nat2Z.id. apply Hd.
Qed.

Lemma drains_sent_one_by_one (body : list string -> ApiData -> Hub (list string)) :
  (forall ids d, d ∈ items -> drains [] (body ids d) (ids ++ [queue_key d]) /\ ~ idle d) ->
  drains (busy_keys items)
    (deleteIds ← for_fold items [] body; ignore! tt of (DeletePendingAPIRequestEntries deleteIds)) tt.
Proof.
  intros Hb. eapply (drains_ext ([] ++ (queue_key <$> items))).
  - intros key. rewrite elem_of_busy_keys, app_nil_l, list_elem_of_fmap. split.
    + intros (d & -> & Hd). exists d. split_and!; [done|apply (Hb [] d Hd)|done].
    + intros (d & ? & _ & <-). eauto.
  - eapply drains_bind; [|apply drains_delete].
    replace (queue_key <$> items) with (foldl (fun ids d => ids ++ [queue_key d]) [] items).
    { apply drains_for_fold. intros ids d Hd. by apply Hb. }
    clear. induction items as [|d l IH] using rev_ind; [done|]. by rewrite foldl_app, fmap_app, <-IH.
Qed.

Lemma drains_send name body key d store ids :
  drains [] (send_or_requeue logger name body key d store ids) (ids ++ [key]).
Proof.
  unfold send_or_requeue. eapply (drains_bind []); [apply drains_attempt, delivers_command|].
  apply drains_ret.
Qed.

Lemma drains_filter_updated : Forall (fun d => ApiType d = FilterUpdated) items ->
  drains (busy_keys items) (handleFilterUpdatedRequest logger items) tt.
Proof.
  intros Hty. rewrite Forall_forall in Hty. apply drains_sent_one_by_one. intros ids d Hd.
  split; [|apply not_idle_type; left; auto].
  cbv zeta. destruct (marshal_status (logger := logger) (command_status d)) as [body ->].
  unfold queue_key. rewrite decide_True by auto. apply drains_send.
Qed.
Lemma drains_provisioned : Forall (fun d => ApiType d = Provisioned) items ->
  drains (busy_keys items) (handledProvisionedRequest logger items) tt.
Proof.
  intros Hty. rewrite Forall_forall in Hty. apply drains_sent_one_by_one. intros ids d Hd.
  split; [|apply not_idle_type; right; auto].
  destruct (marshal_provision (logger := logger) {| pr_DeviceId := Id d |}) as [body ->].
  unfold queue_key. rewrite decide_False by (by rewrite (Hty d Hd)). apply drains_send.
Qed.

(** The numbers in the messages of the downloaded contents, and the times in the
    messages of all contents. *)
Definition sizes_ok : Prop :=
  Forall (fun d => ApiType d = Downloaded -> is_finite (cp_Size (download_properties d)) = true) items.
Definition times_ok : Prop :=
  Forall (fun d => ApiType d = Downloaded \/ ApiType d = Deleted -> json_time (OperationTime d)) items.

Lemma deref_Forall {A} (P : A -> Prop) (f : ApiData -> A) ptrs :
  (forall d, d ∈ items -> P (f d)) -> Forall P (f <$> deref items ptrs).
Proof.
  intros Hf. apply Forall_fmap, Forall_forall. intros d (i & _ & Hi)%deref_elem.
  apply Hf. by eapply list_elem_of_lookup_2.
Qed.
Lemma downloads_deliver : sizes_ok -> times_ok -> Forall (fun d => ApiType d = Downloaded) items ->
  batches_deliver (downloads logger).
Proof.
  unfold sizes_ok, times_ok. rewrite !Forall_forall. intros Hs Ht Hty ptrs. split.
  - apply delivers_downloads, deref_Forall. intros d Hd. apply Ht; auto.
  - apply delivers_properties; [set_solver|apply deref_Forall; intros d Hd; apply Hs; auto|].
    apply deref_Forall. intros d Hd. apply Ht; auto.
Qed.
Lemma deletes_deliver : times_ok -> Forall (fun d => ApiType d = Deleted) items -> batches_deliver (deletes logger).
Proof.
  unfold times_ok. rewrite !Forall_forall. intros Ht Hty ptrs. split.
  - apply delivers_deletes, deref_Forall. intros d Hd. apply Ht; auto.
  - apply delivers_properties; [set_solver|by apply deref_Forall|].
    apply deref_Forall. intros d Hd. apply Ht; auto.
Qed.

(** The requests of one type, by the handler of the type. *)
Lemma drains_group t n1 n2 : (1 <= n1)%Z -> (1 <= n2)%Z -> sizes_ok -> times_ok ->
  Forall (fun d => ApiType d = t) items ->
  drains (busy_keys items)
    (if decide (t = Downloaded) then sendDownloadRequestInBatches logger deviceId items n1
     else if decide (t = Deleted) then sendDeleteRequestInBatches logger deviceId items n2
     else if decide (t = FilterUpdated) then handleFilterUpdatedRequest logger items
     else if decide (t = Provisioned) then handledProvisionedRequest logger items
     else mret tt) tt.
Proof.
  intros Hn1 Hn2 Hs Ht Hty.
  pose proof (proj1 (Forall_forall _ _) Hty) as Hin. case_decide as H1'; [|case_decide as H2'; [|repeat case_decide]].
  - subst. apply (drains_batches _ Downloaded); [by apply downloads_deliver|by left|done|done].
  - subst. apply (drains_batches _ Deleted); [by apply deletes_deliver|by right|done|done].
  - subst. by apply drains_filter_updated.
  - subst. by apply drains_provisioned.
  - eapply drains_ext; [|apply drains_ret]. intros key. rewrite elem_of_nil, elem_of_busy_keys.
    split; [done|]. intros (d & Hd & Hi & _). apply Hi. unfold idle. rewrite (Hin d Hd).
    rewrite decide_False by (by intros []). by split.
Qed.
End Handlers.

Lemma drains_groups l n1 n2 (kvs : list (Z * list ApiData)) : (1 <= n1)%Z -> (1 <= n2)%Z -> sizes_ok l -> times_ok l ->
  kvs ≡ₚ map_to_list (GetSegregatedItems l) ->
  drains (busy_keys l) (for_each kvs (fun '(t, items) =>
    if decide (t = Downloaded) then sendDownloadRequestInBatches logger deviceId items n1
    else if decide (t = Deleted) then sendDeleteRequestInBatches logger deviceId items n2
    else if decide (t = FilterUpdated) then handleFilterUpdatedRequest logger items
    else if decide (t = Provisioned) then handledProvisionedRequest logger items
    else mret tt)) tt.
Proof.
  intros Hn1 Hn2 Hs Ht Hperm.
  assert (forall t items, (t, items) ∈ kvs <-> GetSegregatedItems l !! t = Some items) as Hkvs.
  { intros t items. by rewrite Hperm, elem_of_map_to_list. }
  eapply (drains_ext (kvs ≫= fun kv => busy_keys kv.2)).
  - intros key. rewrite list_elem_of_bind, elem_of_busy_keys. split.
    + intros ([t items] & (d & Hd & ? & ?)%elem_of_busy_keys & [_ Hl]%Hkvs%segregated_elem).
      exists d. split_and!; [by apply Hl|done|done].
    + intros (d & Hd & ? & ?).
      assert (d ∈ filter (fun d' => ApiType d' = ApiType d) l) as Hf by by apply list_elem_of_filter.
      exists (ApiType d, filter (fun d' => ApiType d' = ApiType d) l). split.
      * apply elem_of_busy_keys. eauto.
      * apply Hkvs. rewrite segregated_lookup. destruct (filter _ l); [by apply elem_of_nil in Hf|done].
  - apply drains_for_each. intros [t items] [Hty Hl]%Hkvs%segregated_elem. simpl.
    assert (forall P : ApiData -> Prop, Forall P l -> Forall P items) as Hsub.
    { intros P. rewrite !Forall_forall. auto. }
    apply drains_group; [done|done|by apply Hsub..|done].
Qed.

(** A round removes the requests that some handler takes; what it sends does not
    depend on the database. *)
Lemma drains_process l n1 n2 w : (1 <= n1)%Z -> (1 <= n2)%Z -> sizes_ok l -> times_ok l -> ready w -> connected w ->
  exists w', ProcessRequests logger deviceId (GetSegregatedItems l) n1 n2 w = (Ret tt, w') /\
    sat w' = sat w /\ assets w' = assets w /\ pending w' = remove_keys (busy_keys l) (pending w) /\
    forall w2, ready w2 -> w_trace w2 = w_trace w ->
      w_trace (ProcessRequests logger deviceId (GetSegregatedItems l) n1 n2 w2).2 = w_trace w'.
Proof.
  intros Hn1 Hn2 Hs Htm Hr Hc. unfold ProcessRequests. erewrite bind_Ret by done.
  destruct (drains_groups l n1 n2 (env_range_int (w_trace w) (GetSegregatedItems l)) Hn1 Hn2 Hs Htm
    (env_range_int_perm _ _ _)) as [says Hd].
  destruct (Hd w Hr Hc) as (w' & E & _ & Ht & ? & ? & ?). exists w'. split_and!; [done..|].
  intros w2 Hr2 Ht2. erewrite bind_Ret by done. rewrite Ht2.
  destruct (Hd w2 Hr2) as (w2' & E2 & _ & Ht2' & _); [by unfold connected; rewrite Ht2|].
  match goal with |- w_trace (?m w2).2 = _ => replace (m w2) with (Ret tt : outcome unit, w2') end.
  simpl. by rewrite Ht2', Ht, Ht2.
Qed.
End Drain.
