(* ===== verification/CloudThms.v ===== *)
(** The properties of the requests to the cloud. *)
From S2P Require Import Prelude GoStrings GoFloat LogData Host Storage Logger CloudData FlatIndex Cloud CloudSpec CloudBatch CloudRetry CloudDrain Mstore Reference.

Section Cloud.
Context `{Bolt, Disk, Env, Json ContentInfoOnDevice, Json ApiData, Json UpdateRequest,
  Json (list ContentProperties_), Json CommandStatusRequest, Json ProvisionDeviceRequest,
  Json TelemetryMessage} `{!BoltLaws, !EnvLaws, !ApiJson}.
Variable logger : Logger.
Variable deviceId : string.
Implicit Types (w : world).

(** Every stored request decodes to one whose key is the key it is stored under. *)
Definition keys_match w : Prop := forall key s,
  pending w !! key = Some s -> queue_key (json_unmarshal s).1 = key.

(** Without the keys of the requests that some handler takes. *)
Lemma remove_busy_keys w : keys_match w ->
  remove_keys (busy_keys (queue_items w)) (pending w) =
  filter (fun kv => idle (json_unmarshal (A := ApiData) kv.2).1) (pending w).
Proof.
  intros Hk. apply map_eq. intros key. apply option_eq. intros s.
  rewrite remove_keys_Some, map_lookup_filter_Some, elem_of_busy_keys. simpl. split.
  - intros [Hn Hs]. split; [done|]. apply dec_stable. intros Hi. apply Hn.
    exists (json_unmarshal s).1. split_and!; [|done|by apply Hk]. apply elem_of_queue_items. eauto.
  - intros [Hs Hi]. split; [|done]. intros (d & (key' & s' & Hs' & ->)%elem_of_queue_items & Hni & Hkey).
    rewrite (Hk _ _ Hs') in Hkey. by simplify_eq.
Qed.

(** C10: whatever the network and the database do, a request leaves the queue in a
    round of [HandleApiRequests] only when every message it asks for was
    acknowledged: for a downloaded or deleted content, by each of the two flags
    that is set, a batch that contains its content; for a command or a
    provisioning, its own message. *)
Theorem request_leaves_when_acknowledged n1 n2 w o w' key s :
  ready w -> keys_match w ->
  HandleApiRequests_round logger deviceId n1 n2 w = (o, w') ->
  pending w !! key = Some s -> pending w' !! key = None ->
  acknowledged logger deviceId (json_unmarshal s).1 w'.
Proof.
  intros Hr Hk E Hs Hn. rewrite HandleApiRequests_round_run in E by done.
  pose proof (ProcessRequests_ok logger deviceId (queue_items w) n1 n2 w) as Hok.
  destruct Hok as (_ & _ & Hq); [apply Hr|]. rewrite E in Hq. simpl in Hq.
  destruct (Hq key) as (d & Hd & Hkey & Hack); [by eexists|done|].
  apply elem_of_queue_items in Hd as (key' & s' & Hs' & ->).
  rewrite (Hk _ _ Hs') in Hkey. subst key'. by simplify_eq.
Qed.

(** The requests are grouped by their type, without changing their order or
    losing one. *)
Lemma segregation_is_a_partition (l : list ApiData) (t : Z) :
  default [] (GetSegregatedItems l !! t) = filter (fun d => ApiType d = t) l /\
  (is_Some (GetSegregatedItems l !! t) <-> exists d, d ∈ l /\ ApiType d = t).
Proof.
  rewrite segregated_lookup. destruct (filter _ l) as [|d l'] eqn:E; simpl.
  - split; [done|]. split; [by intros []|]. intros (d & Hd & Ht).
    assert (d ∈ filter (fun d => ApiType d = t) l) as Hin by (by apply list_elem_of_filter).
    rewrite E in Hin. by apply elem_of_nil in Hin.
  - split; [done|]. split; [|by eexists]. intros _. exists d.
    assert (d ∈ filter (fun d => ApiType d = t) l) as Hin by (rewrite E; by left).
    by apply list_elem_of_filter in Hin as [? ?].
Qed.

(** C11: sending in batches is running a list of jobs that is fixed before anything
    is sent; for each kind of message the jobs cut the requests that ask for it,
    in order, into batches of the given size, the last one possibly shorter. *)
Theorem batches_are_chunks (k : Kind) (items : list ApiData) (n : nat) :
  0 < n ->
  let ix := seq 0 (length items) in
  (forall w, send_in_batches deviceId k items (Z.of_nat n) w =
             run_jobs deviceId k items (schedule n items) w) /\
  cut_into n (cloud_jobs (schedule n items)) (flagged SendCloudTelemetry items ix) /\
  cut_into n (iot_jobs (schedule n items)) (flagged SendIOTCentralTelemetry items ix).
Proof.
  intros Hn ix. split_and!.
  - intros w. by apply send_in_batches_jobs.
  - by apply (schedule_cloud n items ix [] []).
  - by apply (schedule_iot n items ix [] []).
Qed.

(** C12: with positive batch sizes and a well-formed queue, any number of rounds
    returns without an error or a panic, whatever the network and the commits do;
    the index is untouched and the queue stays well formed: every entry decodes
    to a request that is stored under its own key and asks for a message still. *)
Theorem rounds_return rounds n1 n2 w o w' :
  (1 <= n1)%Z -> (1 <= n2)%Z -> ready w -> map_Forall queue_good (pending w) ->
  HandleApiRequests logger deviceId rounds n1 n2 w = (o, w') ->
  o = Ret tt /\ ready w' /\ sat w' = sat w /\ assets w' = assets w /\
  map_Forall queue_good (pending w').
Proof.
  intros Hn1 Hn2 Hr Hq E.
  destruct (HandleApiRequests_returns logger deviceId rounds n1 n2 w Hn1 Hn2 w) as ([] & w1 & E1 & Hw1);
    [by split_and!|]. rewrite E in E1. simplify_eq. split; [done|exact Hw1].
Qed.

Lemma sendAssetmapInBatches_db n w : w_db (sendAssetmapInBatches logger deviceId n w).2 = w_db w.
Proof.
  set (P := fun w' : world => w_db w' = w_db w).
  assert (forall r m, preserves P (sendDownloadedTelemetryData logger r m)) as Hsend.
  { intros r m. unfold sendDownloadedTelemetryData. destruct (json_marshal r); [apply preserves_fail|].
    intros w1 Hw1. unfold P, send_command. by rewrite Log_db. }
  assert (preserves P (sendAssetmapInBatches logger deviceId n)) as Hp; [|by apply Hp].
  unfold sendAssetmapInBatches. apply preserves_bind; [by apply preserves_ignoring; intros w1|intros m].
  case_decide; [apply preserves_panic|]. apply preserves_bind; [apply preserves_gets|intros kvs].
  apply preserves_bind.
  - apply preserves_for_fold. intros b kv _. unfold assetmap_step.
    destruct (json_unmarshal kv.2) as [info [e|]]; [apply preserves_fail|]. case_decide; [|apply preserves_ret].
    apply preserves_bind; [apply Hsend|intros _; apply preserves_ret].
  - intros b. case_decide; [apply Hsend|apply preserves_ret].
Qed.

Lemma sendAssetmapInBatches_complete n w w' :
  ready w -> sendAssetmapInBatches logger deviceId n w = (Ret tt, w') ->
  w_db w' = w_db w /\
  forall id s, assets w !! id = Some s -> exists info,
    json_unmarshal s = (info, None) /\
    cloud_delivered logger deviceId ContentDownloaded true
      {| cd_ContentId := id; cd_OperationTime := DownloadTime info |} w'.
Proof.
  intros Hr. unfold sendAssetmapInBatches. erewrite bind_Ret by (by apply GetAssetInfoMapItems_run).
  case_decide; [done|]. erewrite bind_Ret by done. set (kvs := env_range _ _). intros E.
  destruct (assetmap_run logger deviceId n kvs [] w w' E) as (Hd & _ & _ & Hall).
  split; [done|]. intros id s Hs. apply (Hall (id, s)). unfold kvs.
  by rewrite env_range_perm, elem_of_map_to_list.
Qed.

Lemma connected_sends `{!JsonMessages logger} n1 n2 w :
  reliable -> connected logger w -> (1 <= n1)%Z -> (1 <= n2)%Z -> ready w -> keys_match w ->
  sizes_ok (queue_items w) -> times_ok (queue_items w) -> exists w',
  ProcessRequests logger deviceId (GetSegregatedItems (queue_items w)) n1 n2 w = (Ret tt, w') /\
  sat w' = sat w /\ assets w' = assets w /\
  pending w' = filter (fun kv => idle (json_unmarshal (A := ApiData) kv.2).1) (pending w) /\
  forall key s, pending w !! key = Some s ->
    idle (json_unmarshal (A := ApiData) s).1 \/ acknowledged logger deviceId (json_unmarshal s).1 w'.
Proof.
  intros Hrel Hc Hn1 Hn2 Hr Hk Hs Htm.
  destruct (drains_process logger deviceId Hrel (queue_items w) n1 n2 w Hn1 Hn2 Hs Htm Hr Hc)
    as (w' & E & Hsat & Hassets & Hp & _). rewrite remove_busy_keys in Hp by done.
  exists w'. split_and!; [done..|]. intros key s Hs0.
  destruct (decide (idle (json_unmarshal s).1)) as [Hi|Hi]; [by left|right].
  destruct (ProcessRequests_ok logger deviceId (queue_items w) n1 n2 w (proj2 (proj2 Hr))) as (_ & _ & Hq).
  rewrite E in Hq. destruct (Hq key) as (d & Hd & Hkey & Hack); [by eexists| |].
  - simpl. rewrite Hp. apply map_lookup_filter_None_2. right. intros s' Hs'. by simplify_eq.
  - apply elem_of_queue_items in Hd as (key' & s' & Hs' & ->). rewrite (Hk _ _ Hs') in Hkey. by simplify_eq.
Qed.

(** C13: once the proxy acknowledges every message and commits succeed, whatever
    happened before, one round of [HandleApiRequests] sends the queue empty: it
    returns nil, every request was acknowledged, and what is left in the queue are
    exactly the entries no handler takes (an unknown type, or both messages marked
    as sent).  The sizes of the downloaded contents have to be numbers JSON can
    hold, and the times of all contents times it can hold (years 0 to 9999), for a
    batch with another one is never sent. *)
Theorem connected_round_drains_queue `{!JsonMessages logger} n1 n2 w o w' :
  reliable -> connected logger w -> (1 <= n1)%Z -> (1 <= n2)%Z -> ready w -> keys_match w ->
  sizes_ok (queue_items w) -> times_ok (queue_items w) ->
  HandleApiRequests_round logger deviceId n1 n2 w = (o, w') ->
  o = Ret tt /\ sat w' = sat w /\ assets w' = assets w /\
  pending w' = filter (fun kv => idle (json_unmarshal (A := ApiData) kv.2).1) (pending w) /\
  forall key s, pending w !! key = Some s ->
    idle (json_unmarshal (A := ApiData) s).1 \/ acknowledged logger deviceId (json_unmarshal s).1 w'.
Proof.
  intros Hrel Hc Hn1 Hn2 Hr Hk Hs Htm E. rewrite HandleApiRequests_round_run in E by done.
  destruct (connected_sends n1 n2 w Hrel Hc Hn1 Hn2 Hr Hk Hs Htm) as (w1 & E1 & Hrest).
  rewrite E in E1. by simplify_eq.
Qed.

(** C14: a round of the loop that sends the map of the contents asks for it only
    when an hour has passed since the time stored in the configuration; it stores
    the current time only after every content on the device was acknowledged, and
    leaves the configuration alone otherwise. *)
Theorem assetmap_time_means_sent `{!Ini} file n cfg w cfg' w' :
  let now := (env_now (w_trace w) / 1000000000)%Z in
  let last := match ini_int64 "DEVICE_DETAIL" "ASSETMAP_TIMESTAMP" cfg with inr t => t | inl _ => 0%Z end in
  ready w -> HandleAssetMapRequest_round logger deviceId file n cfg w = (Ret cfg', w') ->
  w_db w' = w_db w /\
  (cfg' = cfg \/
   (1 <= Z.quot (Z.quot (wrap64 (now - last)) 60) 60)%Z /\
   cfg' = ini_set "DEVICE_DETAIL" "ASSETMAP_TIMESTAMP" (format_int now) cfg /\
   forall id s, assets w !! id = Some s -> exists info,
     json_unmarshal s = (info, None) /\
     cloud_delivered logger deviceId ContentDownloaded true
       {| cd_ContentId := id; cd_OperationTime := DownloadTime info |} w').
Proof.
  intros now last Hr. unfold HandleAssetMapRequest_round. erewrite bind_Ret by done. cbv zeta. fold now last.
  case_decide; [|by intros [= <- <-]; auto].
  destruct (sendAssetmapInBatches logger deviceId n (log_event EvClock w)) as [o1 w1] eqn:E.
  pose proof (sendAssetmapInBatches_db n (log_event EvClock w)) as Hdb1. rewrite E in Hdb1. simpl in Hdb1.
  destruct o1 as [[]|e|s|].
  - erewrite bind_Ret by (by apply attempt_Ret). cbv beta iota.
    set (cfg1 := ini_set _ _ _ cfg). intros Hrun.
    destruct (sendAssetmapInBatches_complete n (log_event EvClock w) w1 Hr E) as [_ Hall].
    assert (cfg' = cfg1 /\ w_db w' = w_db w1 /\ w_trace w' = w_trace w1) as (-> & Hdb & Ht).
    { revert Hrun. unfold ignoring, attempt, disk_op, mbind, M_bind.
      destruct (ini_save _ _ _) as [[] ?]; by intros [= <- <-]. }
    split; [congruence|]. right. split_and!; [done..|]. intros id s Hs.
    destruct (Hall id s Hs) as (info & Ei & Hd). exists info. split; [done|].
    unfold cloud_delivered, command_sent, sent in *. by rewrite Ht.
  - erewrite bind_Ret by (by apply attempt_Fail). intros [= <- <-]. auto.
  - unfold attempt, mbind, M_bind. by rewrite E.
  - unfold attempt, mbind, M_bind. by rewrite E.
Qed.

(** In the run on [items] in batches of [n] from [w] on, the content message of the
    batch with item [i] fails, and no IoT message with the item has been tried before.  (When
    every request asks for both messages the IoT message of a batch is always
    tried after its content message; a request that is alone in its run, too.) *)
Definition content_message_fails (items : list ApiData) (n i : nat) w : Prop :=
  exists js1 p js2 a w1 e w2, schedule n items = js1 ++ CloudJob p :: js2 /\ i ∈ p /\
    (i ∉ concat (iot_jobs js1)) /\
    for_fold js1 items (run_job deviceId (downloads logger) items) w = (Ret a, w1) /\
    sendDownloadedTelemetryData logger
      {| ur_DeviceId := deviceId; ur_Contents := download_content <$> deref items p |} false w1 = (Fail e, w2).

(** C15: in a run on any list of downloads with distinct ids, with commits that
    succeed, when the content message of the batch of a request fails before the
    IoT message of the request is tried, and the database can hold the request, the
    queue asks for the IoT message of the request after the run, even when that
    message is acknowledged later in the run: the cleared flag exists in memory
    only, so the message is sent again.  (Where the IoT message is acknowledged
    first, the failing content message stores the request with that flag
    cleared.) *)
Theorem cloud_failure_forgets_iot items n i d w w' :
  reliable -> ready w -> 0 < n -> Forall json_wf items -> NoDup (Id <$> items) ->
  items !! i = Some d -> SendIOTCentralTelemetry d = true -> storable (Id d) (incr_retry d) ->
  content_message_fails items n i w ->
  sendDownloadRequestInBatches logger deviceId items (Z.of_nat n) w = (Ret tt, w') ->
  still_asks (Id d) w'.
Proof.
  intros Hrel Hr Hn Hwf Hids Hd Hi Hst (js1 & p & js2 & a & w1 & e & w2 & Es & Hip & Hio & E1 & Ef).
  unfold sendDownloadRequestInBatches. rewrite send_in_batches_jobs by done. unfold run_jobs. rewrite Es.
  pose proof (downloads_spec logger deviceId) as Hk.
  assert (running items items (js1 ++ CloudJob p :: js2) w) as Ha0.
  { split; [done|done| |apply Hr]. rewrite <-Es. by apply asks_schedule. }
  pose proof (run_jobs_running logger deviceId _ _ _ Hk items _ _ _ _ _ _ Ha0 E1) as Ha.
  assert (a !! i = Some d) as Hai.
  { rewrite <-Hd. eapply run_some_other; [exact E1|]. exact (untouched_before _ _ _ _ _ (run_asks _ _ _ _ Ha0) Hip Hio). }
  unfold mbind at 1, M_bind at 1. rewrite for_fold_app. erewrite bind_Ret by exact E1. cbn [for_fold].
  unfold mbind at 1, M_bind at 1.
  destruct (run_job deviceId (downloads logger) items a (CloudJob p) w1) as [[a2| | |] w3] eqn:E2; [|done..].
  assert (asking items i a2 js2 w3) as Hask.
  { destruct (message_downloaded logger deviceId false _ _ _ _ Ef) as (Hdb & _ & _).
    unfold run_job in E2. rewrite (bind_Ret _ _ _ _ _ (attempt_Fail _ _ _ _ Ef)) in E2. simpl in E2.
    eapply (failed_batch_asks items Hids p js2 a i d e w2); [exact Hrel| |exact Hip|exact Hai|done|done|exact E2].
    eapply running_frame; [|exact Ha]. unfold has_bucket. rewrite Hdb. apply Ha. }
  destruct (for_fold js2 a2 _ w3) as [[a3| | |] w4] eqn:E3; [|done..].
  intros [= <-]. pose proof (run_jobs_asking logger deviceId _ _ _ Hk items Hids _ _ _ _ _ _ Hask E3)
    as (Hr4 & _ & d4 & Hd4 & _ & Hasks).
  replace (Id d) with (Id d4); [exact Hasks|].
  pose proof (f_equal (.!! i) (run_ids _ _ _ _ Hr4)) as Eid. rewrite !list_lookup_fmap, Hd, Hd4 in Eid. by injection Eid.
Qed.
End Cloud.

(** ** Witnesses: a queue with one request of a content *)

Definition ex_request : ApiData :=
  {| Id := "c1"; ApiType := Downloaded; RetryCount := 0; OperationTime := 7;
     SendCloudTelemetry := true; SendIOTCentralTelemetry := true;
     Properties := [ {| Key := "size"; Value := "12.5" |}; {| Key := "commandId"; Value := "cmd1" |} ] |}.
Definition ex_stored : string := bits_of (encode ex_request).

Lemma ex_unmarshal : json_unmarshal ex_stored = (ex_request, None).
Proof. evaluate. Qed.

Definition ex_queue : @world (mem_bolt false) _ := ref_world false [] [] [] [("c1", ex_stored)].
Lemma ex_queue_entry key s : pending ex_queue !! key = Some s -> key = "c1" /\ s = ex_stored.
Proof.
  unfold ex_queue. rewrite ref_world_pending. simpl.
  by intros [[? ?]|[_ Hn]]%lookup_insert_Some; [subst|rewrite lookup_empty in Hn].
Qed.
Lemma ex_queue_ready : ready ex_queue.
Proof. unfold ex_queue. apply (ref_world_ready false). Qed.
Lemma ex_queue_good : map_Forall queue_good (pending ex_queue).
Proof.
  intros key s [-> ->]%ex_queue_entry. unfold queue_good. rewrite ex_unmarshal. split_and!; [done..|].
  apply not_idle_flag; by left.
Qed.

Definition ex_asset : string :=
  bits_of (encode {| DownloadTime := 5; FolderPath := "/c/c0/v.mpd"; CommandId := "k0" |}).

(** *** Every message is acknowledged. *)
Module Acked.
#[local] Hint Extern 0 Bolt => exact (mem_bolt false) : typeclass_instances.
#[local] Instance ex_env : Env := scripted (Script [] []).
#[local] Instance ex_env_laws : EnvLaws := scripted_laws _.

Definition ex_round : outcome unit * world :=
  HandleApiRequests_round ref_logger "hub-1" 2 2 ex_queue.

Lemma request_leaves_when_acknowledged_witness :
  acknowledged ref_logger "hub-1" ex_request ex_round.2.
Proof.
  rewrite <-(f_equal fst ex_unmarshal : _ = ex_request).
  apply (request_leaves_when_acknowledged ref_logger "hub-1" 2 2 ex_queue (Ret tt) ex_round.2 "c1").
  - apply ex_queue_ready.
  - intros key s [-> ->]%ex_queue_entry. by rewrite ex_unmarshal.
  - apply run_pair. evaluate.
  - evaluate.
  - evaluate.
Defined.

Lemma batches_are_chunks_witness :
  cut_into 2 (cloud_jobs (schedule 2 [ex_request; ex_request; ex_request])) [0; 1; 2] /\
  cloud_jobs (schedule 2 [ex_request; ex_request; ex_request]) = [[0; 1]; [2]].
Proof.
  split; [|evaluate].
  exact (proj1 (proj2 (batches_are_chunks "hub-1" (downloads ref_logger)
    [ex_request; ex_request; ex_request] 2 ltac:(lia)))).
Defined.

#[local] Instance clock_ini : Ini := {|
  ini := string;
  ini_string section k c := c;
  ini_int64 section k c := match parse_int 64 c with (t, None) => inr t | (_, Some _) => inl "invalid syntax" end;
  ini_set section k v c := v;
  ini_save file c d := (None, d);
|}.
Definition ex_before : ini := "7".
Definition ex_after : ini := "1600000000".
Lemma assetmap_time_means_sent_witness :
  cloud_delivered ref_logger "hub-1" ContentDownloaded true {| cd_ContentId := "c0"; cd_OperationTime := 5 |}
    (HandleAssetMapRequest_round ref_logger "hub-1" "/d.ini" 2 ex_before
      (ref_world false [] [("s0", "c0")] [("c0", ex_asset)] [])).2.
Proof.
  set (w := ref_world false [] _ _ _).
  destruct (assetmap_time_means_sent ref_logger "hub-1" "/d.ini" 2 ex_before w ex_after
    (HandleAssetMapRequest_round ref_logger "hub-1" "/d.ini" 2 ex_before w).2) as [_ [Hc|(_ & _ & Hall)]].
  - apply (ref_world_ready false).
  - apply run_pair. evaluate.
  - discriminate Hc.
  - destruct (Hall "c0" ex_asset ltac:(evaluate)) as (info & Ei & Hinfo). vm_compute in Ei. injection Ei as <-. exact Hinfo.
Defined.
End Acked.

(** *** The first message is refused. *)
Module Nacked.
#[local] Hint Extern 0 Bolt => exact (mem_bolt false) : typeclass_instances.
#[local] Instance ex_env : Env := scripted (Script [] [0]).
#[local] Instance ex_env_laws : EnvLaws := scripted_laws _.

Lemma rounds_return_witness :
  map_Forall queue_good (pending (HandleApiRequests ref_logger "hub-1" 3 2 2 ex_queue).2).
Proof.
  destruct (rounds_return ref_logger "hub-1" 3 2 2 ex_queue _ _ ltac:(lia) ltac:(lia)
    ex_queue_ready ex_queue_good (surjective_pairing _)) as (_ & _ & _ & _ & Hq).
  exact Hq.
Defined.

(** After the refused message the next round empties the queue. *)
#[local] Instance ex_messages : JsonMessages ref_logger.
Proof. split; eauto. Qed.
Definition ex_second : world := (HandleApiRequests ref_logger "hub-1" 1 2 2 ex_queue).2.
Lemma ex_second_ok : queue_ok ex_queue ex_second.
Proof.
  destruct (HandleApiRequests_returns ref_logger "hub-1" 1 2 2 ex_queue ltac:(lia) ltac:(lia) ex_queue)
    as ([] & w & E & Hw); [split_and!; [apply ex_queue_ready|done..|apply ex_queue_good]|].
  unfold ex_second. by rewrite E.
Qed.
Lemma ex_second_connected : connected ref_logger ex_second.
Proof.
  intros tr [tr' ->]. split; [done|]. intros name message. unfold env_send, ex_env, scripted.
  rewrite decide_False; [done|]. simpl. rewrite list_elem_of_singleton. unfold sent_count.
  rewrite List.filter_app, length_app.
  assert (length (List.filter (fun e => match e with EvTelemetry _ _ => true | _ => false end) (w_trace ex_second)) = 2)
    as -> by evaluate. lia.
Qed.
Lemma ex_second_sizes : sizes_ok (queue_items ex_second).
Proof. unfold sizes_ok. apply (bool_decide_eq_true_1 _). evaluate. Qed.
Lemma ex_second_times : times_ok (queue_items ex_second).
Proof. unfold times_ok. apply (bool_decide_eq_true_1 _). evaluate. Qed.
Lemma connected_round_drains_queue_witness :
  size (pending ex_second) = 1 /\
  pending (HandleApiRequests_round ref_logger "hub-1" 2 2 ex_second).2 = ∅.
Proof.
  split; [evaluate|].
  destruct (connected_round_drains_queue ref_logger "hub-1" 2 2 ex_second _ _ sure_reliable
    ex_second_connected ltac:(lia) ltac:(lia) (proj1 ex_second_ok)
    (fun key s Hs => proj1 (proj2 (proj2 (proj2 (proj2 ex_second_ok)) key s Hs)))
    ex_second_sizes ex_second_times (surjective_pairing _)) as (_ & _ & _ & Hp & _).
  rewrite Hp. evaluate.
Defined.

(** The message of the IoT graph was acknowledged all the same, and so were the
    messages of the next request, which left the queue. *)
Definition ex_request2 : ApiData :=
  {| Id := "c2"; ApiType := Downloaded; RetryCount := 0; OperationTime := 8;
     SendCloudTelemetry := true; SendIOTCentralTelemetry := true; Properties := [] |}.
Definition ex_two : @world (mem_bolt false) _ :=
  ref_world false [] [] [] [("c1", ex_stored); ("c2", bits_of (encode ex_request2))].
Definition ex_run : outcome unit * world :=
  sendDownloadRequestInBatches ref_logger "hub-1" [ex_request; ex_request2] 1 ex_two.
Lemma cloud_failure_forgets_iot_witness :
  still_asks "c1" ex_run.2 /\ pending ex_run.2 !! "c2" = None /\
  List.map (fun e => match e with EvTelemetry m b => (tm_EventType m, b) | _ => (EmptyString, false) end)
    (List.filter (fun e => match e with EvTelemetry _ _ => true | _ => false end) (w_trace ex_run.2)) =
  [(TelemetryCommandMessage, false); (AssetDownloadOnDeviceFromSES, true);
   (TelemetryCommandMessage, true); (AssetDownloadOnDeviceFromSES, true)].
Proof.
  split; [|split; evaluate].
  apply (cloud_failure_forgets_iot ref_logger "hub-1" [ex_request; ex_request2] 1 0 ex_request ex_two).
  - apply sure_reliable.
  - apply (ref_world_ready false).
  - lia.
  - repeat constructor.
  - apply (bool_decide_eq_true_1 _). evaluate.
  - done.
  - done.
  - apply storable_bits; evaluate.
  - exists [], [0], [IotJob [0]; CloudJob [1]; IotJob [1]], [ex_request; ex_request2], ex_two,
      "[LoggerGRPC] error in sending upstream: unavailable",
      (sendDownloadedTelemetryData ref_logger
        {| ur_DeviceId := "hub-1"; ur_Contents := [download_content ex_request] |} false ex_two).2.
    split_and!; [evaluate|by left|apply not_elem_of_nil|done|]. apply run_pair. evaluate.
  - apply run_pair. evaluate.
Defined.
End Nacked.
