(* ===== verification/HubMain.v ===== *)
(** [hub.go]: the start of the hub, and the hub as a whole: a state machine whose
    steps are the start, the rounds of the goroutines it starts, and crashes. *)
From S2P Require Import Prelude GoStrings GoFloat LogData Host Storage Logger CloudData FlatIndex Cloud Commands Mstore Telemetry Sha256 Files KeyManager.

(** [PublicKey] of [hub.go]: a key of the blob storage *)
Record BlobKey := { TimeStamp : string; bk_PublicKey : string }.

Section Main.
Context `{Bolt, Disk, Env, Json ContentInfoOnDevice, Json ApiData, Json UpdateRequest,
  Json (list ContentProperties_), Json CommandStatusRequest, Json ProvisionDeviceRequest,
  Json TelemetryMessage, Json UpdateFilterPayload, Json VodList, Json VodInfo, Json (list BlobKey)}
  `{!Ini, !Files, !Jwt, !Statfs}.
Variable logger : Logger.

(** [http.Get(storage_url)]: no response, or what [ioutil.ReadAll] read of its
    body; when the reading fails the code goes on with that part. *)
Definition http_body (url : string) : Hub (option string) := fun w =>
  (Ret (match env_http (w_trace w) url with
        | inl _ => None
        | inr (inl _) => Some (http_partial (w_trace w) url)
        | inr (inr body) => Some body
        end), log_event (EvHttpGet url) w).

(** Writing to the nil file of a failed [OpenFile] is an error that is logged. *)
Definition write_key (dir : string) (key : BlobKey) : Hub unit :=
  let filePath := path_join [dir; TimeStamp key +:+ ".pem"] in
  r ← try! (disk_op (os_open_file false filePath));
  match r with
  | inl _ => mret tt
  | inr _ => ignore! tt of (disk_op (os_write filePath (bk_PublicKey key)))
  end.

(** The directory and the cache of keys; without a response no key is loaded. *)
Definition setup_keys (storage_url pubkeys_dir : string) (keys_cache_size : Z) : Hub KeyManager :=
  km ← MakeKeyManager keys_cache_size pubkeys_dir;
  found ← path_exists pubkeys_dir;
  (if (found : bool) then mret tt else ignore! tt of (disk_op (os_mkdir_all pubkeys_dir)));;
  resp ← http_body storage_url;
  match resp with
  | None => mret km
  | Some body =>
      (* an error of [Unmarshal] is logged; what it decoded is used *)
      let keys := (json_unmarshal (A := list BlobKey) body).1 in
      for_each keys (write_key (PubkeysDir km));;
      load_keys km
  end.

(** [cfg.Section(s).Key(k).Int()], with the default of an error *)
Definition int_or (default : Z) (section key : string) (cfg : ini) : Z :=
  match ini_int64 section key cfg with inr n => n | inl _ => default end.

Variable cfg : ini.
(** [INIT_FILE_SYSTEM] *)
Variable initflag : bool.

Definition device_ini : string := ini_string "HUB_AUTHENTICATION" "DEVICE_DETAIL_FILE" cfg.
Definition downloadBatchMessageSize : Z := int_or 10 "BLENDNET" "DOWNLOAD_TELEMETRY_MESSAGE_SIZE" cfg.
Definition deleteBatchMessageSize : Z := int_or 10 "BLENDNET" "DELETE_TELEMETRY_MESSAGE_SIZE" cfg.
Definition assetmapMessageSize : Z := int_or 25 "BLENDNET" "ASSETMAP_MESSAGE_SIZE" cfg.
Definition containerStorage : string := ini_string "DEVICE_INFO" "MSTORE_CONTAINER_STORAGE" cfg.
Definition deviceStorage : string := ini_string "DEVICE_INFO" "MSTORE_DEVICE_STORAGE" cfg.

(** The start up to the first goroutine; [None] is [os.Exit(1)]. *)
Definition main_open (device_cfg : ini) : Hub (option ini) :=
  r ← (if initflag then attempt InitFileSystem else mret (inr tt));
  match r with
  | inl _ => mret None
  | inr _ => c ← restore_filters logger device_ini cfg device_cfg; PrintBuckets;; mret (Some c)
  end.

(** The rest of the start, while the first goroutines run. *)
Definition main_setup : Hub KeyManager :=
  km ← setup_keys (ini_string "APP_AUTHENTICATION" "BLOB_STORAGE_KEYS_GET_URL" cfg)
         (ini_string "APP_AUTHENTICATION" "PUBLIC_KEY_STORE_PATH" cfg)
         (int_or 0 "APP_AUTHENTICATION" "KEY_MANAGER_CACHE_SIZE" cfg);
  queue_provisioned (deviceId logger);;
  mret km.

(** ** The hub as a state machine

    The process is down, or up with its configuration of the device, its cache of
    keys once it is set up, and the requests that [HandleApiRequests] has read
    and not yet sent. *)
Inductive hub :=
  | Down (w : world)
  | Up (w : world) (device_cfg : ini) (km : option KeyManager) (reading : option (list string)).

Definition world_of (h : hub) : world := match h with Down w | Up w _ _ _ => w end.

(** After a round: the state [f] makes of its result, or down when it ended the
    process with a panic. *)
Definition after_run {A} (r : outcome A * world) (f : A -> world -> hub) : hub :=
  match r with (Ret a, w) => f a w | (_, w) => Down w end.

(** The steps of the process are the rounds of its goroutines; [HandleApiRequests]
    reads the queue and sends the requests in two steps, between which the others
    run. *)
Inductive hub_step : hub -> hub -> Prop :=
  | step_open w device_cfg :
      hub_step (Down w) (after_run (main_open device_cfg w)
        (fun c w' => match c with Some c => Up w' c None None | None => Down w' end))
  | step_setup w c :
      hub_step (Up w c None None) (after_run (main_setup w) (fun km w' => Up w' c (Some km) None))
  | step_poll w c km reading :
      hub_step (Up w c km reading)
        (after_run (pollMstore_round logger containerStorage deviceStorage w) (fun _ w' => Up w' c km reading))
  | step_telemetry w c km reading :
      hub_step (Up w c km reading)
        (after_run (telemetryScheduler logger 1 containerStorage w) (fun _ w' => Up w' c km reading))
  | step_receive params w c km reading :
      hub_step (Up w c km reading)
        (after_run (ReceiveCommand logger params cfg w) (fun _ w' => Up w' c km reading))
  (** the goroutine of a command; here any may run at any time *)
  | step_task t w c km reading :
      hub_step (Up w c km reading) (after_run (run_task logger t cfg c w) (fun c' w' => Up w' c' km reading))
  | step_read w c km :
      hub_step (Up w c (Some km) None) (after_run (GetPendingApiRequests w)
        (fun l w' => Up w' c (Some km) (Some l)))
  | step_send w c km l :
      hub_step (Up w c (Some km) (Some l))
        (after_run (ProcessRequests logger (deviceId logger)
            (GetSegregatedItems ((fun data => (json_unmarshal data).1) <$> l))
            downloadBatchMessageSize deleteBatchMessageSize w)
          (fun _ w' => Up w' c (Some km) None))
  | step_assetmap w c km reading :
      hub_step (Up w c (Some km) reading)
        (after_run (HandleAssetMapRequest_round logger (deviceId logger) device_ini assetmapMessageSize c w)
          (fun c' w' => Up w' c' (Some km) reading))
  (** between rounds; a crash within one leaves the database as a run of the round
      does whose remaining commits fail *)
  | step_crash w c km reading : hub_step (Up w c km reading) (Down w)
  (** anything that leaves the database alone: other programs and their files, the
      passing of time, requests of clients that are served *)
  | step_outside w w' c km reading : w_db w' = w_db w -> hub_step (Up w c km reading) (Up w' c km reading).
End Main.
