(* ===== verification/HubSpec.v ===== *)
(** The invariant of the hub: everything stored is well typed.  It holds of a fresh
    database, every transaction of the hub keeps it, and so does every step. *)
From S2P Require Import Prelude GoStrings GoFloat Utf8 LogData Host Storage Logger CloudData FlatIndex Index Mstore MstoreSpec MstoreThms Cloud CloudSpec CloudBatch CloudThms Commands CommandsThms Telemetry Sha256 Files KeyManager HubMain.
From stdpp Require Import relations.

(** What the documentation of [encoding/json] says of the hub's data: values whose
    strings are valid UTF-8 and whose times are in range are held without loss, only
    times in range are held, and
    decoded strings are valid UTF-8; the clock shows a time in range, and the
    configuration is a UTF-8 text. *)
Class HubText `{Env, Ini, Json ContentInfoOnDevice, Json ApiData, Json VodInfo, Json UpdateFilterPayload} : Prop := {
  wf_request (d : ApiData) : utf8 (Id d) -> Forall (fun p => utf8 (Key p) /\ utf8 (Value p)) (Properties d) ->
    json_time (OperationTime d) -> json_wf d;
  wf_time (d : ApiData) : json_wf d -> json_time (OperationTime d);
  wf_info (c : ContentInfoOnDevice) : utf8 (FolderPath c) -> utf8 (CommandId c) ->
    json_time (DownloadTime c) -> json_wf c;
  text_vod s : let m := vi_Metadata (json_unmarshal (A := VodInfo) s).1 in
    utf8 (CID m) /\ utf8 (Contentid (vm_UserDefined m)) /\
    utf8 (Contentbroadcastcommandid (vm_UserDefined m)) /\ utf8 (VideoFilename m);
  text_info s : utf8 (CommandId (json_unmarshal (A := ContentInfoOnDevice) s).1);
  text_filter s : utf8 (CommandID (json_unmarshal (A := UpdateFilterPayload) s).1);
  text_ini section key c : utf8 (ini_string section key c);
  clock_range tr : json_time (env_now tr);
}.

Section Spec.
Context `{Bolt, Disk, Env, Json ContentInfoOnDevice, Json ApiData, Json UpdateRequest,
  Json (list ContentProperties_), Json CommandStatusRequest, Json ProvisionDeviceRequest,
  Json TelemetryMessage, Json UpdateFilterPayload, Json VodList, Json VodInfo, Json (list BlobKey)}
  `{!Ini, !Files, !Jwt, !Statfs}
  `{!BoltLaws, !EnvLaws, !ApiJson, !JsonLaws ContentInfoOnDevice, !HubText}.
Variable logger : Logger.
Implicit Types (w : world).

(** ** Typed entries *)

(** An entry of the index decodes without an error. *)
Definition asset_good (key s : string) : Prop := (json_unmarshal (A := ContentInfoOnDevice) s).2 = None.
Definition sat_good (key value : string) : Prop := utf8 key /\ utf8 value.

Definition entries_ok w : Prop :=
  ready w /\ map_Forall sat_good (sat w) /\ map_Forall asset_good (assets w) /\ map_Forall queue_good (pending w).
#[export] Instance entries_ok_ready : ReadyInv entries_ok.
Proof. by intros w [? _]. Qed.
#[export] Instance entries_ok_proper : DbInv entries_ok.
Proof.
  intros w w' E. unfold entries_ok.
  by rewrite (ready_proper w w' E), (sat_proper w w' E), (assets_proper w w' E), (pending_proper w w' E).
Qed.

Lemma info_good (c : ContentInfoOnDevice) key s : json_wf c -> json_marshal c = inr s -> asset_good key s.
Proof. intros Hwf E. unfold asset_good. by rewrite (json_roundtrip c s Hwf E). Qed.

(** *** Transactions *)

Lemma remove_keys_Forall (P : string -> string -> Prop) ks (m : gmap string string) :
  map_Forall P m -> map_Forall P (remove_keys ks m).
Proof. intros Hm k v [_ Hk]%remove_keys_Some. by apply Hm. Qed.

Lemma entries_sat f w w' : entries_ok w -> db_updated SatelliteIdtoAssetIdMapping f w w' ->
  map_Forall sat_good (f (sat w)) -> entries_ok w'.
Proof.
  intros (Hr & _ & Ha & Hp) U Hs. destruct (sat_updated _ _ _ U) as (Es & Ea & Ep).
  unfold entries_ok. rewrite Es, Ea, Ep. split_and!; [by eapply ready_updated|done..].
Qed.
Lemma entries_assets f w w' : entries_ok w -> db_updated AssetPathMapping f w w' ->
  map_Forall asset_good (f (assets w)) -> entries_ok w'.
Proof.
  intros (Hr & Hs & _ & Hp) U Ha. destruct (assets_updated _ _ _ U) as (Es & Ea & Ep).
  unfold entries_ok. rewrite Es, Ea, Ep. split_and!; [by eapply ready_updated|done..].
Qed.
Lemma entries_pending f w w' : entries_ok w -> db_updated PendingAPIRequestMapping f w w' ->
  map_Forall queue_good (f (pending w)) -> entries_ok w'.
Proof.
  intros (Hr & Hs & Ha & _) U Hp. destruct (pending_updated _ _ _ U) as (Es & Ea & Ep).
  unfold entries_ok. rewrite Es, Ea, Ep. split_and!; [by eapply ready_updated|done..].
Qed.

Lemma safe_DeleteSatelliteIds ids : safe entries_ok (DeleteSatelliteIds ids).
Proof.
  apply (safe_touches _ _ _ _ (DeleteSatelliteIds_touches ids)); [by intros w [(? & _ & _) _]|].
  intros w w' Hw U. eapply entries_sat; [exact Hw|exact U|]. apply remove_keys_Forall, Hw.
Qed.
Lemma safe_DeleteAssetMapping ids : safe entries_ok (DeleteAssetMapping ids).
Proof.
  apply (safe_touches _ _ _ _ (DeleteAssetMapping_touches ids)); [by intros w [(_ & ? & _) _]|].
  intros w w' Hw U. eapply entries_assets; [exact Hw|exact U|]. apply remove_keys_Forall, Hw.
Qed.
(** An invariant that says no more of the queue than that its entries are typed. *)
Class RequestInv (P : world -> Prop) : Prop := {
  ri_db :: DbInv P;
  ri_entries w : P w -> entries_ok w;
  ri_put key data w w' : P w -> queue_good key data ->
    db_updated PendingAPIRequestMapping <[key := data]> w w' -> P w';
}.
#[export] Instance entries_ok_inv : RequestInv entries_ok.
Proof.
  split; [apply _|done|]. intros key data w w' Hw Hd U.
  eapply entries_pending; [exact Hw|exact U|]. apply map_Forall_insert_2; [done|apply Hw].
Qed.
(** The index stays as it is. *)
Definition typed_at (i : index) w : Prop := entries_ok w /\ abs w = i.
#[export] Instance typed_at_inv i : RequestInv (typed_at i).
Proof.
  split.
  - intros w w' E. unfold typed_at, abs. by rewrite (entries_ok_proper w w' E), (sat_proper w w' E), (assets_proper w w' E).
  - by intros w [? _].
  - intros key data w w' [Hw Hi] Hd U. split; [by eapply (ri_put key data w)|].
    destruct (pending_updated _ _ _ U) as (Es & Ea & _). unfold abs in *. by rewrite Es, Ea.
Qed.

Lemma safe_put_request P `{!RequestInv P} key data m : touches PendingAPIRequestMapping <[key := data]> m ->
  queue_good key data -> safe P m.
Proof.
  intros Ht Hd. apply (safe_touches _ _ _ _ Ht); [by intros w [(_ & _ & ?) _]%ri_entries|].
  intros w w' Hw U. by eapply ri_put.
Qed.
Lemma safe_typed_AddContent key data : queue_good key data -> safe entries_ok (AddContent key data).
Proof.
  intros Hd w Hw. destruct (AddContent key data w) as [o w'] eqn:E.
  destruct (AddContent_cases _ _ _ _ _ (proj2 (proj2 (proj1 Hw))) E) as (Ho & _ & _ & [U|Hs]); (split; [|done]); simpl.
  - by eapply ri_put.
  - by rewrite Hs.
Qed.
Lemma safe_CreateSatelliteIndexing cid a info : utf8 cid -> utf8 a -> asset_good a info ->
  safe entries_ok (CreateSatelliteIndexing cid a info).
Proof.
  intros Hc Ha Hi w (Hr & Hs & Hassets & Hp). destruct (CreateSatelliteIndexing cid a info w) as [o w'] eqn:E.
  destruct (CreateSatelliteIndexing_cases _ _ _ _ _ _ Hr E) as (Hr' & [(-> & Es & Ea & Ep)|(e & -> & Hsame)]);
    (split; [|done]); simpl.
  - unfold entries_ok. rewrite Es, Ea, Ep. split_and!; [done|by apply map_Forall_insert_2..|done].
  - by rewrite Hsame.
Qed.

(** *** The requests of the hub *)

Ltac text_request :=
  apply wf_request; simpl; [|repeat first [apply Forall_nil_2|apply Forall_cons_2]; simpl; try split|];
  auto with utf8; try apply clock_range; try done.

Lemma good_downloaded a time cid size cmd location s :
  utf8 a -> utf8 cid -> utf8 size -> utf8 cmd -> utf8 location -> json_time time ->
  json_marshal (downloaded_request a time cid size cmd location) = inr s -> queue_good a s.
Proof.
  intros Ha Hc Hs Hm Hl Ht E. refine (queue_good_marshal (downloaded_request a time cid size cmd location) s _ _ E);
    [text_request|apply not_idle_flag; by left].
Qed.
Lemma good_deleted c time info s :
  utf8 c -> utf8 (SesCid info) -> utf8 (dc_CommandId info) -> json_time time ->
  json_marshal (deleted_request c time info) = inr s -> queue_good ("DL_" +:+ c) s.
Proof.
  intros Hc Hs Hm Ht E. refine (queue_good_marshal (deleted_request c time info) s _ _ E);
    [text_request|apply not_idle_flag; [by right|by left]].
Qed.
Lemma good_provision time s : json_time time ->
  utf8 (deviceId logger) ->
  json_marshal (provision_request (deviceId logger) time) = inr s -> queue_good (deviceId logger) s.
Proof.
  intros Ht Hd E. refine (queue_good_marshal (provision_request (deviceId logger) time) s _ _ E);
    [text_request|apply not_idle_type; by right].
Qed.
Lemma good_report device cmd time reason s : utf8 device -> utf8 cmd -> json_time time ->
  json_marshal (command_report device cmd time reason) = inr s -> queue_good cmd s.
Proof.
  intros Hd Hc Ht E. pose proof (command_status_report device cmd time reason) as (_ & Ek & _).
  assert (queue_key (command_report device cmd time reason) = cmd) as <-.
  { unfold queue_key. by rewrite decide_True by done. }
  apply queue_good_marshal; [|apply not_idle_type; by left|done]. unfold command_report. case_decide; subst; text_request.
Qed.

(** The clock shows a time JSON can hold. *)
Lemma preserves_clock P `{!DbInv P} {A} (f : Z -> Hub A) :
  (forall t, json_time t -> preserves P (f t)) -> preserves P (time_now ≫= f).
Proof.
  intros Hf w Hw. erewrite bind_Ret by done. apply Hf; [apply clock_range|].
  exact (preserves_time_now P w Hw).
Qed.

(** *** The poll of the receiver *)

Variables containerStorage deviceStorage : string.
Hypothesis Hcontainer : utf8 containerStorage.
Hypothesis Hdevice : utf8 deviceStorage.

Definition vod_text (vod : VodInfo) : Prop :=
  let m := vi_Metadata vod in
  utf8 (CID m) /\ utf8 (Contentid (vm_UserDefined m)) /\
  utf8 (Contentbroadcastcommandid (vm_UserDefined m)) /\ utf8 (VideoFilename m).

Lemma typed_getMstoreFiles vod : vod_text vod -> safe entries_ok (getMstoreFiles vod containerStorage deviceStorage).
Proof.
  intros (Hcid & Hid & Hcmd & Hfile) w Hw. unfold getMstoreFiles. cbv zeta.
  erewrite bind_Ret by (by apply ignoring_Ret, DoesContentIdExist_run, Hw).
  case_bool_decide as Hin; [done|]. erewrite bind_Ret by done. cbn [DownloadTime FolderPath CommandId].
  set (path := replace_first deviceStorage containerStorage _).
  assert (utf8 path) as Hpath by (by apply utf8_replace_first).
  destruct (json_marshal {| DownloadTime := _; FolderPath := _; CommandId := _ |}) as [e|info] eqn:E; [done|].
  assert (asset_good (Contentid (vm_UserDefined (vi_Metadata vod))) info) as Hinfo.
  { eapply info_good; [|exact E]. apply wf_info; [done..|]. apply clock_range. }
  assert (entries_ok (log_event EvClock w)) as Hw1 by done.
  pose proof (clock_range (w_trace w)) as Ht. revert Hw1. generalize (log_event EvClock w). clear Hw.
  apply (safe_bind entries_ok); [by apply safe_CreateSatelliteIndexing|intros _].
  apply safe_bind; [apply safe_getDirSizeinMB|intros size].
  apply safe_bind; [apply safe_PrintBuckets; apply _|intros _].
  apply safe_bind; [|intros _; apply safe_ret].
  destruct (json_marshal (downloaded_request _ _ _ _ _ _)) as [e|data] eqn:Ed; [apply safe_ret|].
  apply safe_ignoring, safe_typed_AddContent. eapply good_downloaded; [..|exact Ed]; auto with utf8.
Qed.
Lemma typed_getMetadataAPI id : safe entries_ok (getMetadataAPI id containerStorage deviceStorage).
Proof.
  unfold getMetadataAPI. apply safe_bind; [auto with hub|intros body].
  pose proof (text_vod body) as Ht. destruct (json_unmarshal body) as [vod [e|]]; [apply safe_fail|].
  case_decide; [apply safe_fail|]. case_decide; [apply safe_ret|].
  apply safe_bind; [by apply typed_getMstoreFiles|intros _; apply safe_ret].
Qed.

(** The data about deleted contents comes from the index. *)
Definition info_text (i : DeletedContentsInfo) : Prop := utf8 (SesCid i) /\ utf8 (dc_CommandId i).
Lemma infos_text cmd (satmap : gmap string string) sids cids c :
  (forall id, utf8 (cmd id)) -> Forall utf8 sids ->
  info_text (default no_deleted_info (infos_of cmd satmap sids cids !! c)).
Proof.
  intros Hcmd Hs. assert (forall m : gmap string DeletedContentsInfo, map_Forall (fun _ => info_text) m ->
    forall c, info_text (default no_deleted_info (m !! c))) as Hdef.
  { intros m Hm c'. destruct (m !! c') eqn:E; [by apply (Hm c')|by split]. }
  apply Hdef. unfold infos_of. set (m0 := foldl _ ∅ cids).
  assert (map_Forall (fun _ => info_text) m0) as Hm0.
  { unfold m0. assert (forall m : gmap string DeletedContentsInfo, map_Forall (fun _ => info_text) m ->
      map_Forall (fun _ => info_text)
        (foldl (fun m id => <[id := {| SesCid := EmptyString; dc_CommandId := cmd id |}]> m) m cids)) as Hgen.
    { induction cids as [|id cids IH]; intros m Hm; [done|]. apply IH. apply map_Forall_insert_2; [split; [done|apply Hcmd]|done]. }
    apply Hgen, map_Forall_empty. }
  clearbody m0. revert m0 Hm0. induction Hs as [|id sids Hid Hs IH]; intros m0 Hm0; [done|]. simpl. apply IH.
  apply map_Forall_insert_2; [|done]. split; [done|]. by apply Hdef.
Qed.

Lemma typed_handleDeletedContents vodlist : safe entries_ok (handleDeletedContents vodlist).
Proof.
  intros w Hw. rewrite handleDeletedContents_reads by apply Hw. cbv zeta. set (kvs := filter _ _).
  assert (Forall (fun kv => sat_good kv.1 kv.2) kvs) as Hkvs.
  { apply Forall_forall. intros [k v] [_ Hin]%list_elem_of_filter. rewrite env_range_perm in Hin.
    apply elem_of_map_to_list in Hin. by apply (proj1 (proj2 Hw)). }
  set (infos := infos_of _ _ _ _).
  assert (forall c, info_text (default no_deleted_info (infos !! c))) as Hinfos.
  { intros c. apply infos_text; [intros id; apply text_info|].
    apply Forall_fmap. eapply Forall_impl; [exact Hkvs|]. by intros [] []. }
  clearbody infos kvs. revert w Hw.
  apply safe_bind; [apply safe_bind; [apply safe_DeleteSatelliteIds|intros _; apply safe_DeleteAssetMapping]|].
  intros _. apply safe_for_each. intros c ([k v] & -> & Hin)%list_elem_of_fmap.
  destruct (proj1 (Forall_forall _ _) Hkvs _ Hin) as [_ Hv]. simpl in *.
  unfold queue_deleted. intros w Hw. erewrite bind_Ret by done.
  pose proof (clock_range (w_trace w)) as Ht. assert (entries_ok (log_event EvClock w)) as Hw1 by done.
  destruct (json_marshal _) as [e|data] eqn:Ed; [done|]. revert Hw1. generalize (log_event EvClock w).
  apply (safe_ignoring entries_ok), safe_typed_AddContent.
  destruct (Hinfos v). eapply good_deleted; [..|exact Ed]; done.
Qed.

Lemma typed_pollMstore_round : safe entries_ok (pollMstore_round logger containerStorage deviceStorage).
Proof.
  unfold pollMstore_round, checkForVODViaMstore, totalAssetsCount. step_safely;
    solve [apply typed_getMetadataAPI|apply typed_handleDeletedContents].
Qed.

(** *** The other goroutines *)

Section Others.
Context (P : world -> Prop) `{!RequestInv P}.

Lemma typed_callSetkeywords serviceId keywords : preserves P (callSetkeywords logger serviceId keywords).
Proof. unfold callSetkeywords, log_filter_error. preserve. Qed.
#[local] Hint Resolve typed_callSetkeywords : hub.

Lemma typed_handleFilterUpdate payload file cfg device_cfg :
  preserves P (handleFilterUpdate logger payload file cfg device_cfg).
Proof.
  unfold handleFilterUpdate, log_filter_error. pose proof (text_filter payload) as Hcmd.
  destruct (json_unmarshal payload) as [p [e|]]; cbv zeta; [preserve|]. simpl in Hcmd.
  destruct (Filters p) as [filters|]; [|preserve]. case_decide; [preserve|].
  apply preserves_bind; [preserve|intros r]. apply preserves_bind; [preserve|intros [c reason]].
  apply (preserves_clock P). intros t Ht. apply preserves_bind; [|intros _; apply preserves_ret].
  destruct (json_marshal _) as [err|data] eqn:Ed; [apply preserves_ret|].
  apply preserves_ignoring, safe_preserves, (safe_put_request P _ data _ (AddCommandStatus_touches _ _)).
  by eapply good_report; [apply text_ini|..].
Qed.
Lemma typed_run_task t cfg device_cfg : preserves P (run_task logger t cfg device_cfg).
Proof. destruct t; [apply preserves_ret..|apply typed_handleFilterUpdate]. Qed.

Lemma typed_ReceiveCommand params cfg : preserves P (ReceiveCommand logger params cfg).
Proof. unfold ReceiveCommand. preserve. Qed.
Lemma typed_restore_filters file cfg device_cfg : preserves P (restore_filters logger file cfg device_cfg).
Proof. unfold restore_filters. preserve. Qed.
Lemma typed_queue_provisioned : utf8 (deviceId logger) ->
  preserves P (queue_provisioned (deviceId logger)).
Proof.
  intros Hd. unfold queue_provisioned. apply (preserves_clock P). intros t Ht.
  destruct (json_marshal _) as [err|data] eqn:Ed; [apply preserves_ret|].
  apply preserves_ignoring, safe_preserves, (safe_put_request P _ data _ (AddProvisionedStatus_touches _ _)).
  by eapply good_provision.
Qed.
Lemma typed_setup_keys url dir n : preserves P (setup_keys url dir n).
Proof.
  unfold setup_keys, MakeKeyManager, http_body, write_key, load_keys, AddKey, path_exists, read_file.
  preserve; apply (preserves_db_state P); by intros w.
Qed.
Lemma typed_main_setup cfg : utf8 (deviceId logger) -> preserves P (main_setup logger cfg).
Proof.
  intros Hd. unfold main_setup. pose proof typed_setup_keys. pose proof (typed_queue_provisioned Hd). preserve.
Qed.

Lemma typed_assetmap deviceId file n c :
  preserves P (HandleAssetMapRequest_round logger deviceId file n c).
Proof.
  unfold HandleAssetMapRequest_round.
  assert (preserves P (sendAssetmapInBatches logger deviceId n)) as Hs.
  { apply (preserves_db_state P). intros w. apply sendAssetmapInBatches_db. }
  preserve.
Qed.
End Others.
End Spec.
