(* ===== verification/HubThms.v ===== *)
(** The properties of the hub as a whole. *)
From S2P Require Import Prelude GoStrings GoFloat Utf8 LogData Host Storage Logger CloudData FlatIndex Index Mstore MstoreSpec MstoreThms Cloud CloudSpec CloudBatch CloudDrain CloudThms Commands CommandsThms Telemetry Sha256 Files FilesRef KeyManager Reference HubMain HubSpec.
From stdpp Require Import relations.

Section Hub.
Context `{Bolt, Disk, Env, Json ContentInfoOnDevice, Json ApiData, Json UpdateRequest,
  Json (list ContentProperties_), Json CommandStatusRequest, Json ProvisionDeviceRequest,
  Json TelemetryMessage, Json UpdateFilterPayload, Json VodList, Json VodInfo, Json (list BlobKey)}
  `{!Ini, !Files, !Jwt, !Statfs}
  `{!BoltLaws, !EnvLaws, !ApiJson, !JsonLaws ContentInfoOnDevice, !HubText}.
Variable logger : Logger.
Variable cfg : ini.
Variable initflag : bool.
Hypothesis Hid : utf8 (deviceId logger).
Implicit Types (w : world) (h : hub).

(** ** The database of a process that is down

    Its buckets may be missing: a missing bucket counts as empty. *)
Definition content w (b : string) : gmap string string := if has_bucket w b then bucket_of w b else ∅.

Definition stored_ok w : Prop :=
  index_ok (Index (content w SatelliteIdtoAssetIdMapping) (content w AssetPathMapping)) /\
  map_Forall sat_good (content w SatelliteIdtoAssetIdMapping) /\
  map_Forall asset_good (content w AssetPathMapping) /\
  map_Forall queue_good (content w PendingAPIRequestMapping).

(** A database without the buckets of the hub. *)
Definition fresh w : Prop := has_bucket w SatelliteIdtoAssetIdMapping = false /\
  has_bucket w AssetPathMapping = false /\ has_bucket w PendingAPIRequestMapping = false.
Lemma fresh_stored w : fresh w -> stored_ok w.
Proof.
  intros (Hs & Ha & Hp). unfold stored_ok, content. rewrite Hs, Ha, Hp. split_and!; try apply map_Forall_empty.
  split; simpl; [by intros ?? ?%lookup_empty_Some|by intros ??? ?%lookup_empty_Some].
Qed.

Lemma content_ready w : ready w -> content w SatelliteIdtoAssetIdMapping = sat w /\
  content w AssetPathMapping = assets w /\ content w PendingAPIRequestMapping = pending w.
Proof. intros (Hs & Ha & Hp). unfold content. by rewrite Hs, Ha, Hp. Qed.

Definition running_ok w : Prop := entries_ok w /\ index_ok (abs w).
Lemma running_stored w : running_ok w <-> ready w /\ stored_ok w.
Proof.
  unfold running_ok, entries_ok, stored_ok. split.
  - intros ((Hr & ? & ? & ?) & ?). destruct (content_ready w Hr) as (-> & -> & ->). by split_and!.
  - intros (Hr & Hs). destruct (content_ready w Hr) as (E1 & E2 & E3). rewrite E1, E2, E3 in Hs.
    destruct Hs as (? & ? & ? & ?). by split_and!.
Qed.

(** Creating the missing buckets changes no content. *)
Lemma CreateBucket_content b w b' : content (CreateBucket b w).2 b' = content w b'.
Proof.
  destruct (CreateBucket b w) as [o w'] eqn:E. simpl.
  destruct (CreateBucket_cases _ _ _ _ E) as (_ & Hkeep & Hnew & Hother). unfold content.
  destruct (has_bucket w b') eqn:Hb'.
  { by destruct (Hkeep b' Hb') as [-> ->]. }
  destruct (decide (b' = b)) as [->|Hne]; [|by rewrite (Hother b' Hne), Hb'].
  destruct (db_update_atomic _ _ _ _ E) as (_ & _ & [([] & tx & _ & -> & _)|[_ Hs]]).
  - destruct (Hnew eq_refl) as [-> Hempty]. by apply Hempty.
  - assert (same_db w' w) as Hs' by done. by rewrite Hs', Hb'.
Qed.
Lemma InitFileSystem_content w b : content (InitFileSystem w).2 b = content w b.
Proof.
  assert (preserves (fun w' => content w' b = content w b) InitFileSystem) as Hp; [|by apply Hp].
  assert (forall b0, preserves (fun w' => content w' b = content w b) (CreateBucket b0)) as Hc.
  { intros b0 w' Hw'. by rewrite CreateBucket_content. }
  unfold InitFileSystem. apply preserves_bind; [apply Hc|intros _]. apply preserves_bind; [apply Hc|intros _; apply Hc].
Qed.

(** Without [INIT_FILE_SYSTEM] the hub does not start on a database that has no index:
    printing the buckets panics. *)
Lemma start_needs_the_buckets device_cfg w c : has_bucket w AssetPathMapping = false ->
  (main_open logger cfg false device_cfg w).1 <> Ret c.
Proof.
  intros Hw. unfold main_open. erewrite bind_Ret by done. cbn beta iota.
  set (P := fun w' => has_bucket w' AssetPathMapping = false).
  assert (DbInv P) as HP by (intros w1 w2 E; unfold P; by rewrite E).
  assert (preserves P (restore_filters logger (device_ini cfg) cfg device_cfg)) as Hp.
  { unfold restore_filters, callSetkeywords, log_filter_error. preserve. }
  specialize (Hp w Hw). destruct (restore_filters _ _ _ _ w) as [[c'|e|s|] w1] eqn:E.
  - erewrite bind_Ret by exact E. assert (PrintBuckets w1 = (Panic "nil bucket", w1)) as Ep.
    { unfold PrintBuckets, db_view. erewrite bind_Panic; [done|]. unfold tx_list. unfold P, has_bucket in Hp. simpl in Hp. by rewrite Hp. }
    by erewrite bind_Panic by exact Ep.
  - by erewrite bind_Fail by exact E.
  - by erewrite bind_Panic by exact E.
  - unfold mbind at 1, M_bind. by rewrite E.
Qed.

(** ** The invariant *)

Definition hub_ok h : Prop :=
  match h with
  | Down w => stored_ok w /\ (initflag = false -> ready w)
  | Up w _ _ reading => running_ok w /\
      forall l, reading = Some l -> Forall (fun s => json_wf (json_unmarshal (A := ApiData) s).1) l
  end.

Lemma down_ok w : running_ok w -> hub_ok (Down w).
Proof. intros [Hr Hs]%running_stored. by split. Qed.

(** A round that keeps the entries and the index. *)
Lemma after_ok {A} (m : Hub A) (f : A -> world -> hub) w :
  running_ok w -> (forall i, preserves (typed_at i) m) ->
  (forall a w', running_ok w' -> hub_ok (f a w')) -> hub_ok (after_run (m w) f).
Proof.
  intros [He Hi] Hm Hf. pose proof (Hm (abs w) w (conj He eq_refl)) as [He' Ei].
  assert (running_ok (m w).2) as Hw' by (split; [done|by rewrite Ei]).
  unfold after_run. destruct (m w) as [[a|e|s|] w']; simpl in *; [by apply Hf|by apply down_ok..].
Qed.

Lemma poll_ok w : running_ok w -> exists w',
  pollMstore_round logger (containerStorage cfg) (deviceStorage cfg) w = (Ret tt, w') /\ running_ok w'.
Proof.
  intros [He Hi]. destruct (pollMstore_round logger _ _ w) as [o w'] eqn:E.
  assert (pollMstore logger 1 (containerStorage cfg) (deviceStorage cfg) w = (o, w')) as E1.
  { simpl. destruct o as [[]| | |]; [by erewrite bind_Ret by exact E|..].
    - by erewrite bind_Fail by exact E.
    - by erewrite bind_Panic by exact E.
    - unfold mbind, M_bind. by rewrite E. }
  destruct (pollMstore_reaches logger _ _ _ _ _ _ (proj1 He) E1) as [-> [_ Hs]].
  exists w'. split; [done|]. split; [|by eapply index_steps_ok].
  pose proof (typed_pollMstore_round logger (containerStorage cfg) (deviceStorage cfg)
    (text_ini _ _ _) (text_ini _ _ _) w He) as [He' _]. by rewrite E in He'.
Qed.

Lemma send_ok l n1 n2 w : (1 <= n1)%Z -> (1 <= n2)%Z -> Forall json_wf l -> running_ok w -> exists w',
  ProcessRequests logger (deviceId logger) (GetSegregatedItems l) n1 n2 w = (Ret tt, w') /\ running_ok w'.
Proof.
  intros Hn1 Hn2 Hl [(Hr & Hs & Ha & Hp) Hi].
  destruct (ProcessRequests_returns logger (deviceId logger) l n1 n2 w Hn1 Hn2 Hl w) as ([] & w' & E & Hr' & Es & Ea & Hq).
  { by split_and!. }
  exists w'. split; [done|]. unfold running_ok, entries_ok, abs. rewrite Es, Ea. by split_and!.
Qed.

Lemma open_ok device_cfg w : hub_ok (Down w) ->
  hub_ok (after_run (main_open logger cfg initflag device_cfg w)
    (fun c w' => match c with Some c => Up w' c None None | None => Down w' end)).
Proof.
  intros [Hs Hready]. unfold main_open.
  assert (exists r w1, (if initflag then attempt InitFileSystem else mret (inr tt)) w = (Ret r, w1) /\
    stored_ok w1 /\ (initflag = false -> ready w1) /\ (forall u, r = inr u -> ready w1)) as (r & w1 & E & Hs1 & Hd & Hr).
  { destruct initflag; [|exists (inr tt), w; auto].
    destruct (InitFileSystem w) as [o w1] eqn:E. destruct (InitFileSystem_cases _ _ _ E) as (Ho & _ & Hr).
    assert (stored_ok w1) as Hs1.
    { pose proof (InitFileSystem_content w) as Hc. rewrite E in Hc. simpl in Hc. unfold stored_ok. by rewrite !Hc. }
    destruct o as [[]|e| |]; try done.
    - exists (inr tt), w1. rewrite (attempt_Ret _ _ _ _ E). auto.
    - exists (inl e), w1. rewrite (attempt_Fail _ _ _ _ E). by split_and!. }
  unfold after_run at 1. erewrite bind_Ret by exact E. destruct r as [e|u]; [by split|].
  match goal with |- hub_ok (match ?m w1 with _ => _ end) => change (hub_ok (after_run (m w1)
    (fun c w' => match c with Some c => Up w' c None None | None => Down w' end))) end.
  apply after_ok.
  - apply running_stored. split; [by eapply Hr|done].
  - intros i. pose proof (typed_restore_filters logger (typed_at i)). preserve.
  - intros [c|] w' Hw'; [by split|by apply down_ok].
Qed.

(** Every step keeps the invariant. *)
Lemma step_ok h h' : (1 <= downloadBatchMessageSize cfg)%Z -> (1 <= deleteBatchMessageSize cfg)%Z ->
  hub_step logger cfg initflag h h' -> hub_ok h -> hub_ok h'.
Proof.
  intros Hn1 Hn2 [w c|w c|w c km r|w c km r|params w c km r|t w c km r|w c km|w c km l|w c km r|w c km r|w w' c km r E] Hh.
  - by apply open_ok.
  - apply after_ok; [apply Hh|intros i; by apply (typed_main_setup logger (typed_at i))|by split].
  - destruct (poll_ok w) as (w' & E & Hw'); [apply Hh|]. rewrite E. by split; [|apply Hh].
  - apply after_ok; [apply Hh| |by split; [|apply Hh]].
    intros i. apply safe_preserves, returns_safe, (telemetryScheduler_returns logger (typed_at i)).
  - apply after_ok; [apply Hh|intros i; apply (typed_ReceiveCommand logger (typed_at i))|by split; [|apply Hh]].
  - apply after_ok; [apply Hh|intros i; apply (typed_run_task logger (typed_at i))|by split; [|apply Hh]].
  - destruct Hh as [Hw _]. pose proof Hw as [(Hr & _ & _ & Hq) _].
    rewrite GetPendingApiRequests_run by done. split; [done|]. intros l [= <-].
    apply Forall_fmap, Forall_forall. intros [k s] Hin%elem_of_sorted_items. by destruct (Hq k s Hin).
  - destruct Hh as [Hw Hl]. destruct (send_ok ((fun data => (json_unmarshal data).1) <$> l)
      (downloadBatchMessageSize cfg) (deleteBatchMessageSize cfg) w) as (w' & E & Hw'); [done|done| |done|].
    + apply Forall_fmap. by apply Hl.
    + rewrite E. by split.
  - apply after_ok; [apply Hh|intros i; apply (typed_assetmap logger (typed_at i))|by split; [|apply Hh]].
  - by apply down_ok, Hh.
  - destruct Hh as [Hw Hl]. split; [|done]. assert (same_db w w') as Es by (unfold same_db; by rewrite E).
    destruct Hw as [He Hi]. split; [by rewrite <-(entries_ok_proper w w' Es)|].
    unfold abs. by rewrite <-(sat_proper w w' Es), <-(assets_proper w w' Es).
Qed.

Lemma steps_ok h h' : (1 <= downloadBatchMessageSize cfg)%Z -> (1 <= deleteBatchMessageSize cfg)%Z ->
  rtc (hub_step logger cfg initflag) h h' -> hub_ok h -> hub_ok h'.
Proof. intros Hn1 Hn2. induction 1 as [|h1 h2 h3 Hs _ IH]; [done|]. intros Hh. by apply IH, (step_ok h1). Qed.

(** A state the hub reaches from a fresh database. *)
Definition reachable h : Prop := exists w, fresh w /\ rtc (hub_step logger cfg initflag) (Down w) h.
Definition configured : Prop :=
  initflag = true /\ (1 <= downloadBatchMessageSize cfg)%Z /\ (1 <= deleteBatchMessageSize cfg)%Z.

Lemma reachable_ok h : configured -> reachable h -> hub_ok h.
Proof.
  intros (Hi & Hn1 & Hn2) (w & Hw & Hs). eapply steps_ok; [done..|exact Hs|].
  split; [by apply fresh_stored|by rewrite Hi].
Qed.

(** C1: whatever the network, the receiver, the disk, the commits and the commands
    do, and however often the process dies and starts again, what the hub stores is
    well typed: satellite ids are texts and point to contents that have an entry, no
    two to the same content; the entries of the contents decode; every queued
    request decodes to one that is stored under its own key, that JSON can hold
    again, and that some handler takes.  While the hub runs its three buckets exist. *)
Theorem hub_stays_well_typed h : configured -> reachable h ->
  stored_ok (world_of h) /\ forall w c km reading, h = Up w c km reading -> ready w.
Proof.
  intros Hc Hh. pose proof (reachable_ok h Hc Hh) as Hok. destruct h as [w|w c km reading].
  - by split; [apply Hok|].
  - destruct Hok as [Hw _]. apply running_stored in Hw as [Hr Hs]. split; [done|]. by intros ???? [= <- <- <- <-].
Qed.

#[local] Instance ready_db : DbInv ready := ready_proper.
Lemma safe_sendAssetmap n : (0 <= n)%Z -> safe ready (sendAssetmapInBatches logger (deviceId logger) n).
Proof.
  intros Hn w Hr. unfold sendAssetmapInBatches. erewrite bind_Ret by (by apply GetAssetInfoMapItems_run).
  rewrite decide_False by lia. revert w Hr. intros w0 Hr. generalize (assets w0). intros m. revert w0 Hr.
  assert (forall r b, safe ready (sendDownloadedTelemetryData logger r b)) as Hsend.
  { intros r b. unfold sendDownloadedTelemetryData, send_command. step_safely. }
  apply (safe_bind ready (range_map m)); [apply safe_range_map|intros kvs].
  unfold assetmap_step. step_safely; apply Hsend.
Qed.
Lemma assetmap_returns n c w : (0 <= n)%Z -> ready w ->
  exists c' w', HandleAssetMapRequest_round logger (deviceId logger) (device_ini cfg) n c w = (Ret c', w').
Proof.
  intros Hn Hr. pose proof (safe_sendAssetmap n Hn).
  assert (returns ready (HandleAssetMapRequest_round logger (deviceId logger) (device_ini cfg) n c)) as Hret.
  { unfold HandleAssetMapRequest_round. apply returns_bind; [|intros now].
    - intros w1 Hw1. by exists (env_now (w_trace w1)), (log_event EvClock w1).
    - surely_returns. }
  destruct (Hret w Hr) as (c' & w' & E & _). by exists c', w'.
Qed.

(** C2: the loops of the hub never end: in every state the hub reaches a round of
    [pollMstore], of the telemetry, of [HandleApiRequests] (with the requests it has
    read earlier, whatever happened to the queue since) and of
    [HandleAssetMapRequest] returns without an error or a panic. *)
Theorem hub_loops_never_end w c km reading : configured -> (0 <= assetmapMessageSize cfg)%Z ->
  reachable (Up w c km reading) ->
  (exists w', pollMstore_round logger (containerStorage cfg) (deviceStorage cfg) w = (Ret tt, w')) /\
  (exists w', telemetryScheduler logger 1 (containerStorage cfg) w = (Ret tt, w')) /\
  (forall l, reading = Some l -> exists w', ProcessRequests logger (deviceId logger)
     (GetSegregatedItems ((fun data => (json_unmarshal data).1) <$> l))
     (downloadBatchMessageSize cfg) (deleteBatchMessageSize cfg) w = (Ret tt, w')) /\
  (exists c' w', HandleAssetMapRequest_round logger (deviceId logger) (device_ini cfg) (assetmapMessageSize cfg) c w
     = (Ret c', w')).
Proof.
  intros Hc Hn Hh. destruct (reachable_ok _ Hc Hh) as [Hw Hl]. split_and!.
  - destruct (poll_ok w Hw) as (w' & ? & _). by exists w'.
  - destruct (telemetryScheduler_returns logger (typed_at (abs w)) 1 (containerStorage cfg) w
      (conj (proj1 Hw) eq_refl)) as ([] & w' & ? & _).
    by exists w'.
  - intros l Hr. destruct Hc as (_ & Hn1 & Hn2).
    destruct (send_ok ((fun data => (json_unmarshal data).1) <$> l) _ _ w Hn1 Hn2) as (w' & ? & _); [|done|by exists w'].
    apply Forall_fmap. by apply Hl.
  - apply assetmap_returns; [done|]. apply Hw.
Qed.

(** The times in a well-formed queue. *)
Lemma queue_times w : map_Forall queue_good (pending w) -> times_ok (queue_items w).
Proof.
  intros Hq. apply Forall_forall. intros d (key & s & Hks & ->)%elem_of_queue_items _. by apply wf_time, (Hq key s).
Qed.

(** C3: no request is stuck: from every state the hub reaches, when the proxy
    acknowledges from now on and commits succeed, reading the queue and sending it
    empties the queue; every request in it was acknowledged and the index is as it
    was.  The sizes of the downloaded contents in the queue have to be numbers JSON
    can hold (not an infinity); that their times are ones JSON can hold follows from
    the invariant. *)
Theorem reachable_queue_is_delivered `{!JsonMessages logger} w c km :
  configured -> reachable (Up w c (Some km) None) -> reliable -> connected logger w -> sizes_ok (queue_items w) ->
  exists l w', hub_step logger cfg initflag (Up w c (Some km) None) (Up w c (Some km) (Some l)) /\
    hub_step logger cfg initflag (Up w c (Some km) (Some l)) (Up w' c (Some km) None) /\
    pending w' = ∅ /\ sat w' = sat w /\ assets w' = assets w /\
    forall key s, pending w !! key = Some s -> acknowledged logger (deviceId logger) (json_unmarshal s).1 w'.
Proof.
  intros Hcf Hh Hrel Hc Hs. destruct (reachable_ok _ Hcf Hh) as [[(Hr & _ & _ & Hq) _] _].
  destruct Hcf as (_ & Hn1 & Hn2).
  assert (keys_match w) as Hk by (intros key s Hks; apply (Hq key s Hks)).
  assert (times_ok (queue_items w)) as Htm by by apply queue_times.
  destruct (connected_sends logger (deviceId logger) _ _ w Hrel Hc Hn1 Hn2 Hr Hk Hs Htm) as (w' & E & Hsat & Ha & Hp & Hack).
  exists (sorted_items (pending w)).*2, w'. split_and!; [| | |done..|].
  - pose proof (step_read logger cfg initflag w c km) as Hstep.
    by rewrite GetPendingApiRequests_run in Hstep by done.
  - pose proof (step_send logger cfg initflag w c km (sorted_items (pending w)).*2) as Hstep.
    change (fmap _ (sorted_items (pending w)).*2) with (queue_items w) in Hstep. by rewrite E in Hstep.
  - rewrite Hp. apply map_empty. intros key. apply map_lookup_filter_None_2. right. intros s Hs0.
    by destruct (Hq key s Hs0) as (_ & _ & ?).
  - intros key s Hs0. destruct (Hack key s Hs0) as [Hi|?]; [|done]. by destruct (Hq key s Hs0) as (_ & _ & ?).
Qed.

(** C4: a request that is queued again under the same key while [HandleApiRequests]
    sends what it read earlier is lost: the round removes it by its key, although
    the messages it sends are those of what it read: they are the same whatever the
    queue holds by then.  As in C13 the sizes and times in what it read are ones JSON
    can hold. *)
Theorem requeued_request_is_lost `{!JsonMessages logger} w c km l key s d :
  configured -> ready w -> reliable -> connected logger w ->
  let items := (fun data => (json_unmarshal (A := ApiData) data).1) <$> l in
  sizes_ok items -> times_ok items -> d ∈ items -> ~ idle d -> queue_key d = key -> pending w !! key = Some s ->
  exists w', hub_step logger cfg initflag (Up w c (Some km) (Some l)) (Up w' c (Some km) None) /\
    pending w' !! key = None /\
    forall w2, ready w2 -> w_trace w2 = w_trace w ->
      w_trace (ProcessRequests logger (deviceId logger) (GetSegregatedItems items)
        (downloadBatchMessageSize cfg) (deleteBatchMessageSize cfg) w2).2 = w_trace w'.
Proof.
  intros (_ & Hn1 & Hn2) Hr Hrel Hc items Hs Htm Hd Hi Hk _.
  destruct (drains_process logger (deviceId logger) Hrel items _ _ w Hn1 Hn2 Hs Htm Hr Hc) as (w' & E & _ & _ & Hp & Ht).
  exists w'. split_and!; [| |exact Ht].
  - pose proof (step_send logger cfg initflag w c km l) as Hstep. fold items in Hstep. by rewrite E in Hstep.
  - rewrite Hp, lookup_remove_keys, decide_True; [done|]. apply elem_of_busy_keys. eauto.
Qed.
End Hub.

(** ** Witnesses: a hub that starts and finds one content *)

(** Texts that are not UTF-8 do not come out of a decoder. *)
Definition checked_codec {A} (ok : A -> Prop) `{forall a, Decision (ok a)} (zero : A) `{Json A} : Json A := {|
  json_marshal := json_marshal;
  json_unmarshal s := let r := json_unmarshal s in if decide (ok r.1) then r else (zero, Some "invalid UTF-8");
  json_wf a := json_wf a /\ ok a;
|}.
Lemma checked_ok {A} (ok : A -> Prop) `{forall a, Decision (ok a)} (zero : A) `{Json A} s : ok zero ->
  ok (json_unmarshal (Json := checked_codec ok zero) s).1.
Proof. intros Hz. simpl. by case_decide. Qed.

Module Whole.
#[local] Hint Extern 0 Bolt => exact (mem_bolt false) : typeclass_instances.
#[local] Instance ex_env : Env := scripted (Script
  [(listcontents_url, bits_of (encode {| vl_Status := "OK"; ListContents := [ {| lc_ContentID := "7" |} ] |}));
   (getmetadata_url "7", "OK|c1|cmd1|7|v.mpd")] []).
#[local] Instance ex_env_laws : EnvLaws := scripted_laws _.

Definition info_ok (c : ContentInfoOnDevice) : Prop := utf8 (CommandId c).
#[local] Instance info_text_codec : Json ContentInfoOnDevice := checked_codec info_ok zero_info.
#[local] Instance info_text_laws : JsonLaws ContentInfoOnDevice.
Proof.
  split; simpl; [by eauto|]. intros a s [_ Ha] [= <-]. rewrite of_bits_of. simpl. rewrite decode_encode. simpl.
  by rewrite decide_True.
Qed.
Definition api_ok (d : ApiData) : Prop := json_time (OperationTime d).
#[local] Instance api_time_codec : Json ApiData := checked_codec api_ok zero_api.
#[local] Instance api_time_laws : ApiJson.
Proof.
  split; [|by intros d [? ?]..]. split; simpl; [by eauto|]. intros a s [_ Ha] [= <-].
  rewrite of_bits_of. simpl. rewrite decode_encode. simpl. by rewrite decide_True.
Qed.
Definition vod_ok (v : VodInfo) : Prop := vod_text v.
#[local] Instance vod_ok_dec v : Decision (vod_ok v).
Proof. unfold vod_ok, vod_text. apply _. Defined.
#[local] Instance vod_text_codec : Json VodInfo :=
  checked_codec vod_ok (make_vod EmptyString EmptyString EmptyString EmptyString EmptyString).
#[local] Instance filter_text_codec : Json UpdateFilterPayload := {|
  json_marshal p := inl "not used";
  json_unmarshal s := ({| DeviceID := "hub-1"; CommandID := if decide (utf8 s) then s else EmptyString;
    Filters := Some ["news"] |}, None);
  json_wf _ := False;
|}.
#[local] Instance keys_codec : Json (list BlobKey) := {|
  json_marshal p := inl "not used";
  json_unmarshal s := ([], Some "invalid character");
  json_wf _ := False;
|}.
#[local] Instance ex_ini : Ini := {|
  ini := list (string * string);
  ini_string section k c :=
    let s := default EmptyString (snd <$> (list_find (fun p => p.1 = section +:+ "." +:+ k) c ≫= fun r => Some r.2)) in
    if decide (utf8 s) then s else EmptyString;
  ini_int64 section k c := inl "not an integer";
  ini_set section k v c := (section +:+ "." +:+ k, v) :: c;
  ini_save file c d := os_mkdir_all file d;
|}.
#[local] Instance ex_jwt : Jwt := {|
  PublicKey := string;
  ParseRSAPublicKeyFromPEM s := inr s;
  StandardClaims := unit;
  ParseWithClaims now token k := inl "signature is invalid";
|}.
#[local] Instance ex_statfs : Statfs := {| statfs p d := inl "no such file" |}.
#[local] Instance ex_text : HubText.
Proof.
  split.
  - intros d _ _ Ht. by split.
  - intros d [_ Ht]. exact Ht.
  - intros c _ Hc _. by split.
  - intros s. apply (checked_ok vod_ok). by split_and!.
  - intros s. by apply (checked_ok info_ok).
  - intros s. simpl. by case_decide.
  - intros section k c. simpl. by case_decide.
  - intros tr. unfold json_time. simpl. lia.
Qed.

Lemma ex_id : utf8 (deviceId ref_logger).
Proof. by vm_compute. Qed.

Lemma after_runs {A} (m : Hub A) w (f : A -> world -> hub) a : (m w).1 = Ret a -> after_run (m w) f = f a (m w).2.
Proof. intros E. rewrite (run_pair m w (Ret a)) by exact E. done. Qed.

#[local] Hint Extern 0 Files => exact mem_writable : typeclass_instances.
Definition ex_cfg : ini := [].
Definition w0 : world := World (MemDB ∅ []) (MemDisk [] [] []) [].
Definition w1 : world := (main_open ref_logger ex_cfg true [] w0).2.
Definition c1 : ini := [("DEVICE_DETAIL.FILTERS", "Invalid")].
Definition w2 : world := (main_setup ref_logger ex_cfg w1).2.
Definition km2 : KeyManager.KeyManager := {| keys := []; maxLength := 0; currentLength := 0; PubkeysDir := EmptyString |}.
Definition w3 : world := (pollMstore_round ref_logger (containerStorage ex_cfg) (deviceStorage ex_cfg) w2).2.

Lemma ex_configured : configured ex_cfg true.
Proof. split_and!; [done|by vm_compute..]. Qed.
Lemma w0_fresh : fresh w0.
Proof. by vm_compute. Qed.

Lemma ex_started : rtc (hub_step ref_logger ex_cfg true) (Down w0) (Up w3 c1 (Some km2) None).
Proof.
  eapply rtc_l.
  { pose proof (step_open ref_logger ex_cfg true w0 []) as Hs.
    rewrite (after_runs _ _ _ (Some c1)) in Hs by evaluate. exact Hs. }
  eapply rtc_l.
  { pose proof (step_setup ref_logger ex_cfg true w1 c1) as Hs. rewrite (after_runs _ _ _ km2) in Hs by evaluate. exact Hs. }
  eapply rtc_l; [|apply rtc_refl].
  pose proof (step_poll ref_logger ex_cfg true w2 c1 (Some km2) None) as Hs.
  rewrite (after_runs _ _ _ tt) in Hs by evaluate. exact Hs.
Qed.
Lemma ex_reachable : reachable ref_logger ex_cfg true (Up w3 c1 (Some km2) None).
Proof. exists w0. split; [apply w0_fresh|apply ex_started]. Qed.

Definition read3 : list string := (sorted_items (pending w3)).*2.
Lemma ex_read : rtc (hub_step ref_logger ex_cfg true) (Up w3 c1 (Some km2) None) (Up w3 c1 (Some km2) (Some read3)).
Proof.
  apply rtc_once. pose proof (step_read ref_logger ex_cfg true w3 c1 km2) as Hs.
  rewrite GetPendingApiRequests_run in Hs by (by vm_compute). exact Hs.
Qed.

Lemma world_of_up w c km reading : world_of (Up w c km reading) = w.
Proof. done. Qed.
Lemma hub_stays_well_typed_witness : ready w3 /\ sat w3 !! "7" = Some "c1" /\
  map_Forall queue_good (content w3 PendingAPIRequestMapping) /\ is_Some (pending w3 !! "c1").
Proof.
  destruct (hub_stays_well_typed ref_logger ex_cfg true ex_id _ ex_configured ex_reachable) as [(_ & _ & _ & Hp) Hr].
  rewrite world_of_up in Hp. split_and!; [by apply (Hr w3 c1 (Some km2) None)|evaluate|exact Hp|eexists; evaluate].
Defined.

Lemma hub_loops_never_end_witness :
  exists w, ProcessRequests ref_logger "hub-1" (GetSegregatedItems ((fun data => (json_unmarshal data).1) <$> read3))
    10 10 w3 = (Ret tt, w).
Proof.
  destruct (hub_loops_never_end ref_logger ex_cfg true ex_id w3 c1 (Some km2) (Some read3) ex_configured
    ltac:(by vm_compute)) as (_ & _ & Hsend & _).
  - destruct ex_reachable as (w & Hw & Hs). exists w. split; [exact Hw|]. etrans; [exact Hs|apply ex_read].
  - apply Hsend. reflexivity.
Defined.

#[local] Instance ex_messages : JsonMessages ref_logger.
Proof. split; eauto. Qed.
Lemma ex_connected w : connected ref_logger w.
Proof.
  intros tr _. split; [done|]. intros name message. unfold env_send, ex_env, scripted.
  rewrite decide_False; [done|]. apply not_elem_of_nil.
Qed.

Lemma reachable_queue_is_delivered_witness : size (pending w3) = 2 /\
  exists w', rtc (hub_step ref_logger ex_cfg true) (Down w0) (Up w' c1 (Some km2) None) /\ pending w' = ∅.
Proof.
  split; [evaluate|].
  destruct (reachable_queue_is_delivered ref_logger ex_cfg true ex_id w3 c1 km2 ex_configured ex_reachable
    sure_reliable (ex_connected w3)) as (l & w' & H1 & H2 & Hp & _).
  - apply (bool_decide_eq_true_1 _). evaluate.
  - exists w'. split; [|exact Hp]. etrans; [apply ex_started|]. eapply rtc_l; [exact H1|]. by apply rtc_once.
Defined.

(** The request of [c1] that was read says that the cloud graph has been told; the
    newer one in the queue asks for both graphs. *)
Definition ex_older : ApiData :=
  {| Id := "c1"; ApiType := Downloaded; RetryCount := 1; OperationTime := 7;
     SendCloudTelemetry := false; SendIOTCentralTelemetry := true; Properties := [ {| Key := "size"; Value := "12.5" |} ] |}.
Definition ex_newer : world := ref_world false [] [] [] [("c1", ex_stored)].
Lemma ex_older_read : json_unmarshal (bits_of (encode ex_older)) = (ex_older, None).
Proof. evaluate. Qed.
Lemma ex_stored_asks : SendCloudTelemetry (json_unmarshal ex_stored).1 = true.
Proof. evaluate. Qed.
Lemma requeued_request_is_lost_witness :
  SendCloudTelemetry (json_unmarshal ex_stored).1 = true /\ pending ex_newer !! "c1" = Some ex_stored /\
  exists w', hub_step ref_logger ex_cfg true (Up ex_newer c1 (Some km2) (Some [bits_of (encode ex_older)]))
    (Up w' c1 (Some km2) None) /\ pending w' !! "c1" = None.
Proof.
  split; [apply ex_stored_asks|]. split; [evaluate|].
  destruct (requeued_request_is_lost ref_logger ex_cfg true ex_newer c1 km2 [bits_of (encode ex_older)] "c1" ex_stored
    ex_older ex_configured) as (w' & Hs & Hp & _).
  - apply ref_world_ready.
  - apply sure_reliable.
  - apply ex_connected.
  - apply (bool_decide_eq_true_1 _). evaluate.
  - apply (bool_decide_eq_true_1 _). evaluate.
  - rewrite list_fmap_singleton, ex_older_read. apply list_elem_of_singleton. reflexivity.
  - apply not_idle_flag; [by left|by right].
  - evaluate.
  - evaluate.
  - exists w'. split; [exact Hs|exact Hp].
Defined.
End Whole.
